(* ===== verification/_CoqProject ===== *)
-Q . S2P
Prelude.v
CpuG.v
MemG.v
Float64.v
FloatError.v
Window.v
LocalStats.v
OmNet.v
OmPacket.v
OmText.v
OmTime.v
OmConcurrency.v
OmIo.v
ProtoBuf.v
Types.v
SubContainer.v
Json.v
Agents.v
AgentAsync.v
JSONFacade.v
CAdvisor.v
LegacyDeploy.v
ElasticContainer.v
World.v
ECAPI.v
Demo.v
ManagerCpu.v
CpuPolicy.v
CpuTheorems.v
CpuProgress.v
ManagerMem.v
MemTheorems.v
Manager.v
Server.v
Deploy.v
Gcm.v
Teardown.v
Drivers.v
System.v
Conc.v
ConcApi.v
ConcCpu.v
ConcMem.v
ConcManager.v
ConcLedger.v
ConcLocks.v
ConcWaits.v
ConcAlone.v
ConcRaces.v
