(* ===== verification/Prelude.v ===== *)
(** * Verification of the ec_gcm controller

    [ec_gcm] is the global controller of an elastic container: an application
    that runs as containers on several nodes and shares one budget of CPU
    runtime and memory pages. The kernels of the nodes report CPU usage and ask
    for memory over sockets; the controller moves runtime and pages between the
    containers and its pools and tells an agent on each node to apply the new
    limits. This library models the controller as executable functions and
    proves what keeps its books right.

    ** The program and its model

    - [src/om.h], a bundled library: [OmNet] (integers in buffers, byte order,
      [ip4_addr]; this is what the controller uses), [OmPacket] (link-layer
      addresses, packet headers, flow keys), [OmText] (host and port, addresses
      and bytes as text, tokens), [OmTime] (timestamps as text), [OmConcurrency]
      (queue and thread pool, as a transition system), [OmIo] (sockets, polling, record files).
    - [src/types/] (the message struct and its memory image, ports): [Types].
    - [src/stats/global/] (the pools of runtime and pages): [CpuG], [MemG].
    - [src/stats/window/], [src/stats/local/] (the sliding window, the statistics
      of a container): [Window], [LocalStats]. The window is generic in its
      element type, like the template; it is instantiated at [double] and at the
      rationals.
    - [src/SubContainer.{h,cpp}]: [SubContainer].
    - [src/Agents/]: [Agents] (agents, their clients and the table of them, the
      calls against gRPC's answers) and [AgentAsync] (the asynchronous calls and
      their completion threads, as a transition system).
    - [src/jsonSDK/]: [JSONFacade], against the interface [WebJson] of the JSON
      library in [Json]; its laws [WebJsonLaws] are proved there for a JSON tree
      with a printer and a parser. [src/cAdvisorSDK/]: [CAdvisor].
      [src/legacy/deploySDK/]: [LegacyDeploy]. [src/protoBufSDK/]: [ProtoBuf].
    - [src/ElasticContainer.{h,cpp}]: [ElasticContainer], with the abstract table
      of FIFO queues it implements ([Table], its class [Table.Spec] and the
      instance [EcTable]).
    - The state all handlers share, and the invariant of the books: [World].
    - [src/ECAPI.{h,cpp}]: [ECAPI].
    - [src/Manager.cpp]: [ManagerCpu] (usage reports, idle containers),
      [ManagerMem] (memory requests, reclaiming, the limit of a new pod, the
      periodic reclaim), [Manager] (registration, dispatch). The theorems about
      the two large files are in [CpuTheorems], [CpuProgress] (convergence over
      runs of reports) and [MemTheorems]; [CpuPolicy] states what a usage report is
      to decide, in exact arithmetic and without the definitions of [ManagerCpu].
    - [src/Server.{h,cpp}]: [Server], with the accept loop as a step relation in
      its module [Accept].
    - [src/DeployServerGRPC/]: [Deploy].
    - [src/GlobalControlManager.{h,cpp}], [src/main.cpp]: [Gcm]; the destructors and
      the end of [main]: [Teardown].
    - [src/tests/], manual drivers: [Drivers], each composed with the side of the
      controller it talks to.
    - Runs of requests over all of these: [System].
    - The same handlers access by access, for threads that interleave: [Conc]
      (programs of atomic accesses, the mutexes, the condition variable, the
      machine that runs a schedule), [ConcApi] ([ECAPI], with its one-line
      forwarders), [ConcCpu], [ConcMem], [ConcManager] (connections, RPCs,
      [Manager::start]). [ConcLedger], [ConcLocks], [ConcWaits], [ConcAlone]
      and [ConcRaces] hold what is proved of them.
    - [Float64] is IEEE double arithmetic (the Standard Library's [SpecFloat])
      with the exactness and rounding lemmas the handlers need, [FloatError] bounds
      the relative error of its operations over the rationals; [Demo] is a
      small concrete world at which theorems are instantiated. This file holds
      machine integers, the state-and-failure monad [M], its weakest
      precondition [wp], and sums.

    ** How the code is represented

    A method of a class is a function on a record; a handler is a computation
    in [M World], which either returns or stops with a [failure]: [Exit] for
    [exit], [Blocked] for a thread that waits for another one (or for ever),
    [Throw] for an exception, [Undef] for undefined behaviour (a dangling or
    null pointer, an index outside a vector, a [double] that does not fit the
    integer it is converted to). Containers are shared by address: [World] maps
    addresses to the live [SubContainer] objects, the tables hold addresses.
    Integers keep their width ([u32], [u64], [i64], ... wrap around). A hash
    table is a [gmap] on what [operator==] compares; loops over one use the
    class [HashOrder], so the theorems hold for every order. What gRPC and the
    HTTP servers answer, and the JSON library, are the class [Env], whose answers
    may depend on everything sent before; [inet_addr], clocks, system calls and
    the text of the definition file are parameters.

    A quota call is asynchronous, and the code reads its status right after having
    started it, before the agent can have answered. [Env.quota_read] is what that
    read finds: a status (0 as long as the call is not completed), or nothing when
    the completion thread has already deleted the call, and then the behaviour is
    undefined; [AgentAsync.quota_call_reads] derives this from the transition
    system of calls and completions. [timely] says that a client's calls are read
    before they are deleted; the theorems about quotas assume it of the clients
    they involve, and "status 0" is not taken to mean that the agent has agreed.

    The handlers exist twice. In [ManagerCpu], [ManagerMem], [Manager], [Deploy]
    and [System] a handler is one step, with every value read once, and handlers
    run one after the other; the tasks of [handle_reclaim_memory] run in an
    arbitrary sequential order, and the thread a registration starts for the
    memory limit is a computation of its own, which [System] runs at any later
    time. In the files [Conc...] a handler is a program of accesses in the order
    of the source, every read its own access, and the threads of the process
    interleave between any two accesses; [ConcAlone] proves that the second
    description, left alone, does what the first one says. An access to a variable
    without a lock is taken to be atomic; what C++ allows beyond that for a data
    race is not modelled. A loop over the table of containers walks over the live
    table ([ConcApi.walk]): entries erased ahead of it are not met, entries inserted
    ahead of it may be, and an iterator whose own entry was erased or whose table an
    insertion has rehashed is undefined to use. The accept loop ([Server.Accept]), the calls of an agent
    client ([AgentAsync]) and the bundled thread pool ([OmConcurrency]) are
    transition systems of their own. Loops over containers are
    structural, endless service loops are modelled by one iteration or by the
    list of what they receive. Fuel appears where a text is consumed: the length
    of the text, which every round shortens, in [OmText.tokenize],
    [OmIo.file.fill] and [JsonText.parse_text], sixteen digits for a
    64-bit number in [OmText.hex], five bytes for a 32-bit one in [ProtoBuf], 137
    years for a 32-bit time in [OmTime.etc_time.gmtime]; the
    theorems about these functions give the result itself, so the fuel is enough.

    ** What is proved

    - The books. [Inv]: the tables are well formed, every queued container is
      alive and filed once under its own id, and allocated plus free runtime is
      the total plus what was lent. [drift] is the allocation less the sum of the
      quotas. Every handler returns, keeps [Inv] and says what happens to the
      drift: usage reports ([report_conserves]; [report_follows_policy]: the
      handler carries out [CpuPolicy.policy], up to rounding; [mismatch_only_counts],
      [mismatch_resyncs], [resync_report_conserves]), idle passes
      ([idle_pass_conserves]), registrations ([add_cgroup_conserves]), removals
      ([delete_pod_conserves]), memory ([memory_leaves_cpu_books]);
      [reachable_books] puts them together for all runs, and [startup] starts
      them. The assumptions are explicit: budgets below 2^52 ns per period
      ([small_pool]), where all conversions between integers and doubles are
      exact, and [adjust_ok], whose clauses exclude exactly the two cases in
      which the code overdraws ([topup_overdraws], [overrun_request_wraps]).
    - Memory: reclaiming leaves every container above its usage and reports only
      pages it took ([reclaim_safe], [reclaim_invents_nothing]); requests and the
      periodic reclaim conserve the pages ([mem_req_from_pool],
      [mem_req_empty_pool], [run_conserves]), for pools below 2^60 pages.
    - Convergence: repeated reports bring an under-used container down to the
      slice and a throttled one up to its fair share within a bounded number of
      reports, rounding included ([unused_quota_converges],
      [fair_share_reached]); these need lower bounds on rounded quotients and
      products ([Float64.ddiv_at_least], [Float64.dmul_at_least]).
    - The outside: the definition file ([parse_file_reads_definition],
      [startup]), the pod definition ([pod_definition_reads_back]), what
      cAdvisor serves ([cadvisor_reads_node]); the completion threads
      ([completion_thread_safe]).
    - The bundled library: a thread pool runs what it is given, once and in
      order, and shuts down ([pool_takes_in_order], [pool_runs_all],
      [shutdown_joins]); lines and stop watches ([file_lines],
      [microseconds_wrap]); headers, records, addresses and tokens survive
      ([header_fields_read_back], [reader_sees_records], [mac_uint64_roundtrip],
      [timestamp_text_roundtrip], [mac_text_roundtrip], [host_port_parsed], [tokenize_joined]).
    - Arithmetic: the floating-point branches stay in range whatever the rounding
      ([topup_never_overshoots], [shrink_in_range]); the incremental mean is the
      mean ([window_mean_exact]); the window never leaves its vector
      ([window_in_bounds]); the fair share is the largest equal share.
    - Refinement: the runtime pool is five counters of unbounded size, as long as
      they stay below 2^63 ([pool_refines_counters]); the container map is a table of
      queues ([subcontainers_refine_table]); container ids meet the contract of hash
      tables ([ContainerId_key_contract]).
    - A client and the controller, end to end: a registration sent as the bytes of a
      message is read, booked and answered, and the client prints the answer
      ([client_registers]); other drivers wait for what never comes
      ([client_report_unanswered], [report_before_registration],
      [greeter_never_ends], [driver_port_unserved]).
    - The wire: messages and integers survive it ([msg_bytes_roundtrip],
      [read_write_uint], [full_read_is_message]), replies depend on the type of
      the request ([replies_by_type]).
    - Threads: the handlers access by access, up to whole connections, refine their
      one-step descriptions, one handler or several in turn ([handlers_alone],
      [handlers_in_turn]); under every schedule of covered updates no page and no
      runtime appears or is lost, but by the leak correction
      ([every_schedule_conserves], by a debt of every thread that its program
      pays back; an update is covered when it neither wraps around nor saturates
      and, where it empties the pool, the pool still holds what its thread has
      read); mutexes are released by their holders, none is kept by a thread
      that has returned, and no threads wait in a circle, from [Manager::start] on
      ([locks_well_used], by the order [Conc.rank]); a mutex other than [memlock] is
      let go after at most seven more accesses of its holder, which nothing holds up
      but the holder of [cv_mtx_dock] ([short_sections_end], by a budget of accesses
      for every critical section); a thread that waits for a mutex waits, over the
      mutexes and futures of others, for a thread whose next access gets it further,
      or for an agent ([no_deadlock], since the tasks a memory request awaits are
      free of mutexes and flags); the one mutex that can be lost is [dep_pod_lock].
    - Where the code goes wrong between threads, schedules in [ConcRaces]:
      [report_uses_deleted_container], for every state in which the three handlers
      meet, and concrete ones in [leak_correction_creates_runtime],
      [registration_drops_returned_runtime], [concurrent_reports_overdraw],
      [new_pod_overcommits], [pages_reclaimed_twice],
      [idle_pass_uses_deleted_queue], [idle_pass_uses_invalid_iterator],
      [early_request_undefined], [wakeup_lost], [bad_address_blocks_service].
    - Where the code goes wrong, theorems say when and how: [topup_overdraws],
      [overrun_request_wraps], [small_idle_quota_wraps],
      [reclaim_over_limit_fabricates], [newpod_books_full_limit],
      [add_cgroup_unknown_agent], [delete_orphans_rest],
      [delete_frees_all_but_last], [null_agent_sticks], [udp_read_error_exits],
      [window_counter_wrap], [late_thread_takes_next_peer],
      [unreachable_node_shrinks], [garbled_answer_throws],
      [pod_definition_without_specs], [node_ips_repeat],
      [caller_races_completion], [received_with_prefix], [poll_capacity],
      [poll_calls_first], [bind_reverses_address],
      [flow_key_ignores_destination], [less_than_not_asymmetric],
      [ip4_header_overwrites_packet], [arp_address_reversed],
      [trend_always_flat], [plain_ports_unused], [destroying_gcm],
      [main_never_returns].

    ** What is not modelled

    gRPC, protobuf, cpprest and the C++ library beyond what the code uses of
    them (of [put_time] the conversions that need no weekday and no locale, of the
    regular expressions of [tokenize] a single punctuation mark); logging;
    destructors that only free memory, other than those in [Teardown];
    [test_deployment.cpp], which is not built and does not compile; declarations
    and macros that are only used in commented-out code. In the one-step
    descriptions [_ec] is taken to exist; [ConcManager.start] creates it where the
    code does. Atomicity of unprotected accesses is assumed, as said above.

    ** Further work

    Schedules in which handlers do overlap but on different containers, and the
    part of the invariant [Inv] that survives them; progress of the threads that
    wait outside short sections ([set_sc_quota_syscall] for the registration, the
    thread of a new pod for the docker id) under fair schedules. *)

From stdpp Require Export prelude gmap strings.
From Stdlib Require Export ZArith Lia.
#[global] Open Scope Z_scope.

(** ** Machine integers

    A [w]-bit unsigned integer is a [Z] in [0 .. 2^w-1], a signed one a [Z] in
    [-2^(w-1) .. 2^(w-1)-1]; every operation of the source that can leave the
    range is followed by the corresponding wrap-around. *)
Definition u8 (z : Z) : Z := z mod 256.
Definition u16 (z : Z) : Z := z mod 65536.
Definition u32 (z : Z) : Z := z mod 4294967296.
Definition u64 (z : Z) : Z := z mod 18446744073709551616.
Definition i32 (z : Z) : Z := (z + 2147483648) mod 4294967296 - 2147483648.
Definition i64 (z : Z) : Z :=
  (z + 9223372036854775808) mod 18446744073709551616 - 9223372036854775808.

Definition is_u8 (z : Z) : Prop := 0 ≤ z < 256.
Definition is_u16 (z : Z) : Prop := 0 ≤ z < 65536.
Definition is_u32 (z : Z) : Prop := 0 ≤ z < 4294967296.
Definition is_u64 (z : Z) : Prop := 0 ≤ z < 18446744073709551616.
Definition is_i64 (z : Z) : Prop :=
  -9223372036854775808 ≤ z < 9223372036854775808.

#[export] Instance is_u8_dec z : Decision (is_u8 z).
Proof. unfold is_u8; apply _. Defined.
#[export] Instance is_u16_dec z : Decision (is_u16 z).
Proof. unfold is_u16; apply _. Defined.
#[export] Instance is_u32_dec z : Decision (is_u32 z).
Proof. unfold is_u32; apply _. Defined.
#[export] Instance is_u64_dec z : Decision (is_u64 z).
Proof. unfold is_u64; apply _. Defined.
#[export] Instance is_i64_dec z : Decision (is_i64 z).
Proof. unfold is_i64; apply _. Defined.

(** [wrap_lia] decides linear goals about wrapped integers: it exposes the
    wrap-arounds as divisions with remainder and calls [lia]. *)
Ltac wrap_unfold :=
  unfold is_u8, is_u16, is_u32, is_u64, is_i64, u8, u16, u32, u64, i32, i64 in *.
Ltac wrap_lia := wrap_unfold; Z.div_mod_to_equations; lia.

Lemma u64_small z : is_u64 z → u64 z = z.
Proof. intros. apply Z.mod_small. done. Qed.
Lemma u32_small z : is_u32 z → u32 z = z.
Proof. intros. apply Z.mod_small. done. Qed.
Lemma u64_is_u64 z : is_u64 (u64 z).
Proof. apply Z.mod_pos_bound. lia. Qed.
Lemma u32_is_u32 z : is_u32 (u32 z).
Proof. apply Z.mod_pos_bound. lia. Qed.
Lemma u16_is_u16 z : is_u16 (u16 z).
Proof. apply Z.mod_pos_bound. lia. Qed.
Lemma u8_is_u8 z : is_u8 (u8 z).
Proof. apply Z.mod_pos_bound. lia. Qed.
Lemma i64_is_i64 z : is_i64 (i64 z).
Proof. wrap_lia. Qed.
Lemma i64_small z : is_i64 z → i64 z = z.
Proof. intros. wrap_lia. Qed.
(** The reinterpretation of a large [uint64_t] as [int64_t]. *)
Lemma i64_high z : 9223372036854775808 ≤ z → is_u64 z → i64 z = z - 18446744073709551616.
Proof. intros. wrap_lia. Qed.
Lemma u64_i64 z : u64 (i64 z) = u64 z.
Proof. wrap_lia. Qed.

Create HintDb wrap.
#[export] Hint Resolve u64_is_u64 u32_is_u32 u16_is_u16 u8_is_u8 i64_is_i64 : wrap.

(** ** Effects

    The code of the controller mutates shared objects, terminates the process
    with [exit], spins on flags another thread sets, and dereferences pointers.
    A computation takes the state and returns either a value or the way the
    thread stopped, together with the state reached. *)
Inductive failure :=
| Exit (code : Z)      (** [exit(code)] *)
| Blocked              (** the thread waits for another thread, or for ever *)
| Throw                (** an exception leaves the function *)
| Undef.               (** undefined behaviour: dangling or null pointer, ... *)

Inductive outcome (A : Type) :=
| Ok (a : A)
| Fail (f : failure).
Arguments Ok {A} a.
Arguments Fail {A} f.

#[export] Instance failure_eq_dec : EqDecision failure.
Proof. solve_decision. Defined.

Definition M (S A : Type) : Type := S → outcome A * S.

#[export] Instance M_ret S : MRet (M S) := λ A a s, (Ok a, s).
#[export] Instance M_bind S : MBind (M S) := λ A B k m s,
  match m s with
  | (Ok a, s') => k a s'
  | (Fail f, s') => (Fail f, s')
  end.

Definition gets {S A} (f : S → A) : M S A := λ s, (Ok (f s), s).
Definition modify {S} (f : S → S) : M S unit := λ s, (Ok tt, f s).
Definition stop {S A} (f : failure) : M S A := λ s, (Fail f, s).

(** [when b m] is [if (b) m]. *)
Definition when {S} (b : bool) (m : M S unit) : M S unit := if b then m else mret tt.

(** [for (auto &x : l) acc += f x], and the loop without a result. *)
Fixpoint mfold {S A B} (f : B → A → M S B) (b : B) (l : list A) : M S B :=
  match l with
  | [] => mret b
  | a :: l => b' ← f b a; mfold f b' l
  end.
Fixpoint mfor {S A} (l : list A) (f : A → M S unit) : M S unit :=
  match l with
  | [] => mret tt
  | a :: l => f a ;; mfor l f
  end.

(** ** Hoare-style reasoning on computations

    [wp m Q F s]: running [m] from [s] either returns a value and a state that
    satisfy [Q], or stops in a way and in a state that satisfy [F]. With
    [F := λ _ _, False] it states that [m] returns. *)
Definition wp {S A} (m : M S A) (Q : A → S → Prop) (F : failure → S → Prop) (s : S) : Prop :=
  match m s with
  | (Ok a, s') => Q a s'
  | (Fail f, s') => F f s'
  end.

(** No failure at all. *)
Definition never {S} : failure → S → Prop := λ _ _, False.

Section WpRules.
Context {S : Type}.
Implicit Types (s : S) (F : failure → S → Prop).

Lemma wp_ret {A} (a : A) Q F s : wp (mret a : M S A) Q F s = Q a s.
Proof. done. Qed.
Lemma wp_gets {A} (f : S → A) Q F s : wp (gets f) Q F s = Q (f s) s.
Proof. done. Qed.
Lemma wp_modify (f : S → S) Q F s : wp (modify f) Q F s = Q tt (f s).
Proof. done. Qed.
Lemma wp_stop {A} f (Q : A → S → Prop) F s : wp (stop f) Q F s = F f s.
Proof. done. Qed.
Lemma wp_bind {A B} (m : M S A) (k : A → M S B) Q F s :
  wp (m ≫= k) Q F s = wp m (λ a s', wp (k a) Q F s') F s.
Proof. unfold wp, mbind, M_bind. by destruct (m s) as [[a|f] s']. Qed.
Lemma wp_mono {A} (m : M S A) (Q Q' : A → S → Prop) F F' s :
  wp m Q F s → (∀ a s', Q a s' → Q' a s') → (∀ f s', F f s' → F' f s') → wp m Q' F' s.
Proof. unfold wp. destruct (m s) as [[a|f] s']; eauto. Qed.
Lemma wp_ok {A} (m : M S A) a s s' Q F : m s = (Ok a, s') → Q a s' → wp m Q F s.
Proof. unfold wp. by intros ->. Qed.
Lemma wp_never_inv {A} (m : M S A) Q s :
  wp m Q never s → ∃ a s', m s = (Ok a, s') ∧ Q a s'.
Proof. unfold wp, never. destruct (m s) as [[a|f] s']; naive_solver. Qed.

(** The invariant rule for loops over a list. *)
Lemma wp_mfold {A B} (f : B → A → M S B) (I : list A → B → S → Prop) F l b s :
  I l b s →
  (∀ a l' b' s', a ∈ l → I (a :: l') b' s' → wp (f b' a) (I l') F s') →
  wp (mfold f b l) (I []) F s.
Proof.
  revert b s. induction l as [|a l IH]; intros b s HI Hstep; simpl.
  { by rewrite wp_ret. }
  rewrite wp_bind. eapply wp_mono; [apply Hstep; [left|done]| |done].
  intros b' s' HI'. apply IH; [done|]. intros; apply Hstep; [by right|done].
Qed.
Lemma wp_mfor {A} (f : A → M S unit) (I : list A → S → Prop) F l s :
  I l s →
  (∀ a l' s', a ∈ l → I (a :: l') s' → wp (f a) (λ _, I l') F s') →
  wp (mfor l f) (λ _, I []) F s.
Proof.
  revert s. induction l as [|a l IH]; intros s HI Hstep; simpl.
  { by rewrite wp_ret. }
  rewrite wp_bind. eapply wp_mono; [apply Hstep; [left|done]| |done].
  intros [] s' HI'. apply IH; [done|]. intros; apply Hstep; [by right|done].
Qed.
End WpRules.

(** [wp_step] pushes [wp] through one monadic construct, [wp_go] through all. *)
Ltac wp_step :=
  first [rewrite wp_bind | rewrite wp_ret | rewrite wp_gets | rewrite wp_modify | rewrite wp_stop].
Ltac wp_go := repeat (wp_step; cbv beta).

(** Case analysis on the condition of every [if] on integers. *)
Ltac zcase :=
  repeat match goal with
  | |- context [ Z.ltb ?a ?b ] => destruct (Z.ltb_spec a b)
  | |- context [ Z.leb ?a ?b ] => destruct (Z.leb_spec a b)
  | |- context [ Z.eqb ?a ?b ] => destruct (Z.eqb_spec a b)
  end.

(** ** Sums over finite collections *)
Definition zsum {A} (f : A → Z) (l : list A) : Z := foldr (λ a z, f a + z) 0 l.

Section Zsum.
Context {A : Type} (f : A → Z).

Lemma zsum_app l k : zsum f (l ++ k) = zsum f l + zsum f k.
Proof. induction l; simpl; lia. Qed.
#[global] Instance zsum_perm : Proper ((≡ₚ) ==> eq) (zsum f).
Proof. induction 1; simpl; lia. Qed.
Lemma zsum_nonneg l : (∀ a, a ∈ l → 0 ≤ f a) → 0 ≤ zsum f l.
Proof.
  induction l as [|a l IH]; intros H; simpl; [lia|].
  assert (0 ≤ f a) by (apply H; left). assert (0 ≤ zsum f l) by (apply IH; intros; apply H; by right).
  lia.
Qed.
Lemma zsum_ext (g : A → Z) l : (∀ a, a ∈ l → f a = g a) → zsum f l = zsum g l.
Proof.
  induction l as [|a l IH]; intros H; simpl; [done|].
  rewrite (H a) by left. rewrite IH; [done|]. intros; apply H; by right.
Qed.
End Zsum.
