(* ===== verification/CpuG.v ===== *)
(** * The global CPU pool of an elastic container ([src/stats/global/cpu_g.{h,cpp}])

    Five [uint64_t] counters in nanoseconds of runtime per period. Each method
    takes the mutex of the counter it touches, so a method is one atomic
    function on the record. The [decr_*] methods compare through [int64_t]:
    the subtraction is written with its wrap-around (for values below 2^63,
    the only ones the theorems assume, it cannot overflow). *)
From S2P Require Import Prelude.

Module cpu_g.

Record cpu := Cpu {
  slice_size : Z;
  unallocated_rt : Z;
  total_cpu : Z;
  overrun : Z;
  alloc_rt : Z;
}.

(** [cpu::cpu()] and [cpu::cpu(uint64_t)]. *)
Definition cpu_default : cpu := Cpu 30000000 0 0 0 0.
Definition cpu_sliced (_slice_size : Z) : cpu := Cpu _slice_size 0 0 0 0.

Definition get_slice (c : cpu) : Z := slice_size c.
Definition get_unallocated_rt (c : cpu) : Z := unallocated_rt c.
Definition get_total_cpu (c : cpu) : Z := total_cpu c.
Definition get_overrun (c : cpu) : Z := overrun c.
Definition get_alloc_rt (c : cpu) : Z := alloc_rt c.

Definition set_slice_size (_slice : Z) (c : cpu) : cpu :=
  Cpu _slice (unallocated_rt c) (total_cpu c) (overrun c) (alloc_rt c).
Definition set_unallocated_rt (_val : Z) (c : cpu) : cpu :=
  Cpu (slice_size c) _val (total_cpu c) (overrun c) (alloc_rt c).
Definition set_total_cpu (_tot_cpu : Z) (c : cpu) : cpu :=
  Cpu (slice_size c) (unallocated_rt c) _tot_cpu (overrun c) (alloc_rt c).
Definition set_overrun (_val : Z) (c : cpu) : cpu :=
  Cpu (slice_size c) (unallocated_rt c) (total_cpu c) _val (alloc_rt c).

Definition decr_unallocated_rt (_decr : Z) (c : cpu) : cpu :=
  if i64 (i64 (unallocated_rt c) - i64 _decr) <? 0
  then set_unallocated_rt 0 c
  else set_unallocated_rt (u64 (unallocated_rt c - _decr)) c.
Definition incr_unalloacted_rt (_incr : Z) (c : cpu) : cpu :=
  set_unallocated_rt (u64 (unallocated_rt c + _incr)) c.

Definition incr_total_cpu (_incr : Z) (c : cpu) : cpu :=
  set_total_cpu (u64 (total_cpu c + _incr)) c.
Definition decr_total_cpu (_decr : Z) (c : cpu) : cpu :=
  if i64 (i64 (total_cpu c) - i64 _decr) <? 0
  then set_total_cpu 0 c
  else set_total_cpu (u64 (total_cpu c - _decr)) c.

Definition incr_overrun (_incr : Z) (c : cpu) : cpu :=
  set_overrun (u64 (overrun c + _incr)) c.
Definition decr_overrun (_decr : Z) (c : cpu) : cpu :=
  if i64 (i64 (overrun c) - i64 _decr) <? 0
  then set_overrun 0 c
  else set_overrun (u64 (overrun c - _decr)) c.

Definition incr_alloc_rt (_incr : Z) (c : cpu) : cpu :=
  Cpu (slice_size c) (unallocated_rt c) (total_cpu c) (overrun c) (u64 (alloc_rt c + _incr)).
Definition decr_alloc_rt (_decr : Z) (c : cpu) : cpu :=
  if i64 (i64 (alloc_rt c) - i64 _decr) <? 0
  then Cpu (slice_size c) (unallocated_rt c) (total_cpu c) (overrun c) 0
  else Cpu (slice_size c) (unallocated_rt c) (total_cpu c) (overrun c) (u64 (alloc_rt c - _decr)).

(** ** Invariants *)

(** Every counter is a [uint64_t]. *)
Definition wf (c : cpu) : Prop :=
  is_u64 (slice_size c) ∧ is_u64 (unallocated_rt c) ∧ is_u64 (total_cpu c) ∧
  is_u64 (overrun c) ∧ is_u64 (alloc_rt c).

(** How far the books are off: runtime handed out or free, minus runtime that
    exists or was lent beyond it. The books balance when it is zero. *)
Definition imbalance (c : cpu) : Z :=
  alloc_rt c + unallocated_rt c - (total_cpu c + overrun c).

(** The commands of the class, for statements about sequences of calls. *)
Inductive op :=
| SetSlice (z : Z) | SetUnalloc (z : Z) | IncrUnalloc (z : Z) | DecrUnalloc (z : Z)
| SetTotal (z : Z) | IncrTotal (z : Z) | DecrTotal (z : Z)
| SetOverrun (z : Z) | IncrOverrun (z : Z) | DecrOverrun (z : Z)
| IncrAlloc (z : Z) | DecrAlloc (z : Z).

Definition arg (o : op) : Z :=
  match o with
  | SetSlice z | SetUnalloc z | IncrUnalloc z | DecrUnalloc z | SetTotal z | IncrTotal z
  | DecrTotal z | SetOverrun z | IncrOverrun z | DecrOverrun z | IncrAlloc z | DecrAlloc z => z
  end.

Definition run (o : op) : cpu → cpu :=
  match o with
  | SetSlice z => set_slice_size z | SetUnalloc z => set_unallocated_rt z
  | IncrUnalloc z => incr_unalloacted_rt z | DecrUnalloc z => decr_unallocated_rt z
  | SetTotal z => set_total_cpu z | IncrTotal z => incr_total_cpu z
  | DecrTotal z => decr_total_cpu z | SetOverrun z => set_overrun z
  | IncrOverrun z => incr_overrun z | DecrOverrun z => decr_overrun z
  | IncrAlloc z => incr_alloc_rt z | DecrAlloc z => decr_alloc_rt z
  end.

(** ** The subtraction test *)

(** What all four [decr_*] methods compute on their counter. *)
Definition sat_sub (a d : Z) : Z := if i64 (i64 a - i64 d) <? 0 then 0 else u64 (a - d).

Lemma sat_sub_small a d :
  0 ≤ a < 9223372036854775808 → 0 ≤ d < 9223372036854775808 → sat_sub a d = Z.max 0 (a - d).
Proof. intros. unfold sat_sub. zcase; wrap_lia. Qed.

(** Subtracting a [uint64_t] that is the wrap-around of [-k] adds [k]. *)
Lemma sat_sub_wrapped a k :
  0 < k → 0 ≤ a → a + k < 9223372036854775808 → sat_sub a (u64 (- k)) = a + k.
Proof. intros. unfold sat_sub. zcase; wrap_lia. Qed.

Lemma sat_sub_is_u64 a d : is_u64 (sat_sub a d).
Proof. unfold sat_sub. zcase; wrap_lia. Qed.

Lemma decr_unallocated_rt_eq d c : decr_unallocated_rt d c = set_unallocated_rt (sat_sub (unallocated_rt c) d) c.
Proof. unfold decr_unallocated_rt, sat_sub. by zcase. Qed.
Lemma decr_overrun_eq d c : decr_overrun d c = set_overrun (sat_sub (overrun c) d) c.
Proof. unfold decr_overrun, sat_sub. by zcase. Qed.
Lemma decr_total_cpu_eq d c : decr_total_cpu d c = set_total_cpu (sat_sub (total_cpu c) d) c.
Proof. unfold decr_total_cpu, sat_sub. by zcase. Qed.
Lemma decr_alloc_rt_eq d c :
  decr_alloc_rt d c =
  Cpu (slice_size c) (unallocated_rt c) (total_cpu c) (overrun c) (sat_sub (alloc_rt c) d).
Proof. unfold decr_alloc_rt, sat_sub. by zcase. Qed.

(** Moving the wrap-around of [-k] out of the pool moves [k] into it. *)
Lemma take_wrapped k c :
  0 < k ≤ alloc_rt c → alloc_rt c < 9223372036854775808 →
  0 ≤ unallocated_rt c → unallocated_rt c + k < 9223372036854775808 →
  incr_alloc_rt (u64 (- k)) (decr_unallocated_rt (u64 (- k)) c) =
  Cpu (slice_size c) (unallocated_rt c + k) (total_cpu c) (overrun c) (alloc_rt c - k).
Proof.
  intros. rewrite decr_unallocated_rt_eq, sat_sub_wrapped by lia.
  unfold incr_alloc_rt; simpl. f_equal. wrap_lia.
Qed.

(** The four bookings as exact arithmetic, for counters below 2^62 and amounts
    their source account covers. *)
Definition low (z : Z) : Prop := 0 ≤ z < 4611686018427387904.
Definition lows (c : cpu) : Prop :=
  low (unallocated_rt c) ∧ low (total_cpu c) ∧ low (overrun c) ∧ low (alloc_rt c).
Lemma take_eq n c : lows c → 0 ≤ n ≤ unallocated_rt c →
  incr_alloc_rt n (decr_unallocated_rt n c) =
  Cpu (slice_size c) (unallocated_rt c - n) (total_cpu c) (overrun c) (alloc_rt c + n).
Proof.
  unfold lows, low. intros. rewrite decr_unallocated_rt_eq, sat_sub_small by lia.
  unfold incr_alloc_rt; simpl. rewrite u64_small by wrap_lia. f_equal. lia.
Qed.
Lemma give_eq n c : lows c → 0 ≤ n ≤ alloc_rt c →
  decr_alloc_rt n (incr_unalloacted_rt n c) =
  Cpu (slice_size c) (unallocated_rt c + n) (total_cpu c) (overrun c) (alloc_rt c - n).
Proof.
  unfold lows, low. intros. rewrite decr_alloc_rt_eq; simpl. rewrite sat_sub_small by lia.
  rewrite u64_small by wrap_lia. f_equal. lia.
Qed.
Lemma lend_eq n c : lows c → low n →
  incr_alloc_rt n (incr_overrun n c) =
  Cpu (slice_size c) (unallocated_rt c) (total_cpu c) (overrun c + n) (alloc_rt c + n).
Proof.
  unfold lows, low. intros. unfold incr_alloc_rt, incr_overrun; simpl.
  rewrite !u64_small by wrap_lia. done.
Qed.
Lemma repay_eq n c : lows c → 0 ≤ n ≤ overrun c → n ≤ alloc_rt c →
  decr_alloc_rt n (decr_overrun n c) =
  Cpu (slice_size c) (unallocated_rt c) (total_cpu c) (overrun c - n) (alloc_rt c - n).
Proof.
  unfold lows, low. intros. rewrite decr_alloc_rt_eq, decr_overrun_eq; simpl.
  rewrite !sat_sub_small by lia. f_equal; lia.
Qed.

(** ** Claims *)

(** The class as five independent counters of unbounded size: each method
    touches one of them, and sets it, adds to it, or subtracts from it stopping
    at zero. *)
Inductive counter := Slice | Unalloc | Total | Overrun | Alloc.
#[global] Instance counter_eq_dec : EqDecision counter.
Proof. solve_decision. Defined.
Definition value (c : cpu) (k : counter) : Z :=
  match k with
  | Slice => slice_size c | Unalloc => unallocated_rt c | Total => total_cpu c
  | Overrun => overrun c | Alloc => alloc_rt c
  end.
Definition effect (o : op) : counter * (Z → Z) :=
  match o with
  | SetSlice z => (Slice, λ _, z) | SetUnalloc z => (Unalloc, λ _, z)
  | SetTotal z => (Total, λ _, z) | SetOverrun z => (Overrun, λ _, z)
  | IncrUnalloc z => (Unalloc, λ v, v + z) | IncrTotal z => (Total, λ v, v + z)
  | IncrOverrun z => (Overrun, λ v, v + z) | IncrAlloc z => (Alloc, λ v, v + z)
  | DecrUnalloc z => (Unalloc, λ v, Z.max 0 (v - z)) | DecrTotal z => (Total, λ v, Z.max 0 (v - z))
  | DecrOverrun z => (Overrun, λ v, Z.max 0 (v - z)) | DecrAlloc z => (Alloc, λ v, Z.max 0 (v - z))
  end.
Definition spec_step (s : counter → Z) (o : op) : counter → Z :=
  λ k, if decide (k = (effect o).1) then (effect o).2 (s k) else s k.

Lemma spec_step_ext os s s' k : (∀ k, s k = s' k) → foldl spec_step s os k = foldl spec_step s' os k.
Proof.
  revert s s'. induction os as [|o os IH]; intros s s' H; simpl; [done|].
  apply IH. intros k'. unfold spec_step. by rewrite H.
Qed.
Lemma run_spec_step o c :
  0 ≤ arg o < 9223372036854775808 → (∀ k, 0 ≤ value c k < 9223372036854775808) →
  (∀ k, 0 ≤ spec_step (value c) o k < 9223372036854775808) → ∀ k, value (run o c) k = spec_step (value c) o k.
Proof.
  intros Ho Hc Hs k. specialize (Hc (effect o).1). specialize (Hs (effect o).1). revert Hs. unfold spec_step.
  rewrite decide_True by done. intros Hs.
  destruct o, k; simpl in *;
    rewrite ?decr_unallocated_rt_eq, ?decr_overrun_eq, ?decr_total_cpu_eq, ?decr_alloc_rt_eq; simpl;
    rewrite ?sat_sub_small, ?u64_small by wrap_lia; done.
Qed.

(** C35: the pool refines five counters of unbounded size. For every sequence of
    calls with arguments below 2^63 along which the unbounded counters stay below
    2^63, the five counters of the object hold exactly what the unbounded ones
    do: increments add, decrements subtract but stop at zero, and no method
    touches a counter that is not its own. *)
Theorem pool_refines_counters (os : list op) (c : cpu)
    (Hos : Forall (λ o, 0 ≤ arg o < 9223372036854775808) os)
    (Hfit : ∀ n k, 0 ≤ foldl spec_step (value c) (take n os) k < 9223372036854775808) (k : counter) :
  value (foldl (λ c o, run o c) c os) k = foldl spec_step (value c) os k.
Proof.
  revert c Hfit k. induction Hos as [|o os Ho _ IH]; intros c Hfit k; simpl; [done|].
  pose proof (run_spec_step o c Ho (Hfit 0%nat)) as Hstep. specialize (Hstep (λ k, Hfit 1%nat k)).
  rewrite IH; [by apply spec_step_ext|]. intros n k'.
  rewrite (spec_step_ext _ _ _ _ Hstep). exact (Hfit (S n) k').
Qed.
Lemma pool_refines_counters_witness :
  value (foldl (λ c o, run o c) cpu_default [SetTotal 400; SetUnalloc 400; DecrUnalloc 500; IncrAlloc 500]) Unalloc = 0.
Proof.
  rewrite (pool_refines_counters [SetTotal 400; SetUnalloc 400; DecrUnalloc 500; IncrAlloc 500] cpu_default).
  - reflexivity.
  - repeat constructor; simpl; lia.
  - intros [|[|[|[|n]]]] []; cbn [take]; rewrite ?take_nil; (split; by vm_compute).
Defined.

(** Below 2^63 the four decrements are the saturating
    subtraction, and they leave the other counters alone. *)
Theorem decr_saturates (d : Z) (c : cpu)
    (Hd : 0 ≤ d < 9223372036854775808)
    (Hu : 0 ≤ unallocated_rt c < 9223372036854775808)
    (Ht : 0 ≤ total_cpu c < 9223372036854775808)
    (Ho : 0 ≤ overrun c < 9223372036854775808)
    (Ha : 0 ≤ alloc_rt c < 9223372036854775808) :
  decr_unallocated_rt d c = set_unallocated_rt (Z.max 0 (unallocated_rt c - d)) c ∧
  decr_total_cpu d c = set_total_cpu (Z.max 0 (total_cpu c - d)) c ∧
  decr_overrun d c = set_overrun (Z.max 0 (overrun c - d)) c ∧
  decr_alloc_rt d c =
    Cpu (slice_size c) (unallocated_rt c) (total_cpu c) (overrun c) (Z.max 0 (alloc_rt c - d)).
Proof.
  by rewrite decr_unallocated_rt_eq, decr_overrun_eq, decr_total_cpu_eq, decr_alloc_rt_eq,
    !sat_sub_small.
Qed.
Lemma decr_saturates_witness :
  decr_alloc_rt 30 (Cpu 1 2 3 4 20) = Cpu 1 2 3 4 0 ∧ decr_overrun 3 (Cpu 1 2 3 4 20) = Cpu 1 2 3 1 20.
Proof.
  split.
  - apply (decr_saturates 30 (Cpu 1 2 3 4 20)); simpl; lia.
  - apply (decr_saturates 3 (Cpu 1 2 3 4 20)); simpl; lia.
Defined.

End cpu_g.
