(* ===== verification/MemG.v ===== *)
(** * The global memory pool of an elastic container ([src/stats/global/mem_g.{h,cpp}])

    The limit and the slice are [uint64_t], the two pools [int64_t], all in
    pages. As in [CpuG], one method is one atomic function on the record.
    Mixed signed/unsigned arithmetic is unsigned in C++, converted back to
    [int64_t] on assignment. *)
From S2P Require Import Prelude.

Module mem_g.

Record mem := Mem {
  memory_limit_in_pages : Z;
  slice_size : Z;
  unallocated_memory_in_pages : Z;
  allocated_memory_in_pages : Z;
}.

Definition mem_default : mem := Mem 0 5000 (i64 0) 0.
Definition mem_of (_mem_lim _alloc_pages _slice_size : Z) : mem :=
  Mem _mem_lim _slice_size (i64 _mem_lim) _alloc_pages.

Definition get_slice_size (m : mem) : Z := slice_size m.
Definition get_mem_limit_in_pages (m : mem) : Z := memory_limit_in_pages m.
Definition get_unallocated_memory_in_pages (m : mem) : Z := unallocated_memory_in_pages m.
Definition get_allocated_memory_in_pages (m : mem) : Z := allocated_memory_in_pages m.

Definition set_slice_size (_ss : Z) (m : mem) : mem :=
  Mem (memory_limit_in_pages m) _ss (unallocated_memory_in_pages m) (allocated_memory_in_pages m).
Definition set_memory_limit_in_pages (_ml : Z) (m : mem) : mem :=
  Mem _ml (slice_size m) (unallocated_memory_in_pages m) (allocated_memory_in_pages m).
Definition incr_memory_limit_in_pages (_incr : Z) (m : mem) : mem :=
  set_memory_limit_in_pages (u64 (memory_limit_in_pages m + _incr)) m.
Definition decr_memory_limit_in_pages (_decr : Z) (m : mem) : mem :=
  if memory_limit_in_pages m <? _decr
  then set_memory_limit_in_pages 0 m
  else set_memory_limit_in_pages (u64 (memory_limit_in_pages m - _decr)) m.

(** Also returns the new value; the [uint64_t] argument of the callers is
    converted to the [int64_t] parameter. *)
Definition set_unallocated_memory_in_pages (_ma : Z) (m : mem) : mem :=
  Mem (memory_limit_in_pages m) (slice_size m) _ma (allocated_memory_in_pages m).
Definition incr_unallocated_memory_in_pages (_to_incr : Z) (m : mem) : mem :=
  set_unallocated_memory_in_pages (i64 (unallocated_memory_in_pages m + _to_incr)) m.
Definition decr_unallocated_memory_in_pages (_to_decr : Z) (m : mem) : mem :=
  let result := i64 (unallocated_memory_in_pages m - _to_decr) in
  set_unallocated_memory_in_pages (if result <? 0 then 0 else result) m.

Definition set_allocated_memory_in_pages (_ma : Z) (m : mem) : mem :=
  Mem (memory_limit_in_pages m) (slice_size m) (unallocated_memory_in_pages m) _ma.
Definition incr_allocated_memory_in_pages (_incr : Z) (m : mem) : mem :=
  set_allocated_memory_in_pages (i64 (allocated_memory_in_pages m + _incr)) m.
Definition decr_allocated_memory_in_pages (_decr : Z) (m : mem) : mem :=
  let result := i64 (allocated_memory_in_pages m - _decr) in
  set_allocated_memory_in_pages (if result <? 0 then 0 else result) m.

(** ** Invariants *)

Definition wf (m : mem) : Prop :=
  is_u64 (memory_limit_in_pages m) ∧ is_u64 (slice_size m) ∧
  is_i64 (unallocated_memory_in_pages m) ∧ is_i64 (allocated_memory_in_pages m).

(** Pages the two pools account for. *)
Definition tracked (m : mem) : Z := unallocated_memory_in_pages m + allocated_memory_in_pages m.

(** A pool of fewer than 2^60 pages, neither side negative: the range in which
    the signed and unsigned arithmetic of the class is exact. *)
Definition sane (m : mem) : Prop :=
  0 ≤ unallocated_memory_in_pages m ∧ 0 ≤ allocated_memory_in_pages m ∧
  tracked m < 1152921504606846976.

Inductive op :=
| SetSlice (z : Z) | SetLimit (z : Z) | IncrLimit (z : Z) | DecrLimit (z : Z)
| IncrUnalloc (z : Z) | DecrUnalloc (z : Z) | IncrAlloc (z : Z) | DecrAlloc (z : Z).
Definition arg (o : op) : Z :=
  match o with
  | SetSlice z | SetLimit z | IncrLimit z | DecrLimit z
  | IncrUnalloc z | DecrUnalloc z | IncrAlloc z | DecrAlloc z => z
  end.
Definition run (o : op) : mem → mem :=
  match o with
  | SetSlice z => set_slice_size z | SetLimit z => set_memory_limit_in_pages z
  | IncrLimit z => incr_memory_limit_in_pages z | DecrLimit z => decr_memory_limit_in_pages z
  | IncrUnalloc z => incr_unallocated_memory_in_pages z
  | DecrUnalloc z => decr_unallocated_memory_in_pages z
  | IncrAlloc z => incr_allocated_memory_in_pages z
  | DecrAlloc z => decr_allocated_memory_in_pages z
  end.

Lemma decr_unallocated_small d m :
  0 ≤ unallocated_memory_in_pages m < 1152921504606846976 → 0 ≤ d < 1152921504606846976 →
  decr_unallocated_memory_in_pages d m =
  set_unallocated_memory_in_pages (Z.max 0 (unallocated_memory_in_pages m - d)) m.
Proof. intros. unfold decr_unallocated_memory_in_pages. f_equal. zcase; wrap_lia. Qed.
Lemma decr_allocated_small d m :
  0 ≤ allocated_memory_in_pages m < 1152921504606846976 → 0 ≤ d < 1152921504606846976 →
  decr_allocated_memory_in_pages d m =
  set_allocated_memory_in_pages (Z.max 0 (allocated_memory_in_pages m - d)) m.
Proof. intros. unfold decr_allocated_memory_in_pages. f_equal. zcase; wrap_lia. Qed.
Lemma incr_unallocated_small d m :
  0 ≤ unallocated_memory_in_pages m → 0 ≤ d →
  unallocated_memory_in_pages m + d < 9223372036854775808 →
  incr_unallocated_memory_in_pages d m =
  set_unallocated_memory_in_pages (unallocated_memory_in_pages m + d) m.
Proof. intros. unfold incr_unallocated_memory_in_pages. f_equal. wrap_lia. Qed.
Lemma incr_allocated_small d m :
  0 ≤ allocated_memory_in_pages m → 0 ≤ d →
  allocated_memory_in_pages m + d < 9223372036854775808 →
  incr_allocated_memory_in_pages d m =
  set_allocated_memory_in_pages (allocated_memory_in_pages m + d) m.
Proof. intros. unfold incr_allocated_memory_in_pages. f_equal. wrap_lia. Qed.

(** ** Claims *)

(** After any sequence of [uint64_t] (for the limit and the slice)
    and in-range updates the fields keep their C++ types, and the two
    decrements never leave a negative pool behind. *)
Theorem mem_run_wf (os : list op) (m : mem) (Hm : wf m) (Hos : Forall (λ o, is_u64 (arg o)) os) :
  wf (foldl (λ m o, run o m) m os) ∧
  (∀ d, 0 ≤ unallocated_memory_in_pages (decr_unallocated_memory_in_pages d m)) ∧
  (∀ d, 0 ≤ allocated_memory_in_pages (decr_allocated_memory_in_pages d m)).
Proof.
  split_and!.
  - revert m Hm. induction Hos as [|o os Ho _ IH]; intros m Hm; simpl; [done|].
    apply IH. destruct Hm as (? & ? & ? & ?).
    destruct o; simpl in *; unfold decr_memory_limit_in_pages, decr_unallocated_memory_in_pages,
      decr_allocated_memory_in_pages; zcase; unfold wf; split_and!; simpl;
      auto using u64_is_u64, i64_is_i64; wrap_lia.
  - intros d. unfold decr_unallocated_memory_in_pages; simpl. zcase; lia.
  - intros d. unfold decr_allocated_memory_in_pages; simpl. zcase; lia.
Qed.
Lemma mem_run_wf_witness : wf (foldl (λ m o, run o m) mem_default [SetLimit 100; IncrUnalloc 100; DecrUnalloc 7]).
Proof.
  apply (mem_run_wf [SetLimit 100; IncrUnalloc 100; DecrUnalloc 7] mem_default).
  - unfold wf; split_and!; simpl; wrap_lia.
  - repeat constructor; simpl; wrap_lia.
Defined.

End mem_g.
