(* ===== verification/Float64.v ===== *)
(** * [double] arithmetic

    The controller computes means and shares with [double]. A [double] is an
    IEEE 754 binary64 datum, here Stdlib's executable [spec_float] with
    precision 53 and maximal exponent 1024; the operations round to nearest,
    ties to even, the mode C++ programs start in. Decimal literals of the
    source are correctly rounded quotients of integers. *)
From Stdlib Require Export SpecFloat.
From S2P Require Import Prelude.

Abbreviation double := spec_float.

Definition dbl_of_Z (z : Z) : double := binary_normalize 53 1024 z 0 false.
Definition dadd (x y : double) : double := SFadd 53 1024 x y.
Definition dsub (x y : double) : double := SFsub 53 1024 x y.
Definition dmul (x y : double) : double := SFmul 53 1024 x y.
Definition ddiv (x y : double) : double := SFdiv 53 1024 x y.
Definition dlt (x y : double) : bool := SFltb x y.
Definition dle (x y : double) : bool := SFleb x y.

(** The conversion of a [double] to an integer type discards the fraction; it
    is undefined when the result does not fit. *)
Definition dtrunc (x : double) : option Z :=
  match x with
  | S754_zero _ => Some 0
  | S754_finite s m e =>
      let a := match e with
               | Z0 => Zpos m
               | Zpos _ => Zpos m * 2 ^ e
               | Zneg _ => Zpos m / 2 ^ (- e)
               end in
      Some (if s then - a else a)
  | S754_infinity _ | S754_nan => None
  end.
Definition dbl_to_u64 (x : double) : option Z :=
  match dtrunc x with
  | Some z => if bool_decide (is_u64 z) then Some z else None
  | None => None
  end.
(** The conversion as a step of a computation: undefined behaviour is a
    failure. *)
Definition to_u64 {S} (x : double) : M S Z :=
  match dbl_to_u64 x with Some z => mret z | None => stop Undef end.

Definition d0 : double := S754_zero false.
Definition d1 : double := dbl_of_Z 1.
Definition d_1em3 : double := ddiv (dbl_of_Z 1) (dbl_of_Z 1000).
Definition d_0p1 : double := ddiv (dbl_of_Z 1) (dbl_of_Z 10).
Definition d_0p2 : double := ddiv (dbl_of_Z 1) (dbl_of_Z 5).
Definition d_0p5 : double := ddiv (dbl_of_Z 1) (dbl_of_Z 2).

(** [SpecFloat] is stated with Corelib's operations on [Z]; they are the ones
    of Stdlib, on which [lia] works. *)
Ltac zstd :=
  change IntDef.Z.add with Z.add in *; change IntDef.Z.sub with Z.sub in *;
  change IntDef.Z.leb with Z.leb in *; change IntDef.Z.max with Z.max in *;
  change IntDef.Z.min with Z.min in *; change IntDef.Z.mul with Z.mul in *;
  change IntDef.Z.even with Z.even in *; change IntDef.Z.opp with Z.opp in *;
  change IntDef.Z.eqb with Z.eqb in *; change IntDef.Z.compare with Z.compare in *;
  change IntDef.Z.shiftl with Z.shiftl in *; change IntDef.Z.div_eucl with Z.div_eucl in *.

(** ** Mantissa lengths *)

Lemma digits2_pos_log2 p : Zpos (digits2_pos p) = Z.log2 (Zpos p) + 1.
Proof.
  induction p as [p IH|p IH|]; simpl digits2_pos; [| |done].
  - rewrite Pos2Z.inj_succ, IH, Pos2Z.inj_xI, Z.log2_succ_double by lia. lia.
  - rewrite Pos2Z.inj_succ, IH, Pos2Z.inj_xO, Z.log2_double by lia. lia.
Qed.
Lemma Zdigits2_log2 z : 0 < z → Zdigits2 z = Z.log2 z + 1.
Proof. intros. destruct z; [lia| |lia]. apply digits2_pos_log2. Qed.
Lemma digits2_spec z : 0 < z → 2 ^ (Zdigits2 z - 1) ≤ z < 2 ^ Zdigits2 z.
Proof.
  intros. rewrite Zdigits2_log2 by done. pose proof (Z.log2_spec z).
  replace (Z.log2 z + 1 - 1) with (Z.log2 z) by lia. rewrite <-Z.add_1_r in H0. lia.
Qed.
Lemma digits2_pos_nonneg z : 0 < z → 0 < Zdigits2 z.
Proof. intros. rewrite Zdigits2_log2 by done. pose proof (Z.log2_nonneg z). lia. Qed.
Lemma digits2_unique z n : 2 ^ (n - 1) ≤ z < 2 ^ n → 0 < n → Zdigits2 z = n.
Proof.
  intros ??. assert (0 < 2 ^ (n - 1)) by (apply Z.pow_pos_nonneg; lia).
  rewrite Zdigits2_log2 by lia.
  enough (Z.log2 z = n - 1) by lia. apply Z.log2_unique; [lia|].
  rewrite <-Z.add_1_r. replace (n - 1 + 1) with n by lia. lia.
Qed.
Lemma digits2_mono a b : 0 < a ≤ b → Zdigits2 a ≤ Zdigits2 b.
Proof.
  intros. rewrite !Zdigits2_log2 by lia. pose proof (Z.log2_le_mono a b). lia.
Qed.

Lemma fexp_normal e : -1021 ≤ e → fexp 53 1024 e = e - 53.
Proof. unfold fexp, emin. zstd. lia. Qed.

Lemma iter_xO m d : Zpos (Pos.iter xO m d) = Zpos m * 2 ^ Zpos d.
Proof.
  revert m. induction d as [|d IH] using Pos.peano_ind; intros m; [simpl; lia|].
  rewrite Pos.iter_succ, Pos2Z.inj_xO, IH, Pos2Z.inj_succ, Z.pow_succ_r by lia. lia.
Qed.

(** ** Rounding does nothing to a number with at most 53 significant bits *)

Lemma shr_fexp_none m e l :
  fexp 53 1024 (Zdigits2 m + e) ≤ e → shr_fexp 53 1024 m e l = (shr_record_of_loc m l, e).
Proof.
  intros H. unfold shr_fexp, shr. zstd.
  by destruct (fexp 53 1024 (Zdigits2 m + e) - e) eqn:E; [|lia|].
Qed.

Lemma round_aux_exact s m e :
  Zdigits2 (Zpos m) = 53 → -1074 ≤ e ≤ 971 →
  binary_round_aux 53 1024 s (Zpos m) e loc_Exact = S754_finite s m e.
Proof.
  intros Hd He. unfold binary_round_aux.
  rewrite shr_fexp_none by (rewrite Hd, fexp_normal; lia).
  cbn [shr_record_of_loc shr_m loc_of_shr_record round_nearest_even].
  rewrite shr_fexp_none by (rewrite Hd, fexp_normal; lia).
  cbn [shr_record_of_loc shr_m]. zstd. destruct (Z.leb_spec e (1024 - 53)); [done|lia].
Qed.

Lemma binary_round_exact s m e :
  Zdigits2 (Zpos m) ≤ 53 → -1021 ≤ e ≤ 971 →
  binary_round 53 1024 s m e =
    S754_finite s (Z.to_pos (Zpos m * 2 ^ (53 - Zdigits2 (Zpos m)))) (e + Zdigits2 (Zpos m) - 53).
Proof.
  intros Hd He. pose proof (digits2_pos_nonneg (Zpos m) eq_refl).
  unfold binary_round. zstd. change (Zpos (digits2_pos m)) with (Zdigits2 (Zpos m)).
  rewrite fexp_normal by lia. unfold shl_align. zstd.
  set (d := Zdigits2 (Zpos m)) in *.
  replace (d + e - 53 - e) with (- (53 - d)) by lia.
  destruct (53 - d) as [|k|k] eqn:Hk; [| |lia].
  - change (- 0) with 0. cbv iota beta. rewrite Z.pow_0_r, Z.mul_1_r. rewrite round_aux_exact by lia.
    f_equal. lia.
  - change (- Zpos k) with (Zneg k). cbv iota beta.
    assert (Hm : Zpos (Pos.iter xO m k) = Zpos m * 2 ^ Zpos k) by apply iter_xO.
    rewrite round_aux_exact; [f_equal; [|lia]| |lia].
    + rewrite <-Hm. done.
    + rewrite Hm. apply digits2_unique; [|lia].
      pose proof (digits2_spec (Zpos m) eq_refl) as [Hlo Hhi]. fold d in Hlo, Hhi.
      assert (0 < 2 ^ Zpos k) by (apply Z.pow_pos_nonneg; lia).
      split.
      * replace (53 - 1) with ((d - 1) + Zpos k) by lia. rewrite Z.pow_add_r by lia. nia.
      * replace 53 with (d + Zpos k) at 1 by lia. rewrite Z.pow_add_r by lia. nia.
Qed.

(** Integers below 2^53 convert exactly, both ways. *)
Lemma dbl_of_Z_exact n :
  0 < n < 9007199254740992 →
  dbl_of_Z n = S754_finite false (Z.to_pos (n * 2 ^ (53 - Zdigits2 n))) (Zdigits2 n - 53).
Proof.
  intros Hn. unfold dbl_of_Z, binary_normalize. destruct n as [|p|p]; [lia| |lia].
  rewrite binary_round_exact; [f_equal; lia| |lia].
  pose proof (digits2_mono (Zpos p) 9007199254740991). cbn -[Zdigits2] in *.
  change (Zdigits2 9007199254740991) with 53 in *. lia.
Qed.
Lemma digits2_le53 n : 0 < n < 9007199254740992 → 0 < Zdigits2 n ≤ 53.
Proof.
  intros Hn. pose proof (digits2_mono n 9007199254740991).
  change (Zdigits2 9007199254740991) with 53 in *. pose proof (digits2_pos_nonneg n). lia.
Qed.
Lemma dtrunc_dbl_of_Z n : 0 ≤ n < 9007199254740992 → dtrunc (dbl_of_Z n) = Some n.
Proof.
  intros Hn. destruct (decide (n = 0)) as [->|]; [done|].
  rewrite dbl_of_Z_exact by lia. pose proof (digits2_le53 n ltac:(lia)).
  set (d := Zdigits2 n) in *. unfold dtrunc.
  assert (0 < 2 ^ (53 - d)) by (apply Z.pow_pos_nonneg; lia).
  rewrite Z2Pos.id by nia. f_equal.
  destruct (d - 53) as [|k|k] eqn:Hk; [|lia|].
  - replace (53 - d) with 0 by lia. lia.
  - replace (- Zneg k) with (53 - d) by lia. apply Z.div_mul. lia.
Qed.
Lemma dbl_to_u64_dbl_of_Z n : 0 ≤ n < 9007199254740992 → dbl_to_u64 (dbl_of_Z n) = Some n.
Proof.
  intros Hn. unfold dbl_to_u64. rewrite dtrunc_dbl_of_Z by done.
  rewrite bool_decide_true; [done|]. wrap_lia.
Qed.

(** ** Rounding does not pass a number that needs no rounding *)

(** [r] is what is left of [m0] after [j] bits were shifted out; [x] says that
    [m0] itself was exact. *)
Definition shifted (x : Prop) (m0 j : Z) (r : shr_record) : Prop :=
  ∃ rest, m0 = shr_m r * 2 ^ j + rest ∧ 0 ≤ rest < 2 ^ j ∧ 0 ≤ shr_m r ∧
    (rest = 0 → x → shr_r r = false ∧ shr_s r = false).

Lemma pow2_pos k : 0 ≤ k → 0 < 2 ^ k.
Proof. intros. apply Z.pow_pos_nonneg; lia. Qed.

Lemma shr_1_shifted x m0 j r : 0 ≤ j → shifted x m0 j r → shifted x m0 (j + 1) (shr_1 r).
Proof.
  intros Hj (rest & -> & Hrest & Hm & Hex). destruct r as [m fr fs]; simpl in *.
  pose proof (pow2_pos j Hj).
  unfold shifted. rewrite Z.pow_add_r by lia. change (2 ^ 1) with 2.
  destruct m as [|[p|p|]|]; simpl; [| | |  |lia].
  - exists rest. split_and!; [lia..|]. intros Hr Hx. by destruct (Hex Hr Hx) as [-> ->].
  - exists (2 ^ j + rest). split_and!; lia.
  - exists rest. split_and!; [lia..|]. intros Hr Hx. by destruct (Hex Hr Hx) as [-> ->].
  - exists (2 ^ j + rest). split_and!; lia.
Qed.
Lemma iter_shifted x m0 k j r :
  0 ≤ j → shifted x m0 j r → shifted x m0 (j + Zpos k) (SpecFloat.iter_pos shr_1 k r).
Proof.
  revert j r. induction k as [k IH|k IH|]; intros j r Hj Hr; simpl.
  - replace (j + Zpos k~1) with (j + 1 + Zpos k + Zpos k) by lia.
    apply IH; [lia|]. apply IH; [lia|]. by apply shr_1_shifted.
  - replace (j + Zpos k~0) with (j + Zpos k + Zpos k) by lia. apply IH; [lia|]. by apply IH.
  - by apply shr_1_shifted.
Qed.

(** One normalisation step. *)
Lemma shr_fexp_spec m e l :
  0 ≤ m →
  let k := Z.max 0 (fexp 53 1024 (Zdigits2 m + e) - e) in
  ∃ r, shr_fexp 53 1024 m e l = (r, e + k) ∧ shifted (l = loc_Exact) m k r.
Proof.
  intros Hm. cbv zeta. unfold shr_fexp, shr. zstd.
  assert (H0 : shifted (l = loc_Exact) m 0 (shr_record_of_loc m l)).
  { exists 0. destruct l as [|[]]; cbn [shr_record_of_loc shr_m shr_r shr_s]; rewrite Z.pow_0_r;
      (split_and!; [lia..|done]). }
  destruct (fexp 53 1024 (Zdigits2 m + e) - e) as [|k|k].
  - eexists. split; [by rewrite Z.add_0_r|done].
  - eexists. split; [reflexivity|]. change (Z.max 0 (Zpos k)) with (0 + Zpos k). by apply iter_shifted.
  - eexists. split; [by rewrite Z.add_0_r|done].
Qed.

(** The rounded mantissa is at most one unit up, and exact when nothing was
    lost. *)
Lemma round_shifted (x : Prop) m0 j r :
  shifted x m0 j r →
  let z := round_nearest_even (shr_m r) (loc_of_shr_record r) in
  shr_m r ≤ z ≤ shr_m r + 1 ∧ (m0 = shr_m r * 2 ^ j → x → z = shr_m r).
Proof.
  intros (rest & Hm0 & Hrest & Hm & Hex). cbv zeta.
  destruct r as [m fr fs]; cbn [shr_m shr_r shr_s] in *. split.
  - destruct fr, fs; simpl; try destruct (Z.even m); lia.
  - intros He Hx. destruct Hex as [-> ->]; [lia|done..].
Qed.

(** [m * 2^e ≤ n] for an integer [n]. *)
Definition le_int (m e n : Z) : Prop := m * 2 ^ Z.max 0 e ≤ n * 2 ^ Z.max 0 (- e).

Lemma le_int_shift m m' e k n : 0 ≤ k → m' * 2 ^ k ≤ m → le_int m e n → le_int m' (e + k) n.
Proof.
  unfold le_int. intros Hk Hm H. pose proof (pow2_pos k Hk).
  destruct (decide (0 ≤ e)); [|destruct (decide (0 ≤ e + k))].
  - rewrite Z.max_r, Z.max_l in * by lia. rewrite Z.pow_add_r by lia. pose proof (pow2_pos e). nia.
  - rewrite Z.max_l, Z.max_r in H by lia. rewrite Z.max_r, Z.max_l by lia.
    pose proof (pow2_pos (- e)). apply (Zmult_le_reg_r _ _ (2 ^ (- e))); [lia|].
    rewrite <-!Z.mul_assoc, <-!Z.pow_add_r by lia. replace (e + k + - e) with k by lia.
    rewrite Z.add_0_l. rewrite Z.pow_0_r in H. lia.
  - rewrite Z.max_l, Z.max_r in * by lia.
    apply (Zmult_le_reg_r _ _ (2 ^ k)); [lia|].
    rewrite <-!Z.mul_assoc, <-!Z.pow_add_r by lia. replace (- (e + k) + k) with (- e) by lia.
    rewrite Z.add_0_l. rewrite Z.pow_0_r in H. lia.
Qed.
Lemma le_int_trunc p e n :
  le_int (Zpos p) e n → ∃ t, dtrunc (S754_finite false p e) = Some t ∧ 0 ≤ t ≤ n.
Proof.
  unfold le_int. intros H. simpl. destruct e as [|e|e].
  - exists (Zpos p). split; [done|].
    change (2 ^ Z.max 0 0) with 1 in H. change (2 ^ Z.max 0 (- 0)) with 1 in H. lia.
  - exists (Zpos p * 2 ^ Zpos e). split; [done|].
    rewrite Z.max_r, Z.max_l in H by lia. rewrite Z.pow_0_r in H. pose proof (pow2_pos (Zpos e)). nia.
  - exists (Zpos p / 2 ^ (Zpos e)). split; [done|].
    rewrite Z.max_l, Z.max_r in H by lia. change (- Zneg e) with (Zpos e) in H.
    rewrite Z.pow_0_r in H. pose proof (pow2_pos (Zpos e)).
    split; [apply Z.div_pos; lia|]. apply Z.div_le_upper_bound; lia.
Qed.

(** After a shift that keeps 53 bits, the rounded mantissa is still below an
    integer of at most 53 bits. *)
Lemma rounded_le_int (x : Prop) M E n r :
  0 < M → 0 ≤ n < 9007199254740992 → E ≤ 0 →
  M ≤ n * 2 ^ (- E) → (M = n * 2 ^ (- E) → x) →
  let k := Z.max 0 (fexp 53 1024 (Zdigits2 M + E) - E) in
  shifted x M k r → le_int (round_nearest_even (shr_m r) (loc_of_shr_record r)) (E + k) n.
Proof.
  intros HM Hn HE Hle Hx k Hsh. destruct (round_shifted _ _ _ _ Hsh) as [Hup Hexact].
  set (z := round_nearest_even _ _) in *. destruct Hsh as (rest & HMeq & Hrest & Hm & _).
  assert (Hk : 0 ≤ k) by lia. pose proof (pow2_pos k Hk).
  unfold le_int. destruct (decide (E + k ≤ 0)) as [Hneg|Hpos].
  - rewrite Z.max_l, Z.max_r by lia. rewrite Z.pow_0_r, Z.mul_1_r.
    replace (- E) with (- (E + k) + k) in * by lia. rewrite Z.pow_add_r in * by lia.
    set (N := n * 2 ^ (- (E + k))) in *.
    rewrite Z.mul_assoc in Hle, Hx. fold N in Hle, Hx.
    destruct (decide (shr_m r < N)); [lia|]. assert (shr_m r = N) by nia.
    rewrite Hexact; [lia| |apply Hx]; nia.
  - exfalso.
    assert (Hfe : k = Zdigits2 M - 53).
    { unfold k, fexp, emin in *. zstd. lia. }
    pose proof (digits2_spec M HM) as [Hlo _].
    assert (2 ^ 53 * 2 ^ (- E) ≤ M).
    { rewrite <-Z.pow_add_r by lia. etransitivity; [|exact Hlo]. apply Z.pow_le_mono_r; lia. }
    pose proof (pow2_pos (- E)). change (2 ^ 53) with 9007199254740992 in *. nia.
Qed.

(** A [double] between zero and the integer [n]. *)
Definition dbl_le (x : double) (n : Z) : Prop :=
  match x with S754_zero false => 0 ≤ n | S754_finite false m e => le_int (Zpos m) e n | _ => False end.

Lemma dbl_le_to_u64 x n :
  dbl_le x n → n < 9007199254740992 → ∃ t, dbl_to_u64 x = Some t ∧ 0 ≤ t ≤ n.
Proof.
  intros Hx Hn. assert (∃ t, dtrunc x = Some t ∧ 0 ≤ t ≤ n) as (t & Ht & ?).
  { destruct x as [[]|?| |[] m e]; try done; [by exists 0|by apply le_int_trunc]. }
  exists t. split; [|done]. unfold dbl_to_u64. rewrite Ht. rewrite bool_decide_true; [done|]. wrap_lia.
Qed.

Lemma binary_round_aux_le M E l n :
  0 < M → 0 ≤ n < 9007199254740992 → E ≤ 0 →
  M ≤ n * 2 ^ (- E) → (M = n * 2 ^ (- E) → l = loc_Exact) →
  dbl_le (binary_round_aux 53 1024 false M E l) n.
Proof.
  intros HM Hn HE Hle Hl. unfold binary_round_aux.
  destruct (shr_fexp_spec M E l) as (r & -> & Hr); [lia|].
  pose proof (rounded_le_int _ M E n r HM Hn HE Hle Hl Hr) as Hle'.
  assert (0 ≤ round_nearest_even (shr_m r) (loc_of_shr_record r)) as Hz.
  { destruct (round_shifted _ _ _ _ Hr) as [[? _] _]. destruct Hr as (? & _ & _ & ? & _). lia. }
  set (z := round_nearest_even _ _) in *. set (e' := E + _) in *.
  destruct (shr_fexp_spec z e' loc_Exact) as (r' & -> & (rest & Hz' & Hrest & Hm' & _)); [lia|].
  set (k' := Z.max 0 (fexp 53 1024 (Zdigits2 z + e') - e')) in *. assert (Hk' : 0 ≤ k') by lia.
  assert (Hle2 : le_int (shr_m r') (e' + k') n) by (apply (le_int_shift z); [done|lia|done]).
  destruct (shr_m r') as [|p|p] eqn:Hm; [simpl; lia| |lia]. zstd.
  destruct (Z.leb_spec (e' + k') (1024 - 53)); [done|].
  exfalso. unfold le_int in Hle2. rewrite Z.max_r, Z.max_l in Hle2 by lia.
  assert (2 ^ 53 ≤ 2 ^ (e' + k')) by (apply Z.pow_le_mono_r; lia).
  change (2 ^ 53) with 9007199254740992 in *. lia.
Qed.

(** Scaling an integer below 2^53 by a factor [m * 2^e] does not exceed an
    integer the exact product does not exceed, however the product is rounded. *)
Lemma dmul_scaled m e n k :
  0 < n < 9007199254740992 → 0 ≤ k < 9007199254740992 → e ≤ 0 → Zpos m * n ≤ k * 2 ^ (- e) →
  dbl_le (dmul (S754_finite false m e) (dbl_of_Z n)) k ∧ dbl_le (dmul (dbl_of_Z n) (S754_finite false m e)) k.
Proof.
  intros Hn Hk He Hp. rewrite dbl_of_Z_exact by lia. pose proof (digits2_le53 n ltac:(lia)) as Hd.
  set (d := Zdigits2 n) in *. pose proof (pow2_pos (53 - d) ltac:(lia)) as Hpow.
  assert (Hle : Zpos (m * Z.to_pos (n * 2 ^ (53 - d))) ≤ k * 2 ^ (- (e + (d - 53)))).
  { rewrite Pos2Z.inj_mul, Z2Pos.id by nia. replace (- (e + (d - 53))) with (- e + (53 - d)) by lia.
    rewrite Z.pow_add_r by lia. nia. }
  split; unfold dmul, SFmul; zstd; cbn [xorb].
  - apply binary_round_aux_le; [lia|lia|lia|exact Hle|done].
  - rewrite Pos.mul_comm, (Z.add_comm (d - 53)). apply binary_round_aux_le; [lia|lia|lia|exact Hle|done].
Qed.
(** In particular by a factor of at most one. *)
Lemma dmul_down p n :
  dbl_le p 1 → 0 ≤ n < 9007199254740992 →
  dbl_le (dmul p (dbl_of_Z n)) n ∧ dbl_le (dmul (dbl_of_Z n) p) n.
Proof.
  intros Hp Hn. destruct (decide (n = 0)) as [->|Hn0].
  { by destruct p as [[]|?| |[] m e]. }
  destruct p as [[]|?| |[] m e]; try done.
  { rewrite dbl_of_Z_exact by lia. split; simpl; lia. }
  unfold dbl_le, le_int in Hp.
  assert (He : e ≤ 0).
  { destruct (decide (e ≤ 0)); [done|]. rewrite Z.max_r, Z.max_l in Hp by lia.
    assert (2 ^ 1 ≤ 2 ^ e) by (apply Z.pow_le_mono_r; lia). rewrite Z.pow_0_r in Hp. lia. }
  rewrite Z.max_l, Z.max_r, Z.pow_0_r in Hp by lia. apply dmul_scaled; [lia|lia|done|nia].
Qed.

(** The mantissa of an integer, and the quotient before rounding. *)
Definition mant (n : Z) : Z := n * 2 ^ (53 - Zdigits2 n).
Lemma mant_bounds n : 0 < n < 9007199254740992 → 4503599627370496 ≤ mant n < 9007199254740992.
Proof.
  intros Hn. pose proof (digits2_le53 n Hn) as Hd. pose proof (digits2_spec n ltac:(lia)) as Hs. unfold mant.
  set (d := Zdigits2 n) in *. pose proof (pow2_pos (53 - d) ltac:(lia)).
  change 4503599627370496 with (2 ^ 52). change 9007199254740992 with (2 ^ 53). split.
  - replace 52 with (d - 1 + (53 - d)) by lia. rewrite Z.pow_add_r by lia. nia.
  - replace 53 with (d + (53 - d)) at 2 by lia. rewrite Z.pow_add_r by lia. nia.
Qed.
Lemma ddiv_core a b : 0 < a < 9007199254740992 → 0 < b < 9007199254740992 →
  ∃ q r, mant a * 9007199254740992 = mant b * q + r ∧ 0 ≤ r < mant b ∧
    ddiv (dbl_of_Z a) (dbl_of_Z b) =
      binary_round_aux 53 1024 false q (Zdigits2 a - Zdigits2 b - 53) (new_location (mant b) r).
Proof.
  intros Ha Hb. rewrite !dbl_of_Z_exact by lia. fold (mant a) (mant b).
  pose proof (digits2_le53 a ltac:(lia)) as Hda. pose proof (digits2_le53 b ltac:(lia)) as Hdb.
  pose proof (mant_bounds a Ha) as Hma. pose proof (mant_bounds b Hb) as Hmb.
  set (da := Zdigits2 a) in *. set (db := Zdigits2 b) in *. set (m1 := mant a) in *. set (m2 := mant b) in *.
  unfold ddiv, SFdiv, SFdiv_core_binary. zstd. rewrite !Z2Pos.id by lia.
  rewrite (digits2_unique m1 53), (digits2_unique m2 53) by (simpl Z.sub; lia).
  rewrite fexp_normal by lia.
  replace (Z.min (53 + (da - 53) - (53 + (db - 53)) - 53) (da - 53 - (db - 53))) with (da - db - 53) by lia.
  replace (da - 53 - (db - 53) - (da - db - 53)) with 53 by lia. cbv iota beta.
  rewrite Z.shiftl_mul_pow2 by lia.
  pose proof (Z_div_mod (m1 * 2 ^ 53) m2 ltac:(lia)) as Hqr. zstd.
  destruct (Z.div_eucl (m1 * 2 ^ 53) m2) as [q r]. destruct Hqr as [Hqr Hr]. cbn [xorb].
  exists q, r. split_and!; [done|lia|lia|reflexivity].
Qed.

(** The quotient of integers below 2^53 is at most one when it should be. *)
Lemma ddiv_at_most_one a b :
  0 < a ≤ b → b < 9007199254740992 → dbl_le (ddiv (dbl_of_Z a) (dbl_of_Z b)) 1.
Proof.
  intros Ha Hb. destruct (ddiv_core a b) as (q & r & Hqr & Hr & ->); [lia..|].
  pose proof (digits2_le53 a ltac:(lia)) as Hda. pose proof (digits2_le53 b ltac:(lia)) as Hdb.
  pose proof (digits2_mono a b ltac:(lia)) as Hmono.
  pose proof (mant_bounds a ltac:(lia)). pose proof (mant_bounds b ltac:(lia)).
  assert (Hkey : mant a * 2 ^ 53 ≤ mant b * 2 ^ (53 + Zdigits2 b - Zdigits2 a)).
  { unfold mant. rewrite <-!Z.mul_assoc, <-!Z.pow_add_r by lia.
    replace (53 - Zdigits2 b + (53 + Zdigits2 b - Zdigits2 a)) with (53 - Zdigits2 a + 53) by lia.
    pose proof (pow2_pos (53 - Zdigits2 a + 53) ltac:(lia)). nia. }
  change (2 ^ 53) with 9007199254740992 in *.
  replace (53 + Zdigits2 b - Zdigits2 a) with (- (Zdigits2 a - Zdigits2 b - 53)) in Hkey by lia.
  apply binary_round_aux_le; [nia|lia|lia|nia|].
  intros Hq. assert (r = 0) as -> by nia.
  unfold new_location, new_location_even, new_location_odd. zstd. by destruct (Z.even (mant b)).
Qed.

(** ** Subtraction of integers is exact *)
Lemma binary_round_scaled n k :
  0 < n < 9007199254740992 → 0 ≤ k ≤ 200 →
  binary_round 53 1024 false (Z.to_pos (n * 2 ^ k)) (- k) = dbl_of_Z n.
Proof.
  intros Hn Hk. pose proof (digits2_le53 n Hn) as Hd. pose proof (digits2_spec n ltac:(lia)) as Hs.
  rewrite dbl_of_Z_exact by done. set (d := Zdigits2 n) in *.
  pose proof (pow2_pos k ltac:(lia)). pose proof (pow2_pos (53 - d) ltac:(lia)).
  assert (HM : Zpos (Z.to_pos (n * 2 ^ k)) = n * 2 ^ k) by (apply Z2Pos.id; nia).
  assert (Hdig : Zdigits2 (n * 2 ^ k) = d + k).
  { apply digits2_unique; [|lia]. split.
    - replace (d + k - 1) with (d - 1 + k) by lia. rewrite Z.pow_add_r by lia. nia.
    - rewrite Z.pow_add_r by lia. nia. }
  destruct (decide (d + k ≤ 53)) as [Hsmall|Hbig].
  { rewrite binary_round_exact by (rewrite ?HM, ?Hdig; lia). rewrite HM, Hdig.
    replace (n * 2 ^ k * 2 ^ (53 - (d + k))) with (n * 2 ^ (53 - d)); [f_equal; lia|].
    rewrite <-Z.mul_assoc, <-Z.pow_add_r by lia. f_equal. f_equal. lia. }
  unfold binary_round. zstd. change (Zpos (digits2_pos ?p)) with (Zdigits2 (Zpos p)).
  rewrite HM, Hdig, fexp_normal by lia. unfold shl_align. zstd.
  destruct (d + k + - k - 53 - - k) as [|j|j] eqn:Hj; [lia| |lia]. rewrite HM.
  assert (Hj' : Zpos j = d + k - 53) by lia. clear Hj. unfold binary_round_aux.
  destruct (shr_fexp_spec (n * 2 ^ k) (- k) loc_Exact) as (r & -> & Hr); [nia|].
  rewrite Hdig, fexp_normal in * by lia. rewrite Z.max_r in * by lia.
  replace (d + k + - k - 53 - - k) with (Zpos j) in * by lia. clear Hdig.
  assert (Hm : n * 2 ^ k = n * 2 ^ (53 - d) * 2 ^ Zpos j).
  { rewrite <-Z.mul_assoc, <-Z.pow_add_r by lia. f_equal. f_equal. lia. }
  destruct (round_shifted _ _ _ _ Hr) as [_ Hz].
  destruct Hr as (rest & Hrm & Hrest & Hrp & _). pose proof (pow2_pos (Zpos j) ltac:(lia)).
  assert (shr_m r = n * 2 ^ (53 - d)) as Hr53 by nia.
  rewrite Hz by (done || nia). rewrite Hr53.
  assert (Zdigits2 (n * 2 ^ (53 - d)) = 53) as Hd53.
  { apply digits2_unique; [|lia]. split.
    - replace (53 - 1) with (d - 1 + (53 - d)) by lia. rewrite Z.pow_add_r by lia. nia.
    - replace 53 with (d + (53 - d)) at 2 by lia. rewrite Z.pow_add_r by lia. nia. }
  rewrite shr_fexp_none by (rewrite Hd53, fexp_normal; lia). cbn [shr_record_of_loc shr_m].
  rewrite <-(Z2Pos.id (n * 2 ^ (53 - d))) by nia. zstd.
  destruct (Z.leb_spec (- k + Zpos j) (1024 - 53)); [|lia].
  rewrite ?Pos2Z.id. f_equal; lia.
Qed.

(** Multiplying an integer by one changes nothing. *)
Lemma dmul_one n : 0 ≤ n < 9007199254740992 → dmul (dbl_of_Z n) d1 = dbl_of_Z n.
Proof.
  intros Hn. destruct (decide (n = 0)) as [->|]; [done|]. pose proof (digits2_le53 n ltac:(lia)) as Hd.
  rewrite (dbl_of_Z_exact n) at 1 by lia. rewrite <-(binary_round_scaled n (105 - Zdigits2 n)) by lia.
  change d1 with (S754_finite false 4503599627370496 (-52)). set (d := Zdigits2 n) in *.
  pose proof (pow2_pos (53 - d) ltac:(lia)). pose proof (digits2_spec n ltac:(lia)) as Hs. fold d in Hs.
  assert (Hm : n * 2 ^ (105 - d) = n * 2 ^ (53 - d) * 4503599627370496).
  { change 4503599627370496 with (2 ^ 52). rewrite <-Z.mul_assoc, <-Z.pow_add_r by lia. do 2 f_equal. lia. }
  assert (HM : Zpos (Z.to_pos (n * 2 ^ (105 - d))) = n * 2 ^ (105 - d)) by (apply Z2Pos.id; nia).
  assert (Hdig : Zdigits2 (n * 2 ^ (105 - d)) = 105).
  { apply digits2_unique; [|lia]. split.
    - replace (105 - 1) with (d - 1 + (105 - d)) by lia. rewrite Z.pow_add_r by lia.
      assert (0 < 2 ^ (105 - d)) by (apply pow2_pos; lia). nia.
    - replace (2 ^ 105) with (2 ^ d * 2 ^ (105 - d)) by (rewrite <-Z.pow_add_r by lia; f_equal; lia).
      assert (0 < 2 ^ (105 - d)) by (apply pow2_pos; lia). nia. }
  unfold dmul, SFmul, binary_round. zstd. change (Zpos (digits2_pos ?p)) with (Zdigits2 (Zpos p)).
  rewrite HM, Hdig, fexp_normal by lia. unfold shl_align. zstd. cbn [xorb].
  destruct (105 + - (105 - d) - 53 - - (105 - d)) as [|j|j] eqn:Ej; [lia| |lia].
  f_equal; [|lia]. rewrite Pos2Z.inj_mul, Z2Pos.id by nia. rewrite HM. lia.
Qed.

Lemma dsub_exact a b :
  0 ≤ b < a → a < 9007199254740992 → dsub (dbl_of_Z a) (dbl_of_Z b) = dbl_of_Z (a - b).
Proof.
  intros Hb Ha. destruct (decide (b = 0)) as [->|].
  { rewrite Z.sub_0_r. by rewrite dbl_of_Z_exact by lia. }
  rewrite (dbl_of_Z_exact a), (dbl_of_Z_exact b) by lia.
  pose proof (digits2_le53 a ltac:(lia)). pose proof (digits2_le53 b ltac:(lia)).
  pose proof (digits2_mono b a ltac:(lia)).
  set (da := Zdigits2 a) in *. set (db := Zdigits2 b) in *.
  pose proof (pow2_pos (53 - da) ltac:(lia)). pose proof (pow2_pos (53 - db) ltac:(lia)).
  unfold dsub, SFsub. zstd. rewrite Z.min_r by lia. cbn [cond_Zopp].
  assert (Ha' : Zpos (shl_align (Z.to_pos (a * 2 ^ (53 - da))) (da - 53) (db - 53)).1 = a * 2 ^ (53 - db)).
  { unfold shl_align. zstd. destruct (db - 53 - (da - 53)) as [|j|j] eqn:Hj; [|lia|]; simpl.
    - replace db with da by lia. apply Z2Pos.id. nia.
    - rewrite iter_xO, Z2Pos.id by nia. rewrite <-Z.mul_assoc, <-Z.pow_add_r by lia. f_equal. f_equal. lia. }
  assert (Hb' : Zpos (shl_align (Z.to_pos (b * 2 ^ (53 - db))) (db - 53) (db - 53)).1 = b * 2 ^ (53 - db)).
  { unfold shl_align. zstd. rewrite Z.sub_diag. simpl. apply Z2Pos.id. nia. }
  rewrite Ha', Hb'.
  rewrite <-Z.mul_sub_distr_r. rewrite <-(binary_round_scaled (a - b) (53 - db)) by lia.
  replace (- (53 - db)) with (db - 53) by lia. unfold binary_normalize.
  destruct ((a - b) * 2 ^ (53 - db)) eqn:E; [nia|done|nia].
Qed.

(** ** Lower bounds *)

(** [a / 2^j ≤ m * 2^e], scaled so that all exponents are positive. *)
Definition ge_dyadic (m e a j : Z) : Prop := a * 2 ^ (2000 - j) ≤ m * 2 ^ (2000 + e).

Lemma shr_width M E : 0 < M → -1074 ≤ E → Z.max 0 (fexp 53 1024 (Zdigits2 M + E) - E) = Z.max 0 (Zdigits2 M - 53).
Proof. intros HM HE. unfold fexp, emin. zstd. lia. Qed.

Lemma rounded_ge (x : Prop) M E a j r :
  0 < M → -1074 ≤ E → 0 ≤ j ≤ 1000 → 0 < a < 9007199254740992 → ge_dyadic M E a j →
  let k := Z.max 0 (Zdigits2 M - 53) in
  shifted x M k r →
  let z := round_nearest_even (shr_m r) (loc_of_shr_record r) in
  0 < z ≤ 2 ^ 53 ∧ ge_dyadic z (E + k) a j.
Proof.
  intros HM HE Hj Ha Hge k Hsh. destruct (round_shifted _ _ _ _ Hsh) as [Hup _].
  set (z := round_nearest_even _ _) in *. destruct Hsh as (rest & HMeq & Hrest & Hm & _).
  assert (Hk : 0 ≤ k) by lia. pose proof (pow2_pos k Hk). pose proof (digits2_spec M HM) as [Hlo Hhi].
  pose proof (digits2_pos_nonneg M HM).
  assert (Hs : shr_m r < 2 ^ 53 ∧ (0 < k → 2 ^ 52 ≤ shr_m r)).
  { destruct (decide (Zdigits2 M ≤ 53)) as [Hd|Hd].
    - assert (k = 0) as -> by lia. rewrite Z.pow_0_r in *.
      assert (2 ^ Zdigits2 M ≤ 2 ^ 53) by (apply Z.pow_le_mono_r; lia). lia.
    - replace (Zdigits2 M) with (53 + k) in Hhi by lia. replace (Zdigits2 M - 1) with (52 + k) in Hlo by lia.
      rewrite Z.pow_add_r in * by lia. split; [|intros _]; nia. }
  destruct Hs as [Hs1 Hs2]. assert (0 < z).
  { destruct (decide (k = 0)) as [E0|]; [|specialize (Hs2 ltac:(lia)); change (2 ^ 52) with 4503599627370496 in *; lia].
    rewrite E0, Z.pow_0_r in *. lia. }
  split; [lia|]. unfold ge_dyadic in *.
  destruct (decide (E + k + j ≤ 0)) as [Hg|Hg].
  - replace (2000 - j) with (- (E + k + j) + k + (2000 + E)) in * by lia.
    replace (2000 + (E + k)) with (k + (2000 + E)) by lia.
    rewrite (Z.pow_add_r _ (- (E + k + j) + k)), (Z.pow_add_r _ (- (E + k + j))) in * by lia.
    rewrite (Z.pow_add_r _ k) by lia.
    pose proof (pow2_pos (2000 + E) ltac:(lia)). pose proof (pow2_pos (- (E + k + j)) ltac:(lia)).
    set (g := 2 ^ (- (E + k + j))) in *. set (p := 2 ^ (2000 + E)) in *. clearbody g p.
    assert (a * g * 2 ^ k ≤ M) by nia. assert (a * g ≤ shr_m r) by nia. nia.
  - destruct (decide (k = 0)) as [E0|].
    + rewrite E0, Z.pow_0_r, Z.add_0_r in *. pose proof (pow2_pos (2000 + E) ltac:(lia)). nia.
    + specialize (Hs2 ltac:(lia)). replace (2000 + (E + k)) with (E + k + j - 1 + 1 + (2000 - j)) by lia.
      rewrite (Z.pow_add_r _ (E + k + j - 1 + 1)), (Z.pow_add_r _ (E + k + j - 1)) by lia.
      pose proof (pow2_pos (2000 - j) ltac:(lia)). pose proof (pow2_pos (E + k + j - 1) ltac:(lia)).
      change (2 ^ 52) with 4503599627370496 in *. change (2 ^ 1) with 2.
      set (p := 2 ^ (2000 - j)) in *. set (q := 2 ^ (E + k + j - 1)) in *. clearbody p q.
      assert (4503599627370496 ≤ z * q) by nia. assert (a ≤ z * (q * 2)) by lia.
      rewrite Z.mul_assoc. apply Z.mul_le_mono_nonneg_r; lia.
Qed.

(** A finite [double] of at least [a / 2^j], with an exponent of at least [lo]. *)
Definition dbl_ge (lo : Z) (x : double) (a j : Z) : Prop :=
  match x with S754_finite false m e => lo ≤ e ∧ ge_dyadic (Zpos m) e a j | _ => False end.

Lemma binary_round_aux_ge M E l a j :
  0 < M → -1074 ≤ E → Zdigits2 M + E ≤ 900 → 0 ≤ j ≤ 1000 → 0 < a < 9007199254740992 → ge_dyadic M E a j →
  dbl_ge E (binary_round_aux 53 1024 false M E l) a j.
Proof.
  intros HM HE Hd Hj Ha Hge. pose proof (digits2_pos_nonneg M HM). unfold binary_round_aux.
  destruct (shr_fexp_spec M E l) as (r & -> & Hr); [lia|]. rewrite shr_width in * by done.
  destruct (rounded_ge _ M E a j r HM HE Hj Ha Hge Hr) as [[Hz0 Hz1] Hz].
  set (z := round_nearest_even _ _) in *. set (e' := E + _) in *.
  destruct (shr_fexp_spec z e' loc_Exact) as (r' & -> & (rest & Hz' & Hrest & Hm' & _)); [lia|].
  rewrite shr_width in * by lia. set (k' := Z.max 0 (Zdigits2 z - 53)) in *.
  assert (Hk : z = shr_m r' * 2 ^ k' ∧ k' ≤ 1).
  { destruct (decide (z = 2 ^ 53)) as [Ez|Hne].
    - assert (k' = 1) as Ek by (unfold k'; by rewrite Ez). rewrite Ek in *. split; [|lia].
      change (2 ^ 1) with 2 in *. rewrite Ez in Hz'. change (2 ^ 53) with (2 * 4503599627370496) in Hz'. lia.
    - assert (Zdigits2 z ≤ 53).
      { change 53 with (Zdigits2 9007199254740991). apply digits2_mono. change (2 ^ 53) with 9007199254740992 in *. lia. }
      assert (k' = 0) as Ek by lia. rewrite Ek, Z.pow_0_r in *. lia. }
  destruct Hk as [Hk Hk1]. assert (0 ≤ k') by lia. pose proof (pow2_pos k' ltac:(lia)).
  destruct (shr_m r') as [|p|p] eqn:Hm; [lia| |lia]. zstd.
  destruct (Z.leb_spec (e' + k') (1024 - 53)) as [_|Hbig]; [|unfold e' in Hbig; lia].
  simpl. split; [lia|]. unfold ge_dyadic in *. rewrite Hk in Hz. etransitivity; [exact Hz|].
  rewrite <-Z.mul_assoc, <-Z.pow_add_r by lia. replace (k' + (2000 + e')) with (2000 + (e' + k')) by lia. lia.
Qed.

Lemma dbl_ge_weaken lo lo' x a j : lo' ≤ lo → dbl_ge lo x a j → dbl_ge lo' x a j.
Proof. destruct x as [| | |[] m e]; try done. simpl. intros ? [? ?]. split; [lia|done]. Qed.

(** A quotient is at least [1 / 2^j] when it should be. *)
Lemma ddiv_at_least a b j :
  0 < a ≤ b → b < 9007199254740992 → 0 ≤ j ≤ 53 → b ≤ a * 2 ^ j → dbl_ge (-105) (ddiv (dbl_of_Z a) (dbl_of_Z b)) 1 j.
Proof.
  intros Ha Hb Hj Hab. destruct (ddiv_core a b) as (q & r & Hqr & Hr & ->); [lia..|].
  pose proof (digits2_le53 a ltac:(lia)) as Hda. pose proof (digits2_le53 b ltac:(lia)) as Hdb.
  pose proof (digits2_mono a b ltac:(lia)) as Hmono.
  pose proof (mant_bounds a ltac:(lia)) as Hma. pose proof (mant_bounds b ltac:(lia)) as Hmb.
  assert (Hkey : mant b * 2 ^ (53 + Zdigits2 b - Zdigits2 a - j) ≤ mant a * 2 ^ 53).
  { unfold mant. rewrite <-!Z.mul_assoc, <-!Z.pow_add_r by lia.
    replace (53 - Zdigits2 b + (53 + Zdigits2 b - Zdigits2 a - j)) with (106 - Zdigits2 a - j) by lia.
    replace (53 - Zdigits2 a + 53) with (j + (106 - Zdigits2 a - j)) by lia. rewrite Z.pow_add_r by lia.
    pose proof (pow2_pos (106 - Zdigits2 a - j) ltac:(lia)). nia. }
  change (2 ^ 53) with 9007199254740992 in Hkey. set (g := 53 + Zdigits2 b - Zdigits2 a - j) in *.
  pose proof (pow2_pos g ltac:(lia)). assert (Hq : 2 ^ g ≤ q) by nia.
  assert (Hq2 : q ≤ 2 ^ 54). { change (2 ^ 54) with 18014398509481984. nia. }
  apply (dbl_ge_weaken (Zdigits2 a - Zdigits2 b - 53)); [lia|]. apply binary_round_aux_ge; [lia|lia| |lia|lia|].
  - pose proof (digits2_mono q (2 ^ 54) ltac:(lia)). change (Zdigits2 (2 ^ 54)) with 55 in *. lia.
  - unfold ge_dyadic. replace (2000 - j) with (g + (2000 + (Zdigits2 a - Zdigits2 b - 53))) by lia.
    rewrite Z.pow_add_r by lia. pose proof (pow2_pos (2000 + (Zdigits2 a - Zdigits2 b - 53)) ltac:(lia)). nia.
Qed.

(** Scaling an integer by a factor of at least [1 / 2^j]. *)
Lemma dmul_at_least lo p n j :
  -1000 ≤ lo → dbl_le p 1 → dbl_ge lo p 1 j → 0 ≤ j ≤ 53 → 0 < n < 9007199254740992 →
  dbl_ge (lo - 52) (dmul p (dbl_of_Z n)) n j.
Proof.
  intros Hlo Hle Hge Hj Hn. destruct p as [| | |[] m e]; try done. simpl in Hge, Hle. destruct Hge as [He Hge].
  rewrite dbl_of_Z_exact by lia. fold (mant n). pose proof (digits2_le53 n Hn) as Hd.
  pose proof (mant_bounds n Hn) as Hm. unfold dmul, SFmul. zstd. cbn [xorb].
  rewrite Pos2Z.inj_mul, Z2Pos.id by lia.
  apply (dbl_ge_weaken (e + (Zdigits2 n - 53))); [lia|]. apply binary_round_aux_ge; [lia|lia| |lia|lia|].
  - unfold le_int in Hle. assert (e ≤ 0).
    { destruct (decide (e ≤ 0)); [done|]. rewrite Z.max_r, Z.max_l in Hle by lia.
      assert (2 ^ 1 ≤ 2 ^ e) by (apply Z.pow_le_mono_r; lia). rewrite Z.pow_0_r in Hle. lia. }
    rewrite Z.max_l, Z.max_r, Z.pow_0_r in Hle by lia.
    assert (Zpos m * mant n ≤ 2 ^ (- e + 53)).
    { rewrite Z.pow_add_r by lia. change (2 ^ 53) with 9007199254740992. nia. }
    pose proof (digits2_mono (Zpos m * mant n) (2 ^ (- e + 53)) ltac:(lia)) as Hdm.
    rewrite (digits2_unique (2 ^ (- e + 53)) (- e + 54)) in Hdm; [lia| |lia].
    split; [apply Z.pow_le_mono_r; lia|apply Z.pow_lt_mono_r; lia].
  - unfold ge_dyadic in *. unfold mant.
    replace (Zpos m * (n * 2 ^ (53 - Zdigits2 n)) * 2 ^ (2000 + (e + (Zdigits2 n - 53))))
      with (n * (Zpos m * (2 ^ (53 - Zdigits2 n) * 2 ^ (2000 + (e + (Zdigits2 n - 53)))))) by ring.
    rewrite <-Z.pow_add_r by lia. replace (53 - Zdigits2 n + (2000 + (e + (Zdigits2 n - 53)))) with (2000 + e) by lia.
    apply Z.mul_le_mono_nonneg_l; lia.
Qed.

(** Truncation keeps the integral part of the bound. *)
Lemma dbl_ge_trunc lo x n j z :
  -1000 ≤ lo → 0 ≤ j ≤ 53 → 0 ≤ n → dbl_ge lo x n j → dbl_to_u64 x = Some z → n / 2 ^ j ≤ z.
Proof.
  intros Hlo Hj Hn Hge Hz. destruct x as [| | |[] m e]; try done. destruct Hge as [He Hge].
  unfold dbl_to_u64 in Hz. simpl in Hz. case_bool_decide; [|done]. injection Hz as Hz. rewrite <-Hz. clear Hz H z.
  unfold ge_dyadic in Hge. pose proof (pow2_pos j ltac:(lia)). pose proof (pow2_pos (2000 - j) ltac:(lia)).
  destruct e as [|e|e].
  - apply Z.div_le_upper_bound; [lia|]. replace (2000 + 0) with (j + (2000 - j)) in Hge by lia.
    rewrite Z.pow_add_r in Hge by lia. nia.
  - apply Z.div_le_upper_bound; [lia|]. replace (2000 + Zpos e) with (j + (2000 - j) + Zpos e) in Hge by lia.
    rewrite !Z.pow_add_r in Hge by lia. pose proof (pow2_pos (Zpos e) ltac:(lia)). nia.
  - change (2000 + Zneg e) with (2000 - Zpos e) in Hge. change (Zneg e) with (- Zpos e) in He. pose proof (pow2_pos (Zpos e) ltac:(lia)).
    apply Z.div_le_lower_bound; [lia|].
    pose proof (Z.mul_div_le n (2 ^ j) ltac:(lia)). set (t := n / 2 ^ j) in *.
    assert (t * 2 ^ 2000 ≤ Zpos m * 2 ^ (2000 - Zpos e)) as Ht.
    { etransitivity; [|exact Hge]. replace 2000 with (j + (2000 - j)) at 1 by lia. rewrite Z.pow_add_r by lia. nia. }
    replace 2000 with (Zpos e + (2000 - Zpos e)) in Ht at 1 by lia. rewrite Z.pow_add_r in Ht by lia.
    pose proof (pow2_pos (2000 - Zpos e) ltac:(lia)).
    apply (Zmult_le_reg_r _ _ (2 ^ (2000 - Zpos e))); [lia|].
    change (- Zneg e) with (Zpos e). etransitivity; [|exact Ht]. apply Z.eq_le_incl. ring.
Qed.
