(* ===== verification/FloatError.v ===== *)
(** * How far [double] arithmetic is from exact arithmetic

    The rational number a [double] stands for, and the relative error of one
    product and of one quotient: at most one unit in the last place. These are
    the bounds that let the amounts of the CPU policy be specified in exact
    arithmetic ([CpuPolicy]) instead of by the computation itself. *)
From Stdlib Require Import QArith Qpower Lqa SpecFloat.
From S2P Require Import Prelude Float64.

(** The value of a finite [double]. *)
Definition dq (x : double) : Q :=
  match x with
  | S754_finite s m e => (inject_Z (if s then Zneg m else Zpos m) * 2 ^ e)%Q
  | _ => 0%Q
  end.

(** One unit in the last place, relatively. *)
Definition ulp : Q := 1 # 4503599627370496.
Definition near (k : positive) (v x : Q) : Prop :=
  ((1 - (Zpos k # 1) * ulp) * x <= v)%Q ∧ (v <= (1 + (Zpos k # 1) * ulp) * x)%Q.

(** A positive number with a full mantissa and an exponent of at least [lo]. *)
Definition normal (lo : Z) (x : double) : Prop :=
  ∃ m e, x = S754_finite false m e ∧ 4503599627370496 ≤ Zpos m < 9007199254740992 ∧ lo ≤ e.

(** A positive finite number with an exponent of at least [lo]. *)
Definition positive_from (lo : Z) (x : double) : Prop := ∃ m e, x = S754_finite false m e ∧ lo ≤ e.
Lemma normal_positive lo x : normal lo x → positive_from lo x.
Proof. intros (m & e & ? & _ & ?). by exists m, e. Qed.
Lemma normal_weaken lo lo' x : lo' ≤ lo → normal lo x → normal lo' x.
Proof. intros ? (m & e & ? & ? & ?). exists m, e. split_and!; [done|lia..]. Qed.

Lemma qpow_pos e : (0 < 2 ^ e)%Q.
Proof. apply Qpower_0_lt. lra. Qed.
Lemma qpow_Z k : 0 ≤ k → (2 ^ k == inject_Z (2 ^ k))%Q.
Proof. intros. rewrite Zpower_Qpower by done. reflexivity. Qed.
Lemma qpow_add a b : (2 ^ (a + b) == 2 ^ a * 2 ^ b)%Q.
Proof. apply Qpower_plus. lra. Qed.

Lemma near_scale k v x p : near k v x → (0 <= p)%Q → near k (v * p) (x * p).
Proof.
  intros [H1 H2] Hp. split.
  - rewrite Qmult_assoc. by apply Qmult_le_compat_r.
  - rewrite Qmult_assoc. by apply Qmult_le_compat_r.
Qed.
Lemma near_eq k v v' x x' : (v' == v)%Q → (x' == x)%Q → near k v x → near k v' x'.
Proof. intros E1 E2. unfold near. by rewrite E1, E2. Qed.

(** ** Rounding *)

Lemma round_int M E l :
  4503599627370496 ≤ M → -1074 ≤ E →
  let y := binary_round_aux 53 1024 false M E l in
  y = S754_infinity false ∨
  ∃ m k, y = S754_finite false m (E + k) ∧ 4503599627370496 ≤ Zpos m < 9007199254740992 ∧ 0 ≤ k ∧
    Z.abs (Zpos m * 2 ^ k - M) * 4503599627370496 ≤ M.
Proof.
  intros HM HE. cbv zeta. unfold binary_round_aux. pose proof (digits2_spec M ltac:(lia)) as [Hlo Hhi].
  assert (53 ≤ Zdigits2 M) as Hd.
  { change 53 with (Zdigits2 4503599627370496). apply digits2_mono. lia. }
  destruct (shr_fexp_spec M E l) as (r & -> & Hr); [lia|]. rewrite shr_width in * by lia.
  rewrite Z.max_r in * by lia. set (k := Zdigits2 M - 53) in *.
  destruct (round_shifted _ _ _ _ Hr) as [Hup _]. set (z := round_nearest_even _ _) in *.
  destruct Hr as (rest & HMeq & Hrest & Hm & _). pose proof (pow2_pos k ltac:(lia)) as Hk.
  replace (Zdigits2 M) with (53 + k) in Hhi by lia. replace (Zdigits2 M - 1) with (52 + k) in Hlo by lia.
  rewrite Z.pow_add_r in Hlo, Hhi by lia. change (2 ^ 52) with 4503599627370496 in *.
  change (2 ^ 53) with 9007199254740992 in *.
  assert (4503599627370496 ≤ z ≤ 9007199254740992) as Hz by nia.
  assert (Z.abs (z * 2 ^ k - M) ≤ 2 ^ k) as Herr by nia.
  destruct (shr_fexp_spec z (E + k) loc_Exact) as (r' & -> & (rest' & Hz' & Hrest' & Hm' & _)); [lia|].
  rewrite shr_width in * by lia. zstd. destruct (decide (z = 9007199254740992)) as [Ez|].
  - rewrite Ez in *. change (Z.max 0 (Zdigits2 9007199254740992 - 53)) with 1 in *. change (2 ^ 1) with 2 in *.
    destruct (shr_m r') as [|p|p] eqn:Hp; [lia| |lia].
    destruct (Z.leb_spec (E + k + 1) (1024 - 53)) as [_|_]; [right|by left].
    exists p, (k + 1). split; [f_equal; lia|]. split; [lia|]. split; [lia|].
    rewrite Z.pow_add_r by lia. change (2 ^ 1) with 2. nia.
  - assert (Zdigits2 z ≤ 53).
    { change 53 with (Zdigits2 9007199254740991). apply digits2_mono. lia. }
    rewrite Z.max_l in * by lia. rewrite Z.pow_0_r in *.
    destruct (shr_m r') as [|p|p] eqn:Hp; [lia| |lia].
    destruct (Z.leb_spec (E + k + 0) (1024 - 53)) as [_|_]; [right|by left].
    exists p, k. split; [f_equal; lia|]. split; [lia|]. split; [lia|]. assert (Zpos p = z) as -> by lia. nia.
Qed.

Lemma round_near M E l :
  4503599627370496 ≤ M → -1074 ≤ E →
  let y := binary_round_aux 53 1024 false M E l in
  y = S754_infinity false ∨ normal E y ∧ near 1 (dq y) (inject_Z M * 2 ^ E).
Proof.
  intros HM HE y. destruct (round_int M E l HM HE) as [?|(m & k & Hy & Hm & Hk & Herr)]; [by left|right].
  fold y in Hy. split; [exists m, (E + k); split_and!; [done|lia..]|]. rewrite Hy.
  assert (near 1 (inject_Z (Zpos m * 2 ^ k)) (inject_Z M)) as Hn.
  { assert (inject_Z (M * 4503599627370495) <= inject_Z (Zpos m * 2 ^ k * 4503599627370496))%Q by (rewrite <-Zle_Qle; lia).
    assert (inject_Z (Zpos m * 2 ^ k * 4503599627370496) <= inject_Z (M * 4503599627370497))%Q by (rewrite <-Zle_Qle; lia).
    rewrite !(inject_Z_mult _ (Zpos _)) in *. unfold near, ulp, inject_Z in *. split; lra. }
  apply (near_scale _ _ _ (2 ^ E)) in Hn; [|apply Qlt_le_weak, qpow_pos]. revert Hn. apply near_eq; [|reflexivity].
  simpl. rewrite qpow_add, (qpow_Z k) by done. rewrite inject_Z_mult. ring.
Qed.

(** ** Integers, products, quotients *)

Lemma dbl_of_Z_value n :
  0 < n < 9007199254740992 → normal (-52) (dbl_of_Z n) ∧ (dq (dbl_of_Z n) == inject_Z n)%Q.
Proof.
  intros Hn. rewrite dbl_of_Z_exact by done. fold (mant n). pose proof (mant_bounds n Hn) as Hm.
  pose proof (digits2_le53 n Hn) as Hd. split.
  - eexists _, _. split; [done|]. rewrite Z2Pos.id by lia. lia.
  - unfold dq. rewrite Z2Pos.id by lia. unfold mant. rewrite inject_Z_mult, <-qpow_Z by lia.
    rewrite <-Qmult_assoc, <-qpow_add. replace (53 - Zdigits2 n + (Zdigits2 n - 53)) with 0 by lia.
    change (2 ^ 0)%Q with 1%Q. ring.
Qed.
Lemma dmul_near lo lo' x y :
  normal lo x → positive_from lo' y → -1074 ≤ lo + lo' →
  dmul x y = S754_infinity false ∨ normal (lo + lo') (dmul x y) ∧ near 1 (dq (dmul x y)) (dq x * dq y).
Proof.
  intros (m & e & -> & Hm & He) (m' & e' & -> & He') Hlo. unfold dmul, SFmul. zstd. cbn [xorb].
  destruct (round_near (Zpos (m * m')) (e + e') loc_Exact) as [?|[(n & f & Hy & ? & ?) Hn]]; [nia|lia|by left|right].
  split; [exists n, f; split_and!; [done|lia..]|]. revert Hn. apply near_eq; [reflexivity|].
  simpl. rewrite qpow_add. change (Zpos (m * m')) with (Zpos m * Zpos m'). rewrite inject_Z_mult. ring.
Qed.

(** A quotient that was rounded down to an integer of 53 bits. *)
Lemma floor_near (q : Z) (x : Q) :
  4503599627370496 ≤ q → (inject_Z q <= x < inject_Z q + 1)%Q → near 1 (inject_Z q) x.
Proof.
  intros Hq [H1 H2]. assert (inject_Z 4503599627370496 <= inject_Z q)%Q as Hq' by (rewrite <-Zle_Qle; lia).
  unfold near, ulp, inject_Z in *. split; lra.
Qed.
Lemma near_trans j k l v x y :
  near j v x → near k x y → (0 <= y)%Q → (j + k < l)%positive → (l < 1000)%positive → near l v y.
Proof.
  intros [H1 H2] [H3 H4] Hy Hl Hb. unfold near, ulp in *.
  assert (Zpos j # 1 <= 1000)%Q by (unfold Qle; simpl; lia). assert (Zpos k # 1 <= 1000)%Q by (unfold Qle; simpl; lia).
  assert (0 <= Zpos j # 1)%Q by (unfold Qle; simpl; lia). assert (0 <= Zpos k # 1)%Q by (unfold Qle; simpl; lia).
  assert ((Zpos j # 1) + (Zpos k # 1) + 1 <= (Zpos l # 1))%Q by (unfold Qle, Qplus; simpl; lia).
  set (a := Zpos j # 1) in *. set (b := Zpos k # 1) in *. set (c := Zpos l # 1) in *. clearbody a b c.
  assert (0 <= a * b <= 1000000)%Q as [Hab Hab'] by (split; nra). assert (0 <= (a * b) * y)%Q by nra.
  assert (0 <= (c - a - b - 1) * y)%Q by nra. assert ((a * b) * y <= 1000000 * y)%Q by nra.
  assert (0 <= a * y)%Q by nra. assert (a * y <= 1000 * y)%Q by nra.
  assert (a * x <= a * ((1 + b * (1 # 4503599627370496)) * y))%Q by nra.
  assert (a * ((1 - b * (1 # 4503599627370496)) * y) <= a * x)%Q by nra. split; lra.
Qed.
Lemma near_mul j k l v w x y :
  near j v x → near k w y → (0 <= w)%Q → (0 <= x)%Q → (0 <= y)%Q → (j + k < l)%positive → (l < 1000)%positive →
  near l (v * w) (x * y).
Proof.
  intros Hv Hw ??? Hl ?. apply (near_trans j k l _ (x * w)); [by apply near_scale| |nra|done|done].
  apply (near_scale _ _ _ x) in Hw; [|done]. revert Hw. apply near_eq; ring.
Qed.
Lemma near_refl v : (0 <= v)%Q → near 1 v v.
Proof. intros. unfold near, ulp. split; nra. Qed.
Lemma dq_nonneg lo x : positive_from lo x → (0 <= dq x)%Q.
Proof.
  intros (m & e & -> & _). simpl. pose proof (qpow_pos e). assert (0 <= inject_Z (Zpos m))%Q by (rewrite <-(Zle_Qle 0); lia). nra.
Qed.

(** A 64-bit integer as a [double]. *)
Lemma dbl_of_Z_near n :
  0 < n < 18446744073709551616 →
  dbl_of_Z n = S754_infinity false ∨ normal (-52) (dbl_of_Z n) ∧ near 1 (dq (dbl_of_Z n)) (inject_Z n).
Proof.
  intros Hn. assert (0 < inject_Z n)%Q by (rewrite <-(Zlt_Qlt 0); lia). destruct (decide (n < 9007199254740992)).
  { destruct (dbl_of_Z_value n ltac:(lia)) as [? Hv]. right. split; [done|].
    apply (near_eq _ _ _ _ _ Hv (reflexivity _)). apply near_refl. lra. }
  assert (54 ≤ Zdigits2 n). { change 54 with (Zdigits2 9007199254740992). apply digits2_mono. lia. }
  destruct n as [|p|p]; [lia| |lia].
  assert (dbl_of_Z (Zpos p) = binary_round_aux 53 1024 false (Zpos p) 0 loc_Exact) as ->.
  { unfold dbl_of_Z, binary_normalize, binary_round. zstd. change (Zpos (digits2_pos p)) with (Zdigits2 (Zpos p)).
    rewrite fexp_normal by lia. unfold shl_align. zstd. by destruct (Zdigits2 (Zpos p) + 0 - 53 - 0) eqn:E; [lia| |lia]. }
  destruct (round_near (Zpos p) 0 loc_Exact) as [?|[? Hr]]; [lia|lia|by left|right].
  split; [by apply (normal_weaken 0)|]. revert Hr. apply near_eq; [reflexivity|]. change (2 ^ 0)%Q with 1%Q. ring.
Qed.

Lemma ddiv_near a b :
  0 < a < 9007199254740992 → 0 < b < 9007199254740992 →
  let y := ddiv (dbl_of_Z a) (dbl_of_Z b) in
  y = S754_infinity false ∨ normal (-105) y ∧ near 3 (dq y) (inject_Z a / inject_Z b).
Proof.
  intros Ha Hb y. destruct (ddiv_core a b Ha Hb) as (q & r & Hqr & Hr & Hy). fold y in Hy.
  pose proof (mant_bounds a Ha). pose proof (mant_bounds b Hb).
  pose proof (digits2_le53 a Ha). pose proof (digits2_le53 b Hb). set (E := Zdigits2 a - Zdigits2 b - 53) in *.
  assert (4503599627370496 ≤ q) as Hq by nia.
  destruct (round_near q E (new_location (mant b) r) Hq ltac:(lia)) as [Hi|[(m & e & Hm & ? & ?) Hn]];
    [left; congruence|right]. rewrite <-Hy in *.
  split; [exists m, e; split_and!; [done|lia..]|].
  set (x := (inject_Z (mant a) * 2 ^ 53 / inject_Z (mant b))%Q).
  assert (0 < inject_Z (mant b))%Q as Hbp by (rewrite <-(Zlt_Qlt 0); lia).
  assert (0 < inject_Z b)%Q as Hbp' by (rewrite <-(Zlt_Qlt 0); lia).
  assert (0 < inject_Z a)%Q as Hap' by (rewrite <-(Zlt_Qlt 0); lia).
  assert (near 1 (inject_Z q) x) as Hx.
  { apply floor_near; [done|]. unfold x. split.
    - apply Qle_shift_div_l; [done|]. rewrite qpow_Z, <-!inject_Z_mult, <-Zle_Qle by lia. change (2 ^ 53) with 9007199254740992. lia.
    - apply Qlt_shift_div_r; [done|]. change 1%Q with (inject_Z 1).
      rewrite qpow_Z, <-inject_Z_plus, <-!inject_Z_mult, <-Zlt_Qlt by lia. change (2 ^ 53) with 9007199254740992. lia. }
  apply (near_scale _ _ _ (2 ^ E)) in Hx; [|apply Qlt_le_weak, qpow_pos].
  assert (x * 2 ^ E == inject_Z a / inject_Z b)%Q as Exb.
  { unfold x, mant. rewrite !inject_Z_mult, <-!qpow_Z by lia.
    assert (2 ^ (53 - Zdigits2 a) * 2 ^ 53 * 2 ^ E == 2 ^ (53 - Zdigits2 b))%Q as Ep.
    { rewrite <-!qpow_add. f_equiv. lia. }
    pose proof (qpow_pos (53 - Zdigits2 b)). unfold Qdiv.
    transitivity (inject_Z a * (2 ^ (53 - Zdigits2 a) * 2 ^ 53 * 2 ^ E) * / (inject_Z b * 2 ^ (53 - Zdigits2 b)))%Q; [ring|].
    rewrite Ep. field. split; lra. }
  apply (near_eq _ _ _ _ _ (reflexivity (dq y)) (symmetry Exb)). apply (near_trans 1 1 _ _ (inject_Z q * 2 ^ E)); try done.
  rewrite Exb. apply Qle_shift_div_l; [done|]. lra.
Qed.

Lemma dlt_value lo lo' x y : normal lo x → normal lo' y → dlt x y = true ↔ (dq x < dq y)%Q.
Proof.
  intros (m & e & -> & Hm & He) (m' & e' & -> & Hm' & He'). unfold dlt, SFltb, SFcompare. zstd. simpl dq.
  destruct (Z.compare_spec e e') as [->|Hlt|Hgt]; simpl.
  - change (Pos.compare_cont Eq m m') with (Pos.compare m m').
    destruct (Pos.compare_spec m m') as [->|Hp|Hp]; split; intros H; try done.
    + apply Qlt_irrefl in H. done.
    + apply Qmult_lt_r; [apply qpow_pos|]. rewrite <-Zlt_Qlt. lia.
    + apply Qmult_lt_r in H; [|apply qpow_pos]. rewrite <-Zlt_Qlt in H. lia.
  - split; [intros _|done]. replace e' with ((e' - e - 1) + 1 + e) by lia. rewrite !qpow_add, Qmult_assoc.
    apply Qmult_lt_r; [apply qpow_pos|]. rewrite (qpow_Z (e' - e - 1)) by lia. change (2 ^ 1)%Q with (inject_Z 2).
    rewrite <-!inject_Z_mult, <-Zlt_Qlt. pose proof (pow2_pos (e' - e - 1) ltac:(lia)). nia.
  - split; [done|intros H]. exfalso. replace e with ((e - e' - 1) + 1 + e') in H by lia. rewrite !qpow_add, Qmult_assoc in H.
    apply Qmult_lt_r in H; [|apply qpow_pos]. rewrite (qpow_Z (e - e' - 1)) in H by lia. change (2 ^ 1)%Q with (inject_Z 2) in H.
    rewrite <-!inject_Z_mult, <-Zlt_Qlt in H. pose proof (pow2_pos (e - e' - 1) ltac:(lia)). nia.
Qed.

Lemma dbl_to_u64_value lo x z :
  normal lo x → dbl_to_u64 x = Some z → (inject_Z z <= dq x < inject_Z z + 1)%Q.
Proof.
  intros (m & e & -> & Hm & He). unfold dbl_to_u64, dtrunc. case_bool_decide; [|done]. intros [= <-]. simpl dq.
  change 1%Q with (inject_Z 1). destruct e as [|e|e].
  - change (2 ^ 0)%Q with (inject_Z 1). rewrite <-inject_Z_mult, <-inject_Z_plus, <-Zle_Qle, <-Zlt_Qlt. lia.
  - rewrite qpow_Z by lia. rewrite <-inject_Z_mult, <-inject_Z_plus, <-Zle_Qle, <-Zlt_Qlt. lia.
  - assert (2 ^ Zneg e == / inject_Z (2 ^ Zpos e))%Q as ->.
    { rewrite <-qpow_Z by lia. change (Zneg e) with (- Zpos e). by rewrite Qpower_opp. }
    change (- Zneg e) with (Zpos e). pose proof (pow2_pos (Zpos e) ltac:(lia)) as Hp.
    assert (0 < inject_Z (2 ^ Zpos e))%Q by (rewrite <-(Zlt_Qlt 0); lia).
    pose proof (Z.div_mod (Zpos m) (2 ^ Zpos e) ltac:(lia)). pose proof (Z.mod_pos_bound (Zpos m) (2 ^ Zpos e) Hp).
    split; [apply Qle_shift_div_l|apply Qlt_shift_div_r]; try done;
      rewrite <-?inject_Z_plus, <-inject_Z_mult, <-?Zle_Qle, <-?Zlt_Qlt; nia.
Qed.

(** [z] is the integral part of [x] but for a relative error of eight units. *)
Definition about (z : Z) (x : Q) : Prop :=
  (inject_Z z <= (1 + 8 * ulp) * x)%Q ∧ ((1 - 8 * ulp) * x < inject_Z z + 1)%Q.
Lemma near_about k lo x z v :
  near k (dq x) v → normal lo x → (k < 8)%positive → (0 <= v)%Q → dbl_to_u64 x = Some z → about z v.
Proof.
  intros [H1 H2] Hx Hk Hv Hz. destruct (dbl_to_u64_value _ _ _ Hx Hz) as [H3 H4].
  assert (Zpos k # 1 <= 8)%Q by (unfold Qle; simpl; lia). unfold about, ulp in *.
  set (a := Zpos k # 1) in *. clearbody a. assert (a * v <= 8 * v)%Q by nra. split; lra.
Qed.

(** A product of a nearby factor and a 64-bit integer, converted to an integer. *)
Lemma scaled_about lo k p v n z :
  normal lo p → near k (dq p) v → (k < 4)%positive → (0 <= v)%Q → -1000 ≤ lo → 0 < n < 18446744073709551616 →
  dbl_to_u64 (dmul p (dbl_of_Z n)) = Some z → about z (v * inject_Z n).
Proof.
  intros Hp Hv Hk Hv0 Hlo Hn Hz. assert (0 < inject_Z n)%Q by (rewrite <-(Zlt_Qlt 0); lia).
  destruct (dbl_of_Z_near n Hn) as [Hi|[Hn1 Hn2]].
  { destruct Hp as (m & e & -> & _). rewrite Hi in Hz. done. }
  destruct (dmul_near _ _ _ _ Hp (normal_positive _ _ Hn1)) as [Hi|[Hm1 Hm2]]; [lia|by rewrite Hi in Hz|].
  eapply (near_about 7); [|exact Hm1|done| |exact Hz]; [|nra].
  apply (near_trans 1 5 _ _ (dq p * dq (dbl_of_Z n))); [done| |nra|done|done].
  apply (near_mul k 1); [done|done|by eapply dq_nonneg, normal_positive|done|lra|lia|done].
Qed.

(** ** Bounds as statements about values *)
Lemma dbl_le_value x n : dbl_le x n → (dq x <= inject_Z n)%Q.
Proof.
  destruct x as [[]|?| |[] m e]; simpl; try done; [intros; rewrite <-(Zle_Qle 0); lia|]. unfold le_int. intros H.
  destruct (decide (0 ≤ e)).
  - rewrite Z.max_r, Z.max_l, Z.pow_0_r in H by lia. rewrite qpow_Z, <-inject_Z_mult, <-Zle_Qle by lia. lia.
  - rewrite Z.max_l, Z.max_r, Z.pow_0_r in H by lia. replace e with (- - e) by lia. rewrite Qpower_opp.
    assert (0 < 2 ^ (- e))%Q by apply qpow_pos. apply Qle_shift_div_r; [done|].
    rewrite qpow_Z, <-inject_Z_mult, <-Zle_Qle by lia. rewrite ?Z.opp_involutive. lia.
Qed.
Lemma dbl_ge_value lo x a j : -1000 ≤ lo → 0 ≤ j ≤ 1000 → dbl_ge lo x a j → (inject_Z a * 2 ^ (- j) <= dq x)%Q.
Proof.
  intros Hlo Hj. destruct x as [| | |[] m e]; try done. intros [He H]. unfold ge_dyadic in H. simpl.
  apply (Qmult_le_r _ _ (2 ^ 2000)); [apply qpow_pos|]. rewrite <-!Qmult_assoc, <-!qpow_add.
  rewrite !qpow_Z, <-!inject_Z_mult, <-Zle_Qle by lia. rewrite (Z.add_comm (- j)), (Z.add_comm e). exact H.
Qed.

(** A quotient of integers below 2^52 is above one when it should be. *)
Lemma ddiv_above_one a b :
  0 < b < a → a < 4503599627370496 → (1 < dq (ddiv (dbl_of_Z a) (dbl_of_Z b)))%Q.
Proof.
  intros Hb Ha. apply (Qlt_le_trans _ (inject_Z 4503599627370497 * 2 ^ (- 52))); [by vm_compute|].
  destruct (ddiv_core a b) as (q & r & Hqr & Hr & ->); [lia..|].
  pose proof (mant_bounds a ltac:(lia)) as Hma. pose proof (mant_bounds b ltac:(lia)) as Hmb.
  pose proof (digits2_le53 a ltac:(lia)). pose proof (digits2_le53 b ltac:(lia)).
  assert (Hm : Zdigits2 b ≤ Zdigits2 a) by (apply digits2_mono; lia).
  apply (dbl_ge_value (Zdigits2 a - Zdigits2 b - 53) _ 4503599627370497 52); [lia..|].
  assert (4503599627370496 ≤ q ≤ 18014398509481984) as Hq by nia. apply binary_round_aux_ge; [lia|lia| |lia|lia|].
  { pose proof (digits2_mono q 18014398509481984 ltac:(lia)) as Hd. change (Zdigits2 18014398509481984) with 55 in Hd. lia. }
  unfold ge_dyadic. unfold mant in Hqr, Hr. set (da := Zdigits2 a) in *. set (db := Zdigits2 b) in *.
  change 9007199254740992 with (2 ^ 53) in Hqr.
  destruct (decide (da ≤ db + 1)) as [Hd|Hd].
  - assert (4503599627370497 * 2 ^ (1 + db - da) ≤ q) as Hge.
    { assert (2 ^ (53 - da) * 2 ^ 53 = 2 ^ (53 - db) * 2 ^ (53 + db - da)) as E by (rewrite <-!Z.pow_add_r by lia; f_equal; lia).
      replace (53 + db - da) with (1 + db - da + 52) in E by lia. rewrite (Z.pow_add_r _ _ 52) in E by lia.
      change (2 ^ 52) with 4503599627370496 in E. pose proof (pow2_pos (53 - db) ltac:(lia)).
      pose proof (pow2_pos (1 + db - da) ltac:(lia)). set (f := 2 ^ (1 + db - da)) in *. set (g := 2 ^ (53 - db)) in *.
      assert (a * (g * (f * 4503599627370496)) = b * g * q + r) as Hq' by (rewrite <-Hqr, <-E; ring). clear E Hqr Hma Hmb Hq.
      assert (b * 4503599627370497 ≤ a * 4503599627370496) as Hab by lia.
      assert (g * f * (b * 4503599627370497) ≤ g * f * (a * 4503599627370496)) by (apply Z.mul_le_mono_nonneg_l; nia).
      assert (b * g * (4503599627370497 * f) < b * g * (q + 1)) as Hlt by lia.
      apply Z.mul_lt_mono_pos_l in Hlt; [lia|nia]. }
    replace (2000 - 52) with ((1 + db - da) + (2000 + (da - db - 53))) by lia. rewrite Z.pow_add_r by lia.
    pose proof (pow2_pos (2000 + (da - db - 53)) ltac:(lia)). nia.
  - replace (2000 + (da - db - 53)) with ((da - db - 1) + (2000 - 52)) by lia. rewrite Z.pow_add_r by lia.
    pose proof (pow2_pos (2000 - 52) ltac:(lia)).
    assert (2 ≤ 2 ^ (da - db - 1)) by (change 2 with (2 ^ 1) at 1; apply Z.pow_le_mono_r; lia). nia.
Qed.
