(* ===== verification/Window.v ===== *)
(** * The sliding window of the CPU statistics ([src/stats/window/])

    [Window<T, K>] is a template over the element type [K]; the template
    parameter is the type class [Kops] below, instantiated at [double] (the
    only instance the program uses) and, to say what the class computes
    before rounding, at the rationals. [T] only types the two trend fields. *)
From Stdlib Require Import QArith Qcanon.
From S2P Require Import Prelude Float64.
#[local] Open Scope Z_scope.

(** What the template needs of [K]: the conversions from [uint32_t], the four
    operations, and the comparison with the literal [0.001]. *)
Class Kops (K : Type) := {
  k_of_u32 : Z → K;
  k_add : K → K → K;
  k_sub : K → K → K;
  k_mul : K → K → K;
  k_div : K → K → K;
  k_lt_1em3 : K → bool;
}.

Module Window.

Record Window (K : Type) := mkWindow {
  winsize : Z;
  mean : K;
  periods_elapsed : Z;
  trend : Z;
  offset : Z;
  popped : K;
  winstat : list K;
}.
Arguments mkWindow {K}.
Arguments winsize {K}.
Arguments mean {K}.
Arguments periods_elapsed {K}.
Arguments trend {K}.
Arguments offset {K}.
Arguments popped {K}.
Arguments winstat {K}.

Section Ops.
Context {K : Type} `{!Kops K}.

(** [Window(uint32_t _winsize)]. *)
Definition new (_winsize : Z) : Window K :=
  mkWindow _winsize (k_of_u32 0) 1 0 0 (k_of_u32 0) (replicate (Z.to_nat _winsize) (k_of_u32 0)).

Definition get_mean (w : Window K) : K := mean w.

Definition update_stats (element : K) (w : Window K) : K * Window K :=
  let p := periods_elapsed w in
  let mean1 :=
    if p <=? winsize w
    then k_div (k_add (k_mul (k_of_u32 (u32 (p - 1))) (mean w)) element) (k_of_u32 p)
    else k_add (mean w) (k_div (k_sub element (popped w)) (k_of_u32 (winsize w))) in
  let mean2 := if k_lt_1em3 mean1 then k_of_u32 0 else mean1 in
  (mean2, mkWindow (winsize w) mean2 (u32 (p + 1)) (trend w) (offset w) (popped w) (winstat w)).

(** [None] is an index outside the vector (or a window of size zero), which
    [operator[]] does not check. *)
Definition insert (element : K) (w : Window K) : option (K * Window K) :=
  let idx := Z.to_nat (periods_elapsed w mod winsize w) in
  match winstat w !! idx with
  | Some old =>
      Some (update_stats element
        (mkWindow (winsize w) (mean w) (periods_elapsed w) (trend w) (offset w) old
           (<[idx := element]> (winstat w))))
  | None => None
  end.

Definition flush (w : Window K) : Window K :=
  mkWindow (winsize w) (k_of_u32 0) (periods_elapsed w) 0 0 (k_of_u32 0)
    (replicate (length (winstat w)) (k_of_u32 0)).

(** Sequences of calls. *)
Inductive call := Insert (element : K) | Flush.
Definition run1 (c : call) (w : Window K) : option (Window K) :=
  match c with
  | Insert e => snd <$> insert e w
  | Flush => Some (flush w)
  end.
Fixpoint run (cs : list call) (w : Window K) : option (Window K) :=
  match cs with
  | [] => Some w
  | c :: cs => match run1 c w with Some w' => run cs w' | None => None end
  end.

End Ops.

(** The type invariant: the vector keeps the size the window was built with,
    and the period counter is a [uint32_t]. *)
Definition wf {K} (w : Window K) : Prop :=
  0 < winsize w < 4294967296 ∧ Z.of_nat (length (winstat w)) = winsize w ∧ is_u32 (periods_elapsed w).

End Window.

#[export] Instance Kops_double : Kops double := {|
  k_of_u32 := dbl_of_Z; k_add := dadd; k_sub := dsub; k_mul := dmul; k_div := ddiv;
  k_lt_1em3 x := dlt x d_1em3;
|}.

(** ** The trend ([update_trend], for [K = double] as in the program)

    The sums are [uint64_t]: adding a [double] converts there and back, which is
    undefined when the sum does not fit. [to_T] converts to the type [T] of the
    trend ([int64_t] or [uint32_t]). *)
Module Trend.
Import Window.

Record sums := Sums { sum_x : Z; sum_ind : Z; sum_x_ind : Z; sum_x2 : Z }.
Definition plus (s : Z) (x : double) : option Z := dbl_to_u64 (dadd (dbl_of_Z s) x).
Definition add_entry (a : sums) (x : double) : option sums :=
  sx ← plus (sum_x a) x;
  sxi ← plus (sum_x_ind a) (dmul x d1);
  sx2 ← plus (sum_x2 a) (dmul x x);
  Some (Sums sx (u64 (sum_ind a + 1)) sxi sx2).
Fixpoint add_entries (a : sums) (xs : list double) : option sums :=
  match xs with
  | [] => Some a
  | x :: xs => a' ← add_entry a x; add_entries a' xs
  end.
Definition update_trend (to_T : Z → Z) (w : Window double) : option (Window double) :=
  xs ← mapM (λ i, winstat w !! i) (seq 0 (Z.to_nat (winsize w)));
  s ← add_entries (Sums 0 0 0 0) xs;
  let div := u64 (u64 (winsize w * sum_x2 s) - u64 (sum_x s * sum_x s)) in
  let '(t, o) :=
    if div =? 0 then (to_T 0, to_T 1)
    else
      let t := to_T (u64 (u64 (winsize w * sum_x_ind s) - u64 (sum_x s * sum_ind s)) / div) in
      (t, to_T (u64 (sum_ind s - u64 (t * sum_x s)) / winsize w)) in
  Some (mkWindow (winsize w) (mean w) (periods_elapsed w) t o (popped w) (winstat w)).

Definition counts (x : double) : Prop := ∃ n, 0 ≤ n < 9007199254740992 ∧ x = dbl_of_Z n.
Lemma add_entries_flat xs : ∀ a s,
  Forall counts xs → add_entries a xs = Some s → sum_x_ind a = sum_x a →
  0 ≤ sum_ind a → sum_ind a + Z.of_nat (length xs) < 18446744073709551616 →
  sum_x_ind s = sum_x s ∧ sum_ind s = sum_ind a + Z.of_nat (length xs).
Proof.
  induction xs as [|x xs IH]; intros a s Hxs E Ha H0 Hlen; cbn [add_entries length] in *.
  { injection E as <-. split; [done|lia]. }
  apply Forall_cons in Hxs as [(n & Hn & ->) Hxs].
  apply bind_Some in E as (a' & Ea & E). unfold add_entry in Ea. rewrite dmul_one, Ha in Ea by done.
  apply bind_Some in Ea as (sx & E1 & Ea). rewrite E1 in Ea. cbn [mbind option_bind] in Ea.
  apply bind_Some in Ea as (sx2 & _ & Ea). injection Ea as <-.
  destruct (IH _ _ Hxs E) as [H1 H2]; simpl; [done|wrap_lia|rewrite u64_small by wrap_lia; lia|].
  split; [done|]. rewrite H2. simpl. rewrite u64_small by wrap_lia. lia.
Qed.
(** The time index is 1 in every period, so the slope is zero whatever the
    window holds, and the offset is one. *)
Theorem trend_always_flat to_T w w' :
  wf w → Forall counts (winstat w) → to_T 0 = 0 → to_T 1 = 1 → update_trend to_T w = Some w' →
  trend w' = 0 ∧ offset w' = 1.
Proof.
  intros (Hs & Hl & _) Hc H0 H1 E. unfold update_trend in E.
  apply bind_Some in E as (xs & Exs & E). apply bind_Some in E as (s & Es & E).
  apply mapM_Some in Exs. pose proof (Forall2_length _ _ _ Exs) as Hlen. rewrite length_seq in Hlen.
  assert (Hxs : Forall counts xs).
  { apply Forall_lookup_2. intros i x Hx. destruct (Forall2_lookup_r _ _ _ _ _ Exs Hx) as (j & _ & Hj).
    by eapply Forall_lookup_1. }
  destruct (add_entries_flat xs _ s Hxs Es) as [Hxi Hind]; simpl; [done|lia|lia|]. simpl in Hind.
  assert (Hn : sum_ind s = winsize w) by lia. rewrite Hxi, Hn in E.
  replace (sum_x s * winsize w) with (winsize w * sum_x s) in E by lia. rewrite Z.sub_diag in E.
  destruct (_ =? 0); injection E as <-; simpl; [done|]. change (u64 0) with 0. rewrite Zdiv_0_l, H0.
  split; [done|]. rewrite Z.mul_0_l. change (u64 0) with 0. rewrite Z.sub_0_r, u64_small, Z.div_same by wrap_lia. done.
Qed.
Lemma trend_always_flat_witness :
  ∃ w w', update_trend i64 w = Some w' ∧ winstat w = dbl_of_Z <$> [3; 1; 4; 1; 5; 9; 2; 6; 5; 3] ∧ trend w' = 0 ∧ offset w' = 1.
Proof.
  set (w := mkWindow 10 d0 11 7 7 d0 (dbl_of_Z <$> [3; 1; 4; 1; 5; 9; 2; 6; 5; 3])).
  exists w, (mkWindow 10 d0 11 0 1 d0 (winstat w)). assert (E : update_trend i64 w = Some (mkWindow 10 d0 11 0 1 d0 (winstat w))).
  { by vm_compute. }
  split; [exact E|]. split; [done|]. apply (trend_always_flat i64 w); [| |done|done|exact E].
  - unfold wf; simpl; split_and!; (lia || wrap_lia).
  - apply Forall_fmap. repeat constructor; eexists; (split; [|reflexivity]); lia.
Defined.
End Trend.

Definition qc (z : Z) : Qc := Q2Qc (inject_Z z).
Definition qc_1em3 : Qc := (qc 1 / qc 1000)%Qc.
#[export] Instance Kops_Qc : Kops Qc := {|
  k_of_u32 := qc; k_add := Qcplus; k_sub := Qcminus; k_mul := Qcmult; k_div := Qcdiv;
  k_lt_1em3 x := if Qclt_le_dec x qc_1em3 then true else false;
|}.

(** ** The reference: the values seen so far, newest first; a flush replaces
    every one of them by zero. *)
Module Ref.
Definition push (c : Window.call (K := Z)) (h : list Z) : list Z :=
  match c with Window.Insert z => z :: h | Window.Flush => replicate (length h) 0 end.
Definition history (cs : list (Window.call (K := Z))) : list Z := foldl (λ h c, push c h) [] cs.
(** The sum of the values still in the window, and how many there are. *)
Definition total (ws : Z) (h : list Z) : Z := zsum id (take (Z.to_nat ws) h).
Definition count (ws : Z) (h : list Z) : Z := Z.min ws (Z.of_nat (length h)).
Definition embed (c : Window.call (K := Z)) : Window.call (K := Qc) :=
  match c with Window.Insert z => Window.Insert (qc z) | Window.Flush => Window.Flush end.
Definition nonneg (c : Window.call (K := Z)) : Prop :=
  match c with Window.Insert z => 0 ≤ z | Window.Flush => True end.
End Ref.

(** ** Integers among the rationals *)
Lemma qc_add a b : qc (a + b) = (qc a + qc b)%Qc.
Proof. apply Qc_is_canon. simpl. rewrite !Qred_correct. by rewrite inject_Z_plus. Qed.
Lemma qc_opp a : qc (- a) = (- qc a)%Qc.
Proof. apply Qc_is_canon. simpl. rewrite !Qred_correct. by rewrite inject_Z_opp. Qed.
Lemma qc_sub a b : qc (a - b) = (qc a - qc b)%Qc.
Proof. unfold Qcminus. by rewrite <-qc_opp, <-qc_add. Qed.
Lemma qc_mul a b : qc (a * b) = (qc a * qc b)%Qc.
Proof. apply Qc_is_canon. simpl. rewrite !Qred_correct. by rewrite inject_Z_mult. Qed.
Lemma qc_lt a b : (qc a < qc b)%Qc ↔ a < b.
Proof. unfold Qclt, qc; simpl. rewrite !Qred_correct. by rewrite <-Zlt_Qlt. Qed.
Lemma qc_le a b : (qc a <= qc b)%Qc ↔ a ≤ b.
Proof. unfold Qcle, qc; simpl. rewrite !Qred_correct. by rewrite <-Zle_Qle. Qed.
Lemma qc_inj a b : qc a = qc b → a = b.
Proof. intros H. apply Z.le_antisymm; apply qc_le; rewrite H; apply Qcle_refl. Qed.
Lemma qc_nonzero a : a ≠ 0 → qc a ≠ qc 0.
Proof. intros H ?%qc_inj. done. Qed.

(** A mean of at most 1000 non-negative integers is zero or at least 1/1000. *)
Lemma mean_gap (m : Qc) n t :
  0 < n ≤ 1000 → 0 ≤ t → (m * qc n = qc t)%Qc → (m < qc_1em3)%Qc → m = qc 0 ∧ t = 0.
Proof.
  intros Hn Ht Hm Hlt.
  assert (Ht0 : t = 0).
  { assert (Hlt' : (m * qc n < qc_1em3 * qc n)%Qc).
    { apply Qcmult_lt_compat_r; [|done]. apply (proj2 (qc_lt 0 n)). lia. }
    rewrite Hm in Hlt'.
    assert (H : (qc_1em3 * qc n <= qc 1)%Qc).
    { replace (qc_1em3 * qc n)%Qc with (qc n * / qc 1000)%Qc.
      2:{ unfold qc_1em3. change (qc 1) with 1%Qc. field. by apply (qc_nonzero 1000). }
      replace (qc 1) with (qc 1000 * / qc 1000)%Qc.
      2:{ rewrite Qcmult_inv_r; [done|]. by apply (qc_nonzero 1000). }
      apply Qcmult_le_compat_r; [|done]. apply qc_le. lia. }
    assert (Hc : (qc t < qc 1)%Qc) by (eapply Qclt_le_trans; [done|done]).
    apply (proj1 (qc_lt t 1)) in Hc. lia. }
  split; [|done]. subst t.
  apply (Qcmult_integral_l (qc n)); [apply qc_nonzero; lia|]. by rewrite Qcmult_comm.
Qed.

Section Exact.
Context (ws : Z) (Hws : 0 < ws ≤ 1000).
#[local] Open Scope Z_scope.

(** The simulation relation between the window and the history. *)
Definition tracks (h : list Z) (w : Window.Window Qc) : Prop :=
  Window.winsize w = ws ∧ length (Window.winstat w) = Z.to_nat ws ∧
  Window.periods_elapsed w = Z.of_nat (length h) + 1 ∧
  (∀ i x, (i < Z.to_nat ws)%nat → h !! i = Some x →
     Window.winstat w !! Z.to_nat ((Z.of_nat (length h) - Z.of_nat i) mod ws) = Some (qc x)) ∧
  (Window.mean w * qc (Ref.count ws h) = qc (Ref.total ws h))%Qc ∧
  Forall (λ z, 0 ≤ z) h.

Lemma total_nonneg h : Forall (λ z, 0 ≤ z) h → 0 ≤ Ref.total ws h.
Proof.
  intros Hh. apply zsum_nonneg. intros a Ha. rewrite Forall_forall in Hh. apply Hh.
  by eapply elem_of_take in Ha as (?&?%list_elem_of_lookup_2&?).
Qed.
Lemma total_cons_short x h :
  (length h < Z.to_nat ws)%nat → Ref.total ws (x :: h) = x + Ref.total ws h.
Proof. intros. unfold Ref.total. rewrite !take_ge by (simpl; lia). done. Qed.
Lemma total_cons_full x y h :
  h !! (Z.to_nat ws - 1)%nat = Some y → Ref.total ws (x :: h) = x + Ref.total ws h - y.
Proof.
  intros Hy. unfold Ref.total. destruct (Z.to_nat ws) as [|n] eqn:E; [lia|].
  simpl in Hy. rewrite Nat.sub_0_r in Hy. cbn [take zsum foldr id].
  rewrite (take_S_r h n y Hy). fold (zsum id (take n h)).
  change (foldr (λ a z, id a + z) 0 (take n h ++ [y])) with (zsum id (take n h ++ [y])).
  rewrite zsum_app. simpl. unfold zsum, id. lia.
Qed.

Lemma tracks_new : tracks [] (Window.new ws).
Proof.
  unfold tracks; simpl. split_and!; try done.
  - by rewrite length_replicate.
  - unfold Ref.count, Ref.total. rewrite take_nil. simpl.
    apply Qcmult_0_l.
Qed.

Lemma tracks_flush h w : tracks h w → tracks (Ref.push Window.Flush h) (Window.flush w).
Proof.
  intros (Hs & Hl & Hp & Hw & Hm & Hh). unfold tracks; simpl.
  rewrite !length_replicate. split_and!; try done.
  - intros i x Hi Hx. apply lookup_replicate in Hx as [-> Hi'].
    apply lookup_replicate. split; [done|]. rewrite Hl.
    pose proof (Z.mod_pos_bound (Z.of_nat (length h) - Z.of_nat i) ws). lia.
  - unfold Ref.total. rewrite take_replicate.
    assert (Hz : ∀ n, zsum id (replicate n 0) = 0) by (induction n; simpl; lia).
    rewrite Hz. apply Qcmult_0_l.
  - apply Forall_replicate. lia.
Qed.

(** The new mean is exact: growing window, then full window. *)
Lemma new_mean_exact h w x old :
  tracks h w → 0 ≤ x →
  Window.winstat w !! Z.to_nat (Window.periods_elapsed w mod ws) = Some old →
  let p := Window.periods_elapsed w in
  let m := if p <=? ws
           then ((qc (p - 1) * Window.mean w + qc x) / qc p)%Qc
           else (Window.mean w + (qc x - old) / qc ws)%Qc in
  (m * qc (Ref.count ws (x :: h)) = qc (Ref.total ws (x :: h)))%Qc.
Proof.
  intros (Hs & Hl & Hp & Hw & Hm & Hh) Hx Hold p m. subst m p. rewrite Hp in *.
  unfold Ref.count in *. destruct (Z.leb_spec (Z.of_nat (length h) + 1) ws) as [Hle|Hgt].
  - replace (Z.min ws (Z.of_nat (length h))) with (Z.of_nat (length h)) in Hm by lia.
    replace (Z.min ws (Z.of_nat (length (x :: h)))) with (Z.of_nat (length h) + 1) by (simpl; lia).
    rewrite total_cons_short by lia. rewrite (qc_add x), <-Hm.
    replace (Z.of_nat (length h) + 1 - 1) with (Z.of_nat (length h)) by lia.
    field. apply (qc_nonzero). lia.
  - replace (Z.min ws (Z.of_nat (length h))) with ws in Hm by lia.
    replace (Z.min ws (Z.of_nat (length (x :: h)))) with ws by (simpl; lia).
    destruct (lookup_lt_is_Some_2 h (Z.to_nat ws - 1)) as [y Hy]; [lia|].
    rewrite (total_cons_full x y h Hy), qc_sub, (qc_add x), <-Hm.
    pose proof (Hw (Z.to_nat ws - 1)%nat y ltac:(lia) Hy) as Hy'.
    replace ((Z.of_nat (length h) - Z.of_nat (Z.to_nat ws - 1)) mod ws)
      with ((Z.of_nat (length h) + 1) mod ws) in Hy'.
    2:{ replace (Z.of_nat (length h) - Z.of_nat (Z.to_nat ws - 1))
          with (Z.of_nat (length h) + 1 + (-1) * ws) by lia.
        by rewrite Z.mod_add by lia. }
    rewrite Hold in Hy'. injection Hy' as ->.
    field. apply (qc_nonzero). lia.
Qed.

(** The slots after an insertion hold the extended history. *)
Lemma slots_insert h w x i y :
  tracks h w → (i < Z.to_nat ws)%nat → (x :: h) !! i = Some y →
  <[Z.to_nat ((Z.of_nat (length h) + 1) mod ws) := qc x]> (Window.winstat w)
    !! Z.to_nat ((Z.of_nat (length (x :: h)) - Z.of_nat i) mod ws) = Some (qc y).
Proof.
  intros (Hs & Hl & Hp & Hw & Hm & Hh) Hi Hy.
  pose proof (Z.mod_pos_bound (Z.of_nat (length h) + 1) ws).
  destruct i as [|i].
  - injection Hy as ->. replace (Z.of_nat (length (y :: h)) - Z.of_nat 0) with (Z.of_nat (length h) + 1) by (simpl; lia).
    apply list_lookup_insert_eq. lia.
  - simpl in Hy. replace (Z.of_nat (length (x :: h)) - Z.of_nat (S i)) with (Z.of_nat (length h) - Z.of_nat i) by (simpl; lia).
    rewrite list_lookup_insert_ne; [apply Hw; [lia|done]|].
    pose proof (Z.mod_pos_bound (Z.of_nat (length h) - Z.of_nat i) ws).
    intros Heq. apply Z2Nat.inj in Heq; [|lia..].
    assert (Hd : (Z.of_nat i + 1) mod ws = 0).
    { replace (Z.of_nat i + 1) with (Z.of_nat (length h) + 1 - (Z.of_nat (length h) - Z.of_nat i)) by lia.
      rewrite Zminus_mod, Heq, Z.sub_diag. by rewrite Z.mod_0_l by lia. }
    rewrite Z.mod_small in Hd by lia. lia.
Qed.

Lemma tracks_insert h w x :
  tracks h w → 0 ≤ x → Z.of_nat (length h) < 4294967294 →
  ∃ m w', Window.insert (qc x) w = Some (m, w') ∧ tracks (x :: h) w'.
Proof.
  intros Ht Hx Hb. pose proof Ht as (Hs & Hl & Hp & Hw & Hm & Hh).
  pose proof (Z.mod_pos_bound (Window.periods_elapsed w) ws).
  destruct (lookup_lt_is_Some_2 (Window.winstat w) (Z.to_nat (Window.periods_elapsed w mod ws)))
    as [old Hold]; [lia|].
  unfold Window.insert. rewrite Hs, Hold. unfold Window.update_stats. cbn -[qc Z.leb u32].
  pose proof (new_mean_exact h w x old Ht Hx Hold) as Hmean. cbn zeta in Hmean.
  rewrite (u32_small (Window.periods_elapsed w - 1)) by (rewrite Hp; unfold is_u32; lia).
  rewrite (u32_small (Window.periods_elapsed w + 1)) by (rewrite Hp; unfold is_u32; lia).
  set (m1 := if _ : bool then _ else _) in *.
  assert (Hm2 : (if if Qclt_le_dec m1 qc_1em3 then true else false then qc 0 else m1) = m1).
  { destruct (Qclt_le_dec m1 qc_1em3) as [Hlt|]; [|done].
    symmetry. eapply mean_gap; [|apply total_nonneg|exact Hmean|done].
    - unfold Ref.count. simpl length. lia.
    - by constructor. }
  rewrite Hm2. eexists _, _. split; [done|]. rewrite Hp in *.
  unfold tracks; cbn -[qc]. rewrite length_insert. split_and!; [done|done|lia| |done|by constructor].
  intros i y Hi Hy. by apply (slots_insert h w x i y).
Qed.

Lemma tracks_run cs h w :
  tracks h w → Forall Ref.nonneg cs →
  Z.of_nat (length h) + Z.of_nat (length cs) < 4294967295 →
  ∃ w', Window.run (map Ref.embed cs) w = Some w' ∧ tracks (foldl (λ h c, Ref.push c h) h cs) w'.
Proof.
  intros Ht Hcs. revert h w Ht. induction Hcs as [|c cs Hc _ IH]; intros h w Ht Hb; simpl; [eauto|].
  destruct c as [x|]; simpl in *.
  - destruct (tracks_insert h w x) as (m & w' & -> & Ht'); [done|done|lia|]. simpl.
    apply (IH (x :: h)); [done|]. simpl. lia.
  - apply (IH (replicate (length h) 0)); [by apply (tracks_flush h w)|].
    rewrite length_replicate. lia.
Qed.
End Exact.

(** An insertion into a well-formed window finds the slot it replaces. *)
Lemma insert_finds {K} `{!Kops K} (x : K) w :
  Window.wf w → ∃ old, Window.insert x w =
    Some (Window.update_stats x
      (Window.mkWindow (Window.winsize w) (Window.mean w) (Window.periods_elapsed w) (Window.trend w)
         (Window.offset w) old
         (<[Z.to_nat (Window.periods_elapsed w mod Window.winsize w) := x]> (Window.winstat w)))).
Proof.
  intros (Hs & Hl & Hp).
  pose proof (Z.mod_pos_bound (Window.periods_elapsed w) (Window.winsize w)).
  destruct (lookup_lt_is_Some_2 (Window.winstat w)
    (Z.to_nat (Window.periods_elapsed w mod Window.winsize w))) as [old Hold]; [lia|].
  exists old. unfold Window.insert. by rewrite Hold.
Qed.

(** ** Claims *)

(** C22: before rounding, the incremental mean is the mean. For every
    sequence of fewer than 2^32 - 1 insertions of non-negative integers and
    flushes, no access leaves the vector, and the running mean of the window
    times the number of values in it is their sum; in particular the test
    [mean < 0.001] only ever resets a mean that is already zero. *)
Theorem window_mean_exact (ws : Z) (cs : list Window.call) (Hws : 0 < ws ≤ 1000)
    (Hcs : Forall Ref.nonneg cs) (Hlen : Z.of_nat (length cs) < 4294967295) :
  ∃ w, Window.run (map Ref.embed cs) (Window.new (K := Qc) ws) = Some w ∧
       (Window.get_mean w * qc (Ref.count ws (Ref.history cs)) = qc (Ref.total ws (Ref.history cs)))%Qc.
Proof.
  destruct (tracks_run ws Hws cs [] (Window.new ws)) as (w & Hrun & Ht);
    [by apply tracks_new|done|simpl; lia|].
  exists w. split; [done|]. apply Ht.
Qed.
Lemma window_mean_exact_witness :
  ∃ w, Window.run (map Ref.embed [Window.Insert 4; Window.Insert 8; Window.Flush; Window.Insert 6; Window.Insert 7])
         (Window.new (K := Qc) 3) = Some w ∧
       (Window.get_mean w * qc 3 = qc 13)%Qc.
Proof.
  apply (window_mean_exact 3 [Window.Insert 4; Window.Insert 8; Window.Flush; Window.Insert 6; Window.Insert 7]).
  - lia.
  - repeat constructor; simpl; lia.
  - simpl. lia.
Defined.

(** At every element type, a window of positive size never
    indexes outside its vector and keeps its size, for any sequence of
    insertions and flushes, the wrap-around of the counter included. *)
Theorem window_in_bounds {K} `{!Kops K} (cs : list (Window.call (K := K))) (w : Window.Window K)
    (Hw : Window.wf w) :
  ∃ w', Window.run cs w = Some w' ∧ Window.wf w' ∧ Window.winsize w' = Window.winsize w.
Proof.
  revert w Hw. induction cs as [|c cs IH]; intros w Hw; simpl; [eauto|].
  destruct c as [e|]; simpl.
  - destruct (insert_finds e w Hw) as (old & ->). destruct Hw as (Hs & Hl & Hp). cbn [fmap option_fmap option_map snd Window.update_stats].
    match goal with |- context [Window.run cs ?v] => destruct (IH v) as (w' & ? & ? & Hs') end.
    + unfold Window.wf; cbn [Window.winsize Window.winstat Window.periods_elapsed snd].
      rewrite length_insert. split_and!; auto using u32_is_u32; lia.
    + exists w'. rewrite Hs'. done.
  - destruct (IH (Window.flush w)) as (w' & ? & ? & Hs'); [|by exists w'; rewrite Hs'].
    unfold Window.wf in *; simpl. by rewrite length_replicate.
Qed.
Lemma window_in_bounds_witness :
  ∃ w', Window.run [Window.Insert (dbl_of_Z 3); Window.Flush; Window.Insert (dbl_of_Z 9)]
          (Window.new (K := double) 10) = Some w' ∧ Window.wf w' ∧ Window.winsize w' = 10.
Proof.
  apply (window_in_bounds [Window.Insert (dbl_of_Z 3); Window.Flush; Window.Insert (dbl_of_Z 9)]
          (Window.new (K := double) 10)).
  unfold Window.wf; simpl; split_and!; (lia || wrap_lia).
Defined.

(** [periods_elapsed] is a [uint32_t] that is never reset (a
    flush keeps it), so it returns to zero after 2^32 - 1 insertions; the next
    insertion of a positive value divides by [(double) 0] and leaves an
    infinite mean, and the one after it a NaN. *)
Theorem window_counter_wrap (w : Window.Window double) (s : bool) (m : positive) (e : Z)
    (m' : positive) (e' : Z)
    (Hw : Window.wf w) (Hp : Window.periods_elapsed w = 0) (Hz : Window.mean w = d0) :
  ∃ w1 w2, Window.insert (S754_finite false m e) w = Some (S754_infinity false, w1) ∧
           Window.periods_elapsed w1 = 1 ∧
           Window.insert (S754_finite s m' e') w1 = Some (S754_nan, w2).
Proof.
  destruct (insert_finds (S754_finite false m e) w Hw) as (old & Hins).
  rewrite Hp, Hz in Hins.
  destruct (insert_finds (S754_finite s m' e') (snd (Window.update_stats (S754_finite false m e)
    (Window.mkWindow (Window.winsize w) d0 0 (Window.trend w) (Window.offset w) old
       (<[Z.to_nat (0 mod Window.winsize w) := S754_finite false m e]> (Window.winstat w))))))
    as (old' & Hins').
  { destruct Hw as (? & Hl & ?). unfold Window.wf; simpl. rewrite length_insert. split_and!; auto using u32_is_u32; lia. }
  destruct Hw as (Hs & Hl & _).
  assert (H0 : (0 <=? Window.winsize w) = true) by lia.
  assert (H1 : (1 <=? Window.winsize w) = true) by lia.
  eexists _, _. rewrite Hins. unfold Window.update_stats in *.
  cbn -[Z.leb Z.modulo u32] in *. rewrite H0 in *. change (u32 (0 + 1)) with 1 in *.
  rewrite H1 in Hins'.
  split_and!; [reflexivity|reflexivity|]. rewrite Hins'. reflexivity.
Qed.
Lemma window_counter_wrap_witness :
  let w := Window.mkWindow 10 d0 0 0 0 d0 (replicate 10 d0) in
  ∃ w1 w2, Window.insert (dbl_of_Z 4) w = Some (S754_infinity false, w1) ∧
           Window.periods_elapsed w1 = 1 ∧
           Window.insert (dbl_of_Z 7) w1 = Some (S754_nan, w2).
Proof.
  apply (window_counter_wrap (Window.mkWindow 10 d0 0 0 0 d0 (replicate 10 d0)) false
    4503599627370496 (-50) 7881299347898368 (-50)).
  - unfold Window.wf; simpl; split_and!; (lia || wrap_lia).
  - reflexivity.
  - reflexivity.
Defined.
