(* ===== verification/LocalStats.v ===== *)
(** * The statistics of one container ([src/stats/local/])

    [cpu_l]: the quota the controller believes the container has, the sequence
    number of its reports, the throttle counter and the two windows of the
    last periods. [mem_l]: its memory limit. [None] in a result is undefined
    behaviour (a [double] that does not fit the integer it is converted to).
    The never-initialised, never-read field [period] is left out. *)
From S2P Require Import Prelude Float64 Window.

Module cpu_l.

Record cpu := Cpu {
  quota : Z;
  seq_num : Z;
  nr_throttled : Z;
  rt_winstats : Window.Window double;
  th_winstats : Window.Window double;
  set_quota_flag : bool;
}.

(** [__WINDOW_STAT_SIZE_] *)
Definition WINDOW_STAT_SIZE : Z := 10.

Definition cpu_default : cpu :=
  Cpu (u64 (-1)) 0 0 (Window.new WINDOW_STAT_SIZE) (Window.new WINDOW_STAT_SIZE) false.
Definition cpu_of (_quota _nr_throttled : Z) : cpu :=
  Cpu _quota 0 _nr_throttled (Window.new WINDOW_STAT_SIZE) (Window.new WINDOW_STAT_SIZE) false.

Definition get_quota (c : cpu) : Z := quota c.
Definition get_throttled (c : cpu) : Z := nr_throttled c.
Definition set_quota (_quota : Z) (c : cpu) : cpu :=
  Cpu _quota (seq_num c) (nr_throttled c) (rt_winstats c) (th_winstats c) (set_quota_flag c).
Definition set_throttled (_throttled : Z) (c : cpu) : cpu :=
  Cpu (quota c) (seq_num c) _throttled (rt_winstats c) (th_winstats c) (set_quota_flag c).
Definition get_throttle_increase (_throttled : Z) (c : cpu) : Z := u32 (_throttled - nr_throttled c).

Definition insert_rt_stats (element : Z) (c : cpu) : option (Z * cpu) :=
  '(m, w) ← Window.insert (dbl_of_Z element) (rt_winstats c);
  z ← dbl_to_u64 m;
  Some (z, Cpu (quota c) (seq_num c) (nr_throttled c) w (th_winstats c) (set_quota_flag c)).

Definition insert_th_stats (element : Z) (c : cpu) : option (double * cpu) :=
  '(m, w) ← Window.insert (dbl_of_Z (get_throttle_increase element c)) (th_winstats c);
  Some (m, set_throttled element
             (Cpu (quota c) (seq_num c) (nr_throttled c) (rt_winstats c) w (set_quota_flag c))).

Definition get_set_quota_flag (c : cpu) : bool := set_quota_flag c.
Definition set_set_quota_flag (val : bool) (c : cpu) : cpu :=
  Cpu (quota c) (seq_num c) (nr_throttled c) (rt_winstats c) (th_winstats c) val.

Definition get_rt_mean (c : cpu) : option Z := dbl_to_u64 (Window.get_mean (rt_winstats c)).

Definition flush (c : cpu) : cpu :=
  Cpu (quota c) (seq_num c) (nr_throttled c) (Window.flush (rt_winstats c))
      (Window.flush (th_winstats c)) (set_quota_flag c).

Definition incr_seq_num (c : cpu) : cpu :=
  Cpu (quota c) (u64 (seq_num c + 1)) (nr_throttled c) (rt_winstats c) (th_winstats c) (set_quota_flag c).
Definition set_seq_num (val : Z) (c : cpu) : cpu :=
  Cpu (quota c) val (nr_throttled c) (rt_winstats c) (th_winstats c) (set_quota_flag c).
Definition get_seq_num (c : cpu) : Z := seq_num c.

(** Field types and window shapes. *)
Definition wf (c : cpu) : Prop :=
  is_u64 (quota c) ∧ is_u64 (seq_num c) ∧ is_u32 (nr_throttled c) ∧
  Window.wf (rt_winstats c) ∧ Window.wf (th_winstats c).

Lemma new_wf : Window.wf (Window.new (K := double) WINDOW_STAT_SIZE).
Proof. unfold WINDOW_STAT_SIZE, Window.wf; simpl; split_and!; (lia || wrap_lia). Qed.
Lemma flush_window_wf (w : Window.Window double) : Window.wf w → Window.wf (Window.flush w).
Proof. unfold Window.wf; simpl. by rewrite length_replicate. Qed.
Lemma insert_window_wf (w : Window.Window double) x :
  Window.wf w → ∃ m w', Window.insert x w = Some (m, w') ∧ Window.wf w'.
Proof.
  intros Hw. destruct (insert_finds x w Hw) as (old & ->). destruct Hw as (? & ? & ?).
  eexists _, _. split; [reflexivity|].
  unfold Window.wf; simpl. rewrite length_insert. split_and!; auto using u32_is_u32; lia.
Qed.
Lemma cpu_of_wf q t : is_u64 q → is_u32 t → wf (cpu_of q t).
Proof. intros. unfold wf; simpl. split_and!; auto using new_wf; wrap_lia. Qed.
Lemma flush_wf c : wf c → wf (flush c).
Proof. intros (?&?&?&?&?). unfold wf; simpl. auto 10 using flush_window_wf. Qed.
Lemma insert_th_stats_some t c :
  wf c → is_u32 t → ∃ m c', insert_th_stats t c = Some (m, c') ∧ wf c' ∧
    quota c' = quota c ∧ nr_throttled c' = t ∧ seq_num c' = seq_num c.
Proof.
  intros (?&?&?&?&Hth) Ht.
  destruct (insert_window_wf _ (dbl_of_Z (get_throttle_increase t c)) Hth) as (m & w & Hi & Hw).
  unfold insert_th_stats. rewrite Hi. eexists _, _. split; [reflexivity|]. done.
Qed.

End cpu_l.

Module mem_l.

Record mem := Mem { mem_limit_in_pages : Z; current_usage : Z }.

Definition mem_default : mem := Mem 0 0.
Definition get_mem_limit_in_pages (m : mem) : Z := mem_limit_in_pages m.
Definition set_mem_limit_in_pages (_new_limit : Z) (m : mem) : mem := Mem _new_limit (current_usage m).
Definition incr_mem_limit (_incr : Z) (m : mem) : mem :=
  Mem (u64 (mem_limit_in_pages m + _incr)) (current_usage m).
Definition decr_mem_limit (_decr : Z) (m : mem) : mem :=
  if mem_limit_in_pages m <? _decr
  then Mem 0 (current_usage m)
  else Mem (u64 (mem_limit_in_pages m - _decr)) (current_usage m).

End mem_l.
