(* ===== verification/OmNet.v ===== *)
(** * Network primitives ([src/om.h], namespaces [om::sys] and [om::net])

    The parts of the bundled header the controller uses: big-endian integers
    in a [char] buffer, byte order reversal, and [ip4_addr]. A [char] is
    signed, as on the x86-64 targets of the build, and the host is
    little-endian ([htonl] reverses the bytes). *)
From stdpp Require Import pretty.
From S2P Require Import Prelude.

(** The value a [char] holds after [c = b]. *)
Definition i8 (z : Z) : Z := (z + 128) mod 256 - 128.

Module sys.

(** The bytes written to [buf_[0]], [buf_[1]], ... *)
Definition write_uint16 (val_ : Z) : list Z :=
  [ i8 (Z.land (Z.shiftr val_ 8) 255); i8 (Z.land (Z.shiftr val_ 0) 255) ].
Definition write_uint32 (val_ : Z) : list Z :=
  [ i8 (Z.land (Z.shiftr val_ 24) 255); i8 (Z.land (Z.shiftr val_ 16) 255);
    i8 (Z.land (Z.shiftr val_ 8) 255); i8 (Z.land (Z.shiftr val_ 0) 255) ].
Definition write_uint64 (val_ : Z) : list Z :=
  [ i8 (Z.land (Z.shiftr val_ 56) 255); i8 (Z.land (Z.shiftr val_ 48) 255);
    i8 (Z.land (Z.shiftr val_ 40) 255); i8 (Z.land (Z.shiftr val_ 32) 255);
    i8 (Z.land (Z.shiftr val_ 24) 255); i8 (Z.land (Z.shiftr val_ 16) 255);
    i8 (Z.land (Z.shiftr val_ 8) 255); i8 (Z.land (Z.shiftr val_ 0) 255) ].

(** [None]: the buffer is too short. *)
Definition read_uint16 (buf_ : list Z) : option Z :=
  match buf_ with
  | b0 :: b1 :: _ =>
      Some (u16 (Z.lor (Z.land (Z.shiftl (u16 b0) 8) 0xff00) (Z.land (Z.shiftl (u16 b1) 0) 0xff)))
  | _ => None
  end.
Definition read_uint32 (buf_ : list Z) : option Z :=
  match buf_ with
  | b0 :: b1 :: b2 :: b3 :: _ =>
      Some (Z.lor (Z.lor (Z.lor (Z.land (u32 (Z.shiftl (u32 b0) 24)) 0xff000000)
                                (Z.land (u32 (Z.shiftl (u32 b1) 16)) 0x00ff0000))
                         (Z.land (u32 (Z.shiftl (u32 b2) 8)) 0x0000ff00))
                  (Z.land (u32 (Z.shiftl (u32 b3) 0)) 0x000000ff))
  | _ => None
  end.
Definition read_uint64 (buf_ : list Z) : option Z :=
  match buf_ with
  | b0 :: b1 :: b2 :: b3 :: b4 :: b5 :: b6 :: b7 :: _ =>
      let byte b k := Z.land (u64 (Z.shiftl (u64 b) k)) (Z.shiftl 0xff k) in
      Some (Z.lor (Z.lor (Z.lor (Z.lor (Z.lor (Z.lor (Z.lor
        (byte b0 56) (byte b1 48)) (byte b2 40)) (byte b3 32)) (byte b4 24)) (byte b5 16))
        (byte b6 8)) (byte b7 0))
  | _ => None
  end.

End sys.

(** [reverse_byte_order(uint16_t)] and [reverse_byte_order(uint32_t)]. *)
Definition reverse_byte_order16 (a_ : Z) : Z := u16 (Z.lor (Z.shiftr a_ 8) (Z.shiftl a_ 8)).
Definition reverse_byte_order32 (a_ : Z) : Z :=
  Z.lor (Z.lor (Z.lor (Z.shiftr (Z.land a_ 0xff000000) 24) (Z.shiftr (Z.land a_ 0x00ff0000) 8))
               (Z.shiftl (Z.land a_ 0x0000ff00) 8))
        (u32 (Z.shiftl a_ 24)).
(** [htonl] on a little-endian host. *)
Definition htonl (a : Z) : Z := reverse_byte_order32 a.

Module ip4_addr.

Record ip4_addr := Ip4 { _addr : Z }.

#[global] Instance ip4_addr_eq_dec : EqDecision ip4_addr.
Proof. solve_decision. Defined.
#[global] Instance ip4_addr_countable : Countable ip4_addr.
Proof. apply (inj_countable' _addr Ip4). by intros []. Defined.

Definition from_bytes (b0 b1 b2 b3 : Z) : ip4_addr :=
  Ip4 (u32 (Z.lor (Z.lor (Z.lor (Z.shiftl b0 24) (Z.shiftl b1 16)) (Z.shiftl b2 8)) (Z.shiftl b3 0))).
Definition from_host (addr_ : Z) : ip4_addr := Ip4 (htonl addr_).
Definition from_net (addr_ : Z) : ip4_addr := Ip4 addr_.
Definition default : ip4_addr := Ip4 0.

Definition ltb (lhs rhs : ip4_addr) : bool := _addr lhs <? _addr rhs.
Definition eqb (lhs rhs : ip4_addr) : bool := _addr lhs =? _addr rhs.
Definition to_uint32 (a : ip4_addr) : Z := _addr a.

Definition to_string (a : ip4_addr) : string :=
  let byte k := pretty (Z.land (Z.shiftr (_addr a) k) 0xff) in
  (byte 0 +:+ "." +:+ byte 8 +:+ "." +:+ byte 16 +:+ "." +:+ byte 24)%string.

Definition reverse_byte_order (addr_ : ip4_addr) : ip4_addr := from_net (htonl (_addr addr_)).

(** [inet_addr] is the C library's parser of dotted addresses, a parameter;
    [parse] throws [std::invalid_argument] ([None]) on its error value. *)
Section Parse.
Context (inet_addr : string → Z).
Definition parse (str_ : string) : option Z :=
  let addr := u32 (inet_addr str_) in
  if addr =? u32 (-1) then None else Some addr.
Definition from_string (addr_ : string) : option ip4_addr := Ip4 <$> parse addr_.
End Parse.

(** [std::hash<ip4_addr>] *)
Definition hash (a : ip4_addr) : Z := to_uint32 a.

End ip4_addr.
Export ip4_addr (ip4_addr, Ip4, _addr).

(** ** Bit fields as arithmetic *)

Lemma land_255 x : Z.land x 255 = x mod 256.
Proof. change 255 with (Z.ones 8). by rewrite Z.land_ones by lia. Qed.

(** Fields that do not overlap: [|] is [+]. *)
Lemma lor_add a b k : 0 ≤ k → 0 ≤ b < 2 ^ k → a mod 2 ^ k = 0 → Z.lor a b = a + b.
Proof.
  intros Hk Hb Ha. assert (Z.land a b = 0) as Hab.
  { apply Z.bits_inj'. intros i Hi. rewrite Z.land_spec, Z.bits_0.
    destruct (Z.lt_ge_cases i k).
    - by rewrite <-(Z.mod_pow2_bits_low a k i), Ha, Z.bits_0 by lia.
    - rewrite <-(Z.mod_small b (2 ^ k)), Z.mod_pow2_bits_high by lia. apply andb_false_r. }
  rewrite Z.add_nocarry_lxor by done. symmetry. by apply Z.lxor_lor.
Qed.

(** A byte stored in a [char] and read back under its mask; the 256 values
    are checked one by one. *)
Definition byte_ok (w : Z → Z) (k : Z) : bool :=
  forallb (λ b, Z.land (w (Z.shiftl (w (i8 b)) k)) (Z.shiftl 0xff k) =? b * 2 ^ k) (seqZ 0 256).
Lemma byte_ok_spec w k b : byte_ok w k = true → 0 ≤ b < 256 →
  Z.land (w (Z.shiftl (w (i8 b)) k)) (Z.shiftl 0xff k) = b * 2 ^ k.
Proof.
  intros H Hb. apply Z.eqb_eq. unfold byte_ok in H. rewrite forallb_forall in H.
  apply (H b). apply list_elem_of_In, elem_of_seqZ. lia.
Qed.
Lemma u32_byte k b : k ∈ [0; 8; 16; 24] → 0 ≤ b < 256 →
  Z.land (u32 (Z.shiftl (u32 (i8 b)) k)) (Z.shiftl 0xff k) = b * 2 ^ k.
Proof.
  intros Hk. apply byte_ok_spec. rewrite !elem_of_cons, elem_of_nil in Hk.
  destruct_or!; subst; vm_compute; done.
Qed.
Lemma u64_byte k b : k ∈ [0; 8; 16; 24; 32; 40; 48; 56] → 0 ≤ b < 256 →
  Z.land (u64 (Z.shiftl (u64 (i8 b)) k)) (Z.shiftl 0xff k) = b * 2 ^ k.
Proof.
  intros Hk. apply byte_ok_spec. rewrite !elem_of_cons, elem_of_nil in Hk.
  destruct_or!; subst; vm_compute; done.
Qed.

Lemma shiftr_byte v k : 0 ≤ k → Z.land (Z.shiftr v k) 255 = (v / 2 ^ k) mod 256.
Proof. intros. by rewrite land_255, Z.shiftr_div_pow2. Qed.

Lemma lor_bytes4 a b c d :
  is_u8 a → is_u8 b → is_u8 c → is_u8 d →
  Z.lor (Z.lor (Z.lor (a * 2 ^ 24) (b * 2 ^ 16)) (c * 2 ^ 8)) (d * 2 ^ 0) =
  ((a * 256 + b) * 256 + c) * 256 + d.
Proof.
  intros. change (2 ^ 24) with 16777216. change (2 ^ 16) with 65536.
  change (2 ^ 8) with 256. change (2 ^ 0) with 1.
  rewrite (lor_add (a * 16777216) (b * 65536) 24) by wrap_lia.
  rewrite (lor_add _ (c * 256) 16) by wrap_lia.
  rewrite (lor_add _ (d * 1) 8) by wrap_lia. lia.
Qed.
Lemma lor_bytes4_high a b c d :
  is_u8 a → is_u8 b → is_u8 c → is_u8 d →
  Z.lor (Z.lor (Z.lor (a * 2 ^ 56) (b * 2 ^ 48)) (c * 2 ^ 40)) (d * 2 ^ 32) =
  (((a * 256 + b) * 256 + c) * 256 + d) * 2 ^ 32.
Proof.
  intros. change (2 ^ 56) with 72057594037927936. change (2 ^ 48) with 281474976710656.
  change (2 ^ 40) with 1099511627776. change (2 ^ 32) with 4294967296.
  rewrite (lor_add (a * 72057594037927936) (b * 281474976710656) 56) by wrap_lia.
  rewrite (lor_add _ (c * 1099511627776) 48) by wrap_lia.
  rewrite (lor_add _ (d * 4294967296) 40) by wrap_lia. lia.
Qed.
Lemma lor_bytes8 x a b c d :
  0 ≤ x → is_u8 a → is_u8 b → is_u8 c → is_u8 d →
  Z.lor (Z.lor (Z.lor (Z.lor (x * 2 ^ 32) (a * 2 ^ 24)) (b * 2 ^ 16)) (c * 2 ^ 8)) (d * 2 ^ 0) =
  (((x * 256 + a) * 256 + b) * 256 + c) * 256 + d.
Proof.
  intros. change (2 ^ 32) with 4294967296. change (2 ^ 24) with 16777216. change (2 ^ 16) with 65536.
  change (2 ^ 8) with 256. change (2 ^ 0) with 1.
  rewrite (lor_add (x * 4294967296) (a * 16777216) 32) by wrap_lia.
  rewrite (lor_add _ (b * 65536) 24) by wrap_lia.
  rewrite (lor_add _ (c * 256) 16) by wrap_lia.
  rewrite (lor_add _ (d * 1) 8) by wrap_lia. lia.
Qed.

Lemma byte_is_u8 x : is_u8 (x mod 256).
Proof. apply Z.mod_pos_bound. lia. Qed.

Lemma read_write_uint16 v : is_u16 v → sys.read_uint16 (sys.write_uint16 v) = Some v.
Proof.
  intros Hv. unfold sys.read_uint16, sys.write_uint16. f_equal. rewrite !shiftr_byte by lia.
  assert (Hok : forallb (λ b, Z.land (Z.shiftl (u16 (i8 b)) 8) 0xff00 =? b * 256) (seqZ 0 256) = true)
    by (vm_compute; reflexivity).
  rewrite forallb_forall in Hok.
  assert (H8 : Z.land (Z.shiftl (u16 (i8 ((v / 2 ^ 8) mod 256))) 8) 0xff00 = (v / 2 ^ 8) mod 256 * 256).
  { apply Z.eqb_eq, Hok, list_elem_of_In, elem_of_seqZ.
    pose proof (byte_is_u8 (v / 2 ^ 8)). wrap_lia. }
  rewrite H8, land_255, Z.shiftl_0_r. change (2 ^ 0) with 1. change (2 ^ 8) with 256. rewrite Z.div_1_r.
  rewrite (lor_add _ _ 8); unfold i8; wrap_lia.
Qed.
Lemma read_write_uint32 v : is_u32 v → sys.read_uint32 (sys.write_uint32 v) = Some v.
Proof.
  intros Hv. unfold sys.read_uint32, sys.write_uint32. f_equal. rewrite !shiftr_byte by lia.
  pose proof (u32_byte 24 ((v / 2 ^ 24) mod 256) ltac:(set_solver) (byte_is_u8 _)) as H3.
  pose proof (u32_byte 16 ((v / 2 ^ 16) mod 256) ltac:(set_solver) (byte_is_u8 _)) as H2.
  pose proof (u32_byte 8 ((v / 2 ^ 8) mod 256) ltac:(set_solver) (byte_is_u8 _)) as H1.
  pose proof (u32_byte 0 ((v / 2 ^ 0) mod 256) ltac:(set_solver) (byte_is_u8 _)) as H0.
  change (Z.shiftl 255 24) with 0xff000000 in H3. change (Z.shiftl 255 16) with 0xff0000 in H2.
  change (Z.shiftl 255 8) with 0xff00 in H1. change (Z.shiftl 255 0) with 0xff in H0.
  rewrite H3, H2, H1, H0, lor_bytes4 by apply byte_is_u8.
  change (2 ^ 24) with 16777216. change (2 ^ 16) with 65536.
  change (2 ^ 8) with 256. change (2 ^ 0) with 1. wrap_lia.
Qed.
Lemma read_write_uint64 v : is_u64 v → sys.read_uint64 (sys.write_uint64 v) = Some v.
Proof.
  intros Hv. unfold sys.read_uint64, sys.write_uint64. f_equal. rewrite !shiftr_byte by lia.
  cbv zeta. rewrite !u64_byte by (set_solver || apply byte_is_u8).
  rewrite lor_bytes4_high, lor_bytes8 by (apply byte_is_u8 || wrap_lia).
  change (2 ^ 56) with 72057594037927936. change (2 ^ 48) with 281474976710656.
  change (2 ^ 40) with 1099511627776. change (2 ^ 32) with 4294967296.
  change (2 ^ 24) with 16777216. change (2 ^ 16) with 65536.
  change (2 ^ 8) with 256. change (2 ^ 0) with 1. wrap_lia.
Qed.

(** Byte swaps as arithmetic. *)
Definition bswap16 (a : Z) : Z := a mod 256 * 256 + a / 256.
Definition bswap32 (a : Z) : Z :=
  ((a mod 256 * 256 + a / 256 mod 256) * 256 + a / 65536 mod 256) * 256 + a / 16777216 mod 256.

Lemma reverse_byte_order16_eq a : is_u16 a → reverse_byte_order16 a = bswap16 a.
Proof.
  intros Ha. unfold reverse_byte_order16, bswap16.
  rewrite Z.shiftr_div_pow2, Z.shiftl_mul_pow2, Z.lor_comm by lia. change (2 ^ 8) with 256.
  rewrite (lor_add _ _ 8); wrap_lia.
Qed.
Lemma land_field a k : 0 ≤ k → Z.land a (Z.shiftl 0xff k) = a / 2 ^ k mod 256 * 2 ^ k.
Proof.
  intros Hk. rewrite <-Z.shiftr_div_pow2, <-land_255, <-Z.shiftl_mul_pow2 by lia.
  apply Z.bits_inj'. intros i Hi. rewrite Z.land_spec, !Z.shiftl_spec, Z.land_spec by lia.
  destruct (Z.lt_ge_cases i k).
  - rewrite !(Z.testbit_neg_r _ (i - k)) by lia. by rewrite !andb_false_r.
  - rewrite Z.shiftr_spec by lia. by replace (i - k + k) with i by lia.
Qed.
Lemma reverse_byte_order32_eq a : is_u32 a → reverse_byte_order32 a = bswap32 a.
Proof.
  intros Ha. unfold reverse_byte_order32, bswap32.
  pose proof (land_field a 24 ltac:(lia)) as H3. change (Z.shiftl 0xff 24) with 0xff000000 in H3.
  pose proof (land_field a 16 ltac:(lia)) as H2. change (Z.shiftl 0xff 16) with 0xff0000 in H2.
  pose proof (land_field a 8 ltac:(lia)) as H1. change (Z.shiftl 0xff 8) with 0xff00 in H1.
  rewrite H3, H2, H1, !Z.shiftr_div_pow2, !Z.shiftl_mul_pow2 by lia.
  change (2 ^ 24) with 16777216. change (2 ^ 16) with 65536. change (2 ^ 8) with 256.
  rewrite !Z.div_mul by lia.
  replace (a / 65536 mod 256 * 65536 / 256) with (a / 65536 mod 256 * 256) by wrap_lia.
  rewrite (Z.lor_comm (Z.lor (Z.lor _ _) _)), (Z.lor_comm (Z.lor _ _) (_ * 256 * 256)),
    (Z.lor_comm (a / 16777216 mod 256)), !Z.lor_assoc.
  rewrite (lor_add (u32 (a * 16777216)) (a / 256 mod 256 * 256 * 256) 24) by wrap_lia.
  rewrite (lor_add _ (a / 65536 mod 256 * 256) 16) by wrap_lia.
  rewrite (lor_add _ (a / 16777216 mod 256) 8); wrap_lia.
Qed.
Lemma bswap32_involutive a : is_u32 a → bswap32 (bswap32 a) = a.
Proof.
  intros Ha. unfold bswap32.
  set (b0 := a mod 256). set (b1 := a / 256 mod 256). set (b2 := a / 65536 mod 256).
  set (b3 := a / 16777216 mod 256).
  assert (is_u8 b0 ∧ is_u8 b1 ∧ is_u8 b2 ∧ is_u8 b3) as (?&?&?&?) by (split_and!; apply byte_is_u8).
  assert (Ha' : a = ((b3 * 256 + b2) * 256 + b1) * 256 + b0) by (subst b0 b1 b2 b3; wrap_lia).
  clearbody b0 b1 b2 b3. rewrite Ha'. wrap_lia.
Qed.

(** ** Claims *)

(** Reading back a big-endian integer from the [char] buffer it was
    written to gives the integer, for the three widths, although the bytes
    above 127 are stored as negative numbers. *)
Theorem read_write_uint (v16 v32 v64 : Z) (H16 : is_u16 v16) (H32 : is_u32 v32) (H64 : is_u64 v64) :
  sys.read_uint16 (sys.write_uint16 v16) = Some v16 ∧
  sys.read_uint32 (sys.write_uint32 v32) = Some v32 ∧
  sys.read_uint64 (sys.write_uint64 v64) = Some v64.
Proof. auto using read_write_uint16, read_write_uint32, read_write_uint64. Qed.
Lemma read_write_uint_witness :
  sys.read_uint16 (sys.write_uint16 0xbeef) = Some 0xbeef ∧
  sys.read_uint32 (sys.write_uint32 0x80ff7f01) = Some 0x80ff7f01 ∧
  sys.read_uint64 (sys.write_uint64 0xfedcba9876543210) = Some 0xfedcba9876543210.
Proof. apply (read_write_uint 0xbeef 0x80ff7f01 0xfedcba9876543210); wrap_lia. Defined.

(** Reversing the byte order twice is the identity, so an address
    that goes from host to network order and back is unchanged. *)
Theorem reverse_byte_order_involutive (a16 a32 : Z) (H16 : is_u16 a16) (H32 : is_u32 a32) :
  reverse_byte_order16 (reverse_byte_order16 a16) = a16 ∧
  reverse_byte_order32 (reverse_byte_order32 a32) = a32 ∧
  ip4_addr.reverse_byte_order (ip4_addr.from_host a32) = Ip4 a32.
Proof.
  assert (Hr : ∀ a, is_u32 a → reverse_byte_order32 a = bswap32 a ∧ is_u32 (bswap32 a)).
  { intros a Ha. split; [by apply reverse_byte_order32_eq|]. unfold bswap32. wrap_lia. }
  split_and!.
  - rewrite (reverse_byte_order16_eq a16), reverse_byte_order16_eq; [|unfold bswap16; wrap_lia|done].
    unfold bswap16. wrap_lia.
  - destruct (Hr a32 H32) as [-> Hs]. destruct (Hr _ Hs) as [-> _]. by apply bswap32_involutive.
  - unfold ip4_addr.reverse_byte_order, ip4_addr.from_host, ip4_addr.from_net, htonl; simpl. f_equal.
    destruct (Hr a32 H32) as [-> Hs]. destruct (Hr _ Hs) as [-> _]. by apply bswap32_involutive.
Qed.
Lemma reverse_byte_order_involutive_witness :
  reverse_byte_order16 (reverse_byte_order16 0xabcd) = 0xabcd ∧
  reverse_byte_order32 (reverse_byte_order32 0xc0a80601) = 0xc0a80601 ∧
  ip4_addr.reverse_byte_order (ip4_addr.from_host 0xc0a80601) = Ip4 0xc0a80601.
Proof. apply (reverse_byte_order_involutive 0xabcd 0xc0a80601); wrap_lia. Defined.
