(* ===== verification/OmPacket.v ===== *)
(** * Packet headers ([src/om.h], 131-790, 1306-1340)

    Addresses and the headers of Ethernet, ARP, IPv4, ICMP, TCP and UDP. A header
    object is a view of a byte buffer through the C struct of the protocol, on a
    little-endian host: a field is read and written at its offset, and swapped
    where the code swaps it. Access outside of the buffer is undefined
    ([None]). *)
From S2P Require Import Prelude OmNet.

(** ** Memory *)
Definition load8 (off : nat) (buf : list Z) : option Z := buf !! off.
Definition load16 (off : nat) (buf : list Z) : option Z :=
  b0 ← buf !! off; b1 ← buf !! (off + 1)%nat; Some (b0 + 256 * b1).
Definition load32 (off : nat) (buf : list Z) : option Z :=
  h0 ← load16 off buf; h1 ← load16 (off + 2) buf; Some (h0 + 65536 * h1).
Definition store (off : nat) (bs buf : list Z) : option (list Z) :=
  if decide (off + length bs ≤ length buf)%nat then Some (take off buf ++ bs ++ drop (off + length bs) buf) else None.
Definition bytes16 (v : Z) : list Z := [v mod 256; v / 256 mod 256].
Definition bytes32 (v : Z) : list Z := [v mod 256; v / 256 mod 256; v / 65536 mod 256; v / 16777216 mod 256].
Definition store8 (off : nat) (v : Z) : list Z → option (list Z) := store off [u8 v].
Definition store16 (off : nat) (v : Z) : list Z → option (list Z) := store off (bytes16 v).
Definition store32 (off : nat) (v : Z) : list Z → option (list Z) := store off (bytes32 v).
Definition is_bytes (buf : list Z) : Prop := Forall is_u8 buf.

(** ** Link-layer addresses *)
Module mac_addr.
Record mac_addr := Mac { m0 : Z; m1 : Z; m2 : Z; m3 : Z; m4 : Z; m5 : Z }.
#[global] Instance mac_addr_eq_dec : EqDecision mac_addr.
Proof. solve_decision. Defined.
Definition default : mac_addr := Mac 0 0 0 0 0 0.
Definition of_uint64 (addr_ : Z) : mac_addr :=
  let byte k := u8 (Z.shiftr addr_ (k * 8)) in Mac (byte 5) (byte 4) (byte 3) (byte 2) (byte 1) (byte 0).
(** The constructor from a buffer, at an offset of it. *)
Definition of_buf (off : nat) (buf : list Z) : option mac_addr :=
  b0 ← buf !! off; b1 ← buf !! (off + 1)%nat; b2 ← buf !! (off + 2)%nat; b3 ← buf !! (off + 3)%nat;
  b4 ← buf !! (off + 4)%nat; b5 ← buf !! (off + 5)%nat; Some (Mac b0 b1 b2 b3 b4 b5).
Definition bytes (a : mac_addr) : list Z := [m0 a; m1 a; m2 a; m3 a; m4 a; m5 a].
Definition write (a : mac_addr) (off : nat) (dst_ : list Z) : option (list Z) := store off (bytes a) dst_.
Definition to_uint64 (a : mac_addr) : Z :=
  Z.lor (Z.lor (Z.lor (Z.lor (Z.lor
    (u64 (Z.shiftl (m0 a) (5*8))) (u64 (Z.shiftl (m1 a) (4*8)))) (u64 (Z.shiftl (m2 a) (3*8))))
    (u64 (Z.shiftl (m3 a) (2*8)))) (u64 (Z.shiftl (m4 a) (1*8)))) (u64 (Z.shiftl (m5 a) (0*8))).
Definition ltb (l r : mac_addr) : bool :=
  (m0 l <? m0 r) || (m1 l <? m1 r) || (m2 l <? m2 r) || (m3 l <? m3 r) || (m4 l <? m4 r) || (m5 l <? m5 r).
Definition eqb (l r : mac_addr) : bool :=
  (m0 l =? m0 r) && (m1 l =? m1 r) && (m2 l =? m2 r) && (m3 l =? m3 r) && (m4 l =? m4 r) && (m5 l =? m5 r).
Definition hash (a : mac_addr) : Z := to_uint64 a.
Definition wf (a : mac_addr) : Prop := is_bytes (bytes a).
End mac_addr.
Export mac_addr (mac_addr, Mac).

(** [ip4_addr::from_bytes] on a part of a buffer. *)
Definition ip4_from_bytes (off : nat) (buf : list Z) : option ip4_addr :=
  b0 ← buf !! off; b1 ← buf !! (off + 1)%nat; b2 ← buf !! (off + 2)%nat; b3 ← buf !! (off + 3)%nat;
  Some (ip4_addr.from_bytes b0 b1 b2 b3).

(** ** Headers *)
Definition swapped16 (off : nat) (buf : list Z) : option Z := reverse_byte_order16 <$> load16 off buf.
Definition swapped32 (off : nat) (buf : list Z) : option Z := reverse_byte_order32 <$> load32 off buf.

(** [packet_header]: the length after parsing; [write] copies that many bytes. *)
Definition zeroed (len_ : nat) : list Z := replicate len_ 0.
Definition write_header (len : nat) (hdr dst : list Z) : option (list Z) :=
  if decide (len ≤ length hdr)%nat then store 0 (take len hdr) dst else None.

Module ethernet_header.
Definition len : nat := 14.
Definition make : list Z := zeroed len.
Definition dest_addr : list Z → option mac_addr := mac_addr.of_buf 0.
Definition set_dest_addr (a : mac_addr) : list Z → option (list Z) := mac_addr.write a 0.
Definition src_addr : list Z → option mac_addr := mac_addr.of_buf 6.
Definition set_src_addr (a : mac_addr) : list Z → option (list Z) := mac_addr.write a 6.
Definition ether_type : list Z → option Z := swapped16 12.
Definition set_ether_type (t : Z) : list Z → option (list Z) := store16 12 (reverse_byte_order16 t).
End ethernet_header.

Module arp_header.
Definition len : nat := 28.
Definition make : list Z := zeroed len.
Definition hardware_type : list Z → option Z := swapped16 0.
Definition protocol_type : list Z → option Z := swapped16 2.
Definition operation : list Z → option Z := swapped16 6.
Definition sender_hardware_addr : list Z → option mac_addr := mac_addr.of_buf 8.
Definition sender_protocol_addr : list Z → option ip4_addr := ip4_from_bytes 14.
Definition target_hardware_addr : list Z → option mac_addr := mac_addr.of_buf 18.
Definition target_protocol_addr : list Z → option ip4_addr := ip4_from_bytes 24.
End arp_header.

Module ip4_header.
(** The version is the high half of the first byte, the header length the low
    one. *)
Definition set_ip_v (v : Z) (buf : list Z) : option (list Z) :=
  b ← load8 0 buf; store8 0 (b mod 16 + 16 * (v mod 16)) buf.
Definition set_ip_hl (hl : Z) (buf : list Z) : option (list Z) :=
  b ← load8 0 buf; store8 0 (16 * (b / 16) + hl mod 16) buf.
Definition make : option (list Z) := set_ip_v 4 (zeroed 20) ≫= set_ip_hl 5.
(** The constructor from a buffer writes to the buffer it is given. *)
Definition of_buf (buf : list Z) : option (nat * list Z) :=
  b ← load8 0 buf;
  buf ← (if b mod 16 =? 5 then Some buf else set_ip_hl 5 buf);
  b ← load8 0 buf;
  buf ← (if b / 16 =? 4 then Some buf else set_ip_v 4 buf);
  b ← load8 0 buf;
  Some (Z.to_nat (b mod 16 * 4), buf).
Definition total_len : list Z → option Z := swapped16 2.
Definition set_total_len (v : Z) : list Z → option (list Z) := store16 2 (reverse_byte_order16 v).
Definition id : list Z → option Z := swapped16 4.
Definition set_id (v : Z) : list Z → option (list Z) := store16 4 (reverse_byte_order16 v).
Definition ttl : list Z → option Z := load8 8.
Definition set_ttl (v : Z) : list Z → option (list Z) := store8 8 v.
Definition proto : list Z → option Z := load8 9.
Definition set_proto (v : Z) : list Z → option (list Z) := store8 9 v.
Definition src_addr (buf : list Z) : option ip4_addr := ip4_addr.from_net <$> load32 12 buf.
Definition set_src_addr (a : ip4_addr) : list Z → option (list Z) := store32 12 (ip4_addr.to_uint32 a).
Definition dest_addr (buf : list Z) : option ip4_addr := ip4_addr.from_net <$> load32 16 buf.
Definition set_dest_addr (a : ip4_addr) : list Z → option (list Z) := store32 16 (ip4_addr.to_uint32 a).
End ip4_header.

Module icmp_header.
Definition len : nat := 8.
Definition make : list Z := zeroed len.
Definition type : list Z → option Z := load8 0.
Definition code : list Z → option Z := load8 1.
End icmp_header.

Module tcp_header.
Definition len : nat := 20.
Definition make : list Z := zeroed len.
Definition src_port : list Z → option Z := swapped16 0.
Definition dest_port : list Z → option Z := swapped16 2.
Definition seq_no : list Z → option Z := swapped32 4.
Definition ack_no : list Z → option Z := swapped32 8.
Definition flags : list Z → option Z := load8 13.
Definition window_size : list Z → option Z := swapped16 14.
End tcp_header.

Module udp_header.
Definition len : nat := 8.
Definition make : list Z := zeroed len.
Definition src_port : list Z → option Z := swapped16 0.
Definition set_src_port (v : Z) : list Z → option (list Z) := store16 0 (reverse_byte_order16 v).
Definition dest_port : list Z → option Z := swapped16 2.
Definition set_dest_port (v : Z) : list Z → option (list Z) := store16 2 (reverse_byte_order16 v).
Definition payload_length : list Z → option Z := swapped16 4.
Definition set_payload_length (v : Z) : list Z → option (list Z) := store16 4 (reverse_byte_order16 v).
End udp_header.

(** ** Flow keys *)
Module ip4_flow_key.
Record ip4_flow_key := FlowKey {
  _ip_src : ip4_addr; _ip_dst : ip4_addr; _tp_src : Z; _tp_dst : Z; _ip_proto : Z;
}.
#[global] Instance ip4_flow_key_eq_dec : EqDecision ip4_flow_key.
Proof. solve_decision. Defined.
Definition default : ip4_flow_key := FlowKey ip4_addr.default ip4_addr.default 0 0 0.
Definition eqb (a b : ip4_flow_key) : bool :=
  ip4_addr.eqb (_ip_src a) (_ip_src b) && ip4_addr.eqb (_ip_dst a) (_ip_dst b) && (_ip_proto a =? _ip_proto b) &&
  (_tp_src a =? _tp_src b) && (_tp_dst a =? _tp_dst b).
Definition ltb (a b : ip4_flow_key) : bool :=
  ip4_addr.ltb (_ip_src a) (_ip_src b) || ip4_addr.ltb (_ip_dst a) (_ip_dst b) || (_ip_proto a <? _ip_proto b) ||
  (_tp_src a <? _tp_src b) || (_tp_dst a <? _tp_dst b).
Definition neb (a b : ip4_flow_key) : bool := negb (eqb a b).
(** The buffer is changed by the [ip4_header] made on it. *)
Definition from_ip4_bytes (buf_ : list Z) : option (ip4_flow_key * list Z) :=
  '(_, buf_) ← ip4_header.of_buf buf_;
  src ← ip4_header.src_addr buf_;
  proto ← ip4_header.proto buf_;
  '(tp_src, tp_dst) ←
    (if proto =? 6 then
       s ← tcp_header.src_port (drop 20 buf_); d ← tcp_header.dest_port (drop 20 buf_); Some (s, d)
     else if proto =? 17 then
       s ← udp_header.src_port (drop 20 buf_); d ← udp_header.dest_port (drop 20 buf_); Some (s, d)
     else Some (0, 0));
  Some (FlowKey src src tp_src tp_dst proto, buf_).
(** [std::hash<ip4_flow_key>] *)
Definition hash (d_ : ip4_flow_key) : Z :=
  let a := Z.lor (u64 (Z.shiftl (ip4_addr.to_uint32 (_ip_src d_)) 32)) (ip4_addr.to_uint32 (_ip_dst d_)) in
  let b := Z.lor (Z.lor (u64 (Z.shiftl (_tp_src d_) 24)) (u64 (Z.shiftl (_tp_dst d_) 8))) (_ip_proto d_) in
  Z.lxor a (u64 (b + 0x9e3779b9 + u64 (Z.shiftl a 6) + Z.shiftr b 2)).
End ip4_flow_key.
Export ip4_flow_key (ip4_flow_key, FlowKey).

(** ** Reading what was written *)
Lemma store_ok off bs buf : (off + length bs ≤ length buf)%nat → ∃ buf', store off bs buf = Some buf'.
Proof. intros. unfold store. rewrite decide_True by done. eauto. Qed.
Lemma store_length off bs buf buf' : store off bs buf = Some buf' → length buf' = length buf.
Proof.
  unfold store. case_decide; [|done]. intros [= <-]. rewrite !length_app, length_take, length_drop. lia.
Qed.
Lemma lookup_store off bs buf buf' i :
  store off bs buf = Some buf' →
  buf' !! i = if decide (off ≤ i < off + length bs)%nat then bs !! (i - off)%nat else buf !! i.
Proof.
  unfold store. case_decide; [|done]. intros [= <-].
  assert (Hl : length (take off buf) = off) by (rewrite length_take; lia).
  destruct (decide (off ≤ i < off + length bs)%nat).
  - rewrite lookup_app_r, Hl by lia. by rewrite lookup_app_l by lia.
  - destruct (decide (i < off)%nat).
    + rewrite lookup_app_l by lia. by rewrite lookup_take_lt by lia.
    + rewrite !lookup_app_r by lia. rewrite Hl, lookup_drop. f_equal. lia.
Qed.

(** A view of [n] bytes at [off] depends on those bytes only. *)
Definition views {A} (f : list Z → option A) (off n : nat) : Prop :=
  ∀ b b', (∀ i, (off ≤ i < off + n)%nat → b !! i = b' !! i) → f b = f b'.
Lemma views_store {A} (f : list Z → option A) off n o bs buf buf' :
  views f off n → store o bs buf = Some buf' → (off + n ≤ o ∨ o + length bs ≤ off)%nat → f buf' = f buf.
Proof. intros Hv Hs Hd. apply Hv. intros i Hi. rewrite (lookup_store _ _ _ _ _ Hs). by rewrite decide_False by lia. Qed.
Ltac views := intros b b' H; unfold load8, swapped16, swapped32, load32, load16, mac_addr.of_buf; rewrite ?H by lia; done.
Lemma views_load8 off : views (load8 off) off 1.
Proof. views. Qed.
Lemma views_load16 off : views (load16 off) off 2.
Proof. views. Qed.
Lemma views_swapped16 off : views (swapped16 off) off 2.
Proof. views. Qed.
Lemma views_load32 off : views (load32 off) off 4.
Proof. views. Qed.
Lemma views_mac off : views (mac_addr.of_buf off) off 6.
Proof. views. Qed.
Lemma views_fmap {A B} (g : A → B) f off n : views f off n → views (λ b, g <$> f b) off n.
Proof. intros Hv b b' H. by rewrite (Hv b b' H). Qed.

Lemma load8_store off v buf buf' : store8 off v buf = Some buf' → is_u8 v → load8 off buf' = Some v.
Proof.
  intros Hs Hv. unfold load8. rewrite (lookup_store _ _ _ _ _ Hs). rewrite decide_True by (simpl; lia).
  rewrite Nat.sub_diag. simpl. f_equal. apply Z.mod_small. done.
Qed.
Lemma load16_store off v buf buf' : store16 off v buf = Some buf' → is_u16 v → load16 off buf' = Some v.
Proof.
  intros Hs Hv. unfold load16. rewrite !(lookup_store _ _ _ _ _ Hs). rewrite !decide_True by (simpl; lia).
  replace (off - off)%nat with 0%nat by lia. replace (off + 1 - off)%nat with 1%nat by lia. simpl. f_equal. wrap_lia.
Qed.
Lemma load32_store off v buf buf' : store32 off v buf = Some buf' → is_u32 v → load32 off buf' = Some v.
Proof.
  intros Hs Hv. unfold load32, load16. rewrite !(lookup_store _ _ _ _ _ Hs). rewrite !decide_True by (simpl; lia).
  replace (off - off)%nat with 0%nat by lia. replace (off + 1 - off)%nat with 1%nat by lia.
  replace (off + 2 - off)%nat with 2%nat by lia. replace (off + 2 + 1 - off)%nat with 3%nat by lia. simpl. f_equal. wrap_lia.
Qed.
Lemma swap16_involutive v : is_u16 v → is_u16 (reverse_byte_order16 v) ∧ reverse_byte_order16 (reverse_byte_order16 v) = v.
Proof.
  intros Hv. rewrite (reverse_byte_order16_eq v) by done. assert (is_u16 (bswap16 v)) by (unfold bswap16; wrap_lia).
  split; [done|]. rewrite reverse_byte_order16_eq by done. unfold bswap16. wrap_lia.
Qed.
Lemma swapped16_store off v buf buf' :
  store16 off (reverse_byte_order16 v) buf = Some buf' → is_u16 v → swapped16 off buf' = Some v.
Proof.
  intros Hs Hv. destruct (swap16_involutive v Hv) as [Hu He]. unfold swapped16.
  by rewrite (load16_store _ _ _ _ Hs), <-He at 1; simpl; rewrite ?He.
Qed.
Lemma mac_store off a buf buf' : mac_addr.write a off buf = Some buf' → mac_addr.of_buf off buf' = Some a.
Proof.
  intros Hs. unfold mac_addr.of_buf, mac_addr.write in *. rewrite !(lookup_store _ _ _ _ _ Hs).
  rewrite !decide_True by (simpl; lia).
  replace (off - off)%nat with 0%nat by lia. replace (off + 1 - off)%nat with 1%nat by lia.
  replace (off + 2 - off)%nat with 2%nat by lia. replace (off + 3 - off)%nat with 3%nat by lia.
  replace (off + 4 - off)%nat with 4%nat by lia. replace (off + 5 - off)%nat with 5%nat by lia. by destruct a.
Qed.

(** [set] writes [x] for [get] into [n] bytes at [o] and leaves every view of
    other bytes. *)
Definition writes {A} (set : list Z → option (list Z)) (get : list Z → option A) (x : A) (o n : nat) : Prop :=
  ∀ buf, (o + n ≤ length buf)%nat →
    ∃ b, set buf = Some b ∧ length b = length buf ∧ get b = Some x ∧
      ∀ B (f : list Z → option B) off m, views f off m → (off + m ≤ o ∨ o + n ≤ off)%nat → f b = f buf.
Lemma writes_store {A} (get : list Z → option A) x o bs :
  (∀ buf b, store o bs buf = Some b → get b = Some x) → writes (store o bs) get x o (length bs).
Proof.
  intros Hget buf Hl. destruct (store_ok o bs buf Hl) as [b Hs]. exists b.
  split_and!; [done|by eapply store_length|by eapply Hget|]. intros. by eapply views_store.
Qed.
Lemma writes_mac a o : writes (mac_addr.write a o) (mac_addr.of_buf o) a o 6.
Proof. apply (writes_store _ _ o (mac_addr.bytes a)). intros. by eapply mac_store. Qed.
Lemma writes_swapped16 v o : is_u16 v → writes (store16 o (reverse_byte_order16 v)) (swapped16 o) v o 2.
Proof. intros. apply (writes_store _ _ o (bytes16 _)). intros. by eapply swapped16_store. Qed.
Lemma writes8 v o : is_u8 v → writes (store8 o v) (load8 o) v o 1.
Proof. intros. apply (writes_store _ _ o [u8 v]). intros. by eapply load8_store. Qed.
Lemma writes_ip4 a o : is_u32 (_addr a) →
  writes (store32 o (ip4_addr.to_uint32 a)) (λ b, ip4_addr.from_net <$> load32 o b) a o 4.
Proof.
  intros. apply (writes_store _ _ o (bytes32 _)). intros buf b Hs.
  rewrite (load32_store o (_addr a) buf b Hs) by done. by destruct a.
Qed.
Create HintDb views.
#[export] Hint Resolve views_load8 views_load16 views_swapped16 views_load32 views_mac views_fmap : views.

(** [put W b F G]: the next setter, of which [W] says what it writes. *)
Ltac put W b F G :=
  let E := fresh "E" in let L := fresh "L" in
  match type of W with writes ?set ?get ?x ?o ?n =>
    match goal with |- context [ set ?buf ] =>
      destruct (W buf) as (b & E & L & G & F); [lia|]; rewrite E; cbn [mbind option_bind] end
  end.
(** Reads a field past the setters after it. *)
Ltac unchanged :=
  repeat first
    [ assumption
    | match goal with
      | F : ∀ B (f : list Z → option B) off m, _ → _ → f ?b = f ?buf |- ?get ?b = _ =>
          rewrite (F _ get _ _ ltac:(eauto with views)) by lia
      end ].

Section Claims.
Implicit Types (buf b : list Z).

Definition set_ethernet (d s : mac_addr) (t : Z) buf : option (list Z) :=
  b ← ethernet_header.set_dest_addr d buf; b ← ethernet_header.set_src_addr s b; ethernet_header.set_ether_type t b.
Lemma ethernet_read_back d s t buf :
  (14 ≤ length buf)%nat → is_u16 t →
  ∃ b, set_ethernet d s t buf = Some b ∧ length b = length buf ∧
    ethernet_header.dest_addr b = Some d ∧ ethernet_header.src_addr b = Some s ∧ ethernet_header.ether_type b = Some t.
Proof.
  intros Hl Ht. unfold set_ethernet, ethernet_header.set_dest_addr, ethernet_header.set_src_addr,
    ethernet_header.set_ether_type, ethernet_header.dest_addr, ethernet_header.src_addr, ethernet_header.ether_type.
  put (writes_mac d 0) b1 F1 G1. put (writes_mac s 6) b2 F2 G2. put (writes_swapped16 t 12 Ht) b3 F3 G3.
  exists b3. split_and!; [done|congruence|unchanged..].
Qed.
Definition set_ip4 (len ident ttl_ proto_ : Z) (s d : ip4_addr) buf : option (list Z) :=
  b ← ip4_header.set_ip_v 4 buf; b ← ip4_header.set_ip_hl 5 b; b ← ip4_header.set_total_len len b;
  b ← ip4_header.set_id ident b; b ← ip4_header.set_ttl ttl_ b; b ← ip4_header.set_proto proto_ b;
  b ← ip4_header.set_src_addr s b; ip4_header.set_dest_addr d b.
(** The first byte of a header with version 4 and length 5. *)
Lemma version_length buf : (1 ≤ length buf)%nat → is_bytes buf →
  ∃ b, (b ← ip4_header.set_ip_v 4 buf; ip4_header.set_ip_hl 5 b) = Some b ∧ length b = length buf ∧
    load8 0 b = Some 69.
Proof.
  intros Hl Hb. destruct buf as [|x buf]; [simpl in Hl; lia|].
  inversion Hb as [|? ? Hx _]; subst. unfold ip4_header.set_ip_v, ip4_header.set_ip_hl, load8, store8, store.
  cbn [lookup list_lookup mbind option_bind length]. rewrite decide_True by (simpl; lia).
  cbn [mbind option_bind take drop app Nat.add length lookup list_lookup]. rewrite decide_True by (simpl; lia). eexists.
  split; [done|]. split; [done|]. cbn [take app lookup list_lookup]. f_equal. wrap_lia.
Qed.
Lemma ip4_of_buf_fixed b : load8 0 b = Some 69 → ip4_header.of_buf b = Some (20%nat, b).
Proof.
  intros H. unfold ip4_header.of_buf. rewrite H; cbn [mbind option_bind]. change (69 mod 16 =? 5) with true.
  cbn [mbind option_bind]. rewrite H; cbn [mbind option_bind]. change (69 / 16 =? 4) with true.
  cbn [mbind option_bind]. by rewrite H.
Qed.
Lemma ip4_read_back len ident ttl_ proto_ s d buf :
  (20 ≤ length buf)%nat → is_bytes buf → is_u16 len → is_u16 ident → is_u8 ttl_ → is_u8 proto_ →
  is_u32 (_addr s) → is_u32 (_addr d) →
  ∃ b, set_ip4 len ident ttl_ proto_ s d buf = Some b ∧ length b = length buf ∧ ip4_header.of_buf b = Some (20%nat, b) ∧
    ip4_header.total_len b = Some len ∧ ip4_header.id b = Some ident ∧ ip4_header.ttl b = Some ttl_ ∧
    ip4_header.proto b = Some proto_ ∧ ip4_header.src_addr b = Some s ∧ ip4_header.dest_addr b = Some d.
Proof.
  intros Hl Hb Hlen Hid Httl Hp Hs Hd. destruct (version_length buf) as (b0 & E0 & L0 & G0); [lia|done|].
  unfold set_ip4. destruct (ip4_header.set_ip_v 4 buf) as [b'|]; [|done]. cbn [mbind option_bind] in *. rewrite E0.
  cbn [mbind option_bind].
  unfold ip4_header.set_total_len, ip4_header.set_id, ip4_header.set_ttl, ip4_header.set_proto,
    ip4_header.set_src_addr, ip4_header.set_dest_addr, ip4_header.total_len, ip4_header.id, ip4_header.ttl,
    ip4_header.proto, ip4_header.src_addr, ip4_header.dest_addr.
  put (writes_swapped16 len 2 Hlen) b1 F1 G1. put (writes_swapped16 ident 4 Hid) b2 F2 G2.
  put (writes8 ttl_ 8 Httl) b3 F3 G3. put (writes8 proto_ 9 Hp) b4 F4 G4.
  put (writes_ip4 s 12 Hs) b5 F5 G5. put (writes_ip4 d 16 Hd) b6 F6 G6.
  exists b6. split_and!; [done|congruence|apply ip4_of_buf_fixed; unchanged|unchanged..|done].
  etransitivity; [apply (F6 _ (λ b, ip4_addr.from_net <$> load32 12 b) 12%nat 4%nat); [auto with views|lia]|done].
Qed.
Definition set_udp (s d l : Z) buf : option (list Z) :=
  b ← udp_header.set_src_port s buf; b ← udp_header.set_dest_port d b; udp_header.set_payload_length l b.
Lemma udp_read_back s d l buf :
  (8 ≤ length buf)%nat → is_u16 s → is_u16 d → is_u16 l →
  ∃ b, set_udp s d l buf = Some b ∧ length b = length buf ∧
    udp_header.src_port b = Some s ∧ udp_header.dest_port b = Some d ∧ udp_header.payload_length b = Some l.
Proof.
  intros Hl Hs Hd Hp. unfold set_udp, udp_header.set_src_port, udp_header.set_dest_port, udp_header.set_payload_length,
    udp_header.src_port, udp_header.dest_port, udp_header.payload_length.
  put (writes_swapped16 s 0 Hs) b1 F1 G1. put (writes_swapped16 d 2 Hd) b2 F2 G2.
  put (writes_swapped16 l 4 Hp) b3 F3 G3. exists b3. split_and!; [done|congruence|unchanged..].
Qed.

(** C33: in any buffer that is long enough, the fields set on an Ethernet, an
    IPv4 and a UDP header are read back by the getters, whichever other fields
    were set after them, and the buffer keeps its length; an IPv4 header made on
    the finished buffer has length 20 and leaves it as it is. *)
Theorem header_fields_read_back (dm sm : mac_addr) (t len ident ttl_ proto_ sp dp pl : Z) (sa da : ip4_addr)
    (eth ip udp : list Z)
    (He : (14 ≤ length eth)%nat) (Hi : (20 ≤ length ip)%nat) (Hu : (8 ≤ length udp)%nat) (Hb : is_bytes ip)
    (H16 : Forall is_u16 [t; len; ident; sp; dp; pl]) (H8 : is_u8 ttl_ ∧ is_u8 proto_)
    (H32 : is_u32 (_addr sa) ∧ is_u32 (_addr da)) :
  (∃ b, set_ethernet dm sm t eth = Some b ∧ length b = length eth ∧ ethernet_header.dest_addr b = Some dm ∧
     ethernet_header.src_addr b = Some sm ∧ ethernet_header.ether_type b = Some t) ∧
  (∃ b, set_ip4 len ident ttl_ proto_ sa da ip = Some b ∧ length b = length ip ∧
     ip4_header.of_buf b = Some (20%nat, b) ∧ ip4_header.total_len b = Some len ∧ ip4_header.id b = Some ident ∧
     ip4_header.ttl b = Some ttl_ ∧ ip4_header.proto b = Some proto_ ∧ ip4_header.src_addr b = Some sa ∧
     ip4_header.dest_addr b = Some da) ∧
  (∃ b, set_udp sp dp pl udp = Some b ∧ length b = length udp ∧ udp_header.src_port b = Some sp ∧
     udp_header.dest_port b = Some dp ∧ udp_header.payload_length b = Some pl).
Proof.
  rewrite !Forall_cons in H16. destruct H16 as (?&?&?&?&?&?&_), H8, H32.
  split_and!; [by apply ethernet_read_back|by apply ip4_read_back|by apply udp_read_back].
Qed.
Lemma header_fields_read_back_witness :
  ∃ b, set_udp 5000 6000 8 (zeroed 8) = Some b ∧ udp_header.src_port b = Some 5000.
Proof.
  destruct (header_fields_read_back mac_addr.default mac_addr.default 2048 20 1 64 17 5000 6000 8 (Ip4 1) (Ip4 2)
    (zeroed 14) (zeroed 20) (zeroed 8)) as (_ & _ & (b & ? & _ & ? & _)).
  - simpl. lia.
  - simpl. lia.
  - simpl. lia.
  - repeat constructor; done.
  - repeat constructor; done.
  - done.
  - done.
  - exists b. split; assumption.
Defined.

(** ** Link-layer addresses as numbers *)
Lemma mac_to_uint64_eq a : mac_addr.wf a →
  mac_addr.to_uint64 a = ((((mac_addr.m0 a * 256 + mac_addr.m1 a) * 256 + mac_addr.m2 a) * 256 + mac_addr.m3 a) * 256 +
    mac_addr.m4 a) * 256 + mac_addr.m5 a.
Proof.
  unfold mac_addr.wf, is_bytes, mac_addr.bytes. rewrite !Forall_cons. intros (?&?&?&?&?&?&_).
  unfold mac_addr.to_uint64. rewrite !Z.shiftl_mul_pow2 by lia.
  change (2 ^ (5 * 8)) with 1099511627776. change (2 ^ (4 * 8)) with 4294967296. change (2 ^ (3 * 8)) with 16777216.
  change (2 ^ (2 * 8)) with 65536. change (2 ^ (1 * 8)) with 256. change (2 ^ (0 * 8)) with 1.
  rewrite !u64_small by wrap_lia.
  rewrite (lor_add (_ * 1099511627776) _ 40) by wrap_lia. rewrite (lor_add _ (_ * 16777216) 32) by wrap_lia.
  rewrite (lor_add _ (_ * 65536) 24) by wrap_lia. rewrite (lor_add _ (_ * 256) 16) by wrap_lia.
  rewrite (lor_add _ (_ * 1) 8) by wrap_lia. lia.
Qed.

Lemma mac_of_uint64_eq n :
  mac_addr.of_uint64 n = Mac (n / 1099511627776 mod 256) (n / 4294967296 mod 256) (n / 16777216 mod 256)
    (n / 65536 mod 256) (n / 256 mod 256) (n mod 256).
Proof.
  unfold mac_addr.of_uint64. rewrite !Z.shiftr_div_pow2 by lia. unfold u8.
  change (2 ^ (5 * 8)) with 1099511627776. change (2 ^ (4 * 8)) with 4294967296. change (2 ^ (3 * 8)) with 16777216.
  change (2 ^ (2 * 8)) with 65536. change (2 ^ (1 * 8)) with 256. change (2 ^ (0 * 8)) with 1. by rewrite Z.div_1_r.
Qed.
Lemma mac_roundtrip a : mac_addr.wf a → mac_addr.of_uint64 (mac_addr.to_uint64 a) = a.
Proof.
  intros Ha. rewrite mac_to_uint64_eq, mac_of_uint64_eq by done. destruct a as [a0 a1 a2 a3 a4 a5].
  unfold mac_addr.wf, is_bytes, mac_addr.bytes in Ha; simpl in *. rewrite !Forall_cons in Ha.
  destruct Ha as (?&?&?&?&?&?&_). f_equal; wrap_lia.
Qed.
Lemma mac_eqb_eq (a b : mac_addr) : mac_addr.eqb a b = true ↔ a = b.
Proof.
  unfold mac_addr.eqb. rewrite !andb_true_iff, !Z.eqb_eq. destruct a, b; simpl. split; [|by intros [= -> -> -> -> -> ->]].
  intros [[[[[-> ->] ->] ->] ->] ->]. done.
Qed.

(** A link-layer address and the number of its 48 bits are the same thing:
    each conversion undoes the other (bits 48 to 63 of a number are discarded),
    so equal hashes mean equal addresses. *)
Theorem mac_uint64_roundtrip (a b : mac_addr) (n : Z) (Ha : mac_addr.wf a) (Hb : mac_addr.wf b) (Hn : is_u64 n) :
  mac_addr.of_uint64 (mac_addr.to_uint64 a) = a ∧
  mac_addr.to_uint64 (mac_addr.of_uint64 n) = n mod 281474976710656 ∧
  (mac_addr.hash a = mac_addr.hash b ↔ mac_addr.eqb a b = true).
Proof.
  split_and!.
  - by apply mac_roundtrip.
  - rewrite mac_of_uint64_eq, mac_to_uint64_eq; simpl; [wrap_lia|].
    repeat constructor; apply Z.mod_pos_bound; lia.
  - rewrite mac_eqb_eq. unfold mac_addr.hash. split; [|by intros ->]. intros E.
    by rewrite <-(mac_roundtrip a), <-(mac_roundtrip b), E.
Qed.
Lemma mac_uint64_roundtrip_witness :
  mac_addr.of_uint64 (mac_addr.to_uint64 (Mac 2 0 255 1 17 9)) = Mac 2 0 255 1 17 9.
Proof.
  destruct (mac_uint64_roundtrip (Mac 2 0 255 1 17 9) mac_addr.default 5) as [H _];
    [repeat constructor; done|repeat constructor; done|done|exact H].
Defined.

(** ** Where the code goes wrong *)

(** [operator<] of link-layer addresses and of flow keys compares the parts
    with "or" instead of lexicographically: it is not asymmetric, so there are
    two addresses and two keys of which each is less than the other, which an
    ordered container must not have. *)
Theorem less_than_not_asymmetric :
  (∃ a b : mac_addr, mac_addr.wf a ∧ mac_addr.wf b ∧ mac_addr.ltb a b = true ∧ mac_addr.ltb b a = true) ∧
  (∃ k l, ip4_flow_key.ltb k l = true ∧ ip4_flow_key.ltb l k = true).
Proof.
  split.
  - exists (Mac 0 1 0 0 0 0), (Mac 1 0 0 0 0 0). split_and!; try done; repeat constructor; done.
  - by exists (FlowKey (Ip4 0) (Ip4 1) 0 0 0), (FlowKey (Ip4 1) (Ip4 0) 0 0 0).
Qed.

(** What the constructor makes of the first byte. *)
Definition fix_hl (x : Z) : Z := if x mod 16 =? 5 then x else u8 (16 * (x / 16) + 5 mod 16).
Definition fix_v (x : Z) : Z := if x / 16 =? 4 then x else u8 (x mod 16 + 16 * (4 mod 16)).
Lemma ip4_of_buf_cons x rest :
  ip4_header.of_buf (x :: rest) = Some (Z.to_nat (fix_v (fix_hl x) mod 16 * 4), fix_v (fix_hl x) :: rest).
Proof.
  assert (Hs : ∀ y v, store8 0 v (y :: rest) = Some (u8 v :: rest)).
  { intros y v. unfold store8, store. rewrite decide_True by (simpl; lia). done. }
  unfold ip4_header.of_buf, ip4_header.set_ip_hl, ip4_header.set_ip_v, load8, fix_hl.
  cbn [lookup list_lookup mbind option_bind]. rewrite Hs. destruct (x mod 16 =? 5); cbn [lookup list_lookup mbind option_bind];
    unfold fix_v; rewrite Hs; destruct (_ / 16 =? 4); done.
Qed.

(** The key made from an IPv4 packet has the source address in the place of
    the destination, so packets that differ only in the destination address (the
    four bytes at offset 16) have the same key. *)
Theorem flow_key_ignores_destination (pre dst dst' post : list Z)
    (Hpre : length pre = 16%nat) (Hdst : length dst = 4%nat) (Hdst' : length dst' = 4%nat) :
  fst <$> ip4_flow_key.from_ip4_bytes (pre ++ dst ++ post) = fst <$> ip4_flow_key.from_ip4_bytes (pre ++ dst' ++ post).
Proof.
  destruct pre as [|x pre]; [done|]. simpl in Hpre. rewrite <-!app_comm_cons.
  unfold ip4_flow_key.from_ip4_bytes. rewrite !ip4_of_buf_cons. cbn [mbind option_bind].
  set (y := fix_v (fix_hl x)).
  assert (Hlow : ∀ i d, (i < 16)%nat → (y :: pre ++ d ++ post) !! i = (y :: pre) !! i).
  { intros i d Hi. rewrite app_comm_cons. apply lookup_app_l. simpl. lia. }
  assert (Hdrop : ∀ d, length d = 4%nat → drop 20 (y :: pre ++ d ++ post) = post).
  { intros d Hd. change (drop 20 (y :: pre ++ d ++ post)) with (drop 19 (pre ++ d ++ post)).
    rewrite app_assoc. apply drop_app_length'. rewrite length_app. lia. }
  unfold ip4_header.src_addr, ip4_header.proto, load8, load32, load16. rewrite !Hlow, !Hdrop by (done || lia).
  destruct (ip4_addr.from_net <$> _) as [src|]; cbn [mbind option_bind]; [|done].
  destruct ((y :: pre) !! 9%nat) as [proto|]; cbn [mbind option_bind]; [|done].
  by destruct (if proto =? 6 then _ else _) as [[]|].
Qed.
Lemma flow_key_ignores_destination_witness :
  fst <$> ip4_flow_key.from_ip4_bytes (69 :: zeroed 15 ++ [10; 0; 0; 1] ++ zeroed 4) =
  fst <$> ip4_flow_key.from_ip4_bytes (69 :: zeroed 15 ++ [10; 0; 0; 2] ++ zeroed 4).
Proof. apply (flow_key_ignores_destination (69 :: zeroed 15)); reflexivity. Defined.

(** Making an [ip4_header] on a received packet overwrites the packet: the
    first byte becomes 69 (version 4, five words), so the length of a header
    with options is lost for everyone who reads the buffer afterwards. *)
Theorem ip4_header_overwrites_packet (x : Z) (rest : list Z) (Hx : is_u8 x) :
  ip4_header.of_buf (x :: rest) = Some (20%nat, 69 :: rest).
Proof.
  rewrite ip4_of_buf_cons. assert (fix_v (fix_hl x) = 69) as ->; [|done].
  unfold fix_hl, fix_v. zcase; wrap_lia.
Qed.
Lemma ip4_header_overwrites_packet_witness : ip4_header.of_buf (70 :: zeroed 23) = Some (20%nat, 69 :: zeroed 23).
Proof. apply (ip4_header_overwrites_packet 70 (zeroed 23)). wrap_lia. Defined.

(** An ARP header reads a protocol address with [from_bytes], an IPv4 header
    with [from_net]: the same four bytes of a packet give addresses with opposite
    byte order, so the address of a host in its ARP and in its IPv4 packets
    differ unless it reads the same backwards. *)
Theorem arp_address_reversed (a b c d : Z) (arp ip : list Z)
    (Hb : is_bytes [a; b; c; d])
    (Harp : take 4 (drop 14 arp) = [a; b; c; d]) (Hip : take 4 (drop 12 ip) = [a; b; c; d]) :
  ∃ ha hi, arp_header.sender_protocol_addr arp = Some ha ∧ ip4_header.src_addr ip = Some hi ∧
    ha = ip4_addr.reverse_byte_order hi ∧ (ha = hi ↔ a = d ∧ b = c).
Proof.
  assert (Hl : ∀ off buf i, take 4 (drop off buf) = [a; b; c; d] → (i < 4)%nat → buf !! (off + i)%nat = [a; b; c; d] !! i).
  { intros off buf i E Hi. by rewrite <-lookup_drop, <-E, lookup_take_lt. }
  unfold arp_header.sender_protocol_addr, ip4_from_bytes, ip4_header.src_addr, load32, load16.
  pose proof (Hl 14%nat arp 0%nat Harp ltac:(lia)) as A0. pose proof (Hl 14%nat arp 1%nat Harp ltac:(lia)) as A1.
  pose proof (Hl 14%nat arp 2%nat Harp ltac:(lia)) as A2. pose proof (Hl 14%nat arp 3%nat Harp ltac:(lia)) as A3.
  pose proof (Hl 12%nat ip 0%nat Hip ltac:(lia)) as I0. pose proof (Hl 12%nat ip 1%nat Hip ltac:(lia)) as I1.
  pose proof (Hl 12%nat ip 2%nat Hip ltac:(lia)) as I2. pose proof (Hl 12%nat ip 3%nat Hip ltac:(lia)) as I3.
  cbn [Nat.add lookup list_lookup] in A0, A1, A2, A3, I0, I1, I2, I3 |- *.
  rewrite A0, A1, A2, A3, I0, I1, I2, I3. cbn [mbind option_bind fmap option_fmap option_map].
  unfold is_bytes in Hb. rewrite !Forall_cons in Hb. destruct Hb as (?&?&?&?&_).
  eexists _, _. split; [done|]. split; [done|].
  assert (Hh : ip4_addr.from_bytes a b c d = Ip4 (((a * 256 + b) * 256 + c) * 256 + d)).
  { unfold ip4_addr.from_bytes. f_equal. rewrite !Z.shiftl_mul_pow2 by lia. rewrite lor_bytes4 by done. wrap_lia. }
  rewrite Hh. unfold ip4_addr.from_net, ip4_addr.reverse_byte_order, htonl; simpl.
  rewrite reverse_byte_order32_eq by wrap_lia. split.
  - unfold ip4_addr.from_net. f_equal. unfold bswap32. wrap_lia.
  - split; [intros [= E]; wrap_lia|]. intros [-> ->]. f_equal. lia.
Qed.
Lemma arp_address_reversed_witness :
  ∃ ha hi, arp_header.sender_protocol_addr (zeroed 14 ++ [10; 0; 0; 1] ++ zeroed 10) = Some ha ∧
    ip4_header.src_addr (zeroed 12 ++ [10; 0; 0; 1] ++ zeroed 4) = Some hi ∧ ha ≠ hi.
Proof.
  destruct (arp_address_reversed 10 0 0 1 (zeroed 14 ++ [10; 0; 0; 1] ++ zeroed 10)
    (zeroed 12 ++ [10; 0; 0; 1] ++ zeroed 4)) as (ha & hi & ? & ? & _ & Hiff).
  - repeat constructor; done.
  - reflexivity.
  - reflexivity.
  - exists ha, hi. split; [assumption|]. split; [assumption|]. intros E. apply Hiff in E as [E _]. discriminate E.
Defined.
End Claims.
