(* ===== verification/OmText.v ===== *)
(** * Text ([src/om.h]: [parse_host_port], [mac_addr] as text, namespace [etc])

    The conversions between text and values: host and port, link-layer
    addresses, dumps of bytes, tokens, the lines of a file; and the stop watches
    of [etc]. Streams and [sscanf] are modelled as far
    as the code uses them; a text is a list of characters. *)
From Stdlib Require Import Ascii.
From stdpp Require Import pretty.
From S2P Require Import Prelude Float64 OmNet OmPacket.

Definition text := list ascii.
Definition chars : string → text := String.list_ascii_of_string.

(** ** Numbers *)
Definition digits : text := chars "0123456789abcdef".
Definition digit (n : Z) : ascii := nth (Z.to_nat n) digits "0"%char.
(** The value of a digit, capital letters included. *)
Definition digit_value (c : ascii) : option Z :=
  let n := Z.of_N (N_of_ascii c) in
  if (48 <=? n) && (n <=? 57) then Some (n - 48)
  else if (97 <=? n) && (n <=? 102) then Some (n - 87)
  else if (65 <=? n) && (n <=? 70) then Some (n - 55) else None.
Definition value_in (base : Z) (c : ascii) : option Z :=
  match digit_value c with Some v => if v <? base then Some v else None | None => None end.
(** [os << std::hex << z] for [z >= 0]; 16 digits hold a [uint64_t]. *)
Fixpoint hex_from (fuel : nat) (z : Z) (acc : text) : text :=
  match fuel with
  | O => acc
  | S fuel => if z <? 16 then digit z :: acc else hex_from fuel (z / 16) (digit (z mod 16) :: acc)
  end.
Definition hex (z : Z) : text := hex_from 16 z [].
(** [std::setw(n) << std::setfill(c)] *)
Definition setw (n : nat) (c : ascii) (s : text) : text := replicate (n - length s) c ++ s.

Definition is_space (c : ascii) : bool := bool_decide (c ∈ [" "; "009"; "010"; "011"; "012"; "013"]%char).
Fixpoint skip_spaces (s : text) : text :=
  match s with c :: s' => if is_space c then skip_spaces s' else s | [] => [] end.
(** The longest prefix of digits, and its value. *)
Fixpoint span_digits (base acc : Z) (s : text) : Z * nat * text :=
  match s with
  | c :: s' =>
      match value_in base c with
      | Some v => let '(z, n, r) := span_digits base (acc * base + v) s' in (z, S n, r)
      | None => (acc, O, s)
      end
  | [] => (acc, O, [])
  end.
Definition sign (s : text) : bool * text :=
  match s with
  | "-"%char :: s => (true, s)
  | "+"%char :: s => (false, s)
  | s => (false, s)
  end.
(** The prefix [0x] of a number in base 16, if a digit follows. *)
Definition unprefixed (base : Z) (s : text) : text :=
  match s with
  | "0"%char :: "x"%char :: ((c :: _) as t) | "0"%char :: "X"%char :: ((c :: _) as t) =>
      if (base =? 16) && bool_decide (is_Some (value_in 16 c)) then t else s
  | _ => s
  end.
(** [strtoul]: [None] without a digit; the flag tells that the value does not
    fit an [unsigned long]. *)
Definition strtoul (base : Z) (s : text) : option (Z * bool * text) :=
  let '(neg, s) := sign (skip_spaces s) in
  match span_digits base 0 (unprefixed base s) with
  | (_, O, _) => None
  | (z, _, r) => Some (if z <? 18446744073709551616 then u64 (if neg : bool then - z else z) else 18446744073709551615,
                       negb (z <? 18446744073709551616), r)
  end.
(** [std::stoul]: throws [invalid_argument] or [out_of_range]. *)
Definition stoul (s : text) : option Z :=
  match strtoul 10 s with Some (z, false, _) => Some z | _ => None end.

(** ** Host and port *)
Fixpoint split_colon (s : text) : option (text * text) :=
  match s with
  | [] => None
  | c :: s => if decide (c = ":"%char) then Some ([], s) else '(h, p) ← split_colon s; Some (c :: h, p)
  end.
(** [None]: an exception. *)
Definition parse_host_port (host_port_ : text) : option (text * Z) :=
  '(host_part, port_part) ← split_colon host_port_;
  port ← stoul port_part;
  Some (host_part, u16 port).

(** ** Link-layer addresses *)
Definition hex2 (b : Z) : text := setw 2 "0" (hex b).
Definition mac_to_string (a : mac_addr) : text :=
  hex2 (mac_addr.m0 a) ++ ":"%char :: hex2 (mac_addr.m1 a) ++ ":"%char :: hex2 (mac_addr.m2 a) ++ ":"%char ::
  hex2 (mac_addr.m3 a) ++ ":"%char :: hex2 (mac_addr.m4 a) ++ ":"%char :: hex2 (mac_addr.m5 a).
(** [%x] of [sscanf], stored in an [int] and cut to a byte; then the colon. *)
Definition scan_x (s : text) : option (Z * text) :=
  '(z, _, r) ← strtoul 16 s; Some (u8 z, r).
Definition scan_colon (s : text) : option text :=
  match s with ":"%char :: s => Some s | _ => None end.
Definition mac_of_string (str_ : text) : option mac_addr :=
  '(t0, s) ← scan_x str_; s ← scan_colon s;
  '(t1, s) ← scan_x s; s ← scan_colon s;
  '(t2, s) ← scan_x s; s ← scan_colon s;
  '(t3, s) ← scan_x s; s ← scan_colon s;
  '(t4, s) ← scan_x s; s ← scan_colon s;
  '(t5, _) ← scan_x s;
  Some (Mac t0 t1 t2 t3 t4 t5).

(** ** Dumps *)
Definition format_ptr (ptr_ : Z) : text := chars "0x" ++ setw 16 "0" (hex ptr_).
(** The bytes from index [i] on, eight to a line when formatted. *)
Fixpoint dump_from (format_ : bool) (i : nat) (buf_ : list Z) : text :=
  match buf_ with
  | [] => []
  | b :: buf_ =>
      (if format_ && (0 <? i)%nat && (i mod 8 =? 0)%nat
       then "010"%char :: setw 5 " " (chars (pretty (Z.of_nat i))) ++ chars "  " else []) ++
      " "%char :: setw 2 "0" (hex (Z.land b 255)) ++ dump_from format_ (S i) buf_
  end.
Definition print_bytes (buf_ : list Z) (format_ : bool) : text :=
  (if format_ then chars "    0  " else []) ++ dump_from format_ 0 buf_ ++ ["010"%char].
Definition format_bytes (buf_ : list Z) (format_ : bool) : text := print_bytes buf_ format_.

(** ** Tokens *)

(** [tokenize] with a delimiter of one punctuation mark: the regular expression
    is one or more of them. The token iterator yields the text before every
    match, and what follows the last one unless it is empty; a text without a
    match is its only token. *)
Fixpoint skip_run (d : ascii) (s : text) : text :=
  match s with c :: s' => if decide (c = d) then skip_run d s' else s | [] => [] end.
Fixpoint until (d : ascii) (s : text) : text * option text :=
  match s with
  | [] => ([], None)
  | c :: s => if decide (c = d) then ([], Some s) else let '(a, r) := until d s in (c :: a, r)
  end.
Fixpoint tokens (fuel : nat) (d : ascii) (first : bool) (s : text) : list text :=
  match fuel with
  | O => []
  | S fuel =>
      match until d s with
      | (a, Some r) => a :: tokens fuel d false (skip_run d r)
      | (a, None) => if (first : bool) || negb (bool_decide (a = [])) then [a] else []
      end
  end.
Definition tokenize (str_ : text) (del_ : ascii) : list text := tokens (S (length str_)) del_ true str_.

(** ** Digits read back *)
Definition value_of (base : Z) : Z → list Z → Z := foldl (λ acc d, acc * base + d).
(** Text at which a number ends. *)
Definition stops (r : text) : Prop := match r with c :: _ => c = ":"%char | [] => True end.

Lemma digit_case (P : Z → Prop) n : 0 <= n < 16 → Forall P (seqZ 0 16) → P n.
Proof. intros Hn HP. rewrite Forall_forall in HP. apply HP, elem_of_seqZ. lia. Qed.
Ltac by_digit n := pattern n; apply digit_case; [lia|]; repeat constructor; intros; vm_compute; done.

Lemma value_digit base n : 0 <= n < base → base <= 16 → value_in base (digit n) = Some n.
Proof.
  intros Hn Hb. unfold value_in. replace (digit_value (digit n)) with (Some n); [by rewrite (proj2 (Z.ltb_lt n base)) by lia|].
  by_digit n.
Qed.
Lemma skip_digit n s : 0 <= n < 16 → skip_spaces (digit n :: s) = digit n :: s.
Proof. intros Hn. by_digit n. Qed.
Lemma sign_digit n s : 0 <= n < 16 → sign (digit n :: s) = (false, digit n :: s).
Proof. intros Hn. by_digit n. Qed.

Lemma span_digits_read base ds r acc : base <= 16 → Forall (λ d, 0 <= d < base) ds → stops r →
  span_digits base acc ((digit <$> ds) ++ r) = (value_of base acc ds, length ds, r).
Proof.
  intros Hb Hds Hr. revert acc. induction Hds as [|d ds Hd Hds IH]; intros acc; simpl.
  - destruct r as [|c r]; simpl; [done|]. simpl in Hr. by subst c.
  - rewrite value_digit by lia. by rewrite IH.
Qed.

Lemma unprefixed_digits base ds r : Forall (λ d, 0 <= d < 16) ds → stops r →
  unprefixed base ((digit <$> ds) ++ r) = (digit <$> ds) ++ r.
Proof.
  intros Hds Hr. destruct Hds as [|d ds Hd Hds]; simpl.
  - destruct r as [|c r]; [done|]. simpl in Hr. by subst c.
  - destruct Hds as [|e ds He Hds]; simpl.
    + destruct r as [|c r]; [by by_digit d|]. simpl in Hr. subst c. by_digit d.
    + generalize ((digit <$> ds) ++ r). intros t. pattern e. apply digit_case; [lia|].
      repeat constructor; by_digit d.
Qed.
Lemma strtoul_digits base ds r : base <= 16 → ds ≠ [] → Forall (λ d, 0 <= d < base) ds → stops r →
  let z := value_of base 0 ds in
  strtoul base ((digit <$> ds) ++ r) =
    Some (if z <? 18446744073709551616 then u64 z else 18446744073709551615, negb (z <? 18446744073709551616), r).
Proof.
  intros Hb Hne Hds Hr z. assert (Forall (λ d, 0 <= d < 16) ds) as H16 by (eapply Forall_impl; [done|]; simpl; lia).
  assert (skip_spaces ((digit <$> ds) ++ r) = (digit <$> ds) ++ r) as Hs.
  { destruct H16; [done|]. by apply skip_digit. }
  assert (sign ((digit <$> ds) ++ r) = (false, (digit <$> ds) ++ r)) as Hg.
  { destruct H16; [done|]. by apply sign_digit. }
  unfold strtoul. rewrite Hs, Hg, unprefixed_digits, span_digits_read by done.
  by destruct ds.
Qed.

Lemma value_of_nonneg base acc ds : 0 <= base → 0 <= acc → Forall (λ d, 0 <= d < base) ds → 0 <= value_of base acc ds.
Proof.
  intros Hb. revert acc. induction ds as [|d ds IH]; intros acc Ha Hds; simpl; [done|].
  apply Forall_cons in Hds as [? ?]. apply IH; [nia|done].
Qed.
Lemma split_colon_app h p : ":"%char ∉ h → split_colon (h ++ ":"%char :: p) = Some (h, p).
Proof.
  induction h as [|c h IH]; intros Hn; simpl; [done|]. apply not_elem_of_cons in Hn as [Hc Hn].
  by rewrite decide_False, IH by done.
Qed.
Lemma split_colon_none s : ":"%char ∉ s → split_colon s = None.
Proof.
  induction s as [|c s IH]; intros Hn; simpl; [done|]. apply not_elem_of_cons in Hn as [Hc Hn].
  by rewrite decide_False, IH by done.
Qed.

(** A host, a colon and a decimal number parse to the host and the number
    modulo 65536, so ports above 65535 are silently taken for others; a number
    that does not fit an [unsigned long], a missing number and a missing colon
    raise an exception. *)
Theorem host_port_parsed (host : text) (ds : list Z) (Hhost : ":"%char ∉ host) (Hds : Forall (λ d, 0 <= d < 10) ds) :
  let port := value_of 10 0 ds in
  parse_host_port (host ++ ":"%char :: (digit <$> ds)) =
    (if negb (bool_decide (ds = [])) && (port <? 18446744073709551616) then Some (host, port mod 65536) else None) ∧
  parse_host_port host = None.
Proof.
  intros port. unfold parse_host_port. rewrite split_colon_app, split_colon_none by done. split; [|done]. simpl.
  destruct (decide (ds = [])) as [->|Hne]; [done|]. rewrite bool_decide_false by done. simpl.
  assert (0 <= port) by (by apply value_of_nonneg).
  unfold stoul. rewrite <-(app_nil_r (digit <$> ds)), strtoul_digits by (done || lia). fold port.
  destruct (Z.ltb_spec port 18446744073709551616); simpl; [|done].
  unfold u16, u64. by rewrite (Z.mod_small port) by lia.
Qed.

Lemma host_port_parsed_witness :
  parse_host_port (chars "10.0.0.1:8080") = Some (chars "10.0.0.1", 8080) ∧
  parse_host_port (chars "10.0.0.1:70000") = Some (chars "10.0.0.1", 4464).
Proof.
  split.
  - apply (host_port_parsed (chars "10.0.0.1") [8; 0; 8; 0]); [by apply (bool_decide_unpack _); vm_compute|].
    repeat constructor; done.
  - apply (host_port_parsed (chars "10.0.0.1") [7; 0; 0; 0; 0]); [by apply (bool_decide_unpack _); vm_compute|].
    repeat constructor; done.
Defined.

(** ** Addresses as text *)
Lemma hex2_digits b : is_u8 b → hex2 b = digit <$> [b / 16; b mod 16].
Proof.
  intros Hb. unfold is_u8 in Hb. unfold hex2, hex.
  assert (0 <= b / 16 < 16) by (split; [apply Z.div_pos|apply Z.div_lt_upper_bound]; lia).
  assert (b = 16 * (b / 16) + b mod 16) by (apply Z.div_mod; lia).
  simpl. destruct (Z.ltb_spec b 16).
  - rewrite (Z.div_small b), Z.mod_small by lia. done.
  - by rewrite (proj2 (Z.ltb_lt (b / 16) 16)) by lia.
Qed.
Lemma scan_hex2 b r : is_u8 b → stops r → scan_x (hex2 b ++ r) = Some (b, r).
Proof.
  intros Hb Hr. rewrite hex2_digits by done. unfold is_u8 in Hb.
  assert (0 <= b / 16 < 16) by (split; [apply Z.div_pos|apply Z.div_lt_upper_bound]; lia).
  assert (0 <= b mod 16 < 16) by (apply Z.mod_pos_bound; lia).
  assert (b = 16 * (b / 16) + b mod 16) as E by (apply Z.div_mod; lia).
  unfold scan_x. rewrite strtoul_digits; [|lia|done|by rewrite !Forall_cons|done].
  change (value_of 16 0 [b / 16; b mod 16]) with ((0 * 16 + b / 16) * 16 + b mod 16).
  replace ((0 * 16 + b / 16) * 16 + b mod 16) with b by lia.
  rewrite (proj2 (Z.ltb_lt b _)) by lia. simpl. unfold u8, u64. by rewrite !(Z.mod_small b) by lia.
Qed.

(** A link-layer address survives its text. *)
Theorem mac_text_roundtrip (a : mac_addr) (Ha : mac_addr.wf a) : mac_of_string (mac_to_string a) = Some a.
Proof.
  unfold mac_addr.wf, is_bytes, mac_addr.bytes in Ha. rewrite !Forall_cons in Ha. destruct Ha as (?&?&?&?&?&?&_).
  unfold mac_of_string, mac_to_string. rewrite <-(app_nil_r (hex2 (mac_addr.m5 a))).
  do 6 (rewrite scan_hex2 by done; simpl). by destruct a.
Qed.

Lemma mac_text_roundtrip_witness :
  mac_of_string (chars "0a:00:ff:10:02:9c") = Some (Mac 10 0 255 16 2 156).
Proof. apply (mac_text_roundtrip (Mac 10 0 255 16 2 156)). repeat constructor; done. Defined.

(** ** Tokens *)
Section Tokens.
Variable d : ascii.
(** Tokens, each but the last followed by a run of delimiters. *)
Fixpoint joined (t : text) (rest : list (nat * text)) : text :=
  match rest with [] => t | (k, t') :: rest => t ++ d :: replicate k d ++ joined t' rest end.
Definition token (t : text) : Prop := t ≠ [] ∧ d ∉ t.

Lemma until_none t : d ∉ t → until d t = (t, None).
Proof.
  induction t as [|c t IH]; intros Hn; simpl; [done|]. apply not_elem_of_cons in Hn as [Hc Hn].
  by rewrite decide_False, IH by done.
Qed.
Lemma until_run t k s : d ∉ t → until d (t ++ d :: replicate k d ++ s) = (t, Some (replicate k d ++ s)).
Proof.
  induction t as [|c t IH]; intros Hn; simpl.
  { by rewrite decide_True. }
  apply not_elem_of_cons in Hn as [Hc Hn]. by rewrite decide_False, IH by done.
Qed.
Lemma skip_run_app k s : skip_run d (replicate k d ++ s) = skip_run d s.
Proof. induction k as [|k IH]; simpl; [done|]. by rewrite decide_True. Qed.
Lemma skip_run_joined t rest : token t → skip_run d (joined t rest) = joined t rest.
Proof.
  intros [Hne Hn]. destruct t as [|c t]; [done|]. apply not_elem_of_cons in Hn as [Hc Hn].
  destruct rest as [|[k t'] rest]; simpl; by rewrite decide_False by done.
Qed.
Lemma tokens_joined fuel first t rest : token t → Forall token rest.*2 → (length rest < fuel)%nat →
  tokens fuel d first (joined t rest) = t :: rest.*2.
Proof.
  revert fuel first t. induction rest as [|[k t'] rest IH]; intros fuel first t [Hne Hn] Hts Hf;
    (destruct fuel as [|fuel]; [simpl in Hf; lia|]); simpl.
  - rewrite until_none by done. rewrite (bool_decide_false (t = [])) by done. by rewrite orb_true_r.
  - rewrite until_run by done. apply Forall_cons in Hts as [Ht' Hts]. simpl in Hf.
    rewrite skip_run_app, skip_run_joined by done. by rewrite IH by (done || lia).
Qed.
Lemma tokens_trailing fuel first t rest k : token t → Forall token rest.*2 → (S (length rest) < fuel)%nat →
  tokens fuel d first (joined t (rest ++ [(k, [])])) = t :: rest.*2.
Proof.
  revert fuel first t. induction rest as [|[j t'] rest IH]; intros fuel first t [Hne Hn] Hts Hf;
    (destruct fuel as [|fuel]; [simpl in Hf; lia|]); simpl.
  - rewrite until_run, skip_run_app by done. by destruct fuel.
  - rewrite until_run by done. apply Forall_cons in Hts as [Ht' Hts]. simpl in Hf.
    rewrite skip_run_app. assert (skip_run d (joined t' (rest ++ [(k, [])])) = joined t' (rest ++ [(k, [])])) as ->
      by by apply skip_run_joined.
    by rewrite IH by (done || lia).
Qed.
Lemma joined_length t rest : (length rest <= length (joined t rest))%nat.
Proof.
  revert t. induction rest as [|[k t'] rest IH]; intros t; simpl; [lia|].
  rewrite length_app. simpl. rewrite length_app, length_replicate. specialize (IH t'). lia.
Qed.

(** Splitting at a delimiter undoes joining with runs of it; a trailing run
    adds nothing, but a leading run adds an empty first token. *)
Theorem tokenize_joined (t : text) (rest : list (nat * text)) (k : nat) (Ht : token t) (Hrest : Forall token rest.*2) :
  tokenize (joined t rest) d = t :: rest.*2 ∧
  tokenize (joined t (rest ++ [(k, [])])) d = t :: rest.*2 ∧
  tokenize (d :: replicate k d ++ joined t rest) d = [] :: t :: rest.*2.
Proof.
  split_and!.
  - apply tokens_joined; [done..|]. pose proof (joined_length t rest). lia.
  - apply tokens_trailing; [done..|]. pose proof (joined_length t (rest ++ [(k, [])])) as L.
    rewrite length_app in L. simpl in L. lia.
  - change (tokenize (d :: replicate k d ++ joined t rest) d)
      with (let '(a, o) := until d ([] ++ d :: replicate k d ++ joined t rest) in
            match o with
            | Some r => a :: tokens (length (d :: replicate k d ++ joined t rest)) d false (skip_run d r)
            | None => if true || negb (bool_decide (a = [])) then [a] else []
            end).
    rewrite until_run, skip_run_app, skip_run_joined by (done || apply not_elem_of_nil). f_equal.
    apply tokens_joined; [done..|]. simpl. rewrite length_app. pose proof (joined_length t rest). lia.
Qed.
End Tokens.

Lemma tokenize_joined_witness :
  let rest := [(1%nat, chars "10.0.0.2"); (O, chars "eth0")] in
  joined "," (chars "10.0.0.1") rest = chars "10.0.0.1,,10.0.0.2,eth0" ∧
  tokenize (joined "," (chars "10.0.0.1") rest) "," = chars "10.0.0.1" :: rest.*2.
Proof.
  assert (∀ t, bool_decide (t ≠ [] ∧ ","%char ∉ t) = true → token "," t) as T by (intros t Ht; by apply bool_decide_eq_true in Ht).
  intros rest. split; [done|].
  refine (proj1 (tokenize_joined "," (chars "10.0.0.1") rest 0 _ _)); [|repeat constructor]; apply T; vm_compute; done.
Defined.

(** ** Stop watches and lines ([etc])

    Points in time are nanoseconds of [high_resolution_clock]; the values the
    clock returns are arguments. [Rep] is given by its length in nanoseconds;
    [duration_cast] truncates. *)
Module etc.
Definition duration_cast (rep ns : Z) : Z := Z.quot ns rep.
Definition now_since_epoch (rep now : Z) : Z := u64 (duration_cast rep now).
Definition since (rep start_ now : Z) : Z := u32 (duration_cast rep (now - start_)).
Definition microseconds_since (start_ now : Z) : Z := u32 (duration_cast 1000 (now - start_)).
Definition seconds_since (start_ now : Z) : double :=
  ddiv (dbl_of_Z (duration_cast 1000 (now - start_))) (dbl_of_Z 1000000).
Definition runtime {S} (clock : M S Z) (f_ : M S unit) : M S double :=
  start ← clock; f_ ;; now ← clock; mret (seconds_since start now).

(** [std::getline] until it fails: a last line need not end in a newline, and
    nothing after the last newline is no line. *)
Fixpoint getlines (cur s : text) : list text :=
  match s with
  | [] => match cur with [] => [] | _ => [cur] end
  | c :: s => if bool_decide (c = "010"%char) then cur :: getlines [] s else getlines (cur ++ [c]) s
  end.
(** A file that cannot be opened has no lines. *)
Definition file_by_line {S} (file : option text) (handler_ : text → M S unit) : M S unit :=
  match file with
  | None => mret tt
  | Some content => mfor (getlines [] content) handler_
  end.

(** The stop watches count in 32 bits: exactly below 2^32 units, and from then on
    they start over; microseconds after an hour and twelve minutes. *)
Theorem microseconds_wrap (start_ us : Z) (Hus : 0 ≤ us) :
  microseconds_since start_ (start_ + us * 1000) = us mod 4294967296 ∧
  since 1000000000 start_ (start_ + us * 1000) = us / 1000000 mod 4294967296.
Proof.
  unfold microseconds_since, since, duration_cast, u32. replace (start_ + us * 1000 - start_) with (us * 1000) by lia.
  rewrite Z.quot_mul by lia. split; [done|]. f_equal. rewrite Z.quot_div_nonneg by lia. Z.div_mod_to_equations. lia.
Qed.
Lemma microseconds_wrap_witness :
  microseconds_since 5 (5 + 4294967296 * 1000) = 0 ∧ since 1000000000 5 (5 + 4294967296 * 1000) = 4294.
Proof. exact (microseconds_wrap 5 4294967296 ltac:(lia)). Defined.

Lemma getlines_line l : ∀ cur s, "010"%char ∉ l → getlines cur (l ++ "010"%char :: s) = (cur ++ l) :: getlines [] s.
Proof.
  induction l as [|c l IH]; intros cur s Hl; simpl; [by rewrite app_nil_r|].
  rewrite not_elem_of_cons in Hl. destruct Hl as [Hc Hl]. rewrite bool_decide_false by done.
  rewrite IH by done. by rewrite <-app_assoc.
Qed.
(** Every line of a written file is handed to the handler, in order and once,
    until the handler stops. *)
Theorem file_lines {S} (ls : list text) (handler : text → M S unit) (s : S)
    (Hls : Forall (λ l, "010"%char ∉ l) ls) :
  file_by_line (Some (concat ((λ l, l ++ ["010"%char]) <$> ls))) handler s = mfor ls handler s.
Proof.
  unfold file_by_line. f_equal. induction Hls as [|l ls Hl _ IH]; [done|]. csimpl.
  rewrite <-app_assoc. simpl. rewrite getlines_line by done. simpl. by rewrite IH.
Qed.
Lemma file_lines_witness :
  file_by_line (Some (chars "a" ++ ["010"%char] ++ chars "bc" ++ ["010"%char])) (λ l, modify (λ n, n + Z.of_nat (length l))) 0 = (Ok tt, 3).
Proof. exact (file_lines [chars "a"; chars "bc"] (λ l, modify (λ n, n + Z.of_nat (length l))) 0 ltac:(repeat constructor; by apply (bool_decide_unpack _))). Defined.
End etc.
