(* ===== verification/OmTime.v ===== *)
(** * Timestamps as text ([src/om.h]: [etc::format_timestamp])

    A time in seconds since 1970 is broken down by [std::gmtime] and printed by
    [std::put_time]. Both are modelled from what the C and C++ standards say:
    [gmtime] counts whole years and whole months from the first of January 1970 in
    the Gregorian calendar, [put_time] replaces the conversions of the format.
    [timegm] is the independent description, with a closed formula for the days
    before a year. *)
From Stdlib Require Import Ascii.
From S2P Require Import Prelude OmNet OmPacket OmText.

Module etc_time.

(** [struct tm] without the weekday and the day of the year. *)
Record tm := Tm { tm_year : Z; tm_mon : Z; tm_mday : Z; tm_hour : Z; tm_min : Z; tm_sec : Z }.

Definition leap (y : Z) : bool := (y mod 4 =? 0) && (negb (y mod 100 =? 0) || (y mod 400 =? 0)).
Definition month_days (y : Z) : list Z := [31; if leap y then 29 else 28; 31; 30; 31; 30; 31; 31; 30; 31; 30; 31].
Definition year_days (y : Z) : Z := if leap y then 366 else 365.

(** The year and the day in it of day [d] after the start of year [y]. *)
Fixpoint find_year (fuel : nat) (y d : Z) : Z * Z :=
  match fuel with
  | O => (y, d)
  | S fuel => if d <? year_days y then (y, d) else find_year fuel (y + 1) (d - year_days y)
  end.
Fixpoint find_month (ms : list Z) (m d : Z) : Z * Z :=
  match ms with
  | [] => (m, d)
  | n :: ms => if d <? n then (m, d) else find_month ms (m + 1) (d - n)
  end.
(** 137 years cover an [unsigned] of 32 bits. *)
Definition gmtime (time : Z) : tm :=
  let '(y, d) := find_year 137 1970 (time / 86400) in
  let '(m, d) := find_month (month_days y) 0 d in
  let s := time mod 86400 in
  Tm (y - 1900) m (d + 1) (s / 3600) (s / 60 mod 60) (s mod 60).

(** [std::put_time]: the conversions that do not depend on the weekday or a
    locale; [None] for the others. Years have four digits. *)
Definition two (z : Z) : text := digit <$> [z / 10; z mod 10].
Definition four (z : Z) : text := digit <$> [z / 1000; z / 100 mod 10; z / 10 mod 10; z mod 10].
Definition conversion (c : ascii) (t : tm) : option text :=
  let year := four (tm_year t + 1900) in
  let mon := two (tm_mon t + 1) in
  match c with
  | "Y" => Some year | "m" => Some mon | "d" => Some (two (tm_mday t))
  | "H" => Some (two (tm_hour t)) | "M" => Some (two (tm_min t)) | "S" => Some (two (tm_sec t))
  | "F" => Some (year ++ "-" :: mon ++ "-" :: two (tm_mday t))
  | "T" => Some (two (tm_hour t) ++ ":" :: two (tm_min t) ++ ":" :: two (tm_sec t))
  | "%" => Some ["%"]
  | _ => None
  end%char.
Fixpoint put_time (t : tm) (format_ : text) : option text :=
  match format_ with
  | [] => Some []
  | "%"%char :: c :: rest => s ← conversion c t; s' ← put_time t rest; Some (s ++ s')
  | c :: rest => s' ← put_time t rest; Some (c :: s')
  end.
Definition default_format : text := chars "%F %T".
Definition format_timestamp (timestamp_ : Z) (format_ : text) : option text :=
  put_time (gmtime (u32 timestamp_)) format_.

(** ** The calendar *)

Definition before_year (y : Z) : Z :=
  365 * (y - 1970) + ((y - 1) / 4 - (y - 1) / 100 + (y - 1) / 400) - 477.
Definition sum : list Z → Z := zsum id.
Definition timegm (t : tm) : Z :=
  let y := tm_year t + 1900 in
  (before_year y + sum (take (Z.to_nat (tm_mon t)) (month_days y)) + tm_mday t - 1) * 86400 +
  tm_hour t * 3600 + tm_min t * 60 + tm_sec t.
(** A date of the calendar and a time of day. *)
Definition valid (t : tm) : Prop :=
  0 ≤ tm_mon t < 12 ∧ 1 ≤ tm_mday t ≤ nth (Z.to_nat (tm_mon t)) (month_days (tm_year t + 1900)) 0 ∧
  0 ≤ tm_hour t < 24 ∧ 0 ≤ tm_min t < 60 ∧ 0 ≤ tm_sec t < 60.

(** The closed formula counts the leap years. *)
Lemma before_year_next y : before_year (y + 1) = before_year y + year_days y.
Proof.
  unfold before_year, year_days, leap.
  destruct (Z.eqb_spec (y mod 4) 0), (Z.eqb_spec (y mod 100) 0), (Z.eqb_spec (y mod 400) 0); simpl;
    Z.div_mod_to_equations; lia.
Qed.
Lemma year_days_bound y : 365 ≤ year_days y ≤ 366.
Proof. unfold year_days. destruct (leap y); lia. Qed.
Lemma find_year_spec fuel : ∀ y d, 0 ≤ d < 365 * Z.of_nat fuel →
  let r := find_year fuel y d in
  y ≤ r.1 < y + Z.of_nat fuel ∧ 0 ≤ r.2 < year_days r.1 ∧ before_year r.1 + r.2 = before_year y + d.
Proof.
  induction fuel as [|fuel IH]; intros y d Hd; [lia|]. simpl. pose proof (year_days_bound y).
  destruct (Z.ltb_spec d (year_days y)); simpl; [lia|].
  destruct (IH (y + 1) (d - year_days y)) as (? & ? & E); [lia|]. rewrite before_year_next in E. split_and!; try lia.
Qed.
Lemma find_month_spec ms : ∀ m d, 0 ≤ d < sum ms →
  let r := find_month ms m d in
  m ≤ r.1 < m + Z.of_nat (length ms) ∧ 0 ≤ r.2 < nth (Z.to_nat (r.1 - m)) ms 0 ∧
  sum (take (Z.to_nat (r.1 - m)) ms) + r.2 = d.
Proof.
  induction ms as [|n ms IH]; intros m d Hd; unfold sum in *; simpl in Hd |- *; [lia|].
  destruct (Z.ltb_spec d n); simpl; [rewrite Z.sub_diag; simpl; lia|].
  destruct (IH (m + 1) (d - n)) as (H1 & H2 & H3); [lia|]. set (r := find_month ms (m + 1) (d - n)) in *.
  replace (Z.to_nat (r.1 - m)) with (S (Z.to_nat (r.1 - (m + 1)))) by lia. simpl. lia.
Qed.
Lemma sum_month_days y : sum (month_days y) = year_days y.
Proof. unfold month_days, year_days. by destruct (leap y). Qed.

(** A time of 32 bits is broken down into a date of the calendar, and into the
    one whose days, counted with the closed formula, give the time back. *)
Lemma gmtime_spec t : is_u32 t → valid (gmtime t) ∧ timegm (gmtime t) = t ∧ 1970 ≤ tm_year (gmtime t) + 1900 < 2107.
Proof.
  intros Ht. unfold gmtime. destruct (find_year_spec 137 1970 (t / 86400)) as (Hy & Hd & E).
  { unfold is_u32 in Ht. Z.div_mod_to_equations; lia. }
  destruct (find_year 137 1970 (t / 86400)) as [y d]. simpl in Hy, Hd, E.
  destruct (find_month_spec (month_days y) 0 d) as (Hm & Hmd & Em); [by rewrite sum_month_days|].
  destruct (find_month (month_days y) 0 d) as [m md]. cbn [fst snd] in Hm, Hmd, Em. change (length (month_days y)) with 12%nat in Hm. rewrite Z.sub_0_r in *.
  unfold valid, timegm; cbn [tm_year tm_mon tm_mday tm_hour tm_min tm_sec]. rewrite Z.sub_add.
  change (before_year 1970) with 0 in E. unfold is_u32 in Ht.
  split_and!; try lia; Z.div_mod_to_equations; lia.
Qed.

(** ** The text *)

(** Reads the fields of a text of the default format. *)
Definition number (s : text) : option Z := match span_digits 10 0 s with (z, _, []) => Some z | _ => None end.
Definition field (i n : nat) (s : text) : option Z := number (take n (drop i s)).
Definition read_timestamp (s : text) : option Z :=
  y ← field 0 4 s; m ← field 5 2 s; d ← field 8 2 s; h ← field 11 2 s; mi ← field 14 2 s; sec ← field 17 2 s;
  Some (timegm (Tm (y - 1900) (m - 1) d h mi sec)).

Lemma number_digits ds : Forall (λ d, 0 <= d < 10) ds → number (digit <$> ds) = Some (value_of 10 0 ds).
Proof.
  intros Hds. unfold number. rewrite <-(app_nil_r (digit <$> ds)). by rewrite span_digits_read.
Qed.
Lemma number_two z : 0 ≤ z < 100 → number (two z) = Some z.
Proof.
  intros Hz. unfold two. rewrite number_digits.
  - unfold value_of; simpl. f_equal. Z.div_mod_to_equations; lia.
  - repeat constructor; Z.div_mod_to_equations; lia.
Qed.
Lemma number_four z : 0 ≤ z < 10000 → number (four z) = Some z.
Proof.
  intros Hz. unfold four. rewrite number_digits.
  - unfold value_of; simpl. f_equal. Z.div_mod_to_equations; lia.
  - repeat constructor; Z.div_mod_to_equations; lia.
Qed.
Lemma month_days_bound y n : nth n (month_days y) 0 ≤ 31.
Proof. unfold month_days. do 13 (destruct n as [|n]; [simpl; try destruct (leap y); lia|]). simpl. destruct n; lia. Qed.

(** C32: the text of a timestamp in the default format has nineteen characters,
    names a date of the Gregorian calendar and a time of day, and determines the
    timestamp: counting the days before that date with the closed formula for
    leap years gives it back. *)
Theorem timestamp_text_roundtrip (timestamp_ : Z) (Ht : is_u32 timestamp_) :
  ∃ s, format_timestamp timestamp_ default_format = Some s ∧ length s = 19%nat ∧
    valid (gmtime timestamp_) ∧ read_timestamp s = Some timestamp_.
Proof.
  destruct (gmtime_spec timestamp_ Ht) as (Hv & Hg & Hy). eexists. split; [|split; [|split; [done|]]].
  - unfold format_timestamp. rewrite u32_small by done. reflexivity.
  - reflexivity.
  - revert Hv Hg Hy. generalize (gmtime timestamp_). intros [y m d h mi sec]. unfold valid; cbn [tm_year tm_mon tm_mday tm_hour tm_min tm_sec].
    intros (Hm & Hd & Hh & Hmi & Hs) Hg Hy. pose proof (month_days_bound (y + 1900) (Z.to_nat m)).
    unfold read_timestamp. change ((y' ← number (four (y + 1900)); m' ← number (two (m + 1)); d' ← number (two d);
      h' ← number (two h); mi' ← number (two mi); sec' ← number (two sec);
      Some (timegm (Tm (y' - 1900) (m' - 1) d' h' mi' sec'))) = Some timestamp_).
    rewrite number_four, !number_two by lia. simpl. by rewrite !Z.add_simpl_r, Hg.
Qed.
Lemma timestamp_text_roundtrip_witness :
  ∃ s, format_timestamp 1582934399 default_format = Some s ∧ s = chars "2020-02-28 23:59:59" ∧ read_timestamp s = Some 1582934399.
Proof.
  destruct (timestamp_text_roundtrip 1582934399) as (s & Hf & _ & _ & Hr); [wrap_lia|].
  exists s. split; [exact Hf|]. split; [|exact Hr]. assert (Some s = Some (chars "2020-02-28 23:59:59")) as [=]; [|done].
  rewrite <-Hf. by vm_compute.
Defined.
End etc_time.
