(* ===== verification/OmConcurrency.v ===== *)
(** * Queue and thread pool ([src/om.h], namespace [concurrency])

    A queue under a mutex, so that its operations are atomic, and a pool of
    threads that take tasks from it. The pool is a transition system: clients
    submit, the owner destroys, and each worker goes round its loop one atomic
    access at a time. Tasks are opaque and return; one that throws would end the
    process. *)
From S2P Require Import Prelude.

(** ** [queue] *)
Module queue.
Section Queue.
Context {T : Type}.
Definition enqueue (item_ : T) : M (list T) unit := modify (λ q, q ++ [item_]).
(** Waits while the queue is empty. *)
Definition dequeue_wait : M (list T) T := λ q,
  match q with [] => (Fail Blocked, []) | item_ :: q => (Ok item_, q) end.
(** [None]: it returned false. *)
Definition dequeue : M (list T) (option T) := λ q,
  match q with [] => (Ok None, []) | item_ :: q => (Ok (Some item_), q) end.
Definition empty : M (list T) bool := gets (λ q, match q with [] => true | _ => false end).
End Queue.
End queue.

(** ** [thread_pool] *)
Module thread_pool.
Section Pool.
Context {T : Type}.

(** Where a worker is in its loop: at the test of [_done], at [dequeue], in a
    task, or returned. *)
Inductive worker := Testing | Dequeuing | Running (task : T) | Exited.
(** [submitted], [taken] and [ran] are history: the tasks handed in, taken from
    the queue, and run to their end, in order. *)
Record pool := mkPool {
  _done : bool; _task_queue : list T; _threads : list worker; submitted : list T; taken : list T; ran : list T;
}.

(** The constructor; starting a thread may throw after [fails_at] threads. The
    flag tells whether the pool was built. *)
Definition thread_pool (thread_count_ : nat) (fails_at : option nat) : bool * pool :=
  match fails_at with
  | Some k => if decide (k < thread_count_)%nat
              then (false, mkPool true [] (replicate k Testing) [] [] [])
              else (true, mkPool false [] (replicate thread_count_ Testing) [] [] [])
  | None => (true, mkPool false [] (replicate thread_count_ Testing) [] [] [])
  end.
Definition submit (f_ : T) (p : pool) : pool :=
  mkPool (_done p) (queue.enqueue f_ (_task_queue p)).2 (_threads p) (submitted p ++ [f_]) (taken p) (ran p).
(** The destructor; [_joiner] then waits until [joined]. *)
Definition destroy (p : pool) : pool :=
  mkPool true (_task_queue p) (_threads p) (submitted p) (taken p) (ran p).
Definition joined (p : pool) : Prop := Forall (eq Exited) (_threads p).

Definition set_worker (i : nat) (w : worker) (p : pool) : pool :=
  mkPool (_done p) (_task_queue p) (<[i := w]> (_threads p)) (submitted p) (taken p) (ran p).
(** One step of worker [i] in [_worker_thread]. *)
Definition _worker_thread (i : nat) (p : pool) : pool :=
  match _threads p !! i with
  | Some Testing => set_worker i (if _done p then Exited else Dequeuing) p
  | Some Dequeuing =>
      match queue.dequeue (_task_queue p) with
      | (Ok (Some task), q) =>
          mkPool (_done p) q (<[i := Running task]> (_threads p)) (submitted p) (taken p ++ [task]) (ran p)
      | _ => set_worker i Testing p
      end
  | Some (Running task) =>
      mkPool (_done p) (_task_queue p) (<[i := Testing]> (_threads p)) (submitted p) (taken p) (ran p ++ [task])
  | _ => p
  end.
(** A schedule: which worker takes each step. *)
Definition sched (l : list nat) (p : pool) : pool := foldl (λ p i, _worker_thread i p) p l.

Inductive step : pool → pool → Prop :=
  | step_submit f_ p : step p (submit f_ p)
  | step_destroy p : step p (destroy p)
  | step_work i p : step p (_worker_thread i p).
Definition reachable (p : pool) : Prop := ∃ n f, rtc step (thread_pool n f).2 p.

(** ** Invariant *)
Definition task_of (w : worker) : option T := match w with Running t => Some t | _ => None end.
Definition running (p : pool) : list T := omap task_of (_threads p).
Definition inv (p : pool) : Prop :=
  submitted p = taken p ++ _task_queue p ∧ taken p ≡ₚ ran p ++ running p ∧
  (_done p = false → Exited ∉ _threads p).

Lemma running_insert i w w' l : l !! i = Some w →
  ∃ a b, omap task_of l = a ++ option_list (task_of w) ++ b ∧
         omap task_of (<[i := w']> l) = a ++ option_list (task_of w') ++ b.
Proof.
  intros Hi. exists (omap task_of (take i l)), (omap task_of (drop (S i) l)). split.
  - rewrite <-(take_drop_middle l i w Hi) at 1. rewrite omap_app. f_equal. simpl. by destruct (task_of w).
  - rewrite insert_take_drop by (by eapply lookup_lt_Some). rewrite omap_app. f_equal. simpl. by destruct (task_of w').
Qed.
Lemma exited_insert i w (l : list worker) : w ≠ Exited → Exited ∉ l → Exited ∉ <[i := w]> l.
Proof.
  intros Hw Hl [j Hj]%list_elem_of_lookup. apply Hl. apply list_elem_of_lookup.
  destruct (decide (i = j)) as [->|Hne]; [|rewrite list_lookup_insert_ne in Hj by done; eauto].
  apply list_lookup_insert_Some in Hj as [(_ & E & _)|(? & _)]; congruence.
Qed.

Lemma pool_inv_start n f : inv (thread_pool n f).2.
Proof.
  assert (∀ k, omap task_of (replicate k Testing) = []) as E by (induction k; done).
  assert (∀ b k, inv (mkPool b [] (replicate k Testing) [] [] [])) as H.
  { intros b k. split_and!; simpl; [done| |].
    - unfold running. simpl. by rewrite E.
    - intros _ [? _]%elem_of_replicate. done. }
  unfold thread_pool. destruct f as [k|]; [case_decide|]; apply H.
Qed.
Lemma inv_work i p : inv p → inv (_worker_thread i p).
Proof.
  intros (Hq & Ht & Hx). unfold _worker_thread. destruct (_threads p !! i) as [[| |task|]|] eqn:Hi; [| | |done..].
  - destruct (running_insert i _ (if _done p then Exited else Dequeuing) _ Hi) as (a & b & E1 & E2).
    split_and!; simpl; [done| |].
    + unfold running. simpl. rewrite E2. unfold running in Ht. rewrite E1 in Ht. by destruct (_done p).
    + intros Hd. rewrite Hd in *. apply exited_insert; auto.
  - destruct (_task_queue p) as [|task q] eqn:Eq; simpl.
    + destruct (running_insert i _ Testing _ Hi) as (a & b & E1 & E2). split_and!; simpl; [by rewrite Eq| |].
      * unfold running in *. simpl. by rewrite E2, Ht, E1.
      * intros Hd. apply exited_insert; auto.
    + destruct (running_insert i _ (Running task) _ Hi) as (a & b & E1 & E2). split_and!; simpl.
      * rewrite Hq. by rewrite <-app_assoc.
      * unfold running in *. simpl. rewrite E2, Ht, E1. simpl. rewrite <-!app_assoc. do 2 f_equiv. by rewrite Permutation_app_comm.
      * intros Hd. apply exited_insert; auto.
  - destruct (running_insert i _ Testing _ Hi) as (a & b & E1 & E2). split_and!; simpl; [done| |].
    + unfold running in *. simpl. rewrite E2, Ht, E1. simpl. rewrite <-app_assoc. f_equiv. by rewrite <-Permutation_middle.
    + intros Hd. apply exited_insert; auto.
Qed.
Lemma pool_inv_step p p' : step p p' → inv p → inv p'.
Proof.
  intros [f_ q|q|i q] Hinv; [| |by apply inv_work]; destruct Hinv as (Hq & Ht & Hx); split_and!; simpl; try done.
  by rewrite Hq, app_assoc.
Qed.
Lemma pool_reachable_inv p : reachable p → inv p.
Proof.
  intros (n & f & H). revert H. generalize (pool_inv_start n f). generalize (thread_pool n f).2.
  intros p0 H0 H. induction H as [|x y z Hs _ IH]; [done|]. apply IH. by eapply pool_inv_step.
Qed.

(** ** Progress *)
Lemma sched_app l k p : sched (l ++ k) p = sched k (sched l p).
Proof. unfold sched. by rewrite foldl_app. Qed.
Lemma sched_inv l p : inv p → inv (sched l p).
Proof. revert p. induction l as [|i l IH]; intros p Hp; [done|]. by apply IH, inv_work. Qed.
Lemma work_frame i p : _done (_worker_thread i p) = _done p ∧ submitted (_worker_thread i p) = submitted p ∧
  length (_threads (_worker_thread i p)) = length (_threads p).
Proof.
  unfold _worker_thread. destruct (_threads p !! i) as [[| |task|]|]; try done; simpl;
    [by rewrite length_insert| |by rewrite length_insert].
  destruct (_task_queue p); simpl; by rewrite length_insert.
Qed.
Lemma sched_frame l p : _done (sched l p) = _done p ∧ submitted (sched l p) = submitted p ∧
  length (_threads (sched l p)) = length (_threads p).
Proof.
  revert p. induction l as [|i l IH]; intros p; [done|]. destruct (IH (_worker_thread i p)) as (? & ? & ?).
  destruct (work_frame i p) as (? & ? & ?). simpl. split_and!; congruence.
Qed.

(** Before [_done], every step of any worker brings the pool nearer to an empty
    queue. *)
Definition effort (w : worker) : nat :=
  match w with Testing => 2 | Dequeuing => 1 | Running _ => 3 | Exited => 0 end.
Definition distance (p : pool) : nat := 3 * length (_task_queue p) + sum_list (effort <$> _threads p).
Lemma sum_insert (f : worker → nat) i w w' (l : list worker) : l !! i = Some w →
  (sum_list (f <$> <[i := w']> l) + f w = sum_list (f <$> l) + f w')%nat.
Proof.
  revert i. induction l as [|x l IH]; intros [|i] Hi; simplify_eq/=; [lia|]. specialize (IH _ Hi).
  unfold fmap in *. simpl in *. lia.
Qed.
Lemma work_distance i p : inv p → _done p = false → (i < length (_threads p))%nat → _task_queue p ≠ [] →
  S (distance (_worker_thread i p)) = distance p.
Proof.
  intros (_ & _ & Hx) Hd Hi Hq. apply lookup_lt_is_Some in Hi as [w Hi]. unfold _worker_thread, distance. rewrite Hi.
  destruct w as [| |task|].
  - pose proof (sum_insert effort i _ Dequeuing _ Hi). simpl in *. rewrite Hd. lia.
  - destruct (_task_queue p) as [|t q] eqn:Eq; [done|]. pose proof (sum_insert effort i _ (Running t) _ Hi). simpl in *. lia.
  - pose proof (sum_insert effort i _ Testing _ Hi). simpl in *. lia.
  - destruct (Hx Hd). by eapply list_elem_of_lookup_2.
Qed.
Lemma work_empty i p : _task_queue p = [] → _task_queue (_worker_thread i p) = [].
Proof. intros Hq. unfold _worker_thread. rewrite Hq. by destruct (_threads p !! i) as [[| | |]|]. Qed.
Lemma sched_empty l p : _task_queue p = [] → _task_queue (sched l p) = [].
Proof. revert p. induction l as [|i l IH]; intros p Hq; [done|]. by apply IH, work_empty. Qed.
Lemma sched_drains l p : inv p → _done p = false → Forall (λ i, (i < length (_threads p))%nat) l →
  (distance p <= length l)%nat → _task_queue (sched l p) = [].
Proof.
  revert p. induction l as [|i l IH]; intros p Hp Hd Hl Hlen.
  - unfold distance in Hlen. simpl in *. destruct (_task_queue p); [done|simpl in Hlen; lia].
  - destruct (decide (_task_queue p = [])) as [Hq|Hq]; [by apply sched_empty|].
    apply Forall_cons in Hl as [Hi Hl]. destruct (work_frame i p) as (Hd' & _ & Hn).
    simpl. apply IH; [by apply inv_work|congruence|by rewrite Hn|].
    pose proof (work_distance i p Hp Hd Hi Hq). simpl in Hlen. lia.
Qed.

(** With an empty queue a worker that has taken a step has nothing to run. *)
Definition idle (p : pool) (i : nat) : Prop := ∀ t, _threads p !! i ≠ Some (Running t).
Lemma work_idle i j p : _task_queue p = [] → i = j ∨ idle p i → idle (_worker_thread j p) i.
Proof.
  intros Hq Hi t. unfold _worker_thread. rewrite Hq. destruct (decide (i = j)) as [->|Hne].
  - destruct (_threads p !! j) as [[| |task|]|] eqn:Hj; simpl; rewrite ?list_lookup_insert_eq by (by eapply lookup_lt_Some);
      try done; try congruence. by destruct (_done p).
  - destruct Hi as [?|Hi]; [done|]. specialize (Hi t).
    destruct (_threads p !! j) as [[| |task|]|] eqn:Hj; simpl; rewrite ?list_lookup_insert_ne by done; done.
Qed.
Lemma sched_idle i l p : _task_queue p = [] → i ∈ l ∨ idle p i → idle (sched l p) i.
Proof.
  revert p. induction l as [|j l IH]; intros p Hq Hi; [destruct Hi as [?%not_elem_of_nil|?]; done|].
  simpl. apply IH; [by apply work_empty|]. rewrite elem_of_cons in Hi.
  destruct Hi as [[->|?]|?]; [right|by left|right]; apply work_idle; auto.
Qed.
Lemma all_idle p : (∀ i, (i < length (_threads p))%nat → idle p i) → running p = [].
Proof.
  intros H. unfold running. apply elem_of_nil_inv. intros t [w [[i Hi]%list_elem_of_lookup Hw]]%list_elem_of_omap.
  destruct w; simplify_eq/=. by apply (H i (lookup_lt_Some _ _ _ Hi) t).
Qed.

Lemma sum_le (f : worker → nat) k (l : list worker) : (∀ w, f w <= k)%nat → (sum_list (f <$> l) <= k * length l)%nat.
Proof. intros Hk. induction l as [|w l IH]; simpl; [lia|]. specialize (Hk w). unfold fmap in *. simpl. lia. Qed.

(** ** Shutting down *)

(** After [_done], the steps a worker still takes. *)
Definition left_over (w : worker) : nat :=
  match w with Exited => 0 | Testing => 1 | Running _ => 2 | Dequeuing => 3 end.
Definition to_exit (p : pool) (i : nat) : nat := match _threads p !! i with Some w => left_over w | None => 0 end.
Lemma work_to_exit i j p : _done p = true →
  (to_exit (_worker_thread j p) i <= if decide (i = j) then pred (to_exit p i) else to_exit p i)%nat.
Proof.
  intros Hd. unfold to_exit, _worker_thread. destruct (decide (i = j)) as [->|Hne].
  - destruct (_threads p !! j) as [[| |task|]|] eqn:Hj; simpl; rewrite ?Hj; simpl; try lia;
      [| destruct (_task_queue p) | ]; simpl; rewrite list_lookup_insert_eq by (by eapply lookup_lt_Some); rewrite ?Hd; simpl; lia.
  - destruct (_threads p !! j) as [[| |task|]|] eqn:Hj; simpl; try done;
      [| destruct (_task_queue p) | ]; simpl; by rewrite list_lookup_insert_ne.
Qed.
Definition count (i : nat) (l : list nat) : nat := length (filter (eq i) l).
Lemma sched_to_exit i l p : _done p = true → (to_exit (sched l p) i <= to_exit p i - count i l)%nat.
Proof.
  unfold count. revert p. induction l as [|j l IH]; intros p Hd; simpl; [lia|].
  specialize (IH (_worker_thread j p)). destruct (work_frame j p) as (Hd' & _ & _).
  pose proof (work_to_exit i j p Hd). rewrite filter_cons. destruct (decide (i = j)); simpl;
    (specialize (IH ltac:(congruence))); fold (sched l (_worker_thread j p)); lia.
Qed.
(** What is still taken from the queue is bounded by the workers at [dequeue]. *)
Definition hungry (w : worker) : nat := match w with Dequeuing => 1 | _ => 0 end.
Definition appetite (p : pool) : nat := sum_list (hungry <$> _threads p).
Lemma work_takes i p : _done p = true →
  (length (_task_queue p) + appetite (_worker_thread i p) <= length (_task_queue (_worker_thread i p)) + appetite p)%nat.
Proof.
  intros Hd. unfold appetite, _worker_thread. destruct (_threads p !! i) as [[| |task|]|] eqn:Hi; simpl; try lia.
  - pose proof (sum_insert hungry i _ Exited _ Hi). rewrite Hd. simpl in *. lia.
  - destruct (_task_queue p) as [|t q]; simpl.
    + pose proof (sum_insert hungry i _ Testing _ Hi). simpl in *. lia.
    + pose proof (sum_insert hungry i _ (Running t) _ Hi). simpl in *. lia.
  - pose proof (sum_insert hungry i _ Testing _ Hi). simpl in *. lia.
Qed.
Lemma sched_takes l p : _done p = true →
  (length (_task_queue p) + appetite (sched l p) <= length (_task_queue (sched l p)) + appetite p)%nat.
Proof.
  revert p. induction l as [|i l IH]; intros p Hd; [done|]. destruct (work_frame i p) as (Hd' & _ & _).
  specialize (IH (_worker_thread i p) ltac:(congruence)). pose proof (work_takes i p Hd).
  simpl. fold (sched l (_worker_thread i p)). lia.
Qed.

(** ** Theorems *)

(** In every reachable state of a pool, whatever the clients submit and
    however the workers are scheduled, the tasks taken from the queue are the
    first ones submitted, in order, the others are still queued, and every task
    taken has been run or is being run by exactly one worker; so no task is
    lost, run twice or overtaken in the queue. *)
Theorem pool_takes_in_order (p : pool) (Hp : reachable p) :
  submitted p = taken p ++ _task_queue p ∧ taken p ≡ₚ ran p ++ running p.
Proof. by destruct (pool_reachable_inv p Hp) as (? & ? & _). Qed.

(** C29: a pool that is not being destroyed runs everything it has been given:
    after any steps of the workers, three per queued task and three per worker,
    the queue is empty, and once every worker has then taken one more step all
    submitted tasks have been run. *)
Theorem pool_runs_all (p : pool) (l1 l2 : list nat) (Hp : reachable p) (Hd : _done p = false)
    (Hl : Forall (λ i, (i < length (_threads p))%nat) l1)
    (Hlen : (3 * length (_task_queue p) + 3 * length (_threads p) <= length l1)%nat)
    (Hfair : ∀ i, (i < length (_threads p))%nat → i ∈ l2) :
  _task_queue (sched l1 p) = [] ∧ ran (sched (l1 ++ l2) p) ≡ₚ submitted p.
Proof.
  assert (_task_queue (sched l1 p) = []) as Hq.
  { apply sched_drains; [by apply pool_reachable_inv|done..|]. unfold distance.
    pose proof (sum_le effort 3 (_threads p) ltac:(intros []; simpl; lia)). lia. }
  split; [done|]. destruct (sched_frame (l1 ++ l2) p) as (_ & Hs & Hn).
  destruct (sched_inv (l1 ++ l2) p (pool_reachable_inv p Hp)) as (Hsub & Htak & _).
  assert (running (sched (l1 ++ l2) p) = []) as Hr.
  { apply all_idle. intros i Hi. rewrite sched_app. apply sched_idle; [done|]. left. apply Hfair. lia. }
  assert (_task_queue (sched (l1 ++ l2) p) = []) as Hq2 by (rewrite sched_app; by apply sched_empty).
  by rewrite <-Hs, Hsub, Hq2, Htak, Hr, !app_nil_r.
Qed.

(** C30: destroying a pool ends: when every worker has taken three more steps
    they have all returned, so the join returns; but they take at most one more
    task each, and what else is queued is dropped without having been run. *)
Theorem shutdown_joins (p : pool) (l : list nat) (Hd : _done p = true)
    (Hl : ∀ i, (i < length (_threads p))%nat → (3 <= count i l)%nat) :
  joined (sched l p) ∧
  (length (_task_queue p) <= length (_task_queue (sched l p)) + length (_threads p))%nat.
Proof.
  split.
  - unfold joined. apply Forall_lookup. intros i w Hi. destruct (sched_frame l p) as (_ & _ & Hn).
    pose proof (lookup_lt_Some _ _ _ Hi) as Hlt. rewrite Hn in Hlt. specialize (Hl i Hlt).
    pose proof (sched_to_exit i l p Hd) as He. unfold to_exit in He at 1. rewrite Hi in He.
    assert (to_exit p i <= 3)%nat by (unfold to_exit; destruct (_threads p !! i) as [[]|]; simpl; lia).
    destruct w; simpl in He; [lia..|done].
  - pose proof (sched_takes l p Hd). pose proof (sum_le hungry 1 (_threads p) ltac:(intros []; simpl; lia)).
    unfold appetite in *. lia.
Qed.
End Pool.

(** Two workers, three tasks. *)
Definition pool2 : pool (T := Z) := submit 3 (submit 2 (submit 1 (thread_pool 2 None).2)).
Lemma pool2_reachable : reachable pool2.
Proof.
  exists 2%nat, None. eapply rtc_l; [apply step_submit|]. eapply rtc_l; [apply step_submit|].
  eapply rtc_l; [apply step_submit|]. apply rtc_refl.
Qed.

Lemma pool_takes_in_order_witness :
  let p := sched [0; 0; 1; 1; 1]%nat pool2 in
  (taken p, _task_queue p, ran p, running p) = ([1; 2], [3], [2], [1]) ∧ taken p ≡ₚ ran p ++ running p.
Proof.
  intros p. split; [done|]. apply (pool_takes_in_order p). destruct pool2_reachable as (n & f & H). exists n, f.
  do 5 (eapply rtc_r; [|apply step_work]). done.
Defined.

Lemma pool_runs_all_witness :
  let l1 := replicate 8 0%nat ++ replicate 8 1%nat in
  ran (sched (l1 ++ [0; 1]%nat) pool2) ≡ₚ [1; 2; 3].
Proof.
  intros l1. apply (pool_runs_all pool2 l1 [0; 1]%nat); [apply pool2_reachable|done| |vm_compute; lia|].
  - repeat constructor; vm_compute; lia.
  - intros i Hi. change (i < 2)%nat in Hi. destruct i as [|[|]]; [set_solver..|lia].
Defined.

Lemma shutdown_joins_witness :
  let p := sched [0; 1; 0; 1; 0; 1]%nat (destroy pool2) in joined p ∧ (3 <= length (_task_queue p) + 2)%nat.
Proof.
  intros p. apply (shutdown_joins (destroy pool2) [0; 1; 0; 1; 0; 1]%nat); [done|].
  intros i Hi. change (i < 2)%nat in Hi. destruct i as [|[|]]; [vm_compute; lia..|lia].
Defined.
End thread_pool.
