(* ===== verification/OmIo.v ===== *)
(** * Sockets, polling and files ([src/om.h]: [net::socket], [async::poll], [file])

    The wrappers around system calls; what the system answers is an argument.
    The addresses [inet_addr] parses are a parameter, as in [OmNet]. *)
From S2P Require Import Prelude OmNet OmPacket.

(** ** [socket] *)
Module socket.
Section Socket.
Context (inet_addr : string → Z).
(** The fields of [sockaddr_in] as they are stored. *)
Record sockaddr_in := SockaddrIn { sin_port : Z; s_addr : Z }.
Definition htons (p : Z) : Z := reverse_byte_order16 p.

(** The constructor, from what [::socket] returned. *)
Definition make (r : Z) : outcome Z := if r =? -1 then Fail Throw else Ok r.
Definition bind_addr (ip_addr_ : string) (port_ : Z) : sockaddr_in :=
  SockaddrIn (htons port_) (htonl (u32 (inet_addr ip_addr_))).
(** The address given to [::bind], and how the call ends. *)
Definition bind (ip_addr_ : string) (port_ r : Z) : outcome sockaddr_in :=
  if negb (r =? 0) then Fail Throw else Ok (bind_addr ip_addr_ port_).
Definition dest_addr (ip_dst_ : string) (tp_dst_ : Z) : sockaddr_in :=
  SockaddrIn (htons tp_dst_) (u32 (inet_addr ip_dst_)).
Definition send_to (ip_dst_ : string) (tp_dst_ len : Z) : outcome (sockaddr_in * Z) :=
  if len =? -1 then Fail Throw else Ok (dest_addr ip_dst_ tp_dst_, u32 len).
Definition receive (len : Z) : outcome Z := if len =? -1 then Fail Throw else Ok (u32 len).
Definition is_open (_fd : Z) : bool := negb (_fd =? -1).
(** [close]: the descriptor closed and the new [_fd]; the destructor closes only
    positive descriptors. *)
Definition close (_fd : Z) : option Z * Z := (Some _fd, -1).
Definition destroy (_fd : Z) : option Z * Z := if 0 <? _fd then close _fd else (None, _fd).

(** [bind] converts the byte order of an address that [inet_addr] has
    already put in network order: a socket bound to a.b.c.d asks for d.c.b.a,
    while [send_to] sends to the address it is given. *)
Theorem bind_reverses_address (ip : string) (port a b c d : Z) (Hb : Forall is_u8 [a; b; c; d])
    (Hip : inet_addr ip = a + 256 * b + 65536 * c + 16777216 * d) :
  bytes32 (s_addr (bind_addr ip port)) = [d; c; b; a] ∧ bytes32 (s_addr (dest_addr ip port)) = [a; b; c; d].
Proof.
  rewrite !Forall_cons in Hb. destruct Hb as (? & ? & ? & ? & _). unfold is_u8 in *.
  unfold bind_addr, dest_addr, s_addr, htonl. rewrite Hip, u32_small by (unfold is_u32; lia).
  rewrite reverse_byte_order32_eq by (unfold is_u32; lia). unfold bswap32, bytes32.
  split; repeat f_equal; Z.div_mod_to_equations; lia.
Qed.
End Socket.

Lemma bind_reverses_address_witness :
  bytes32 (s_addr (bind_addr (λ _, 16777226) "10.0.0.1" 4444)) = [1; 0; 0; 10].
Proof. by apply (bind_reverses_address (λ _, 16777226) "10.0.0.1" 4444 10 0 0 1); [repeat constructor|]. Defined.
End socket.

(** ** [poll] *)
Module poll.
Inductive event := ev_in | ev_out.
Definition POLLIN : Z := 1.
Definition POLLOUT : Z := 4.
Definition mask (e : event) : Z := match e with ev_in => POLLIN | ev_out => POLLOUT end.
(** [operator&] *)
Definition both (lhs_ rhs_ : event) : Z := Z.land (mask lhs_) (mask rhs_).
Definition FDS_PREALLOC : nat := 8.

Section Poll.
(** Callbacks and the state they work on, besides the object itself. *)
Context {C W : Type}.
Record pollfd := Pollfd { fd : Z; events : Z; revents : Z }.
(** [_count_fds] is the length of [_fds]. *)
Record poll := mkPoll { _stop : bool; _callbacks : gmap Z C; _fds : list pollfd }.
Context (invoke : C → Z → event → M (poll * W) unit).

Definition default : poll := mkPoll false ∅ [].
Definition add_fd (fd_ : Z) (cb_ : C) (events_ : event) : M (poll * W) unit := λ '(p, w),
  if decide (length (_fds p) < FDS_PREALLOC)%nat
  then (Ok tt, (mkPoll (_stop p) (<[fd_ := cb_]> (_callbacks p)) (_fds p ++ [Pollfd fd_ (mask events_) 0]), w))
  else (Fail Undef, (p, w)).
(** [poll(fd_, cb_, events_)] *)
Definition poll_of (fd_ : Z) (cb_ : C) (events_ : event) (w : W) : outcome unit * (poll * W) :=
  add_fd fd_ cb_ events_ (default, w).
Definition stop_ : M (poll * W) unit := modify (λ '(p, w), (mkPoll true (_callbacks p) (_fds p), w)).

(** [_callbacks[_fds->fd](fd_, e)]; an empty function throws. *)
Definition call (fd_ : Z) (e : event) : M (poll * W) unit :=
  first ← gets (λ s, head (_fds s.1));
  match first with
  | None => stop Undef
  | Some f =>
      cb ← gets (λ s, _callbacks s.1 !! fd f);
      match cb with Some c => invoke c fd_ e | None => stop Throw end
  end.
Definition slot (i : nat) : M (poll * W) (option pollfd) := gets (λ s, _fds s.1 !! i).
Definition serve_event (i : nat) (e : event) : M (poll * W) unit :=
  s ← slot i;
  match s with
  | Some s => when (negb (Z.land (revents s) (mask e) =? 0)) (call (fd s) e)
  | None => mret tt
  end.
(** The loop over the descriptors; callbacks may add some while it runs. *)
Definition dispatch : M (poll * W) unit :=
  mfor (seq 0 FDS_PREALLOC) (λ i, serve_event i ev_out ;; serve_event i ev_in).
(** What [::poll] writes to the descriptors. *)
Definition set_revents (rs : list Z) : M (poll * W) unit := modify (λ '(p, w),
  (mkPoll (_stop p) (_callbacks p) (imap (λ i s, Pollfd (fd s) (events s) (nth i rs 0)) (_fds p)), w)).
(** [block] with the last result [r] of [::poll] and those still to come; when
    they are used up the call has not returned. *)
Fixpoint block_from (r : Z) (results : list (Z * list Z)) : M (poll * W) unit :=
  stopped ← gets (λ s, _stop s.1);
  if stopped || (r <? 0) then mret tt else
  when (0 <? r) dispatch ;;
  match results with
  | [] => stop Blocked
  | (r', rs) :: results => set_revents rs ;; block_from r' results
  end.
Definition block : list (Z * list Z) → M (poll * W) unit := block_from 0.

Definition add_each (l : list (Z * C * event)) : M (poll * W) unit := mfor l (λ '(f, c, e), add_fd f c e).
Lemma add_each_cons f c e l s : add_each ((f, c, e) :: l) s =
  match add_fd f c e s with (Ok _, s') => add_each l s' | (Fail x, s') => (Fail x, s') end.
Proof. done. Qed.
Lemma add_all l p w : (length (_fds p) <= FDS_PREALLOC)%nat →
  ((length (_fds p) + length l <= FDS_PREALLOC)%nat →
     add_each l (p, w) =
       (Ok tt, (mkPoll (_stop p) (foldl (λ m x, <[x.1.1 := x.1.2]> m) (_callbacks p) l)
                  (_fds p ++ ((λ x, Pollfd x.1.1 (mask x.2) 0) <$> l)), w))) ∧
  ((FDS_PREALLOC < length (_fds p) + length l)%nat → (add_each l (p, w)).1 = Fail Undef).
Proof.
  revert p. induction l as [|[[f c] e] l IH]; intros p Hp.
  - split; simpl; [|lia]. intros _. rewrite app_nil_r. by destruct p.
  - rewrite add_each_cons. unfold add_fd. simpl. case_decide as Hlt; [|split; [lia|done]].
    destruct (IH (mkPoll (_stop p) (<[f:=c]> (_callbacks p)) (_fds p ++ [Pollfd f (mask e) 0]))) as [IH1 IH2];
      simpl in *; rewrite length_app in *; simpl in *; [lia|]. split.
    + intros Hl. rewrite IH1 by lia. by rewrite <-app_assoc.
    + intros Hl. apply IH2. lia.
Qed.

(** The poll object has room for eight descriptors and does not check: up
    to eight are registered in order, each descriptor with the callback given
    last; the ninth is written behind the array. *)
Theorem poll_capacity (l : list (Z * C * event)) (w : W) :
  if decide (length l <= FDS_PREALLOC)%nat then
    add_each l (default, w) =
      (Ok tt, (mkPoll false (foldl (λ m x, <[x.1.1 := x.1.2]> m) ∅ l) ((λ x, Pollfd x.1.1 (mask x.2) 0) <$> l), w))
  else (add_each l (default, w)).1 = Fail Undef.
Proof. destruct (add_all l default w) as [H1 H2]; [simpl; lia|]. case_decide; [by apply H1|apply H2; simpl; lia]. Qed.
End Poll.
Arguments poll : clear implicits.

(** *** Which callback is called *)
Section Recorder.
Context {C : Type}.
Definition recorder (c : C) (fd_ : Z) (e : event) : M (poll C * list (C * Z * event)) unit :=
  modify (λ '(p, l), (p, l ++ [(c, fd_, e)])).
Definition when_set (c : C) (s : pollfd) (e : event) : list (C * Z * event) :=
  if Z.land (revents s) (mask e) =? 0 then [] else [(c, fd s, e)].
Definition served (c : C) (s : pollfd) : list (C * Z * event) := when_set c s ev_out ++ when_set c s ev_in.

Section First.
Context (p : poll C) (f0 : pollfd) (rest : list pollfd) (c0 : C).
Context (Hfds : _fds p = f0 :: rest) (Hcb : _callbacks p !! fd f0 = Some c0).
Lemma run_serve_event i e log : serve_event recorder i e (p, log) =
  (Ok tt, (p, log ++ match _fds p !! i with Some s => when_set c0 s e | None => [] end)).
Proof.
  unfold serve_event, slot, gets, mbind, M_bind. simpl. destruct (_fds p !! i) as [s|] eqn:Hi; simpl; [|by rewrite app_nil_r].
  unfold when_set. destruct (Z.land (revents s) (mask e) =? 0); simpl; [by rewrite app_nil_r|].
  unfold call, gets, mbind, M_bind. simpl. rewrite Hfds. simpl. by rewrite Hcb.
Qed.
Lemma run_serve_slots k i log : mfor (seq i k) (λ i, serve_event recorder i ev_out ;; serve_event recorder i ev_in)
  (p, log ++ (take i (_fds p) ≫= served c0)) = (Ok tt, (p, log ++ (take (i + k) (_fds p) ≫= served c0))).
Proof.
  revert i. induction k as [|k IH]; intros i; [by rewrite Nat.add_0_r|].
  assert (take (S i) (_fds p) ≫= served c0 = (take i (_fds p) ≫= served c0) ++
    match _fds p !! i with Some s => served c0 s | None => [] end) as E.
  { destruct (_fds p !! i) as [s|] eqn:Hi.
    - erewrite take_S_r by done. rewrite bind_app. simpl. by rewrite app_nil_r.
    - apply lookup_ge_None in Hi. rewrite !take_ge by lia. by rewrite app_nil_r. }
  simpl. unfold mbind at 1, M_bind at 1. unfold mbind at 1, M_bind at 1.
  rewrite run_serve_event. rewrite run_serve_event.
  replace (i + S k)%nat with (S i + k)%nat by lia. rewrite <-IH, E.
  f_equal. f_equal. destruct (_fds p !! i); simpl; by rewrite <-?app_assoc, ?app_nil_r.
Qed.
End First.

(** Whatever descriptor an event is for, [block] hands it to the callback of
    the first registered descriptor, with the right descriptor and event as
    arguments, output before input. *)
Theorem poll_calls_first (p : poll C) (f0 : pollfd) (rest : list pollfd) (c0 : C) (log : list (C * Z * event))
    (Hfds : _fds p = f0 :: rest) (Hcap : (length (_fds p) <= FDS_PREALLOC)%nat) (Hcb : _callbacks p !! fd f0 = Some c0) :
  dispatch recorder (p, log) = (Ok tt, (p, log ++ (_fds p ≫= served c0))).
Proof.
  pose proof (run_serve_slots p f0 rest c0 Hfds Hcb FDS_PREALLOC 0 log) as H.
  rewrite (take_ge _ (0 + FDS_PREALLOC)) in H by (simpl in *; lia). change (take 0 (_fds p)) with (@nil pollfd) in H.
  simpl in H. by rewrite app_nil_r in H.
Qed.
End Recorder.

(** Two descriptors; the second is readable, the first one's callback is called. *)
Lemma poll_calls_first_witness :
  let p := (set_revents [0; 1] (add_each [(3, "control", ev_in); (5, "data", ev_in)]%string (default, [] : list (string * Z * event))).2).2.1 in
  (dispatch recorder (p, [])).2.2 = [("control"%string, 5, ev_in)].
Proof.
  intros p. rewrite (poll_calls_first p (Pollfd 3 1 0) [Pollfd 5 1 1] "control" []); [done|done|vm_compute; lia|done].
Defined.
End poll.

(** ** Files of records *)
Module file.
(** [size], from what [stat] returned and the size it found. *)
Definition size (r st_size : Z) : outcome Z := if r <? 0 then Fail Throw else Ok (u64 st_size).
(** A file stream: the bytes of the file, the read position and the fail bit. *)
Record stream := mkStream { content : list Z; pos : nat; failed : bool }.
(** Opening throws when there is no such file. *)
Definition open (file : option (list Z)) : outcome stream :=
  match file with Some c => Ok (mkStream c 0 false) | None => Fail Throw end.
(** [tellg] gives -1 exactly when the stream has failed. *)
Definition _eof (s : stream) : bool := failed s.
Definition _reset (s : stream) : stream := mkStream (content s) 0 false.
(** [read(&t, n)]: what [t] holds then, and the stream. Missing bytes
    are not written. *)
Definition read (n : nat) (t : list Z) (s : stream) : list Z * stream :=
  if failed s then (t, s) else
  let got := take n (drop (pos s) (content s)) in
  (got ++ drop (length got) t, mkStream (content s) (pos s + length got) (negb (length got =? n)%nat)).

Section Records.
(** [sizeof(T)] *)
Context (n : nat).
Record reader := mkReader { _use_buffer : bool; _stream : stream; _data : list (list Z); _iter : nat }.
(** Filling the buffer; every read but the last advances. *)
Fixpoint fill (fuel : nat) (t : list Z) (s : stream) (data : list (list Z)) : list (list Z) * stream :=
  match fuel with
  | O => (data, s)
  | S fuel => if _eof s then (data, s) else let '(t, s) := read n t s in fill fuel t s (data ++ [t])
  end.
(** [garbage] is what the uninitialised [t] holds. *)
Definition simple_binary_reader (file : option (list Z)) (use_buffer_ : bool) (garbage : list Z) : outcome reader :=
  match open file with
  | Fail f => Fail f
  | Ok s =>
      if use_buffer_ then
        let '(data, s) := fill (2 + length (content s)) garbage s [] in Ok (mkReader true s data 0)
      else Ok (mkReader false s [] 0)
  end.
Definition done (r : reader) : bool :=
  if _use_buffer r then (_iter r =? length (_data r))%nat else _eof (_stream r).
(** [next]: the value returned and what [t_] holds. *)
Definition next (t_ : list Z) : M reader (bool * list Z) := λ r,
  if _use_buffer r then
    match _data r !! _iter r with
    | None => (Fail Undef, r)
    | Some t => let r := mkReader true (_stream r) (_data r) (S (_iter r)) in (Ok (negb (done r), t), r)
    end
  else
    let '(t, s) := read n t_ (_stream r) in
    let r := mkReader false s (_data r) (_iter r) in (Ok (negb (done r), t), r).
Definition reset (r : reader) : reader :=
  if _use_buffer r then mkReader true (_stream r) (_data r) 0
  else mkReader false (_reset (_stream r)) (_data r) (_iter r).
(** [simple_binary_writer]: opening truncates the file, [write] appends. *)
Definition write (t_ : list Z) (content : list Z) : list Z := content ++ t_.

(** The loop [while (r.next(t)) ...] of a client, and the records it sees. *)
Fixpoint records (fuel : nat) (t : list Z) (seen : list (list Z)) : M reader (list (list Z)) :=
  match fuel with
  | O => stop Blocked
  | S fuel => '(more, t) ← next t; if (more : bool) then records fuel t (seen ++ [t]) else mret seen
  end.

(** ** What a client reads *)
Context (Hn : (0 < n)%nat).
Implicit Types (recs : list (list Z)) (tail t : list Z) (s : stream).

Lemma read_full t s rec rest : failed s = false → drop (pos s) (content s) = rec ++ rest → length rec = n →
  length t = n → read n t s = (rec, mkStream (content s) (pos s + n) false) ∧
  drop (pos s + n) (content s) = rest.
Proof.
  intros Hf Hd Hr Ht. unfold read. rewrite Hf, Hd, take_app_length' by done. rewrite drop_ge by lia.
  rewrite app_nil_r, Hr, Nat.eqb_refl. split; [done|].
  by rewrite <-drop_drop, Hd, drop_app_length'.
Qed.
Lemma read_short t s : failed s = false → (length (drop (pos s) (content s)) < n)%nat →
  ∃ t' s', read n t s = (t', s') ∧ failed s' = true.
Proof.
  intros Hf Hd. unfold read. rewrite Hf, take_ge by lia. eexists _, _. split; [done|]. simpl.
  destruct (Nat.eqb_spec (length (drop (pos s) (content s))) n); [lia|done].
Qed.

Lemma records_more fuel t t' seen r r' : next t r = (Ok (true, t'), r') →
  records (S fuel) t seen r = records fuel t' (seen ++ [t']) r'.
Proof. intros E. simpl. unfold mbind, M_bind. by rewrite E. Qed.
Lemma records_end fuel t t' seen r r' : next t r = (Ok (false, t'), r') → records (S fuel) t seen r = (Ok seen, r').
Proof. intros E. simpl. unfold mbind, M_bind. by rewrite E. Qed.

Lemma unbuffered_records recs tail t s data i seen : Forall (λ r, length r = n) recs → (length tail < n)%nat →
  length t = n → failed s = false → drop (pos s) (content s) = concat recs ++ tail →
  (records (S (length recs)) t seen (mkReader false s data i)).1 = Ok (seen ++ recs).
Proof.
  revert t s seen. induction recs as [|r recs IH]; intros t s seen Hrecs Htail Ht Hf Hd.
  - destruct (read_short t s Hf) as (t' & s' & E & Hf'); [by rewrite Hd|].
    erewrite records_end; [by rewrite app_nil_r|]. unfold next, done. simpl. rewrite E. simpl. unfold _eof. by rewrite Hf'.
  - apply Forall_cons in Hrecs as [Hr Hrecs]. simpl in Hd. rewrite <-app_assoc in Hd.
    destruct (read_full t s r (concat recs ++ tail)) as [E Hd']; [done..|].
    erewrite records_more; [|unfold next; simpl; by rewrite E].
    fold (length recs). rewrite IH; [|done..]. by rewrite <-app_assoc.
Qed.

Lemma fill_records recs tail fuel t s data : Forall (λ r, length r = n) recs → (length tail < n)%nat →
  length t = n → failed s = false → drop (pos s) (content s) = concat recs ++ tail → (length recs + 2 <= fuel)%nat →
  ∃ extra s', fill fuel t s data = (data ++ recs ++ [extra], s').
Proof.
  revert fuel t s data. induction recs as [|r recs IH]; intros fuel t s data Hrecs Htail Ht Hf Hd Hfuel.
  - destruct (read_short t s Hf) as (t' & s' & E & Hf'); [by rewrite Hd|]. exists t', s'.
    destruct fuel as [|[|fuel]]; simpl in Hfuel; [lia..|]. cbn [fill]. unfold _eof at 1. rewrite Hf, E.
    unfold _eof. by rewrite Hf'.
  - apply Forall_cons in Hrecs as [Hr Hrecs]. simpl in Hd. rewrite <-app_assoc in Hd.
    destruct (read_full t s r (concat recs ++ tail)) as [E Hd']; [done..|].
    destruct fuel as [|fuel]; simpl in Hfuel; [lia|]. cbn [fill]. unfold _eof. rewrite Hf, E.
    destruct (IH fuel r (mkStream (content s) (pos s + n) false) (data ++ [r])) as (x & s' & E'); [done..|lia|].
    exists x, s'. rewrite E'. by rewrite <-!app_assoc.
Qed.
Lemma buffered_records recs pre extra t s seen :
  (records (S (length recs)) t seen (mkReader true s (pre ++ recs ++ [extra]) (length pre))).1 = Ok (seen ++ recs).
Proof.
  revert pre t seen. induction recs as [|r recs IH]; intros pre t seen.
  - erewrite records_end; [by rewrite app_nil_r|]. unfold next. simpl. rewrite list_lookup_middle by done.
    unfold done. simpl. rewrite length_app. simpl. by rewrite Nat.add_1_r, Nat.eqb_refl.
  - specialize (IH (pre ++ [r]) r (seen ++ [r])). rewrite <-!app_assoc, length_app, Nat.add_1_r in IH.
    erewrite records_more; [exact IH|]. unfold next. simpl. rewrite list_lookup_middle by done.
    unfold done. cbn [_use_buffer _data _iter]. rewrite length_app. cbn [length]. rewrite length_app. cbn [length].
    by rewrite (proj2 (Nat.eqb_neq _ _)) by lia.
Qed.
Lemma concat_length recs : Forall (λ r, length r = n) recs → (length recs <= length (concat recs))%nat.
Proof. induction 1 as [|r recs Hr _ IH]; simpl; [lia|]. rewrite length_app. lia. Qed.

(** C34: a client that loops while [next] returns true sees exactly the complete
    records of a file, buffered or not, whatever uninitialised memory holds and
    with a truncated last record ignored; in particular the records a writer
    wrote are read back. The buffer itself holds one record too many, and a
    file that cannot be opened raises an exception. *)
Theorem reader_sees_records (recs : list (list Z)) (tail garbage t : list Z) (buffered : bool)
    (Hrecs : Forall (λ r, length r = n) recs) (Htail : (length tail < n)%nat)
    (Hg : length garbage = n) (Ht : length t = n) :
  simple_binary_reader None buffered garbage = Fail Throw ∧
  ∃ r, simple_binary_reader (Some (foldl (λ c rec, write rec c) [] recs ++ tail)) buffered garbage = Ok r ∧
    (records (S (length recs)) t [] r).1 = Ok recs ∧
    (buffered = true → length (_data r) = S (length recs)).
Proof.
  assert (∀ c, foldl (λ c rec, write rec c) c recs = c ++ concat recs) as E.
  { clear. induction recs as [|r recs IH]; intros c; simpl; [by rewrite app_nil_r|].
    rewrite IH. unfold write. by rewrite <-app_assoc. }
  rewrite E, app_nil_l. split; [done|]. unfold simple_binary_reader, open. destruct buffered.
  - pose proof (concat_length recs Hrecs). set (s0 := mkStream (concat recs ++ tail) 0 false).
    destruct (fill_records recs tail (2 + length (content s0)) garbage s0 []) as (x & s' & ->); [done..| |].
    { simpl. rewrite length_app. lia. }
    eexists. split; [done|]. split; [apply (buffered_records recs [])|].
    intros _. simpl. rewrite length_app. simpl. lia.
  - eexists. split; [done|]. split; [|done]. by apply (unbuffered_records recs tail).
Qed.
End Records.

Lemma reader_sees_records_witness :
  ∃ r, simple_binary_reader 2 (Some [1; 2; 3; 4; 5]) true [0; 0] = Ok r ∧
    (records 2 3 [9; 9] [] r).1 = Ok [[1; 2]; [3; 4]].
Proof.
  destruct (reader_sees_records 2 ltac:(lia) [[1; 2]; [3; 4]] [5] [0; 0] [9; 9] true) as [_ (r & E & H & _)];
    [by repeat constructor|simpl; lia|done..|]. by exists r.
Defined.
End file.
