(* ===== verification/ProtoBuf.v ===== *)
(** * Messages over a socket ([src/protoBufSDK/])

    [sendMessage] writes a length and a serialized message in one buffer,
    [recvMessage] reads one buffer and parses it. Serializing and parsing are
    the protobuf library's: the serialized bytes are an argument, and what
    [recvMessage] comes to is the text it has parsed. *)
From S2P Require Import Prelude.

Module ProtoBuf.
Definition BUFFSIZE : nat := 1024.

(** [CodedOutputStream::WriteVarint32]: seven bits per byte, least significant
    first, the top bit set on all but the last. Five bytes hold a [uint32_t]. *)
Fixpoint varint (fuel : nat) (n : Z) : list Z :=
  match fuel with
  | O => []
  | S fuel => if n <? 128 then [n] else (n mod 128 + 128) :: varint fuel (n / 128)
  end.
Definition varint32 (n : Z) : list Z := varint 5 (u32 n).

(** The [tx_size] bytes of [tx_buf]: the streams stop at its end, and what they
    do not write keeps the uninitialised [garbage]. *)
Definition tx_size (body : list Z) : nat := length body + 4.
Definition tx_buf (body garbage : list Z) : list Z := take (tx_size body) (varint32 (Z.of_nat (length body)) ++ body ++ garbage).
(** The bytes given to [write], and what is returned when it returns [r]. *)
Definition sendMessage (body garbage : list Z) (r : Z) : list Z * Z :=
  (tx_buf body garbage, if r <? 0 then -1 else i32 (Z.of_nat (tx_size body))).
(** The bytes handed to [ParseFromCodedStream] when [read] finds [bytes] on the
    socket. A failed read is logged and parsed as an empty message. *)
Definition recvMessage (bytes : option (list Z)) : list Z :=
  match bytes with Some b => take BUFFSIZE b | None => [] end.

(** What a receiver that reads the length first would parse. *)
Fixpoint read_varint (fuel : nat) (bytes : list Z) : option (Z * list Z) :=
  match fuel, bytes with
  | S fuel, b :: bytes =>
      if b <? 128 then Some (b, bytes) else '(n, r) ← read_varint fuel bytes; Some (b - 128 + 128 * n, r)
  | _, _ => None
  end.
Definition framed (bytes : list Z) : option (list Z) :=
  '(n, r) ← read_varint 5 bytes; if Z.of_nat (length r) <? n then None else Some (take (Z.to_nat n) r).

Lemma varint_step fuel n : varint (S fuel) n = if n <? 128 then [n] else (n mod 128 + 128) :: varint fuel (n / 128).
Proof. done. Qed.
Lemma read_varint_step fuel b bytes : read_varint (S fuel) (b :: bytes) =
  if b <? 128 then Some (b, bytes) else '(n, r) ← read_varint fuel bytes; Some (b - 128 + 128 * n, r).
Proof. done. Qed.
Lemma read_varint_app fuel n r : 0 ≤ n < 128 ^ Z.of_nat (S fuel) →
  read_varint (S fuel) (varint (S fuel) n ++ r) = Some (n, r).
Proof.
  revert n. induction fuel as [|fuel IH]; intros n Hn; rewrite Nat2Z.inj_succ, Z.pow_succ_r in Hn by lia;
    rewrite varint_step; destruct (Z.ltb_spec n 128) as [Hs|Hs].
  1, 3: simpl; by rewrite (proj2 (Z.ltb_lt _ _) Hs).
  { change (Z.of_nat 0) with 0 in Hn. rewrite Z.pow_0_r in Hn. lia. }
  pose proof (Z.mod_pos_bound n 128 ltac:(lia)). pose proof (Z.div_mod n 128 ltac:(lia)).
  specialize (IH (n / 128) ltac:(Z.div_mod_to_equations; lia)). rewrite <-app_comm_cons, read_varint_step, IH.
  destruct (Z.ltb_spec (n mod 128 + 128) 128); [lia|]. simpl. do 2 f_equal. lia.
Qed.
Lemma varint_length fuel n k : 0 ≤ n < 128 ^ Z.of_nat (S k) → (S k <= fuel)%nat →
  (0 < length (varint fuel n) <= S k)%nat.
Proof.
  revert n k. induction fuel as [|fuel IH]; intros n k Hn Hk; [lia|]. cbn [varint].
  destruct (Z.ltb_spec n 128); [simpl; lia|]. destruct k as [|k]; [rewrite Z.pow_1_r in Hn; lia|].
  rewrite Nat2Z.inj_succ, Z.pow_succ_r in Hn by lia.
  specialize (IH (n / 128) k ltac:(Z.div_mod_to_equations; lia) ltac:(lia)). simpl. lia.
Qed.

(** A message of less than 2^28 bytes travels as its length, its bytes and
    up to three bytes of uninitialised memory; a receiver that reads the length
    would get the message, but [recvMessage] parses the length, at least one
    byte, as part of the message, and never more than 1024 bytes. *)
Theorem received_with_prefix (body garbage : list Z) (r : Z) (Hbody : Z.of_nat (length body) < 268435456)
    (Hgarbage : length garbage = tx_size body) :
  let sent := (sendMessage body garbage r).1 in
  framed sent = Some body ∧ length sent = tx_size body ∧
  recvMessage (Some sent) = take BUFFSIZE (varint32 (Z.of_nat (length body)) ++
    body ++ take (4 - length (varint32 (Z.of_nat (length body)))) garbage) ∧
  ((tx_size body <= BUFFSIZE)%nat → recvMessage (Some sent) ≠ body).
Proof.
  intros sent. set (n := Z.of_nat (length body)) in *.
  assert (0 < length (varint32 n) <= 4)%nat as Hl.
  { unfold varint32. rewrite u32_small by (unfold is_u32; lia). apply (varint_length 5 n 3); [|lia]. simpl. lia. }
  assert (sent = varint32 n ++ body ++ take (4 - length (varint32 n)) garbage) as E.
  { unfold sent, sendMessage, tx_buf, tx_size. cbn [fst]. fold n. rewrite take_app_ge by lia. f_equal.
    rewrite take_app_ge by lia. f_equal. f_equal. lia. }
  assert (length sent = tx_size body) as Hlen.
  { rewrite E, !length_app, length_take, Hgarbage. unfold tx_size. lia. }
  split_and!; [|done|by rewrite <-E|].
  - rewrite E. unfold framed, varint32. rewrite u32_small by (unfold is_u32; lia).
    rewrite read_varint_app by (simpl; lia). simpl. rewrite length_app.
    rewrite (proj2 (Z.ltb_ge _ _)) by lia. unfold n. rewrite Nat2Z.id, take_app_length. done.
  - simpl. intros Hfit Hc. assert (length (take BUFFSIZE sent) = length body) as Hbad by (by rewrite Hc).
    rewrite length_take, Hlen, Nat.min_r in Hbad by done. unfold tx_size in Hbad. lia.
Qed.

Lemma received_with_prefix_witness :
  let sent := (sendMessage [8; 1] (replicate 6 0) 6).1 in
  framed sent = Some [8; 1] ∧ recvMessage (Some sent) = [2; 8; 1; 0; 0; 0].
Proof. destruct (received_with_prefix [8; 1] (replicate 6 0) 6) as (H & _ & E & _); [done..|]. split; [exact H|exact E]. Defined.
End ProtoBuf.
