(* ===== verification/Types.v ===== *)
(** * Messages ([src/types/])

    [msg_t] is exchanged with the containers' kernels as the raw memory of the
    struct: 56 bytes on x86-64, little-endian, with two padding words. *)
From stdpp Require Import pretty.
From S2P Require Import Prelude OmNet.

Record msg_t := Msg {
  client_ip : ip4_addr;
  cgroup_id : Z;          (* uint32_t *)
  req_type : Z;           (* uint32_t: 0 cpu, 1 mem, 2 init, 3 slice, 4 create_cont *)
  rsrc_amnt : Z;          (* uint64_t *)
  request : Z;            (* uint32_t *)
  runtime_remaining : Z;  (* uint64_t *)
  cpustat_seq_num : Z;    (* uint64_t *)
  sock_addr : Z;          (* int64_t *)
}.

Record ports_t := Ports { tcp : Z; udp : Z }.
#[export] Instance ports_t_eq_dec : EqDecision ports_t.
Proof. solve_decision. Defined.

(** [k_msg_t], with the narrowing of its constructor's [uint8_t] parameters. *)
Record k_msg_t := KMsg {
  k_client_ip : Z; k_cgroup_id : Z; k_req_type : Z; k_rsrc_amnt : Z; k_request : Z;
}.
Definition k_msg_of (client_ip cgroup_id is_mem rscr_amnt request : Z) : k_msg_t :=
  KMsg client_ip cgroup_id (u8 is_mem) rscr_amnt (u8 request).

(** The copy constructor assigns every field but [sock_addr], which keeps
    whatever the fresh memory held ([garbage]). *)
Definition msg_copy (garbage : Z) (m : msg_t) : msg_t :=
  Msg (client_ip m) (cgroup_id m) (req_type m) (rsrc_amnt m) (request m) (runtime_remaining m)
      (cpustat_seq_num m) garbage.

Definition set_client_ip (ip : ip4_addr) (m : msg_t) : msg_t :=
  Msg ip (cgroup_id m) (req_type m) (rsrc_amnt m) (request m) (runtime_remaining m)
      (cpustat_seq_num m) (sock_addr m).
Definition from_net (m : msg_t) : msg_t := set_client_ip (ip4_addr.reverse_byte_order (client_ip m)) m.
Definition set_ip_from_net (ip : Z) (m : msg_t) : msg_t := set_client_ip (ip4_addr.from_net ip) m.
Definition set_ip_from_host (ip : Z) (m : msg_t) : msg_t := set_client_ip (ip4_addr.from_host ip) m.

(** [res->rsrc_amnt = v] and [res->request = v]. *)
Definition with_rsrc_amnt (v : Z) (m : msg_t) : msg_t :=
  Msg (client_ip m) (cgroup_id m) (req_type m) v (request m) (runtime_remaining m)
      (cpustat_seq_num m) (sock_addr m).
Definition with_request (v : Z) (m : msg_t) : msg_t :=
  Msg (client_ip m) (cgroup_id m) (req_type m) (rsrc_amnt m) v (runtime_remaining m)
      (cpustat_seq_num m) (sock_addr m).

(** [operator<<]; [sock_addr] is not printed. *)
Definition msg_print (k : msg_t) : string :=
  ("msg_t: " +:+ ip4_addr.to_string (client_ip k) +:+ "," +:+ pretty (cgroup_id k) +:+ "," +:+ pretty (req_type k) +:+ "," +:+
   pretty (rsrc_amnt k) +:+ "," +:+ pretty (request k) +:+ "," +:+ pretty (runtime_remaining k) +:+ "," +:+
   pretty (cpustat_seq_num k))%string.

(** ** The memory image *)

Fixpoint le_load (bs : list Z) : Z :=
  match bs with [] => 0 | b :: bs => b + 256 * le_load bs end.
Fixpoint le_store (n : nat) (v : Z) : list Z :=
  match n with O => [] | S n => v mod 256 :: le_store n (v / 256) end.

(** The field of [n] bytes at offset [off]. *)
Definition field (off n : nat) (buf : list Z) : Z := le_load (take n (drop off buf)).

(** [reinterpret_cast<msg_t*>(buff_in)] on a 56-byte buffer. *)
Definition msg_of_bytes (buf : list Z) : msg_t :=
  Msg (Ip4 (field 0 4 buf)) (field 4 4 buf) (field 8 4 buf) (field 16 8 buf) (field 24 4 buf)
      (field 32 8 buf) (field 40 8 buf) (i64 (field 48 8 buf)).

(** [(const char* ) &*res, sizeof( *res)]; [p1], [p2] are the padding words. *)
Definition msg_to_bytes (p1 p2 : Z) (m : msg_t) : list Z :=
  le_store 4 (_addr (client_ip m)) ++ le_store 4 (cgroup_id m) ++ le_store 4 (req_type m) ++
  le_store 4 p1 ++ le_store 8 (rsrc_amnt m) ++ le_store 4 (request m) ++ le_store 4 p2 ++
  le_store 8 (runtime_remaining m) ++ le_store 8 (cpustat_seq_num m) ++ le_store 8 (u64 (sock_addr m)).

Definition msg_wf (m : msg_t) : Prop :=
  is_u32 (_addr (client_ip m)) ∧ is_u32 (cgroup_id m) ∧ is_u32 (req_type m) ∧ is_u64 (rsrc_amnt m) ∧
  is_u32 (request m) ∧ is_u64 (runtime_remaining m) ∧ is_u64 (cpustat_seq_num m) ∧ is_i64 (sock_addr m).

Lemma le_load_store n v : 0 ≤ v < 256 ^ Z.of_nat n → le_load (le_store n v) = v.
Proof.
  revert v. induction n as [|n IH]; intros v Hv; [simpl in *; lia|].
  cbn [le_store le_load]. rewrite Nat2Z.inj_succ, Z.pow_succ_r in Hv by lia.
  rewrite IH by (Z.div_mod_to_equations; lia). Z.div_mod_to_equations; lia.
Qed.
Lemma length_le_store n v : length (le_store n v) = n.
Proof. revert v. induction n; intros; simpl; auto. Qed.
Lemma le_load_bound bs : Forall is_u8 bs → 0 ≤ le_load bs < 256 ^ Z.of_nat (length bs).
Proof.
  induction 1 as [|b bs Hb _ IH]; simpl length; [simpl; lia|].
  rewrite Nat2Z.inj_succ, Z.pow_succ_r by lia. cbn [le_load]. unfold is_u8 in Hb. lia.
Qed.

(** A field is what was stored at its offset. *)
Lemma field_here n v rest : field 0 n (le_store n v ++ rest) = le_load (le_store n v).
Proof. unfold field. rewrite drop_0, take_app_length'; [done|by rewrite length_le_store]. Qed.
Lemma field_skip k v off n rest :
  (k ≤ off)%nat → field off n (le_store k v ++ rest) = field (off - k) n rest.
Proof.
  intros. unfold field. rewrite drop_app_ge by (rewrite length_le_store; lia).
  by rewrite length_le_store.
Qed.

Lemma msg_bytes (p1 p2 : Z) (m : msg_t) : msg_wf m →
  msg_of_bytes (msg_to_bytes p1 p2 m) = m ∧ length (msg_to_bytes p1 p2 m) = 56%nat.
Proof.
  intros Hm.
  destruct m as [[ip] cg rt ra rq rr sq sa]. unfold msg_wf in Hm; simpl in Hm.
  destruct Hm as (?&?&?&?&?&?&?&?).
  split; [|unfold msg_to_bytes; by rewrite !length_app, !length_le_store].
  unfold msg_of_bytes, msg_to_bytes; cbn [client_ip _addr cgroup_id req_type rsrc_amnt
    request runtime_remaining cpustat_seq_num sock_addr].
  rewrite <-(app_nil_r (le_store 8 (u64 sa))).
  repeat first [rewrite field_here | rewrite field_skip by lia; simpl Nat.sub].
  rewrite !le_load_store by (change (256 ^ Z.of_nat 4) with 4294967296;
    change (256 ^ Z.of_nat 8) with 18446744073709551616; wrap_lia).
  f_equal. wrap_lia.
Qed.

(** A message written to the socket as raw memory is read back
    unchanged by the same cast, whatever the padding bytes hold, and the image
    is exactly the 56 bytes ([__HANDLE_REQ_BUFF__]) the server reads. *)
Theorem msg_bytes_roundtrip (p1 p2 : Z) (m : msg_t) (Hm : msg_wf m) :
  msg_of_bytes (msg_to_bytes p1 p2 m) = m ∧ length (msg_to_bytes p1 p2 m) = 56%nat.
Proof. by apply msg_bytes. Qed.
Lemma msg_bytes_roundtrip_witness :
  msg_of_bytes (msg_to_bytes 7 9 (Msg (Ip4 0x0106a8c0) 23 2 10000000 1 14 3 (-5))) =
    Msg (Ip4 0x0106a8c0) 23 2 10000000 1 14 3 (-5) ∧
  length (msg_to_bytes 7 9 (Msg (Ip4 0x0106a8c0) 23 2 10000000 1 14 3 (-5))) = 56%nat.
Proof.
  apply (msg_bytes_roundtrip 7 9). unfold msg_wf; simpl; split_and!; wrap_lia.
Defined.
