(* ===== verification/SubContainer.v ===== *)
(** * One container ([src/SubContainer.{h,cpp}])

    [ContainerId] is compared and hashed on the cgroup id and the node address
    only: [docker_id] is not part of the identity. Time points are nanoseconds
    since the clock's epoch. *)
From S2P Require Import Prelude OmNet Float64 Window LocalStats.

Module SubContainer.

Record ContainerId := Cid {
  cgroup_id : Z;
  server_ip : ip4_addr;
  docker_id : string;
}.
#[global] Instance ContainerId_eq_dec : EqDecision ContainerId.
Proof. solve_decision. Defined.

(** [ContainerId(uint32_t, ip4_addr)] and [ContainerId()]. *)
Definition ContainerId_of (_cgroup_id : Z) (_ip : ip4_addr) : ContainerId := Cid _cgroup_id _ip "".
Definition ContainerId_default : ContainerId := Cid 0 ip4_addr.default "".

(** [operator==] and [std::hash<ContainerId>]. *)
Definition ContainerId_eqb (a b : ContainerId) : bool :=
  (cgroup_id a =? cgroup_id b) && ip4_addr.eqb (server_ip a) (server_ip b).
Definition ContainerId_hash (p : ContainerId) : Z :=
  Z.lxor (cgroup_id p) (ip4_addr.hash (server_ip p)).

(** What the hash tables see of a key. *)
Definition key : Type := Z * Z.
Definition key_of (c : ContainerId) : key := (cgroup_id c, _addr (server_ip c)).

Record SubContainer := mkSubContainer {
  c_id : ContainerId;
  fd : Z;
  inserted : bool;
  cpu : cpu_l.cpu;
  mem : mem_l.mem;
  quota_mismatch_counter : Z;
  counter : Z;
  last_seen_ts : Z;
}.

(** The two constructors; [now] is [high_resolution_clock::now()]. *)
Definition SubContainer_of (now cgroup_id ip _fd : Z) : SubContainer :=
  mkSubContainer (ContainerId_of cgroup_id (ip4_addr.from_net ip)) _fd false cpu_l.cpu_default
    mem_l.mem_default 0 0 now.
Definition SubContainer_of_quota (now cgroup_id ip _fd _quota _nr_throttled : Z) : SubContainer :=
  mkSubContainer (ContainerId_of cgroup_id (ip4_addr.from_net ip)) _fd false
    (cpu_l.cpu_of _quota _nr_throttled) mem_l.mem_default 0 0 now.

Definition with_cpu (c : cpu_l.cpu) (s : SubContainer) : SubContainer :=
  mkSubContainer (c_id s) (fd s) (inserted s) c (mem s) (quota_mismatch_counter s) (counter s)
    (last_seen_ts s).
Definition with_mem (m : mem_l.mem) (s : SubContainer) : SubContainer :=
  mkSubContainer (c_id s) (fd s) (inserted s) (cpu s) m (quota_mismatch_counter s) (counter s)
    (last_seen_ts s).
Definition with_mismatch (n : Z) (s : SubContainer) : SubContainer :=
  mkSubContainer (c_id s) (fd s) (inserted s) (cpu s) (mem s) n (counter s) (last_seen_ts s).

Definition get_c_id (s : SubContainer) : ContainerId := c_id s.
Definition get_fd (s : SubContainer) : Z := fd s.
Definition get_quota (s : SubContainer) : Z := cpu_l.get_quota (cpu s).
Definition get_throttled (s : SubContainer) : Z := cpu_l.get_throttled (cpu s).
Definition set_quota (_quota : Z) (s : SubContainer) : SubContainer :=
  with_cpu (cpu_l.set_quota _quota (cpu s)) s.
Definition set_throttled (_throttled : Z) (s : SubContainer) : SubContainer :=
  with_cpu (cpu_l.set_throttled _throttled (cpu s)) s.
Definition set_docker_id (dock_id : string) (s : SubContainer) : SubContainer :=
  mkSubContainer (Cid (cgroup_id (c_id s)) (server_ip (c_id s)) dock_id) (fd s) (inserted s) (cpu s)
    (mem s) (quota_mismatch_counter s) (counter s) (last_seen_ts s).
Definition get_docker_id (s : SubContainer) : string := docker_id (c_id s).
Definition get_throttle_increase (_throttled : Z) (s : SubContainer) : Z :=
  cpu_l.get_throttle_increase _throttled (cpu s).
Definition get_thr_incr_and_set_thr (_throttled : Z) (s : SubContainer) : Z * SubContainer :=
  let incr := cpu_l.get_throttle_increase _throttled (cpu s) in
  (incr, if incr =? 0 then s else with_cpu (cpu_l.set_throttled _throttled (cpu s)) s).
Definition get_counter (s : SubContainer) : Z := counter s.
Definition incr_counter (s : SubContainer) : SubContainer :=
  mkSubContainer (c_id s) (fd s) (inserted s) (cpu s) (mem s) (quota_mismatch_counter s)
    (i32 (counter s + 1)) (last_seen_ts s).

(** [get_cpu_stats()->flush()] and the two window insertions. *)
Definition flush (s : SubContainer) : SubContainer := with_cpu (cpu_l.flush (cpu s)) s.
Definition insert_rt_stats (e : Z) (s : SubContainer) : option (Z * SubContainer) :=
  '(m, c) ← cpu_l.insert_rt_stats e (cpu s); Some (m, with_cpu c s).
Definition insert_th_stats (e : Z) (s : SubContainer) : option (double * SubContainer) :=
  '(m, c) ← cpu_l.insert_th_stats e (cpu s); Some (m, with_cpu c s).

Definition get_set_quota_flag (s : SubContainer) : bool := cpu_l.get_set_quota_flag (cpu s).
Definition set_quota_flag (val : bool) (s : SubContainer) : SubContainer :=
  with_cpu (cpu_l.set_set_quota_flag val (cpu s)) s.

Definition get_mem_limit_in_pages (s : SubContainer) : Z := mem_l.get_mem_limit_in_pages (mem s).
Definition set_mem_limit_in_pages (_new_limit : Z) (s : SubContainer) : SubContainer :=
  with_mem (mem_l.set_mem_limit_in_pages _new_limit (mem s)) s.
Definition sc_incr_mem_limit (_incr : Z) (s : SubContainer) : SubContainer :=
  with_mem (mem_l.incr_mem_limit _incr (mem s)) s.
Definition sc_decr_mem_limit (_decr : Z) (s : SubContainer) : SubContainer :=
  with_mem (mem_l.decr_mem_limit _decr (mem s)) s.

Definition sc_inserted (s : SubContainer) : bool := inserted s.
Definition set_sc_inserted (_inserted : bool) (s : SubContainer) : SubContainer :=
  mkSubContainer (c_id s) (fd s) _inserted (cpu s) (mem s) (quota_mismatch_counter s) (counter s)
    (last_seen_ts s).

Definition incr_cpustat_seq_num (s : SubContainer) : SubContainer :=
  with_cpu (cpu_l.incr_seq_num (cpu s)) s.
Definition set_cpustat_seq_num (val : Z) (s : SubContainer) : SubContainer :=
  with_cpu (cpu_l.set_seq_num val (cpu s)) s.
Definition get_seq_num (s : SubContainer) : Z := cpu_l.get_seq_num (cpu s).

(** [return quota_mismatch_counter++]: the value before the increment. *)
Definition incr_quota_mismatch_counter (s : SubContainer) : Z * SubContainer :=
  (quota_mismatch_counter s, with_mismatch (i32 (quota_mismatch_counter s + 1)) s).
Definition get_quota_mismatch_counter (s : SubContainer) : Z := quota_mismatch_counter s.
Definition reset_quota_mismatch_counter (s : SubContainer) : SubContainer := with_mismatch 0 s.

(** [duration_cast<microseconds>] truncates toward zero. *)
Definition check_if_idle (now : Z) (s : SubContainer) : bool :=
  2000000 <? Z.quot (now - last_seen_ts s) 1000.
Lemma check_if_idle_seen now s t : last_seen_ts s = last_seen_ts t → check_if_idle now s = check_if_idle now t.
Proof. unfold check_if_idle. by intros ->. Qed.
Definition update_last_seen_ts (now : Z) (s : SubContainer) : SubContainer :=
  mkSubContainer (c_id s) (fd s) (inserted s) (cpu s) (mem s) (quota_mismatch_counter s) (counter s)
    now.

(** ** Identity of containers *)

(** The relation [operator==] decides. *)
#[global] Instance ContainerId_equiv : Equiv ContainerId := λ a b, key_of a = key_of b.
#[global] Instance ContainerId_equivalence : Equivalence (≡@{ContainerId}).
Proof. split; unfold equiv, ContainerId_equiv; repeat intro; congruence. Qed.
#[global] Instance key_of_proper : Proper ((≡) ==> eq) key_of.
Proof. by intros a b H. Qed.
#[global] Instance ContainerId_hash_proper : Proper ((≡) ==> eq) ContainerId_hash.
Proof.
  intros a b H. unfold equiv, ContainerId_equiv, key_of in H. injection H as H1 H2.
  unfold ContainerId_hash, ip4_addr.hash, ip4_addr.to_uint32. congruence.
Qed.
Lemma ContainerId_eqb_equiv a b : ContainerId_eqb a b = true ↔ a ≡ b.
Proof.
  unfold ContainerId_eqb, ip4_addr.eqb, equiv, ContainerId_equiv, key_of.
  rewrite andb_true_iff, !Z.eqb_eq. split; [by intros [-> ->]|]. intros H. injection H. auto.
Qed.
Lemma set_docker_id_equiv d s : c_id (set_docker_id d s) ≡ c_id s.
Proof. done. Qed.

(** [ContainerId]'s equality is an equivalence relation that its hash
    respects (what [std::unordered_map] requires of a key type) and that
    ignores the docker id: a container is still found under its key after its
    docker id has been filled in. *)
Theorem ContainerId_key_contract (a b c : ContainerId) (d : string) :
  ContainerId_eqb a a = true ∧
  (ContainerId_eqb a b = ContainerId_eqb b a) ∧
  (ContainerId_eqb a b = true → ContainerId_eqb b c = true → ContainerId_eqb a c = true) ∧
  (ContainerId_eqb a b = true → ContainerId_hash a = ContainerId_hash b) ∧
  ContainerId_eqb (Cid (cgroup_id a) (server_ip a) d) a = true.
Proof.
  split_and!.
  - by apply ContainerId_eqb_equiv.
  - apply eq_true_iff_eq. rewrite !ContainerId_eqb_equiv. split; by intros ->.
  - rewrite !ContainerId_eqb_equiv. by intros -> ->.
  - rewrite ContainerId_eqb_equiv. by intros ->.
  - by apply ContainerId_eqb_equiv.
Qed.

(** A container is idle exactly when its last report is more than two
    seconds old, at the microsecond resolution of the test; a report at [now]
    makes it busy for the following two seconds. *)
Theorem check_if_idle_spec (s : SubContainer) (now t : Z) (Hnow : last_seen_ts s ≤ now) (Ht : now ≤ t) :
  (check_if_idle now s = true ↔ 2000001000 ≤ now - last_seen_ts s) ∧
  (check_if_idle t (update_last_seen_ts now s) = false ↔ t - now < 2000001000).
Proof.
  unfold check_if_idle; simpl. rewrite !Z.quot_div_nonneg by lia.
  split; [rewrite Z.ltb_lt|rewrite Z.ltb_ge]; Z.div_mod_to_equations; lia.
Qed.
Lemma check_if_idle_spec_witness :
  check_if_idle 5000000000 (SubContainer_of 1000000000 7 0 3) = true ∧
  check_if_idle 6000000000 (update_last_seen_ts 5000000000 (SubContainer_of 1000000000 7 0 3)) = false.
Proof.
  split.
  - apply (check_if_idle_spec (SubContainer_of 1000000000 7 0 3) 5000000000 6000000000); simpl; lia.
  - apply (check_if_idle_spec (SubContainer_of 1000000000 7 0 3) 5000000000 6000000000); simpl; lia.
Defined.

End SubContainer.
