(* ===== verification/Json.v ===== *)
(** * JSON values and HTTP requests, as the facade uses them

    The controller reads JSON with cpprestsdk ([web::json]) and sends HTTP
    requests with [web::http::client]; both are outside the repository. The
    class [WebJson] is the interface the code uses, [WebJsonLaws] the documented
    behaviour it relies on, [http_result] what a request can come to. [JsonText]
    is one implementation of the interface, with a printer and a parser of JSON
    text, which shows that the laws can be met. *)
From Stdlib Require Import Ascii DecimalString DecimalZ.
From S2P Require Import Prelude.

(** [object::find] on the fields in order. *)
Definition field {V} (k : string) (l : list (string * V)) : option V :=
  snd <$> (snd <$> list_find (λ kv, kv.1 = k) l).

(** An operation that throws [json_exception] gives [None]. *)
Class WebJson := {
  value : Type;
  null : value;                                     (** [value()], [value::null()] *)
  is_null : value → bool;
  string_ : string → value;                         (** [value::string] *)
  number_ : Z → value;                              (** [value::number] *)
  as_string : value → option string;
  as_integer : value → option Z;
  as_uint64 : value → option Z;                     (** [as_number().to_uint64()] *)
  as_array : value → option (list value);
  as_object : value → option (list (string * value));
  at_ : value → string → option value;              (** [value::at], [object::at] *)
  set_field : value → string → value → option value; (** [v[key] = x] *)
  set_index : value → nat → value → option value;   (** [v[index] = x] *)
  parse : string → option value;
  serialize : value → string;
}.

Class WebJsonLaws (J : WebJson) := {
  law_null : is_null null = true;
  law_string s : as_string (string_ s) = Some s;
  law_number n : -2147483648 ≤ n < 2147483648 → as_integer (number_ n) = Some n;
  law_at v k l : as_object v = Some l → at_ v k = field k l;
  (** Assigning to a field of null makes an object. *)
  law_set_null k x : ∃ v, set_field null k x = Some v ∧ as_object v = Some [(k, x)];
  law_set v l k x : as_object v = Some l →
    ∃ v' l', set_field v k x = Some v' ∧ as_object v' = Some l' ∧
      ∀ k', field k' l' = if decide (k' = k) then Some x else field k' l;
  law_set_index x : ∃ v, set_index null 0 x = Some v ∧ as_array v = Some [x];
  law_parse v : parse (serialize v) = Some v;
  law_nonempty v : serialize v ≠ "";
}.

(** ** HTTP *)
Inductive http_exn := HttpException | OtherException.
Inductive extraction (V : Type) := Extracted (v : V) | Raised (e : http_exn).
Arguments Extracted {V} v.
Arguments Raised {V} e.

(** The client's constructor rejects the address, the request fails, or a
    response arrives, whose body is extracted as JSON or as text. *)
Inductive http_result {J : WebJson} :=
| UriException
| RequestFailed (e : http_exn)
| Response (status : Z) (json : extraction value) (text : extraction string).
Definition status_OK : Z := 200.

(** ** Exceptions in [M] *)
Definition throws {S A} (o : option A) : M S A :=
  match o with Some a => mret a | None => stop Throw end.
(** [try { m; return 0 } catch (...) { return -1; }] *)
Definition try_or_error {S} (m : M S unit) : M S Z := λ s,
  match m s with
  | (Ok _, s') => (Ok 0, s')
  | (Fail Throw, s') => (Ok (-1), s')
  | (Fail f, s') => (Fail f, s')
  end.
Lemma run_bind {S A B} (m : M S A) (k : A → M S B) s :
  (m ≫= k) s = match m s with (Ok a, s') => k a s' | (Fail f, s') => (Fail f, s') end.
Proof. done. Qed.
Lemma run_throws {S A} (o : option A) (s : S) :
  throws o s = (match o with Some a => Ok a | None => Fail Throw end, s).
Proof. by destruct o. Qed.
(** Runs the binds and checked accesses at the head of a computation. *)
Ltac run := repeat (first [rewrite run_bind|rewrite run_throws]; cbv beta iota).
Lemma wp_throws {S A} (o : option A) a (Q : A → S → Prop) F s : o = Some a → Q a s → wp (throws o) Q F s.
Proof. by intros ->. Qed.

(** ** JSON text *)
Module JsonText.

#[local] Unset Elimination Schemes.
Inductive json :=
| JNull | JBool (b : bool) | JNum (z : Z) | JStr (s : list ascii)
| JArr (l : list json) | JObj (l : list (list ascii * json)).
#[local] Set Elimination Schemes.

Section json_ind.
Context (P : json → Prop) (Hnull : P JNull) (Hbool : ∀ b, P (JBool b)) (Hnum : ∀ z, P (JNum z))
  (Hstr : ∀ s, P (JStr s)) (Harr : ∀ l, Forall P l → P (JArr l))
  (Hobj : ∀ l, Forall (λ kv, P kv.2) l → P (JObj l)).
Fixpoint json_nested_ind (v : json) : P v :=
  match v with
  | JNull => Hnull | JBool b => Hbool b | JNum z => Hnum z | JStr s => Hstr s
  | JArr l => Harr l ((fix go l : Forall P l :=
      match l with [] => Forall_nil_2 _ | a :: l => Forall_cons_2 _ _ _ (json_nested_ind a) (go l) end) l)
  | JObj l => Hobj l ((fix go l : Forall (λ kv, P kv.2) l :=
      match l with [] => Forall_nil_2 _ | a :: l => Forall_cons_2 (λ kv, P kv.2) a l (json_nested_ind a.2) (go l) end) l)
  end.
End json_ind.

Definition chars : string → list ascii := String.list_ascii_of_string.
Definition quote : ascii := "034"%char.
Definition esc (c : ascii) : list ascii := if decide (c = quote ∨ c = "\"%char) then ["\"%char; c] else [c].
Definition print_string (s : list ascii) : list ascii := quote :: (s ≫= esc) ++ [quote].
Definition print_num (z : Z) : list ascii := chars (NilZero.string_of_int (Z.to_int z)).
(** The items, separated by commas, and the closing bracket. *)
Fixpoint sep {A} (print : A → list ascii) (close : ascii) (l : list A) : list ascii :=
  match l with
  | [] => [close]
  | [a] => print a ++ [close]
  | a :: l => print a ++ ","%char :: sep print close l
  end.
Fixpoint print (v : json) : list ascii :=
  match v with
  | JNull => chars "null"
  | JBool b => chars (if b then "true" else "false")
  | JNum z => print_num z
  | JStr s => print_string s
  | JArr l => "["%char :: sep print "]" l
  | JObj l => "{"%char :: sep (λ kv, print_string kv.1 ++ ":"%char :: print kv.2) "}" l
  end.

Definition parser A := list ascii → option (A * list ascii).
Fixpoint parse_chars (s : list ascii) : option (list ascii * list ascii) :=
  match s with
  | [] => None
  | c :: s =>
      if decide (c = quote) then Some ([], s)
      else if decide (c = "\"%char) then
        match s with
        | c :: s => '(a, r) ← parse_chars s; Some (c :: a, r)
        | [] => None
        end
      else '(a, r) ← parse_chars s; Some (c :: a, r)
  end.
Definition parse_string : parser (list ascii) := λ s,
  match s with c :: s => if decide (c = quote) then parse_chars s else None | [] => None end.
Definition num_char (c : ascii) : bool :=
  bool_decide (c ∈ chars "-0123456789").
Fixpoint span_num (s : list ascii) : list ascii * list ascii :=
  match s with
  | c :: s => if num_char c then let '(a, r) := span_num s in (c :: a, r) else ([], c :: s)
  | [] => ([], [])
  end.
Definition parse_num : parser json := λ s,
  let '(a, r) := span_num s in
  i ← NilZero.int_of_string (String.string_of_list_ascii a); Some (JNum (Z.of_int i), r).
(** Items up to the closing bracket. *)
Fixpoint parse_items {A} (n : nat) (p : parser A) (close : ascii) (s : list ascii) : option (list A * list ascii) :=
  match n with
  | O => None
  | S n =>
      '(a, r) ← p s;
      match r with
      | c :: r =>
          if decide (c = close) then Some ([a], r)
          else if decide (c = ","%char) then '(l, r) ← parse_items n p close r; Some (a :: l, r)
          else None
      | [] => None
      end
  end.
Definition parse_list {A} (n : nat) (p : parser A) (close : ascii) : parser (list A) := λ s,
  match s with
  | c :: r => if decide (c = close) then Some ([], r) else parse_items n p close s
  | [] => None
  end.
Definition strip (w : string) (v : json) : parser json := λ s,
  if decide (take (length (chars w)) s = chars w) then Some (v, drop (length (chars w)) s) else None.
Fixpoint parse_value (n : nat) : parser json := λ s,
  match n with
  | O => None
  | S n =>
      match s with
      | [] => None
      | c :: r =>
          if decide (c = quote) then '(a, r) ← parse_string s; Some (JStr a, r)
          else if decide (c = "["%char) then '(l, r) ← parse_list n (parse_value n) "]" r; Some (JArr l, r)
          else if decide (c = "{"%char) then
            '(l, r) ← parse_list n (λ s,
              '(k, r) ← parse_string s;
              match r with
              | c :: r => if decide (c = ":"%char) then '(v, r) ← parse_value n r; Some ((k, v), r) else None
              | [] => None
              end) "}" r;
            Some (JObj l, r)
          else if decide (c = "n"%char) then strip "null" JNull s
          else if decide (c = "t"%char) then strip "true" (JBool true) s
          else if decide (c = "f"%char) then strip "false" (JBool false) s
          else parse_num s
      end
  end.

(** *** The parser inverts the printer *)
Definition no_num (r : list ascii) : Prop := match r with c :: _ => num_char c = false | [] => True end.

Lemma parse_chars_esc s r : parse_chars ((s ≫= esc) ++ quote :: r) = Some (s, r).
Proof.
  induction s as [|c s IH]; [done|]. rewrite bind_cons, <-app_assoc. unfold esc at 1.
  destruct (decide (c = quote ∨ c = "\"%char)) as [Hc|Hc].
  - cbn [app parse_chars]. rewrite decide_False by done. rewrite decide_True by done. by rewrite IH.
  - apply Decidable.not_or in Hc as [? ?]. cbn [app parse_chars]. rewrite !decide_False by done. by rewrite IH.
Qed.
Lemma parse_string_print s r : parse_string (print_string s ++ r) = Some (s, r).
Proof.
  unfold parse_string, print_string. cbn [app]. rewrite decide_True by done. rewrite <-app_assoc.
  apply parse_chars_esc.
Qed.

Lemma uint_num_chars u : Forall (λ c, num_char c = true) (chars (NilEmpty.string_of_uint u)).
Proof. induction u; constructor; done. Qed.
Lemma print_num_chars z : Forall (λ c, num_char c = true) (print_num z).
Proof.
  unfold print_num, NilZero.string_of_int, NilZero.string_of_uint.
  destruct (Z.to_int z) as [u|u]; [|constructor; [done|]]; destruct u; try apply uint_num_chars; by repeat constructor.
Qed.
Lemma span_num_app a r : Forall (λ c, num_char c = true) a → no_num r → span_num (a ++ r) = (a, r).
Proof.
  induction 1 as [|c a Hc Ha IH]; intros Hr.
  - destruct r as [|c r]; [done|]. simpl in *. by rewrite Hr.
  - simpl. rewrite Hc. by rewrite IH.
Qed.
Lemma to_int_nonempty z : Z.to_int z ≠ Decimal.Pos Decimal.Nil ∧ Z.to_int z ≠ Decimal.Neg Decimal.Nil.
Proof.
  assert (H : ∀ p, Pos.to_uint p ≠ Decimal.Nil).
  { intros p Hp. pose proof (DecimalPos.Unsigned.of_to p) as E. rewrite Hp in E. done. }
  destruct z; simpl; split; try done; intros [= E]; by apply (H p).
Qed.
Lemma parse_num_print z r : no_num r → parse_num (print_num z ++ r) = Some (JNum z, r).
Proof.
  intros Hr. unfold parse_num. rewrite span_num_app by (done || apply print_num_chars).
  unfold print_num, chars. rewrite String.string_of_list_ascii_of_string.
  destruct (to_int_nonempty z). rewrite NilZero.isi by done. simpl. by rewrite DecimalZ.of_to.
Qed.
(** A printed number starts with a sign or a digit. *)
Lemma print_num_cons z : ∃ c t, print_num z = c :: t ∧ num_char c = true.
Proof.
  pose proof (print_num_chars z) as H. pose proof (parse_num_print z [] I) as Hp.
  destruct (print_num z) as [|c t]; [done|]. inversion H; subst. by exists c, t.
Qed.

(** *** Lists *)
Section Items.
Context {A : Type} (pr : A → list ascii) (p : parser A) (close : ascii).
Context (Hcomma : close ≠ ","%char) (Hclose : num_char close = false).

Lemma sep_length l a : a ∈ l → (length (pr a) < length (sep pr close l))%nat.
Proof.
  induction l as [|b [|b' l] IH]; intros Ha; [by apply not_elem_of_nil in Ha|..].
  - apply list_elem_of_singleton in Ha as ->. simpl. rewrite length_app. simpl. lia.
  - change (sep pr close (b :: b' :: l)) with (pr b ++ ","%char :: sep pr close (b' :: l)).
    rewrite length_app, length_cons. apply elem_of_cons in Ha as [->|Ha]; [lia|]. specialize (IH Ha). lia.
Qed.
Lemma sep_length_items l : (length l ≤ length (sep pr close l))%nat.
Proof.
  induction l as [|b [|b' l] IH]; simpl; [lia|rewrite length_app; simpl; lia|].
  simpl in IH. rewrite length_app. simpl. lia.
Qed.
Lemma parse_items_sep n l r :
  l ≠ [] → (length l ≤ n)%nat → (∀ a r', a ∈ l → no_num r' → p (pr a ++ r') = Some (a, r')) →
  parse_items n p close (sep pr close l ++ r) = Some (l, r).
Proof.
  revert n. induction l as [|a [|b l] IH]; intros n Hne Hn Hp; [done|..]; destruct n as [|n]; simpl in Hn; try lia.
  - simpl. rewrite <-app_assoc. rewrite Hp by (done || left). simpl. by rewrite decide_True.
  - change (sep pr close (a :: b :: l)) with (pr a ++ ","%char :: sep pr close (b :: l)).
    simpl parse_items. rewrite <-app_assoc, <-app_comm_cons. rewrite Hp by (done || left). simpl.
    rewrite decide_False by done. rewrite IH; [done|done|simpl; lia|]. intros. apply Hp; [by right|done].
Qed.
Lemma parse_list_sep n l r :
  (length (sep pr close l) ≤ n)%nat →
  (∀ a r', a ∈ l → no_num r' → p (pr a ++ r') = Some (a, r')) →
  (∀ a, a ∈ l → ∃ c t, pr a = c :: t ∧ c ≠ close) →
  parse_list n p close (sep pr close l ++ r) = Some (l, r).
Proof.
  intros Hn Hp Hhd. unfold parse_list. destruct l as [|a l].
  { simpl. by rewrite decide_True. }
  destruct (Hhd a) as (c & t & Hc & Hcc); [left|].
  assert (∃ t', sep pr close (a :: l) = c :: t') as [t' Ht'].
  { destruct l; simpl; rewrite Hc; simpl; eauto. }
  rewrite Ht'. simpl. rewrite decide_False by done. rewrite app_comm_cons, <-Ht'.
  apply parse_items_sep; [done| |done]. pose proof (sep_length_items (a :: l)). lia.
Qed.
End Items.

(** No value starts with a closing bracket. *)
Lemma print_cons v : ∃ c t, print v = c :: t ∧ c ≠ "]"%char ∧ c ≠ "}"%char.
Proof.
  destruct v as [|[]|z|s|l|l]; simpl; try by eexists _, _.
  destruct (print_num_cons z) as (c & t & -> & Hc). exists c, t. split_and!; [done|by intros ->..].
Qed.
Lemma strip_print w v r : strip w v (chars w ++ r) = Some (v, r).
Proof. unfold strip. by rewrite take_app_length, drop_app_length, decide_True. Qed.
Lemma num_char_other c : num_char c = true →
  c ∉ [quote; "["; "{"; "n"; "t"; "f"]%char.
Proof. intros Hc Hin. rewrite !elem_of_cons, elem_of_nil in Hin. by destruct_or!; subst. Qed.

Lemma parse_value_print v n r :
  (length (print v) ≤ n)%nat → no_num r → parse_value n (print v ++ r) = Some (v, r).
Proof.
  revert n r. induction v as [|b|z|s|l IH|l IH] using json_nested_ind; intros [|n] r Hn Hr;
    try (simpl in Hn; lia).
  - cbn [parse_value print app]. cbn [chars String.list_ascii_of_string app]. rewrite !decide_False by done.
    rewrite decide_True by done. apply (strip_print "null").
  - by destruct b; simpl in Hn; lia.
  - destruct b; cbn [parse_value print chars String.list_ascii_of_string app]; rewrite !decide_False by done;
      rewrite decide_True by done; [apply (strip_print "true")|apply (strip_print "false")].
  - destruct (print_num_cons z) as (c & t & E & _). simpl in Hn. rewrite E in Hn. simpl in Hn. lia.
  - cbn [parse_value print]. destruct (print_num_cons z) as (c & t & E & Hc). rewrite E; cbn [app].
    apply num_char_other in Hc. rewrite !not_elem_of_cons in Hc. destruct Hc as (?&?&?&?&?&?&_).
    rewrite !decide_False by done. rewrite app_comm_cons, <-E. by apply parse_num_print.
  - cbn [parse_value print]. assert (∃ t, print_string s ++ r = quote :: t) as [t E] by (by eexists).
    rewrite E, decide_True by done. by rewrite <-E, parse_string_print.
  - cbn [parse_value print app]. rewrite decide_False by done. rewrite decide_True by done.
    cbn [print length] in Hn. rewrite Forall_forall in IH. rewrite (parse_list_sep print); try done; [lia|..].
    + intros a r' Ha Hr'. apply IH; [done| |done].
      pose proof (sep_length print "]" l a Ha). lia.
    + intros a _. destruct (print_cons a) as (c & t & ? & ? & _). eauto.
  - cbn [parse_value print app]. rewrite !decide_False by done. rewrite decide_True by done.
    cbn [print length] in Hn. rewrite Forall_forall in IH.
    rewrite (parse_list_sep (λ kv, print_string kv.1 ++ ":"%char :: print kv.2)); try done; [lia|..].
    + intros [k a] r' Ha Hr'. cbn [fst snd]. rewrite <-app_assoc, parse_string_print. cbn -[parse_value].
      rewrite decide_True by done. specialize (IH (k, a) Ha n r'). cbn [snd] in IH.
      rewrite IH; [done| |done].
      pose proof (sep_length (λ kv, print_string kv.1 ++ ":"%char :: print kv.2) "}" l (k, a) Ha) as Hl.
      cbn [fst snd] in Hl. rewrite length_app, length_cons in Hl. lia.
    + intros [k a] _. by eexists _, _.
Qed.

(** *** The interface *)
Definition parse_text (s : string) : option json :=
  match parse_value (length (chars s)) (chars s) with Some (v, []) => Some v | _ => None end.
Definition text (v : json) : string := String.string_of_list_ascii (print v).
Lemma parse_text_print v : parse_text (text v) = Some v.
Proof.
  unfold parse_text, text, chars. rewrite String.list_ascii_of_string_of_list_ascii.
  pose proof (parse_value_print v (length (print v)) [] (le_n _) I) as H. rewrite app_nil_r in H. by rewrite H.
Qed.

Definition named : list (list ascii * json) → list (string * json) :=
  fmap (λ kv, (String.string_of_list_ascii kv.1, kv.2)).
(** A new field goes to the end, an old one is replaced. *)
Fixpoint put (k : list ascii) (x : json) (l : list (list ascii * json)) : list (list ascii * json) :=
  match l with
  | [] => [(k, x)]
  | (k', y) :: l => if decide (k' = k) then (k, x) :: l else (k', y) :: put k x l
  end.
Definition fields (v : json) : option (list (list ascii * json)) :=
  match v with JObj l => Some l | _ => None end.
Definition items (v : json) : option (list json) := match v with JArr l => Some l | _ => None end.
Definition text_json : WebJson := {|
  value := json;
  null := JNull;
  is_null v := match v with JNull => true | _ => false end;
  string_ s := JStr (chars s);
  number_ z := JNum z;
  as_string v := match v with JStr s => Some (String.string_of_list_ascii s) | _ => None end;
  as_integer v := match v with JNum z => Some (i32 z) | _ => None end;
  as_uint64 v := match v with JNum z => Some (u64 z) | _ => None end;
  as_array := items;
  as_object v := named <$> fields v;
  at_ v k := l ← fields v; field k (named l);
  set_field v k x := match v with JNull => Some (JObj [(chars k, x)])
                     | JObj l => Some (JObj (put (chars k) x l)) | _ => None end;
  set_index v i x := match v with JNull => Some (JArr (replicate i JNull ++ [x]))
                     | JArr l => Some (JArr (<[i := x]> (l ++ replicate (S i - length l) JNull))) | _ => None end;
  parse := parse_text;
  serialize := text;
|}.

Lemma field_cons {V} k k' (x : V) l : field k ((k', x) :: l) = if decide (k' = k) then Some x else field k l.
Proof.
  unfold field. simpl. destruct (decide (k' = k)); [done|]. by destruct (list_find _ l) as [[]|].
Qed.
Lemma named_cons c y l : named ((c, y) :: l) = (String.string_of_list_ascii c, y) :: named l.
Proof. done. Qed.
Lemma field_put k x l k' :
  field k' (named (put (chars k) x l)) = if decide (k' = k) then Some x else field k' (named l).
Proof.
  assert (Hk : String.string_of_list_ascii (chars k) = k) by apply String.string_of_list_ascii_of_string.
  induction l as [|[c y] l IH]; cbn [put].
  - rewrite named_cons, field_cons, Hk. by destruct (decide (k = k')), (decide (k' = k)).
  - destruct (decide (c = chars k)) as [->|Hc]; rewrite !named_cons, !field_cons, ?Hk, ?IH.
    + repeat case_decide; congruence.
    + destruct (decide (k' = k)) as [->|]; [|done]. rewrite decide_False; [done|]. intros <-. apply Hc.
      unfold chars. by rewrite String.list_ascii_of_string_of_list_ascii.
Qed.
Lemma text_json_laws : WebJsonLaws text_json.
Proof.
  constructor; simpl.
  - done.
  - intros s. unfold chars. by rewrite String.string_of_list_ascii_of_string.
  - intros n Hn. f_equal. wrap_lia.
  - intros v k l. destruct v; simpl; intros [= <-]. done.
  - intros k x. eexists; split; [done|]. simpl. unfold chars. by rewrite String.string_of_list_ascii_of_string.
  - intros v l k x. destruct v; simpl; intros [= <-]. eexists _, _. split; [done|]. split; [done|]. apply field_put.
  - intros x. eexists; split; done.
  - apply parse_text_print.
  - intros v H. apply (f_equal chars) in H. unfold chars, text in H.
    rewrite String.list_ascii_of_string_of_list_ascii in H. destruct (print_cons v) as (? & ? & E & _). by rewrite E in H.
Qed.
End JsonText.
