(* ===== verification/Agents.v ===== *)
(** * Node agents ([src/Agents/])

    An [Agent] is the address of the process that resizes containers on one
    node, an [AgentClient] the gRPC client to it, and [AgentClientDB] the
    process-wide table of clients by address. gRPC and the HTTP services are
    outside the repository: what they answer is the parameter [Env], which
    may depend on everything sent before. *)
From S2P Require Import Prelude OmNet Json.

Module Agent.
Record Agent := mkAgent { ip : ip4_addr; port : Z; sockfd : Z }.
#[global] Instance Agent_eq_dec : EqDecision Agent.
Proof. solve_decision. Defined.
(** [Agent(std::string)], after the address has been parsed. *)
Definition Agent_of (ip_addr_ : ip4_addr) : Agent := mkAgent ip_addr_ 4448 0.
Definition get_ip (a : Agent) : ip4_addr := ip a.
Definition get_port (a : Agent) : Z := port a.
Definition get_sockfd (a : Agent) : Z := sockfd a.
Definition set_port (_port : Z) (a : Agent) : Agent := mkAgent (ip a) _port (sockfd a).
Definition set_sockfd (_sockfd : Z) (a : Agent) : Agent := mkAgent (ip a) (port a) _sockfd.
End Agent.

(** The messages of [containerUpdateGrpc.proto] the controller sends. *)
Record ContainerQuotaRequest := QuotaReq {
  q_cgroupId : Z; q_newQuota : Z; q_resizeFlag : string; q_sequenceNum : Z;
}.
Record ResizeMaxMemRequest := ResizeReq { r_cgroupId : Z; r_newMemLimit : Z }.

(** What leaves the process, oldest last: the quota and resize RPCs to an
    agent, and HTTP requests (to the cAdvisor of a node, or to Kubernetes). *)
Inductive event :=
| EvQuota (to : ip4_addr) (req : ContainerQuotaRequest)
| EvResize (to : ip4_addr) (req : ResizeMaxMemRequest)
| EvGet (url : string)
| EvPost (url body : string).

Class Env := {
  (** [call->status.error_code()] as the caller finds it right after [Finish],
      without waiting for the agent: the value of a fresh status (0) while the
      call is under way, the agent's status if the call was completed by then,
      and [None] if the completion thread has already deleted the call. *)
  quota_read : list event → ip4_addr → ContainerQuotaRequest → option Z;
  (** The completions the resize queue delivers after the call: was the status
      ok, and the reply's error code. *)
  resize_completions : list event → ip4_addr → ResizeMaxMemRequest → list (bool * Z);
  (** The JSON library, and what HTTP requests come to. *)
  web_json :: WebJson;
  http_get : list event → string → http_result;
  http_post : list event → string → value → http_result;
}.

(** Calls to this agent are read before the completion thread deletes them, and
    the status code that is read then. *)
Definition timely `{!Env} (to : ip4_addr) : Prop := ∀ tr req, is_Some (quota_read tr to req).
Definition quota_status `{!Env} (tr : list event) (to : ip4_addr) (req : ContainerQuotaRequest) : Z :=
  default 0 (quota_read tr to req).
(** What depends on the status can be said of the code that was read. *)
Lemma quota_status_read `{!Env} tr to req (P : Z → Prop) :
  timely to → P (quota_status tr to req) → ∃ code, quota_read tr to req = Some code ∧ P code.
Proof. intros Ht. unfold quota_status. destruct (Ht tr req) as [z ->]. by exists z. Qed.

Module AgentClient.

(** [ac_this] is the address of the object: clients are compared by pointer. *)
Record AgentClient := mkAgentClient { ac_this : positive; agent : Agent.Agent }.
#[global] Instance AgentClient_eq_dec : EqDecision AgentClient.
Proof. solve_decision. Defined.

Definition get_agent_ip (ac : AgentClient) : ip4_addr := Agent.get_ip (agent ac).
Definition get_agent_port (ac : AgentClient) : Z := Agent.get_port (agent ac).
(** [std::hash<AgentClient>] *)
Definition hash (ac : AgentClient) : Z := Z.lxor (ip4_addr.hash (get_agent_ip ac)) (get_agent_port ac).

(** [incr_test_cc], of a counter nothing reads. *)
Definition incr_test_cc (test_cc : Z) : Z := i32 (test_cc + 1).

Section Rpc.
Context `{!Env}.

(** The state of a client call is the list of events sent so far. The status is
    read from the call object as soon as the call has been started: of a
    deleted object that is undefined behaviour. *)
Definition updateContainerQuota (ac : AgentClient) (cgroup_id new_quota : Z) (change : string)
    (seq_num : Z) : M (list event) Z :=
  let request := QuotaReq (i32 cgroup_id) new_quota change (i32 seq_num) in
  tr ← gets id;
  modify (cons (EvQuota (get_agent_ip ac) request)) ;;
  match quota_read tr (get_agent_ip ac) request with
  | Some error_code => mret (i32 error_code)
  | None => stop Undef
  end.
Lemma updateContainerQuota_timely ac cgroup_id new_quota change seq_num tr :
  timely (get_agent_ip ac) →
  let request := QuotaReq (i32 cgroup_id) new_quota change (i32 seq_num) in
  updateContainerQuota ac cgroup_id new_quota change seq_num tr =
    (Ok (i32 (quota_status tr (get_agent_ip ac) request)), EvQuota (get_agent_ip ac) request :: tr).
Proof.
  intros Ht request. unfold updateContainerQuota, mbind, M_bind, modify, gets, id; cbv beta iota. fold request.
  unfold quota_status. by destruct (Ht tr request) as [z ->].
Qed.

(** [while(cq_resize_mem_.Next(&got_tag, &ok))]: an ok status returns the
    reply's code; otherwise the call object is deleted and the loop waits for
    another completion, whose handling reads the deleted object. *)
Fixpoint resize_loop (deleted : bool) (completions : list (bool * Z)) : M (list event) Z :=
  match completions with
  | [] => stop Blocked
  | (ok, errorcode) :: rest =>
      if deleted then stop Undef
      else if ok then mret (i32 errorcode)
      else resize_loop true rest
  end.
Definition resizeMemoryLimitPages (ac : AgentClient) (cgroup_id new_mem_limit : Z) : M (list event) Z :=
  let txMsg := ResizeReq (i32 cgroup_id) new_mem_limit in
  tr ← gets id;
  modify (cons (EvResize (get_agent_ip ac) txMsg)) ;;
  resize_loop false (resize_completions tr (get_agent_ip ac) txMsg).

(** The outcome of a resize call, by the first completion: an ok
    status returns the agent's code truncated to [int32_t]; after a failed RPC
    the call never returns normally (the deleted call object is waited for or
    read), and no third outcome exists. *)
Lemma resizeMemoryLimitPages_eq (ac : AgentClient) (cg lim : Z) (tr : list event) :
  let req := ResizeReq (i32 cg) lim in
  let tr' := EvResize (get_agent_ip ac) req :: tr in
  resizeMemoryLimitPages ac cg lim tr =
  match resize_completions tr (get_agent_ip ac) req with
  | (true, c) :: _ => (Ok (i32 c), tr')
  | (false, _) :: _ :: _ => (Fail Undef, tr')
  | [(false, _)] | [] => (Fail Blocked, tr')
  end.
Proof.
  unfold resizeMemoryLimitPages, mbind, M_bind, gets, modify; simpl.
  by destruct (resize_completions _ _ _) as [|[[] c] [|[? ?] rest]].
Qed.

End Rpc.
End AgentClient.

(** ** The table of clients ([AgentClientDB]) *)
Module AgentClientDB.
Abbreviation db := (gmap ip4_addr AgentClient.AgentClient).

(** The one table of the process; made, empty, when it is first asked for. *)
Definition get_agent_client_db_instance (agent_clients_db_instance : option db) : db * option db :=
  let d := match agent_clients_db_instance with Some d => d | None => ∅ end in (d, Some d).
Definition add_agent_client (new_agent_client : AgentClient.AgentClient) (agents_db : db) : db :=
  match agents_db !! AgentClient.get_agent_ip new_agent_client with
  | Some _ => agents_db
  | None => <[AgentClient.get_agent_ip new_agent_client := new_agent_client]> agents_db
  end.
Definition remove_agent_client (target : AgentClient.AgentClient) (agents_db : db) : db :=
  delete (AgentClient.get_agent_ip target) agents_db.
(** [None] is the null pointer. *)
Definition get_agent_client_by_ip (req : ip4_addr) (agents_db : db) : option AgentClient.AgentClient :=
  agents_db !! req.
Definition get_agent_clients_db_size (agents_db : db) : Z := u32 (Z.of_nat (size agents_db)).

Lemma add_size ac d :
  size (add_agent_client ac d) =
  (size d + if decide (is_Some (d !! AgentClient.get_agent_ip ac)) then 0 else 1)%nat.
Proof.
  unfold add_agent_client. destruct (d !! _) eqn:E.
  - rewrite decide_True by eauto. lia.
  - rewrite decide_False by (rewrite <-eq_None_not_Some; done). rewrite map_size_insert_None by done. lia.
Qed.
Lemma add_dom ac d : dom (add_agent_client ac d) = {[AgentClient.get_agent_ip ac]} ∪ dom d.
Proof.
  unfold add_agent_client. destruct (d !! _) eqn:E.
  - apply elem_of_dom_2 in E. symmetry. apply subseteq_union_1_L. by apply singleton_subseteq_l.
  - by rewrite dom_insert_L.
Qed.

(** The table keeps the first client registered for an address: a
    lookup after a sequence of registrations finds the first one with that
    address, and nothing else removes or replaces it. *)
Theorem first_client_wins (acs : list AgentClient.AgentClient) (a : ip4_addr) :
  get_agent_client_by_ip a (foldl (λ d ac, add_agent_client ac d) ∅ acs) =
  snd <$> list_find (λ ac, AgentClient.get_agent_ip ac = a) acs.
Proof.
  unfold get_agent_client_by_ip.
  enough (H : ∀ d : db, foldl (λ d ac, add_agent_client ac d) d acs !! a =
    match d !! a with Some c => Some c
    | None => snd <$> list_find (λ ac, AgentClient.get_agent_ip ac = a) acs end)
    by (rewrite H; by rewrite lookup_empty).
  induction acs as [|ac acs IH]; intros d; simpl; [by destruct (d !! a)|].
  rewrite IH. unfold add_agent_client. case_decide as Heq.
  - subst a. destruct (d !! _) eqn:E; [by rewrite E|]. by rewrite lookup_insert_eq.
  - destruct (d !! AgentClient.get_agent_ip ac) eqn:E.
    + destruct (d !! a); [done|]. by destruct (list_find _ acs) as [[]|].
    + rewrite lookup_insert_ne by done. destruct (d !! a); [done|].
      by destruct (list_find _ acs) as [[]|].
Qed.

End AgentClientDB.
