(* ===== verification/AgentAsync.v ===== *)
(** * Asynchronous calls to an agent ([src/Agents/AgentClient.{h,cpp}])

    A call allocates an object, hands gRPC pointers to its reply and status,
    and reads one of them at once; a thread per kind of call takes finished
    calls from a completion queue, logs and deletes them. Callers, gRPC and the
    completion thread run concurrently on the objects: the steps of the relation
    [step] are the accesses to them. *)
From S2P Require Import Prelude OmNet Json Agents.

(** The replies of [containerUpdateGrpc.proto]; a new message is all zero. *)
Record ContainerQuotaReply := QuotaReply { p_cgroupId : Z; p_updateQuota : Z; p_errorCode : Z; p_sequenceNum : Z }.
Record ReadMemUsageReply := UsageReply { u_cgroupId : Z; u_memUsage : Z }.
Record ReadMemLimitReply := LimitReply { l_cgroupId : Z; l_memLimit : Z }.

Module AgentAsync.

(** [AsyncClientCall...]: the sequence number put into [request], the reply and
    the code of the status, 0 for ok. *)
Record Call (Rep : Type) := mkCall { call_seq : Z; reply : Rep; status : Z }.
Arguments mkCall {Rep}. Arguments call_seq {Rep}. Arguments reply {Rep}. Arguments status {Rep}.

Inductive line :=
| SeqMismatch (tx rx : Z) | RpcFailed (code : Z) | Received (cgroup_id value : Z)
| Printed (cgroup_id update_quota error_code seq : Z).

Section Queue.
Context {Rep : Type} (empty_reply : Rep) (ok_log : Call Rep → list line).

(** [live] are the allocated objects, [inflight] the calls gRPC works on, [cq]
    the completion queue, [unread] the calls whose caller has not read yet,
    [results] what callers read; [completed] and [freed] are history. *)
Record State := mkState {
  next : positive; live : gmap positive (Call Rep); inflight : gset positive; cq : list positive;
  unread : gset positive; results : list (positive * outcome (Call Rep)); log : list line;
  completed : gset positive; freed : Z;
}.
Definition initial : State := mkState 1 ∅ ∅ [] ∅ [] [] ∅ 0.

(** [new AsyncClientCall...; Prepare...; StartCall(); Finish(&reply, &status, call)] *)
Definition start_call (seq : Z) (st : State) : State :=
  let t := next st in
  mkState (Pos.succ t) (<[t := mkCall seq empty_reply 0]> (live st)) ({[t]} ∪ inflight st) (cq st)
    ({[t]} ∪ unread st) (results st) (log st) (completed st) (freed st).
(** gRPC stores the reply and the status and queues the tag. *)
Definition finish_call (t : positive) (rep : Rep) (code : Z) (st : State) : State :=
  mkState (next st) (alter (λ c, mkCall (call_seq c) rep code) t (live st)) (inflight st ∖ {[t]}) (cq st ++ [t])
    (unread st) (results st) (log st) ({[t]} ∪ completed st) (freed st).
(** The read that ends a call, of a deleted object if that is gone. *)
Definition read_call (t : positive) (st : State) : State :=
  let o := match live st !! t with Some c => Ok c | None => Fail Undef end in
  mkState (next st) (live st) (inflight st) (cq st) (unread st ∖ {[t]}) ((t, o) :: results st) (log st)
    (completed st) (freed st).
(** One iteration of a completion thread: [None] when it would touch a deleted
    object, [Blocked] while the queue is empty. *)
Definition reap : M State unit := λ st,
  match cq st with
  | [] => (Fail Blocked, st)
  | t :: q =>
      match live st !! t with
      | None => (Fail Undef, st)
      | Some c =>
          let lines := if status c =? 0 then ok_log c else [RpcFailed (status c)] in
          (Ok tt, mkState (next st) (delete t (live st)) (inflight st) q (unread st) (results st)
                    (lines ++ log st) (completed st) (freed st + 1))
      end
  end.

Inductive step : State → State → Prop :=
| step_start seq st : step st (start_call seq st)
| step_finish t rep code st : t ∈ inflight st → step st (finish_call t rep code st)
| step_read t st : t ∈ unread st → step st (read_call t st)
| step_reap st st' : reap st = (Ok tt, st') → step st st'.
Definition reachable : State → Prop := rtc step initial.

(** The objects are the calls under way and the queued ones, each queued once;
    a call is deleted only after it was completed. *)
Definition inv (st : State) : Prop :=
  dom (live st) = inflight st ∪ list_to_set (cq st) ∧ inflight st ## list_to_set (cq st) ∧ NoDup (cq st) ∧
  (∀ t, t ∈ dom (live st) ∪ unread st ∪ completed st → (t < next st)%positive) ∧
  (∀ t, t ∈ unread st → live st !! t = None → t ∈ completed st) ∧
  (∀ t c, live st !! t = Some c → t ∉ completed st → reply c = empty_reply ∧ status c = 0) ∧
  Z.pos (next st) - 1 = Z.of_nat (size (live st)) + freed st ∧
  (∀ t o, (t, o) ∈ results st → t ∈ completed st ∨ ∃ c, o = Ok c ∧ reply c = empty_reply ∧ status c = 0).

Lemma inv_initial : inv initial.
Proof.
  unfold inv, initial; simpl. split_and!; try done; first [set_solver|constructor].
Qed.
Lemma inv_start seq st : inv st → inv (start_call seq st).
Proof.
  intros (Hdom & Hdis & Hnd & Hlt & Hun & Hdef & Hn & Hres).
  assert (Hfresh : next st ∉ dom (live st) ∪ unread st ∪ completed st) by (intros ?%Hlt; lia).
  rewrite !not_elem_of_union in Hfresh. destruct Hfresh as [[Hl Hu] Hc].
  assert (Hcq : next st ∉ cq st) by set_solver.
  unfold inv; simpl. split_and!.
  - rewrite dom_insert_L. set_solver.
  - set_solver.
  - done.
  - intros t. rewrite dom_insert_L. intros Ht. destruct (decide (t = next st)) as [->|]; [lia|].
    assert ((t < next st)%positive) by (apply Hlt; set_solver). lia.
  - intros t Ht. rewrite lookup_insert. case_decide; [done|]. intros Hnone. apply Hun; [set_solver|done].
  - intros t c. rewrite lookup_insert. case_decide; [by intros [= <-]|]. by apply Hdef.
  - rewrite map_size_insert_None by (by apply not_elem_of_dom). lia.
  - exact Hres.
Qed.
Lemma inv_finish t rep code st : inv st → t ∈ inflight st → inv (finish_call t rep code st).
Proof.
  intros (Hdom & Hdis & Hnd & Hlt & Hun & Hdef & Hn & Hres) Ht.
  assert (Hcq : t ∉ cq st) by set_solver. assert (Hl : t ∈ dom (live st)) by set_solver.
  unfold inv; simpl. split_and!.
  - rewrite dom_alter_L, list_to_set_app_L, Hdom; simpl. apply set_eq. intros x.
    destruct (decide (x = t)); set_solver.
  - rewrite list_to_set_app_L; simpl. set_solver.
  - apply NoDup_app. split_and!; [done|set_solver|apply NoDup_singleton].
  - intros x. rewrite dom_alter_L. intros Hx. apply Hlt. set_solver.
  - intros x Hx. rewrite lookup_alter. case_decide as E.
    + subst. rewrite fmap_None. intros Hnone. set_solver.
    + intros Hnone. apply elem_of_union_r. by apply Hun.
  - intros x c. rewrite lookup_alter. case_decide as E.
    + subst. set_solver.
    + intros Hx Hnc. apply (Hdef x c Hx). set_solver.
  - rewrite <-size_dom, dom_alter_L, size_dom. done.
  - intros x o Hin. destruct (Hres x o Hin); [left; set_solver|by right].
Qed.
Lemma inv_read t st : inv st → t ∈ unread st → inv (read_call t st).
Proof.
  intros (Hdom & Hdis & Hnd & Hlt & Hun & Hdef & Hn & Hres) Ht. unfold inv; simpl. split_and!; try done.
  - intros x Hx. apply Hlt. set_solver.
  - intros x Hx. apply Hun. set_solver.
  - intros x o [[= -> ->]|Hin]%elem_of_cons; [|by apply Hres].
    destruct (decide (t ∈ completed st)); [by left|right].
    destruct (live st !! t) as [c|] eqn:E; [|by apply Hun in E]. exists c. split; [done|]. by apply (Hdef t).
Qed.
Lemma reap_spec st : inv st → cq st ≠ [] →
  ∃ t q c, cq st = t :: q ∧ live st !! t = Some c ∧
    reap st = (Ok tt, mkState (next st) (delete t (live st)) (inflight st) q (unread st) (results st)
      ((if status c =? 0 then ok_log c else [RpcFailed (status c)]) ++ log st) (completed st) (freed st + 1)).
Proof.
  intros (Hdom & _) Hne. unfold reap. destruct (cq st) as [|t q] eqn:E; [done|].
  assert (t ∈ dom (live st)) as [c Hc]%elem_of_dom by set_solver. exists t, q, c. by rewrite Hc.
Qed.
(** A queued call has been completed. *)
Definition queued_completed (st : State) : Prop := ∀ t, t ∈ cq st → t ∈ completed st.
Lemma inv_reap st st' : inv st → queued_completed st → reap st = (Ok tt, st') → inv st'.
Proof.
  intros HI Hqc Hr. destruct (cq st) as [|t0 q0] eqn:E0; [by unfold reap in Hr; rewrite E0 in Hr|].
  destruct (reap_spec st HI) as (t & q & c & E & Hc & Hrun); [congruence|]. rewrite Hrun in Hr. injection Hr as <-.
  assert (Htc : t ∈ completed st) by (apply Hqc; rewrite E; left).
  destruct HI as (Hdom & Hdis & Hnd & Hlt & Hun & Hdef & Hn & Hres). rewrite E in *. apply NoDup_cons in Hnd as [Htq Hnd].
  unfold inv; simpl in *. split_and!; try done.
  - rewrite dom_delete_L, Hdom. apply set_eq. intros x. destruct (decide (x = t)); set_solver.
  - set_solver.
  - intros x Hx. rewrite dom_delete_L in Hx. apply Hlt. set_solver.
  - intros x Hx. rewrite lookup_delete. case_decide; [by subst|by apply Hun].
  - intros x d [_ Hx]%lookup_delete_Some. by apply Hdef.
  - rewrite map_size_delete_Some by eauto. assert (size (live st) ≠ 0%nat); [|lia].
    apply map_size_ne_0_lookup. eauto.
Qed.
Lemma reachable_inv st : reachable st → inv st ∧ queued_completed st.
Proof.
  unfold reachable. revert st. apply (rtc_ind_r (λ st, inv st ∧ queued_completed st)).
  { split; [apply inv_initial|intros t ?%not_elem_of_nil; done]. }
  intros st1 st2 _ Hstep [HI Hq]. destruct Hstep as [seq st|t rep code st Ht|t st Ht|st st' Hr].
  - split; [by apply inv_start|done].
  - split; [by apply inv_finish|]. intros x. simpl. rewrite elem_of_app, list_elem_of_singleton. set_solver.
  - split; [by apply inv_read|done].
  - split; [by eapply inv_reap|]. unfold reap in Hr. destruct (cq st) as [|t q] eqn:E; [done|].
    destruct (live st !! t); [|done]. injection Hr as <-. intros x Hx. apply Hq. rewrite E. by right.
Qed.
End Queue.
Arguments State : clear implicits.

(** ** The three kinds of calls *)
Definition empty_quota : ContainerQuotaReply := QuotaReply 0 0 0 0.
Definition empty_usage : ReadMemUsageReply := UsageReply 0 0.
Definition empty_limit : ReadMemLimitReply := LimitReply 0 0.
Definition AsyncCompleteRpcQuota : M (State ContainerQuotaReply) unit :=
  reap (λ call, if p_sequenceNum (reply call) =? call_seq call then []
                else [SeqMismatch (call_seq call) (p_sequenceNum (reply call))]).
Definition AsyncCompleteRpcGetMemUsageBytes : M (State ReadMemUsageReply) unit :=
  reap (λ call, [Received (u_cgroupId (reply call)) (u_memUsage (reply call))]).
Definition AsyncCompleteRpcGetMemLimitBytes : M (State ReadMemLimitReply) unit :=
  reap (λ call, [Received (l_cgroupId (reply call)) (l_memLimit (reply call))]).

(** What the callers return, from the object they read. *)
Definition updateContainerQuota_return (o : outcome (Call ContainerQuotaReply)) : outcome Z :=
  match o with Ok call => Ok (i32 (status call)) | Fail f => Fail f end.
Definition getMemoryUsageBytes (o : outcome (Call ReadMemUsageReply)) : outcome Z :=
  match o with Ok call => Ok (i64 (u_memUsage (reply call))) | Fail f => Fail f end.
Definition getMemoryLimitBytes (o : outcome (Call ReadMemLimitReply)) : outcome Z :=
  match o with Ok call => Ok (i64 (l_memLimit (reply call))) | Fail f => Fail f end.

(** C28: in every interleaving of callers, gRPC and the completion thread, the
    thread never touches a deleted object. While the queue is empty it waits;
    otherwise the first call of the queue is alive and completed, and an
    iteration takes it from the queue, logs what the kind of call logs for an ok
    status and the failure with its code for any other, and deletes the object,
    which is then neither alive nor queued. The objects ever allocated are those
    alive and those deleted, so each is deleted at most once; when no call is
    under way or queued nothing is leaked. *)
Theorem completion_thread_safe {Rep : Type} (empty_reply : Rep) (ok_log : Call Rep → list line) (st : State Rep)
    (H : reachable empty_reply ok_log st) :
  (match cq st with
  | [] => reap ok_log st = (Fail Blocked, st)
  | t :: q =>
      ∃ c st', live st !! t = Some c ∧ t ∈ completed st ∧ reap ok_log st = (Ok tt, st') ∧
        live st' = delete t (live st) ∧ cq st' = q ∧ (t ∉ q) ∧ freed st' = freed st + 1 ∧
        (status c = 0 → log st' = ok_log c ++ log st) ∧
        (status c ≠ 0 → log st' = RpcFailed (status c) :: log st) ∧
        inflight st' = inflight st ∧ unread st' = unread st ∧ results st' = results st
  end) ∧
  Z.pos (next st) - 1 = Z.of_nat (size (live st)) + freed st ∧
  (inflight st = ∅ → cq st = [] → live st = ∅).
Proof.
  destruct (reachable_inv empty_reply ok_log st H) as [HI Hqc]. split_and!.
  - destruct (cq st) as [|t0 q0] eqn:E0; [unfold reap; by rewrite E0|].
    destruct (reap_spec empty_reply ok_log st HI) as (t & q & c & E & Hc & Hr); [congruence|].
    rewrite E0 in E. injection E as -> ->. exists c. eexists. split; [exact Hc|]. split; [apply Hqc; rewrite E0; left|].
    split; [exact Hr|]. destruct HI as (_ & _ & Hnd & _). rewrite E0 in Hnd. apply NoDup_cons in Hnd as [Hnd _]. simpl.
    split_and!; try done; intros Hst; [by rewrite (proj2 (Z.eqb_eq _ _) Hst)|by rewrite (proj2 (Z.eqb_neq _ _) Hst)].
  - apply HI.
  - intros Hi Hq. apply dom_empty_inv_L. rewrite (proj1 HI), Hi, Hq. set_solver.
Qed.

(** What a caller finds in the call object is what [Agents.quota_read] stands
    for: nothing if the object is gone, its status otherwise, and a status of 0
    as long as the call was not completed. *)
Theorem quota_call_reads (env : Env) (ok_log : Call ContainerQuotaReply → list line) (st : State ContainerQuotaReply)
    (t : positive) (ac : AgentClient.AgentClient) (cgroup_id new_quota : Z) (change : string) (seq_num : Z)
    (tr : list event) (H : reachable empty_quota ok_log st)
    (Hread : quota_read tr (AgentClient.get_agent_ip ac) (QuotaReq (i32 cgroup_id) new_quota change (i32 seq_num)) =
      status <$> live st !! t) :
  let o := (AgentClient.updateContainerQuota ac cgroup_id new_quota change seq_num tr).1 in
  results (read_call t st) = (t, match live st !! t with Some c => Ok c | None => Fail Undef end) :: results st ∧
  o = updateContainerQuota_return (match live st !! t with Some c => Ok c | None => Fail Undef end) ∧
  (t ∈ unread st → t ∉ completed st → o = Ok 0).
Proof.
  cbv zeta. split; [done|].
  unfold AgentClient.updateContainerQuota, mbind, M_bind, modify, gets, id. cbv beta iota. rewrite Hread.
  destruct (reachable_inv empty_quota ok_log st H) as [(_ & _ & _ & _ & Hun & Hdef & _) _].
  destruct (live st !! t) as [c|] eqn:E; simpl; (split; [done|]).
  - intros _ Hc. destruct (Hdef t c E Hc) as [_ ->]. done.
  - intros Hu Hc. by destruct (Hc (Hun t Hu E)).
Qed.

(** A call to an agent reads its result when it has only just been started:
    in every interleaving a caller whose call had not been completed returns 0,
    whether it asks for a status, a usage or a limit, and no reply can be told
    from that; and one whose call was completed may read an object the
    completion thread has deleted already. *)
Theorem caller_races_completion :
  (∀ ok_log st t o, reachable empty_quota ok_log st → (t, o) ∈ results st → t ∉ completed st →
     updateContainerQuota_return o = Ok 0) ∧
  (∀ ok_log st t o, reachable empty_usage ok_log st → (t, o) ∈ results st → t ∉ completed st →
     getMemoryUsageBytes o = Ok 0) ∧
  (∀ ok_log st t o, reachable empty_limit ok_log st → (t, o) ∈ results st → t ∉ completed st →
     getMemoryLimitBytes o = Ok 0) ∧
  (∃ st, reachable empty_quota (λ _, []) st ∧ (1%positive, Fail Undef) ∈ results st).
Proof.
  split_and!.
  - intros ok_log st t o [HI _]%reachable_inv Hin Hc. destruct HI as (_&_&_&_&_&_&_&Hres).
    destruct (Hres _ _ Hin) as [|(c & -> & _ & Hs)]; [done|]. simpl. by rewrite Hs.
  - intros ok_log st t o [HI _]%reachable_inv Hin Hc. destruct HI as (_&_&_&_&_&_&_&Hres).
    destruct (Hres _ _ Hin) as [|(c & -> & Hr & _)]; [done|]. simpl. by rewrite Hr.
  - intros ok_log st t o [HI _]%reachable_inv Hin Hc. destruct HI as (_&_&_&_&_&_&_&Hres).
    destruct (Hres _ _ Hin) as [|(c & -> & Hr & _)]; [done|]. simpl. by rewrite Hr.
  - set (st1 := start_call empty_quota 7 initial).
    set (st2 := finish_call 1 (QuotaReply 0 0 0 7) 0 st1).
    destruct (reap (λ _, []) st2) as [o st3] eqn:E.
    exists (read_call 1 st3). split.
    + eapply rtc_l; [apply (step_start _ _ 7)|]. eapply rtc_l; [apply (step_finish _ _ 1 (QuotaReply 0 0 0 7) 0)|].
      { by vm_compute. }
      eapply rtc_l; [apply step_reap|].
      { fold st1 st2. rewrite E. f_equal. revert E. vm_compute. by intros [= <- <-]. }
      eapply rtc_l; [apply (step_read _ _ 1)|done]. revert E. vm_compute. by intros [= _ <-].
    + revert E. vm_compute. intros [= _ <-]. left.
Qed.
(** A call whose reply has the wrong sequence number. *)
Definition mismatch_state : State ContainerQuotaReply :=
  finish_call 1 (QuotaReply 7 0 0 8) 0 (start_call empty_quota 7 initial).
Lemma completion_thread_safe_witness :
  ∃ st', AsyncCompleteRpcQuota mismatch_state = (Ok tt, st') ∧ live st' = ∅ ∧ log st' = [SeqMismatch 7 8].
Proof.
  destruct (completion_thread_safe empty_quota (λ call, if p_sequenceNum (reply call) =? call_seq call then []
      else [SeqMismatch (call_seq call) (p_sequenceNum (reply call))]) mismatch_state) as (Hr & _).
  - eapply rtc_l; [apply (step_start _ _ 7)|]. eapply rtc_l; [apply (step_finish _ _ 1 (QuotaReply 7 0 0 8) 0)|done].
    by vm_compute.
  - destruct Hr as (c & st' & Hc & _ & Hrun & Hl & _ & _ & _ & Hok & _). exists st'. split; [exact Hrun|].
    vm_compute in Hc. injection Hc as <-. rewrite Hl, Hok by done. by vm_compute.
Defined.
End AgentAsync.
