(* ===== verification/JSONFacade.v ===== *)
(** * The JSON facade ([src/jsonSDK/])

    [json] reads the application's definition file and keeps what it says,
    builds the definition of a pod, sends HTTP requests and picks values out of
    the responses of Kubernetes and cAdvisor. The static map [_specs] is part of
    the state of an object: all objects of a process share one. *)
From stdpp Require Import pretty.
From S2P Require Import Prelude OmNet Json Agents.

Module JSONFacade.
Section Facade.
Context {J : WebJson}.

Record json := mkJson {
  _val : value; _app_name : string; _app_images : list string; _agent_ips : list string;
  _pod_names : list string; _gcm_ip : string; _num_tenants : Z; _num_containers : Z;
  _specs : gmap string Z;
}.
(** A new object; the two integers are not initialised. *)
Definition json_of (garbage_tenants garbage_containers : Z) (specs : gmap string Z) : json :=
  mkJson null "" [] [] [] "" garbage_tenants garbage_containers specs.

Definition with_val v j := mkJson v (_app_name j) (_app_images j) (_agent_ips j) (_pod_names j) (_gcm_ip j)
  (_num_tenants j) (_num_containers j) (_specs j).
Definition with_app_name s j := mkJson (_val j) s (_app_images j) (_agent_ips j) (_pod_names j) (_gcm_ip j)
  (_num_tenants j) (_num_containers j) (_specs j).
Definition push_image s j := mkJson (_val j) (_app_name j) (_app_images j ++ [s]) (_agent_ips j) (_pod_names j)
  (_gcm_ip j) (_num_tenants j) (_num_containers j) (_specs j).
Definition push_agent_ip s j := mkJson (_val j) (_app_name j) (_app_images j) (_agent_ips j ++ [s]) (_pod_names j)
  (_gcm_ip j) (_num_tenants j) (_num_containers j) (_specs j).
Definition push_pod_name s j := mkJson (_val j) (_app_name j) (_app_images j) (_agent_ips j) (_pod_names j ++ [s])
  (_gcm_ip j) (_num_tenants j) (_num_containers j) (_specs j).
Definition with_gcm_ip s j := mkJson (_val j) (_app_name j) (_app_images j) (_agent_ips j) (_pod_names j) s
  (_num_tenants j) (_num_containers j) (_specs j).
Definition with_num_tenants n j := mkJson (_val j) (_app_name j) (_app_images j) (_agent_ips j) (_pod_names j)
  (_gcm_ip j) n (_num_containers j) (_specs j).
Definition with_num_containers n j := mkJson (_val j) (_app_name j) (_app_images j) (_agent_ips j) (_pod_names j)
  (_gcm_ip j) (_num_tenants j) n (_specs j).
Definition with_specs m j := mkJson (_val j) (_app_name j) (_app_images j) (_agent_ips j) (_pod_names j)
  (_gcm_ip j) (_num_tenants j) (_num_containers j) m.

(** ** The definition file *)

(** [if(_val.is_null()) return; x = f(_val.at(key)); ...] *)
Definition member {A} (key : string) (conv : value → option A) (store : A → M json unit) : M json unit :=
  v ← gets _val;
  if is_null v then mret tt else
  a ← throws (at_ v key ≫= conv);
  store a.
(** [for(i : array) push_back(i.as_string())]: what was read before an element
    that is not a string stays. *)
Definition push_all (push : string → json → json) (l : list value) : M json unit :=
  mfor l (λ v, s ← throws (as_string v); modify (push s)).

Definition parseAppName : M json unit := member "name" as_string (λ s, modify (with_app_name s)).
Definition parseAppImages : M json unit := member "images" as_array (push_all push_image).
Definition parseIPAddresses : M json unit := member "agentIPs" as_array (push_all push_agent_ip).
Definition parseNumTenants : M json unit := member "tenants" as_integer (λ n, modify (with_num_tenants n)).
Definition parseNumContainers : M json unit :=
  member "num_containers" as_integer (λ n, modify (with_num_containers n)).
Definition parsePodNames : M json unit := member "pod-names" as_array (push_all push_pod_name).
Definition parseGCMIPAddress : M json unit := member "gcmIP" as_string (λ s, modify (with_gcm_ip s)).
(** [unordered_map::insert] keeps an entry that is there already. *)
Definition insert_spec (k : string) (n : Z) (j : json) : json :=
  match _specs j !! k with Some _ => j | None => with_specs (<[k := u64 n]> (_specs j)) j end.
Definition parseSpecs : M json unit :=
  v ← gets _val;
  l ← throws (at_ v "specs" ≫= as_object);
  mfor l (λ kv, n ← throws (as_integer kv.2); modify (insert_spec kv.1 n)).

(** A file that cannot be opened leaves the stream empty. *)
Definition parseFile (content : option string) : M json Z :=
  try_or_error (
    v ← throws (parse (default "" content));
    modify (with_val v) ;;
    parseAppName ;; parseIPAddresses ;; parseGCMIPAddress ;; parseNumTenants ;; parseNumContainers).

Definition getAppName := _app_name.
Definition getAppImages := _app_images.
Definition getAgentIPs := _agent_ips.
Definition getPodNames := _pod_names.
Definition getGCMIP := _gcm_ip.
Definition getNumTenants := _num_tenants.
Definition getNumContainers := _num_containers.
Definition get_mem (j : json) : Z := default 0 (_specs j !! "mem").
Definition get_cpu (j : json) : Z := default 0 (_specs j !! "cpu").
Definition get_ports (j : json) : Z := default 0 (_specs j !! "ports").
Definition get_net (j : json) : Z := default 0 (_specs j !! "net").

(** ** The definition of a pod *)

(** [v[k] = x], one after the other. *)
Fixpoint set_fields (v : value) (l : list (string * value)) : option value :=
  match l with
  | [] => Some v
  | (k, x) :: l => v' ← set_field v k x; set_fields v' l
  end.
(** [_specs.find(k)->second] dereferences the end iterator when there is no
    such entry. *)
Definition spec (k : string) (specs : gmap string Z) : outcome Z :=
  match specs !! k with Some n => Ok n | None => Fail Undef end.
Definition thrown {A} (o : option A) : outcome A := match o with Some a => Ok a | None => Fail Throw end.
Definition set_pod_limits (cont : value) (specs : gmap string Z) : outcome value :=
  match spec "cpu" specs, spec "mem" specs with
  | Ok cpu_, Ok mem_ =>
      let cpu_lim := (pretty cpu_ +:+ "m")%string in
      let mem := (pretty mem_ +:+ "Mi")%string in
      thrown (
        requests ← set_fields null [("memory", string_ mem)];
        limits ← set_fields null [("cpu", string_ cpu_lim); ("memory", string_ mem)];
        resources ← set_fields null [("requests", requests); ("limits", limits)];
        set_field cont "resources" resources)
  | Fail f, _ | _, Fail f => Fail f
  end.
Definition createJSONPodDef (app_name app_image pod_name : string) (specs : gmap string Z) : outcome string :=
  match
    (pod ← set_fields null [("kind", string_ "Pod"); ("apiVersion", string_ "v1")];
     metadata ← set_fields null [("namespace", string_ "default"); ("name", string_ pod_name)];
     metadata_label ← set_fields null [("name", string_ pod_name)];
     metadata ← set_field metadata "labels" metadata_label;
     pod ← set_field pod "metadata" metadata;
     cont1 ← set_fields null [("name", string_ pod_name); ("image", string_ app_image)];
     Some (pod, cont1))
  with
  | None => Fail Throw
  | Some (pod, cont1) =>
      match set_pod_limits cont1 specs with
      | Fail f => Fail f
      | Ok cont1 => thrown (
          cont1_port ← set_fields null [("containerPort", number_ 80)];
          ports ← set_index null 0 cont1_port;
          cont1 ← set_field cont1 "ports" ports;
          containers ← set_index null 0 cont1;
          cont ← set_fields null [("containers", containers)];
          pod ← set_field pod "spec" cont;
          Some (serialize pod))
      end
  end.

(** ** Values in responses *)

(** [at(k1).at(k2)...] *)
Definition path (ks : list string) (v : value) : option value := foldl (λ o k, o ≫= λ v, at_ v k) (Some v) ks.
Section Responses.
Context {S : Type}.

Definition getNodesFromResponse (jsonResp : string) (resultNodes : list string) : M S (list string) :=
  jsonResponse ← throws (parse jsonResp);
  node_array ← throws (path ["spec"; "nodeName"] jsonResponse ≫= as_string);
  mret (resultNodes ++ [node_array]).
(** The body of the loop: an entry of another type leaves [tmp_ip]. *)
Definition node_address (tmp_ip : string) (i : value) : M S string :=
  type ← throws (at_ i "type" ≫= as_string);
  if bool_decide (type = "InternalIP") then throws (at_ i "address" ≫= as_string) else mret tmp_ip.
Definition getNodeIPFromResponse (jsonResp tmp_ip : string) : M S string :=
  jsonResponse ← throws (parse jsonResp);
  jsonval ← throws (path ["status"; "addresses"] jsonResponse ≫= as_array);
  mfold node_address tmp_ip jsonval.
Definition getPodStatusFromResponse (jsonResp : string) : M S string :=
  jsonResponse ← throws (parse jsonResp);
  throws (path ["status"; "phase"] jsonResponse ≫= as_string).

(** [as_object().cbegin()->second]; the begin of an empty object is its end. *)
Definition first_field (v : value) : M S value :=
  l ← throws (as_object v);
  match l with (_, x) :: _ => mret x | [] => stop Undef end.
(** [as_array().at(len-1)] *)
Definition last_item (v : value) : M S value :=
  l ← throws (as_array v);
  throws (last l).
Definition to_uint64 (o : option value) : M S Z :=
  z ← throws (o ≫= as_uint64);
  mret (u64 z).
Definition parseCAdvisorResponseSpecs (jsonResp resource type : string) : M S Z :=
  jsonResponse ← throws (parse jsonResp);
  k ← first_field jsonResponse;
  to_uint64 (path ["spec"; resource; type] k).
Definition parseCAdvisorCPUResponseStats (jsonResp resource type : string) : M S Z :=
  jsonResponse ← throws (parse jsonResp);
  k ← first_field jsonResponse;
  stats ← throws (at_ k "stats");
  last_ ← last_item stats;
  to_uint64 (path [resource; "cfs"; type] last_).
Definition parseCAdvisorResponseStats (jsonResp resource type : string) : M S Z :=
  jsonResponse ← throws (parse jsonResp);
  k ← first_field jsonResponse;
  stats ← throws (at_ k "stats");
  last_ ← last_item stats;
  to_uint64 (path [resource; type] last_).
Definition parseCAdvisorMachineStats (jsonResp type : string) : M S Z :=
  jsonResponse ← throws (parse jsonResp);
  to_uint64 (path [type] jsonResponse).
End Responses.

End Facade.

(** ** Requests *)
Section Requests.
Context {ENV : Env}.

(** The value the two continuations leave in [json_return]: null when the
    request, or reading the body as JSON, raises an [http_exception] or the
    status is not OK; any other exception leaves through [wait()]. *)
Definition json_return (r : http_result) : outcome value :=
  match r with
  | UriException => Fail Throw
  | RequestFailed HttpException => Ok null
  | RequestFailed OtherException => Fail Throw
  | Response status json _ =>
      if status =? status_OK then
        match json with
        | Extracted v => Ok v
        | Raised HttpException => Ok null
        | Raised OtherException => Fail Throw
        end
      else Ok null
  end.
(** Nothing is sent when the client rejects the address. *)
Definition sent (r : http_result) (e : event) : list event → list event :=
  match r with UriException => id | _ => cons e end.
Definition getJSONRequest (urlRequest : string) : M (list event) string :=
  tr ← gets id;
  let r := http_get tr urlRequest in
  modify (sent r (EvGet urlRequest)) ;;
  match json_return r with
  | Ok v => mret (if is_null v then "" else serialize v)
  | Fail f => stop f
  end.

Lemma run_getJSONRequest url tr :
  getJSONRequest url tr =
  (match json_return (http_get tr url) with
   | Ok v => Ok (if is_null v then "" else serialize v) | Fail f => Fail f end,
   sent (http_get tr url) (EvGet url) tr).
Proof.
  unfold getJSONRequest, mbind, M_bind, gets, modify; simpl. by destruct (json_return _).
Qed.

(** Any exception while the response is read leaves null; the status is not
    looked at. *)
Definition post_return (r : http_result) : outcome value :=
  match r with
  | UriException => Fail Throw
  | RequestFailed _ => Ok null
  | Response _ (Extracted v) _ => Ok v
  | Response _ (Raised _) _ => Ok null
  end.
Definition postJSONRequest (url jsonRequest : string) : M (list event) string :=
  jsonRequestVal ← throws (parse jsonRequest);
  tr ← gets id;
  let r := http_post tr url jsonRequestVal in
  modify (sent r (EvPost url (serialize jsonRequestVal))) ;;
  match post_return r with
  | Ok v => mret (serialize v)
  | Fail f => stop f
  end.

(** The text of the body; [jsonResp] is unchanged after an [http_exception]. *)
Definition getStringResponseFromURL (urlRequest jsonResp : string) : M (list event) string :=
  tr ← gets id;
  let r := http_get tr urlRequest in
  modify (sent r (EvGet urlRequest)) ;;
  match r with
  | Response _ _ (Extracted s) => mret s
  | RequestFailed HttpException | Response _ _ (Raised HttpException) => mret jsonResp
  | _ => stop Throw
  end.
End Requests.

(** ** Lemmas *)
Section Laws.
Context {J : WebJson} {L : WebJsonLaws J}.

(** [v] is an object whose fields are given by [f]. *)
Definition obj (v : value) (f : string → option value) : Prop :=
  ∃ l, as_object v = Some l ∧ ∀ k, field k l = f k.
Lemma obj_at v f k : obj v f → at_ v k = f k.
Proof. intros (l & Hl & Hf). by rewrite (law_at v k l Hl). Qed.
Lemma obj_set v f k x : obj v f →
  ∃ v', set_field v k x = Some v' ∧ obj v' (λ k', if decide (k' = k) then Some x else f k').
Proof.
  intros (l & Hl & Hf). destruct (law_set v l k x Hl) as (v' & l' & ? & ? & Hf'). exists v'. split; [done|].
  exists l'. split; [done|]. intros k'. by rewrite Hf', Hf.
Qed.
Lemma obj_null k x : ∃ v', set_field null k x = Some v' ∧ obj v' (λ k', if decide (k' = k) then Some x else None).
Proof.
  destruct (law_set_null k x) as (v & ? & ?). exists v. split; [done|]. eexists. split; [done|].
  intros k'. unfold field; simpl. destruct (decide (k = k')), (decide (k' = k)); congruence || done.
Qed.
End Laws.

(** Carries out the assignments to field [k] of an object that is known. *)
Ltac assign k v Hv :=
  let E := fresh "E" in
  match goal with
  | |- context [ set_field null k ?x ] => destruct (obj_null k x) as (v & E & Hv)
  | H : obj ?u _ |- context [ set_field ?u k ?x ] => destruct (obj_set u _ k x H) as (v & E & Hv)
  end; rewrite E; clear E; cbn [mbind option_bind].

Section Claims.
Context {J : WebJson} {L : WebJsonLaws J}.

(** The string at a path. *)
Definition text_at (ks : list string) (v : value) : option string := path ks v ≫= as_string.
Lemma text_at_string v f k s : obj v f → f k = Some (string_ s) → text_at [k] v = Some s.
Proof. intros Hv Hf. unfold text_at, path; simpl. rewrite (obj_at v f k Hv), Hf. apply law_string. Qed.
Lemma path_cons k ks v : path (k :: ks) v = at_ v k ≫= path ks.
Proof.
  unfold path; simpl. destruct (at_ v k) as [u|]; [done|]. simpl. by induction ks.
Qed.
Lemma path_obj v f k u ks : obj v f → f k = Some u → path (k :: ks) v = path ks u.
Proof. intros Hv Hf. by rewrite path_cons, (obj_at v f k Hv), Hf. Qed.
Lemma text_at_cons v f k u ks s : obj v f → f k = Some u → text_at ks u = Some s → text_at (k :: ks) v = Some s.
Proof. intros Hv Hf Hu. unfold text_at. by rewrite (path_obj v f k u). Qed.

(** What the limits of a pod say. *)
Definition limited (cpu_ mem_ : Z) (cont : value) : Prop :=
  text_at ["resources"; "limits"; "cpu"] cont = Some (pretty cpu_ +:+ "m")%string ∧
  text_at ["resources"; "limits"; "memory"] cont = Some (pretty mem_ +:+ "Mi")%string ∧
  text_at ["resources"; "requests"; "memory"] cont = Some (pretty mem_ +:+ "Mi")%string.
Lemma set_pod_limits_spec cont f specs cpu_ mem_ :
  obj cont f → specs !! "cpu" = Some cpu_ → specs !! "mem" = Some mem_ →
  ∃ cont' g, set_pod_limits cont specs = Ok cont' ∧ obj cont' g ∧
    (∀ k, k ≠ "resources" → g k = f k) ∧
    ∃ r, g "resources" = Some r ∧ ∀ v h, obj v h → h "resources" = Some r → limited cpu_ mem_ v.
Proof.
  intros Hc Hcpu Hmem. unfold set_pod_limits, spec, set_fields. rewrite Hcpu, Hmem.
  assign "memory" requests Hreq. assign "cpu" l1 Hl1. assign "memory" limits Hl. assign "requests" r1 Hr1.
  assign "limits" resources Hr. assign "resources" cont' Hc'.
  eexists cont', _. split; [done|]. split; [exact Hc'|]. split.
  { intros k Hk. by rewrite decide_False. }
  exists resources. split; [done|]. intros v h Hv Hh.
  split_and!; (eapply text_at_cons; [exact Hv|exact Hh|]).
  - eapply text_at_cons; [exact Hr|done|]. by eapply text_at_string.
  - eapply text_at_cons; [exact Hr|done|]. by eapply text_at_string.
  - eapply text_at_cons; [exact Hr|done|]. by eapply text_at_string.
Qed.

Lemma pod_definition_spec (app_name app_image pod_name : string) (specs : gmap string Z) (cpu_ mem_ : Z)
    (Hcpu : specs !! "cpu" = Some cpu_) (Hmem : specs !! "mem" = Some mem_) :
  ∃ text pod cont port, createJSONPodDef app_name app_image pod_name specs = Ok text ∧ parse text = Some pod ∧
    text_at ["kind"] pod = Some "Pod" ∧ text_at ["apiVersion"] pod = Some "v1" ∧
    text_at ["metadata"; "namespace"] pod = Some "default" ∧ text_at ["metadata"; "name"] pod = Some pod_name ∧
    text_at ["metadata"; "labels"; "name"] pod = Some pod_name ∧
    path ["spec"; "containers"] pod ≫= as_array = Some [cont] ∧
    text_at ["name"] cont = Some pod_name ∧ text_at ["image"] cont = Some app_image ∧
    limited cpu_ mem_ cont ∧
    at_ cont "ports" ≫= as_array = Some [port] ∧ at_ port "containerPort" ≫= as_integer = Some 80.
Proof.
  unfold createJSONPodDef, set_fields.
  assign "kind" p1 Hp1. assign "apiVersion" p2 Hp2. assign "namespace" m1 Hm1. assign "name" lab Hlab.
  assign "name" m2 Hm2. assign "labels" m3 Hm3. assign "metadata" p3 Hp3. assign "image" c2 Hc2.
  destruct (set_pod_limits_spec c2 _ specs cpu_ mem_ Hc2 Hcpu Hmem) as (c3 & g & -> & Hc3 & Hg & r & Hr & Hlim).
  assign "containerPort" port Hport. destruct (law_set_index port) as (ports & -> & Hports). cbn [mbind option_bind].
  assign "ports" c4 Hc4. destruct (law_set_index c4) as (conts & -> & Hconts). cbn [mbind option_bind].
  assign "containers" sp Hsp. assign "spec" pod Hpod. exists (serialize pod), pod, c4, port.
  split; [done|]. split; [apply law_parse|].
  assert (Hmeta : ∀ ks s, text_at ks m3 = Some s → text_at ("metadata" :: ks) pod = Some s).
  { intros. by eapply text_at_cons; [exact Hpod|reflexivity|]. }
  split_and!.
  - by eapply text_at_string.
  - by eapply text_at_string.
  - apply Hmeta. by eapply text_at_string.
  - apply Hmeta. by eapply text_at_string.
  - apply Hmeta. eapply text_at_cons; [exact Hm3|reflexivity|]. by eapply text_at_string.
  - rewrite (path_obj pod _ "spec" sp _ Hpod eq_refl), (path_obj sp _ "containers" conts _ Hsp eq_refl). exact Hconts.
  - eapply text_at_string; [exact Hc4|]. cbn. by rewrite Hg.
  - eapply text_at_string; [exact Hc4|]. cbn. by rewrite Hg.
  - eapply Hlim; [exact Hc4|]. exact Hr.
  - rewrite (obj_at _ _ _ Hc4). exact Hports.
  - rewrite (obj_at _ _ _ Hport). by apply law_number.
Qed.

(** Without a CPU or memory specification the end iterator is dereferenced. *)
Lemma pod_definition_undefined app_name app_image pod_name specs :
  specs !! "cpu" = None ∨ specs !! "mem" = None → createJSONPodDef app_name app_image pod_name specs = Fail Undef.
Proof.
  intros Hnone. unfold createJSONPodDef, set_fields.
  assign "kind" p1 Hp1. assign "apiVersion" p2 Hp2. assign "namespace" m1 Hm1. assign "name" lab Hlab.
  assign "name" m2 Hm2. assign "labels" m3 Hm3. assign "metadata" p3 Hp3. assign "image" c2 Hc2.
  unfold set_pod_limits, spec. by destruct Hnone as [->| ->]; destruct (specs !! "cpu").
Qed.

(** C26: where both the CPU and the memory of the specifications are set, the
    text built for a pod is a JSON document that reads back with every value
    where Kubernetes looks for it: the kind and version, the pod's name three
    times, the image, the CPU limit in millicores, the memory limit and request
    in MiB, and the port 80 of the only container. Where one of them is not set,
    building it is undefined behaviour; [parseFile] sets neither. *)
Theorem pod_definition_reads_back (app_name app_image pod_name : string) (specs : gmap string Z) :
  match specs !! "cpu", specs !! "mem" with
  | Some cpu_, Some mem_ =>
      ∃ text pod cont port, createJSONPodDef app_name app_image pod_name specs = Ok text ∧ parse text = Some pod ∧
        text_at ["kind"] pod = Some "Pod" ∧ text_at ["apiVersion"] pod = Some "v1" ∧
        text_at ["metadata"; "namespace"] pod = Some "default" ∧ text_at ["metadata"; "name"] pod = Some pod_name ∧
        text_at ["metadata"; "labels"; "name"] pod = Some pod_name ∧
        path ["spec"; "containers"] pod ≫= as_array = Some [cont] ∧
        text_at ["name"] cont = Some pod_name ∧ text_at ["image"] cont = Some app_image ∧
        limited cpu_ mem_ cont ∧
        at_ cont "ports" ≫= as_array = Some [port] ∧ at_ port "containerPort" ≫= as_integer = Some 80
  | _, _ => createJSONPodDef app_name app_image pod_name specs = Fail Undef
  end.
Proof.
  destruct (specs !! "cpu") as [c|] eqn:Ec, (specs !! "mem") as [m|] eqn:Em; try (apply pod_definition_undefined; by auto).
  by apply pod_definition_spec.
Qed.

(** ** The definition file *)

(** What a definition file says: name, agents, address, tenants, containers. *)
Definition definition_of (v : value) : option (string * list string * string * Z * Z) :=
  name ← (at_ v "name" ≫= as_string);
  l ← (at_ v "agentIPs" ≫= as_array);
  ips ← mapM as_string l;
  gcm ← (at_ v "gcmIP" ≫= as_string);
  tenants ← (at_ v "tenants" ≫= as_integer);
  containers ← (at_ v "num_containers" ≫= as_integer);
  Some (name, ips, gcm, tenants, containers).

Lemma push_all_cons push v l j :
  push_all push (v :: l) j =
  match as_string v with Some s => push_all push l (push s j) | None => (Fail Throw, j) end.
Proof. unfold push_all; simpl. unfold mbind at 1 2, M_bind. by destruct (as_string v). Qed.
Lemma push_all_ips l j :
  match mapM as_string l with
  | Some ss => push_all push_agent_ip l j =
      (Ok tt, mkJson (_val j) (_app_name j) (_app_images j) (_agent_ips j ++ ss) (_pod_names j) (_gcm_ip j)
                (_num_tenants j) (_num_containers j) (_specs j))
  | None => ∃ j', push_all push_agent_ip l j = (Fail Throw, j') ∧ _specs j' = _specs j
  end.
Proof.
  revert j. induction l as [|v l IH]; intros j; [simpl; rewrite app_nil_r; by destruct j|].
  rewrite push_all_cons. cbn [mapM]. destruct (as_string v) as [s|]; cbn [mbind option_bind]; [|by exists j].
  specialize (IH (push_agent_ip s j)). destruct (mapM as_string l) as [ss|]; cbn [mbind option_bind mret option_ret].
  - rewrite IH. simpl. by rewrite <-app_assoc.
  - exact IH.
Qed.

(** A member that is present and has the right type is stored. *)
Lemma run_member {A} key (conv : value → option A) store j :
  is_null (_val j) = false →
  member key conv store j = match at_ (_val j) key ≫= conv with Some a => store a j | None => (Fail Throw, j) end.
Proof.
  intros Hn. unfold member, mbind at 1, M_bind, gets. rewrite Hn. unfold mbind at 1, M_bind.
  by destruct (at_ (_val j) key ≫= conv).
Qed.
Lemma run_member_null {A} key (conv : value → option A) store j :
  is_null (_val j) = true → member key conv store j = (Ok tt, j).
Proof. intros Hn. unfold member, mbind, M_bind, gets. by rewrite Hn. Qed.

(** What reading [content] into [j] comes to. *)
Definition file_read (content : option string) (j : json) (r : Z) (j' : json) : Prop :=
  match parse (default "" content) with
  | None => r = -1 ∧ j' = j
  | Some v =>
      if is_null v then r = 0 ∧ j' = with_val v j
      else match definition_of v with
      | None => r = -1
      | Some (name, ips, gcm, tenants, containers) => r = 0 ∧
          j' = mkJson v name (_app_images j) (_agent_ips j ++ ips) (_pod_names j) gcm tenants containers (_specs j)
      end
  end.
Lemma run_parseFile content j :
  ∃ r j', parseFile content j = (Ok r, j') ∧ _specs j' = _specs j ∧ file_read content j r j'.
Proof.
  unfold file_read, parseFile, try_or_error, mbind at 1, M_bind at 1.
  destruct (parse (default "" content)) as [v|]; simpl; [|by exists (-1), j].
  unfold mbind at 1, M_bind at 1, modify. destruct (is_null v) eqn:Hn.
  { exists 0, (with_val v j). unfold parseAppName, parseIPAddresses, parseGCMIPAddress, parseNumTenants,
      parseNumContainers, mbind, M_bind. by rewrite !run_member_null. }
  unfold definition_of, parseAppName, parseIPAddresses, parseGCMIPAddress, parseNumTenants, parseNumContainers.
  unfold mbind at 1 2 3 4, M_bind. rewrite run_member by done. simpl.
  destruct (at_ v "name" ≫= as_string) as [name|]; simpl; [|by eexists _, _].
  unfold modify at 1. rewrite run_member by done. simpl.
  destruct (at_ v "agentIPs" ≫= as_array) as [l|]; simpl; [|by eexists _, _].
  pose proof (push_all_ips l (with_app_name name (with_val v j))) as Hl.
  destruct (mapM as_string l) as [ips|]; simpl; [rewrite Hl|destruct Hl as (j' & -> & ?); by eexists _, _].
  rewrite run_member by done. simpl.
  destruct (at_ v "gcmIP" ≫= as_string) as [gcm|]; simpl; [|by eexists _, _].
  unfold modify at 1. rewrite run_member by done. simpl.
  destruct (at_ v "tenants" ≫= as_integer) as [tn|]; simpl; [|by eexists _, _].
  unfold modify at 1. rewrite run_member by done. simpl.
  destruct (at_ v "num_containers" ≫= as_integer) as [nc|]; simpl; by eexists _, _.
Qed.

(** C25: reading a definition file never fails: it answers 0 or -1. It answers 0
    exactly when the text is a JSON document that is null or has the five
    members with the right types; then they are stored (the agents after those
    that were known) and nothing else changes. It never fills [_specs]. *)
Theorem parse_file_reads_definition (content : option string) (j : json) :
  ∃ r j', parseFile content j = (Ok r, j') ∧ _specs j' = _specs j ∧ file_read content j r j'.
Proof. apply run_parseFile. Qed.

(** [parseFile] does not read the member "specs", and the definition of a
    pod dereferences the end of the map when it has no entry for the CPU or the
    memory: in a process that only read its file, defining a pod is undefined
    behaviour, whatever the file says. *)
Theorem pod_definition_without_specs (content : option string) (j : json) (app_name app_image pod_name : string)
    (Hfresh : _specs j = ∅) :
  createJSONPodDef app_name app_image pod_name (_specs (parseFile content j).2) = Fail Undef.
Proof.
  destruct (run_parseFile content j) as (r & j' & -> & Hs & _). simpl. rewrite Hs, Hfresh.
  apply pod_definition_undefined. by left.
Qed.
End Claims.

(** ** Instances *)
Definition specs0 : gmap string Z := {[ "cpu" := 500; "mem" := 256 ]}.
Lemma pod_definition_reads_back_witness :
  ∃ text pod, createJSONPodDef (J := JsonText.text_json) "app" "nginx" "web" specs0 = Ok text ∧
    parse (WebJson := JsonText.text_json) text = Some pod ∧
    text_at (J := JsonText.text_json) ["metadata"; "name"] pod = Some "web".
Proof.
  destruct (pod_definition_reads_back (J := JsonText.text_json) (L := JsonText.text_json_laws)
    "app" "nginx" "web" specs0) as (text & pod & cont & port & Ht & Hp & _ & _ & _ & Hn & _).
  exists text, pod. split_and!; assumption.
Defined.
(** The definition of a small application, as text. *)
Definition definition0 : JsonText.json :=
  JsonText.JObj [(JsonText.chars "name", JsonText.JStr (JsonText.chars "app"));
    (JsonText.chars "agentIPs", JsonText.JArr [JsonText.JStr (JsonText.chars "192.168.6.1")]);
    (JsonText.chars "gcmIP", JsonText.JStr (JsonText.chars "192.168.6.10"));
    (JsonText.chars "tenants", JsonText.JNum 1); (JsonText.chars "num_containers", JsonText.JNum 3)].
Definition fresh0 : json (J := JsonText.text_json) := json_of (J := JsonText.text_json) 0 0 ∅.
Example definition0_read :
  let j := (parseFile (J := JsonText.text_json) (Some (JsonText.text definition0)) fresh0).2 in
  (getAppName j, getAgentIPs j, getGCMIP j, getNumTenants j, getNumContainers j) =
  ("app", ["192.168.6.1"], "192.168.6.10", 1, 3).
Proof. by vm_compute. Qed.
Lemma pod_definition_without_specs_witness :
  createJSONPodDef (J := JsonText.text_json) "app" "nginx" "web"
    (_specs (parseFile (J := JsonText.text_json) (Some (JsonText.text definition0)) fresh0).2) = Fail Undef.
Proof.
  apply (pod_definition_without_specs (J := JsonText.text_json) (L := JsonText.text_json_laws)). reflexivity.
Defined.
End JSONFacade.
