(* ===== verification/CAdvisor.v ===== *)
(** * Container statistics ([src/cAdvisorSDK/])

    The agent's node runs cAdvisor, which serves JSON over HTTP: the limits of a
    container and its latest usage. A node that cannot be reached, or answers
    with another status than OK, counts as 0. *)
From S2P Require Import Prelude OmNet Json Agents JSONFacade.
Import JSONFacade.

Module CAdvisor.
Section Facade.
Context {ENV : Env}.

Definition docker_url (agent_ip docker_container_id : string) : string :=
  ("http://" +:+ agent_ip +:+ ":8080/api/v1.3/docker/" +:+ docker_container_id)%string.
Definition machine_url (agent_ip : string) : string := ("http://" +:+ agent_ip +:+ ":8080/api/v1.3/machine")%string.

(** [std::string res; getJSONRequest(url, res); if (res.empty()) return 0;] *)
Definition fetch (url : string) (read : string → M (list event) Z) : M (list event) Z :=
  res ← getJSONRequest url;
  if bool_decide (res = "") then mret 0 else read res.

Definition getContCPUThrottledPeriods (agent_ip docker_container_id : string) : M (list event) Z :=
  fetch (docker_url agent_ip docker_container_id) (λ res, parseCAdvisorCPUResponseStats res "cpu" "throttled_periods").
Definition getContCPUQuota (agent_ip docker_container_id : string) : M (list event) Z :=
  fetch (docker_url agent_ip docker_container_id) (λ res, parseCAdvisorResponseSpecs res "cpu" "quota").
Definition getContCPUShares (agent_ip docker_container_id : string) : M (list event) Z :=
  fetch (docker_url agent_ip docker_container_id) (λ res, parseCAdvisorResponseSpecs res "cpu" "limit").
Definition getContMemLimit (agent_ip docker_container_id : string) : M (list event) Z :=
  fetch (docker_url agent_ip docker_container_id) (λ res, parseCAdvisorResponseSpecs res "memory" "limit").
Definition getContMemUsage (agent_ip docker_container_id : string) : M (list event) Z :=
  fetch (docker_url agent_ip docker_container_id) (λ res, parseCAdvisorResponseStats res "memory" "usage").
Definition getMachineFreeMem (agent_ip : string) : M (list event) Z :=
  fetch (machine_url agent_ip) (λ res, parseCAdvisorMachineStats res "memory_free").

(** Numbers are [uint64_t]. *)
Lemma usage_u64 agent_ip docker_id tr u tr' :
  getContMemUsage agent_ip docker_id tr = (Ok u, tr') → is_u64 u.
Proof.
  unfold getContMemUsage, fetch. rewrite run_bind. destruct (getJSONRequest _ tr) as [[res|f] t]; [|done].
  destruct (bool_decide (res = "")); [intros [= <- <-]; wrap_lia|].
  unfold parseCAdvisorResponseStats, to_uint64.
  repeat (rewrite run_bind; match goal with |- context [ match ?m ?s with _ => _ end ] => destruct (m s) as [[?|?] ?]; [|done] end).
  intros [= <- <-]. apply u64_is_u64.
Qed.

Lemma usage_unreachable {L : WebJsonLaws web_json} agent_ip docker_id tr :
  json_return (http_get tr (docker_url agent_ip docker_id)) = Ok null → (getContMemUsage agent_ip docker_id tr).1 = Ok 0.
Proof.
  intros H. unfold getContMemUsage, fetch. rewrite run_bind, run_getJSONRequest, H. cbn. by rewrite law_null.
Qed.

(** ** What the answers mean *)

(** The number at a path, and the reading of a container's description. *)
Definition number_at (ks : list string) (v : value) : option Z := n ← (path ks v ≫= as_uint64); Some (u64 n).
Definition described (v : value) (read : value → option Z) : outcome Z :=
  match as_object v with
  | None => Fail Throw
  | Some [] => Fail Undef
  | Some ((_, c) :: _) => thrown (read c)
  end.
Definition limit_in (v : value) : outcome Z := described v (number_at ["spec"; "memory"; "limit"]).
Definition latest (ks : list string) (c : value) : option Z :=
  stats ← (at_ c "stats" ≫= as_array);
  sample ← last stats;
  number_at ks sample.
Definition usage_in (v : value) : outcome Z := described v (latest ["memory"; "usage"]).
(** Nothing but an answer with status OK is read. *)
Definition answered (r : http_result) (read : value → outcome Z) : outcome Z :=
  match json_return r with
  | Ok v => if is_null v then Ok 0 else read v
  | Fail f => Fail f
  end.

Section Laws.
Context {L : WebJsonLaws web_json}.

Lemma run_fetch url read pick tr :
  (∀ v tr, read (serialize v) tr = (pick v, tr)) →
  fetch url read tr = (answered (http_get tr url) pick, sent (http_get tr url) (EvGet url) tr).
Proof.
  intros Hread. unfold fetch, answered. rewrite run_bind, run_getJSONRequest.
  destruct (json_return (http_get tr url)) as [v|f]; [|done].
  destruct (is_null v); [by rewrite bool_decide_true|]. rewrite bool_decide_false by apply law_nonempty. apply Hread.
Qed.
Lemma run_specs {S} v resource type (s : S) :
  parseCAdvisorResponseSpecs (serialize v) resource type s = (described v (number_at ["spec"; resource; type]), s).
Proof.
  unfold parseCAdvisorResponseSpecs, first_field, to_uint64, described, number_at.
  run. rewrite law_parse. run.
  destruct (as_object v) as [[|[k c] l]|]; simpl; [done| |done].
  run. by destruct (path _ c ≫= as_uint64).
Qed.
Lemma run_stats {S} v resource type (s : S) :
  parseCAdvisorResponseStats (serialize v) resource type s = (described v (latest [resource; type]), s).
Proof.
  unfold parseCAdvisorResponseStats, first_field, last_item, to_uint64, described, latest, number_at.
  run. rewrite law_parse. run.
  destruct (as_object v) as [[|[k c] l]|]; simpl; [done| |done].
  run. destruct (at_ c "stats") as [a|]; simpl; [|done].
  run. destruct (as_array a) as [ss|]; simpl; [|done].
  run. destruct (last ss) as [e|]; simpl; [|done].
  run. by destruct (path _ e ≫= as_uint64).
Qed.

(** What a query with the answer [r] to its request comes to, and what has been
    sent after it. *)
Definition reading (url : string) (tr : list event) (r : http_result) (pick : value → outcome Z) :
    outcome Z * list event :=
  match r with
  | UriException => (Fail Throw, tr)
  | RequestFailed HttpException => (Ok 0, EvGet url :: tr)
  | RequestFailed OtherException => (Fail Throw, EvGet url :: tr)
  | Response 200 (Raised OtherException) _ => (Fail Throw, EvGet url :: tr)
  | Response 200 (Raised HttpException) _ => (Ok 0, EvGet url :: tr)
  | Response 200 (Extracted v) _ => (if is_null v then Ok 0 else pick v, EvGet url :: tr)
  | Response _ _ _ => (Ok 0, EvGet url :: tr)
  end.
Lemma reading_eq url tr r pick : reading url tr r pick = (answered r pick, sent r (EvGet url) tr).
Proof.
  unfold reading, answered, json_return, sent, status_OK. destruct r as [|[]|status j t]; simpl; rewrite ?law_null; try done.
  destruct (Z.eqb_spec status 200) as [->|Hne].
  - destruct j as [v|[]]; simpl; rewrite ?law_null; try done.
  - rewrite law_null. repeat match goal with |- context [match ?x with _ => _ end] => is_var x; destruct x end; done.
Qed.

(** C27: a query for the memory limit or usage of a container sends one request
    to its node, unless the address is rejected, which throws and sends
    nothing. A request that fails with an [http_exception], a status other than
    200, a body whose extraction raises an [http_exception] and a null body give
    0; any other exception is passed on. Otherwise the limit is the number at
    [spec.memory.limit] of the first container described, the usage the one at
    [memory.usage] of its last sample; an answer of another shape throws, but an
    empty object is dereferenced, which is undefined. *)
Theorem cadvisor_reads_node (agent_ip docker_id : string) (tr : list event) :
  let url := docker_url agent_ip docker_id in
  getContMemLimit agent_ip docker_id tr = reading url tr (http_get tr url) limit_in ∧
  getContMemUsage agent_ip docker_id tr = reading url tr (http_get tr url) usage_in.
Proof.
  cbv zeta. rewrite !reading_eq. split; apply run_fetch; intros; [apply run_specs|apply run_stats].
Qed.
End Laws.
End Facade.

(** A node with one container of 1 GiB that uses 64 MiB. *)
Import JsonText (JNum, JArr, JObj, chars, text_json).
Definition one_node : Env := {|
  quota_read _ _ _ := Some 0; resize_completions _ _ _ := []; web_json := text_json;
  http_get _ _ := Response (J := text_json) 200 (Extracted (JObj [(chars "/docker/d7", JObj [
    (chars "spec", JObj [(chars "memory", JObj [(chars "limit", JNum 1073741824)])]);
    (chars "stats", JArr [JObj [(chars "memory", JObj [(chars "usage", JNum 67108864)])]])])])) (Raised HttpException);
  http_post _ _ _ := RequestFailed (J := text_json) HttpException;
|}.
Lemma cadvisor_reads_node_witness :
  let url := docker_url "10.0.0.1" "d7" in
  getContMemLimit (ENV := one_node) "10.0.0.1" "d7" [] = (Ok 1073741824, [EvGet url]) ∧
  getContMemUsage (ENV := one_node) "10.0.0.1" "d7" [] = (Ok 67108864, [EvGet url]).
Proof. exact (cadvisor_reads_node (ENV := one_node) (L := JsonText.text_json_laws) "10.0.0.1" "d7" []). Defined.
End CAdvisor.
