(* ===== verification/LegacyDeploy.v ===== *)
(** * The Kubernetes facade ([src/legacy/deploySDK/])

    Pods are created and looked up through a Kubernetes proxy on the local
    host. [Deploy] forwards to [k8Facade]; what the lookups return is appended to
    or stored in the caller's variables. *)
From S2P Require Import Prelude OmNet Json Agents JSONFacade.
Import JSONFacade.

Module k8Facade.
Section Facade.
Context {ENV : Env}.

Definition proxy : string := "http://localhost:8000/api/v1/".
Definition pods_url : string := (proxy +:+ "namespaces/default/pods")%string.
Definition pod_url (podName : string) : string := (pods_url +:+ "/" +:+ podName)%string.
Definition node_url (node : string) : string := (proxy +:+ "nodes/" +:+ node)%string.

Definition deployPod (jsonString : string) : M (list event) Z :=
  postJSONRequest pods_url jsonString ;;
  mret 0.
Definition getNodesWithPod (podName : string) (resultNodes : list string) : M (list event) (list string) :=
  res ← getJSONRequest (pod_url podName);
  getNodesFromResponse res resultNodes.
(** [tmp_ip] lives across the iterations. *)
Definition node_ip (acc : string * list string) (node : string) : M (list event) (string * list string) :=
  jsonResp ← getJSONRequest (node_url node);
  tmp_ip ← getNodeIPFromResponse jsonResp acc.1;
  mret (tmp_ip, if bool_decide (tmp_ip = "") then acc.2 else acc.2 ++ [tmp_ip]).
Definition getNodeIPs (nodeNames nodeIPs : list string) : M (list event) (list string) :=
  '(_, nodeIPs) ← mfold node_ip ("", nodeIPs) nodeNames;
  mret nodeIPs.
Definition getPodStatus (podName : string) : M (list event) string :=
  res ← getJSONRequest (pod_url podName);
  getPodStatusFromResponse res.
End Facade.
End k8Facade.

Module Deploy.
Section Facade.
Context {ENV : Env}.
Definition deployContainers (jsonString : string) : M (list event) Z :=
  status ← k8Facade.deployPod jsonString; mret status.
Definition getNodesWithContainer (containerName : string) (resultNodes : list string) : M (list event) (list string) :=
  k8Facade.getNodesWithPod containerName resultNodes.
Definition getNodeIPs (nodeNames nodeIPs : list string) : M (list event) (list string) :=
  k8Facade.getNodeIPs nodeNames nodeIPs.
Definition getContainerStatus (containerName : string) : M (list event) string :=
  k8Facade.getPodStatus containerName.
End Facade.
End Deploy.

(** ** What the lookups find *)
Module k8Theorems.
Import k8Facade.
Section Lookups.
Context {ENV : Env} {L : WebJsonLaws web_json}.

(** The internal address a node's description gives: its last one. *)
Definition address_of (i : value) : option (option string) :=
  type ← (at_ i "type" ≫= as_string);
  if bool_decide (type = "InternalIP") then Some <$> (at_ i "address" ≫= as_string) else Some None.
Definition internal_ip (v : value) : option (option string) :=
  l ← (path ["status"; "addresses"] v ≫= as_array);
  addrs ← mapM address_of l;
  Some (last (omap id addrs)).

Lemma run_node_address {S} ip i (s : S) :
  node_address ip i s = (match address_of i with Some a => Ok (default ip a) | None => Fail Throw end, s).
Proof.
  unfold node_address, address_of. run. destruct (at_ i "type" ≫= as_string) as [type|]; [|done].
  cbn [mbind option_bind]. destruct (bool_decide (type = "InternalIP")); [|done].
  run. by destruct (at_ i "address" ≫= as_string).
Qed.
Lemma run_addresses {S} l ip addrs (s : S) :
  mapM address_of l = Some addrs → mfold node_address ip l s = (Ok (default ip (last (omap id addrs))), s).
Proof.
  revert ip addrs. induction l as [|i l IH]; intros ip addrs; cbn [mapM mfold].
  { intros E. change (Some [] = Some addrs) in E. by injection E as <-. }
  rewrite run_bind, run_node_address. destruct (address_of i) as [a|]; cbn [mbind option_bind]; [|done].
  destruct (mapM address_of l) as [as_|]; cbn [mbind option_bind mret option_ret]; [|done]. intros [= <-]. rewrite (IH _ _ eq_refl). f_equal. f_equal.
  destruct a as [a|]; [|done]. change (omap id (Some a :: as_)) with (a :: omap id as_). rewrite last_cons. by destruct (last (omap id as_)).
Qed.
Lemma run_node_ip {S} v ip found (s : S) :
  internal_ip v = Some found → getNodeIPFromResponse (serialize v) ip s = (Ok (default ip found), s).
Proof.
  unfold internal_ip, getNodeIPFromResponse. intros H. run. rewrite law_parse. run.
  destruct (path ["status"; "addresses"] v ≫= as_array) as [l|]; simpl in *; [|done].
  destruct (mapM address_of l) as [addrs|] eqn:E; simpl in H; [|done]. injection H as <-. by apply run_addresses.
Qed.

(** The nodes whose descriptions are served: what each says about its internal
    address. *)
Definition serves (node : string) (found : option string) : Prop :=
  ∀ tr, ∃ v txt, http_get tr (node_url node) = Response status_OK (Extracted v) txt ∧ is_null v = false ∧
    internal_ip v = Some found.
(** The addresses the loop reports: a node without an internal address repeats
    the address of the node before it. *)
Fixpoint reported (tmp_ip : string) (found : list (option string)) : list string :=
  match found with
  | [] => []
  | f :: found => let ip := default tmp_ip f in (if bool_decide (ip = "") then [] else [ip]) ++ reported ip found
  end.
Lemma run_node_ips nodes found ip ips tr :
  Forall2 serves nodes found →
  ∃ ip' tr', mfold node_ip (ip, ips) nodes tr = (Ok (ip', ips ++ reported ip found), tr').
Proof.
  intros H. revert ip ips tr. induction H as [|node f nodes found Hn _ IH]; intros ip ips tr; simpl.
  { exists ip, tr. by rewrite app_nil_r. }
  rewrite run_bind. unfold node_ip at 1. destruct (Hn tr) as (v & txt & Hget & Hnull & Hip).
  rewrite run_bind, run_getJSONRequest, Hget. cbn [json_return]. change (status_OK =? status_OK) with true. cbv beta iota. rewrite Hnull.
  rewrite run_bind, (run_node_ip v _ f) by done. cbn [fst snd mret M_ret].
  edestruct (IH (default ip f)) as (ip' & tr' & Hrun). rewrite Hrun. exists ip', tr'. f_equal. f_equal. f_equal.
  destruct (bool_decide (default ip f = "")); [done|]. by rewrite <-app_assoc.
Qed.

(** The addresses returned for a list of nodes are the internal addresses
    their descriptions give; but a node without an internal address repeats the
    one before it, and only leading ones are left out, because the variable is
    not reset between nodes. *)
Theorem node_ips_repeat (nodes : list string) (found : list (option string)) (ips : list string) (tr : list event)
    (H : Forall2 serves nodes found) :
  ∃ tr', Deploy.getNodeIPs nodes ips tr = (Ok (ips ++ reported "" found), tr') ∧
    (Forall is_Some found → Forall (λ f, f ≠ Some "") found → reported "" found = omap id found).
Proof.
  destruct (run_node_ips nodes found "" ips tr H) as (ip' & tr' & Hrun). exists tr'. split.
  - unfold Deploy.getNodeIPs, k8Facade.getNodeIPs. rewrite run_bind, Hrun. done.
  - clear. enough (∀ ip, Forall is_Some found → Forall (λ f, f ≠ Some "") found → reported ip found = omap id found)
      by auto.
    induction found as [|f found IH]; intros ip Hs Hne; [done|].
    apply Forall_cons in Hs as [[a ->] Hs]. apply Forall_cons in Hne as [Ha Hne]. simpl.
    rewrite bool_decide_false by congruence. simpl. f_equal. by apply IH.
Qed.
End Lookups.

(** A node with an address, then one with only a host name. *)
Import JsonText (JNull, JArr, JObj, JStr, chars, text_json).
Definition address (type a : string) : JsonText.json := JObj [(chars "type", JStr (chars type)); (chars "address", JStr (chars a))].
Definition node_json (l : list JsonText.json) : JsonText.json :=
  JObj [(chars "status", JObj [(chars "addresses", JArr l)])].
Definition cluster : Env := {|
  quota_read _ _ _ := Some 0; resize_completions _ _ _ := []; web_json := text_json;
  http_get _ url := Response (J := text_json) 200
    (Extracted (node_json (if bool_decide (url = node_url "n1") then [address "InternalIP" "10.0.0.1"]
                           else [address "Hostname" "n2"]))) (Raised HttpException);
  http_post _ _ _ := RequestFailed (J := text_json) HttpException;
|}.
Lemma node_ips_repeat_witness :
  ∃ tr', Deploy.getNodeIPs (ENV := cluster) ["n1"; "n2"] [] [] = (Ok ["10.0.0.1"; "10.0.0.1"], tr').
Proof.
  destruct (node_ips_repeat (ENV := cluster) (L := JsonText.text_json_laws) ["n1"; "n2"]
    [Some "10.0.0.1"; None] [] []) as (tr' & Hrun & _).
  - repeat constructor; intros tr; eexists _, _; (split; [reflexivity|by vm_compute]).
  - exists tr'. exact Hrun.
Defined.
End k8Theorems.
