(* ===== verification/ElasticContainer.v ===== *)
(** * The elastic container ([src/ElasticContainer.{h,cpp}])

    The state of one application: the containers it consists of, the agent
    client of each, the fair CPU share and the two global pools. Containers
    with the same id are queued under one key, oldest first. A hash table is
    keyed by what [operator==] of [ContainerId] sees ([key_of]) and keeps the
    key object it was created with, docker id included. *)
From S2P Require Import Prelude OmNet SubContainer Agents CpuG MemG.
Import SubContainer.

(** Addresses of [SubContainer] objects. *)
Abbreviation loc := positive.

Module ElasticContainer.

Record ElasticContainer := mkEC {
  ec_id : Z;
  subcontainers : gmap key (ContainerId * list loc);
  sc_ac_map : gmap key (ContainerId * option AgentClient.AgentClient);
  fair_cpu_share : Z;
  _mem : mem_g.mem;
  _cpu : cpu_g.cpu;
}.

Definition ElasticContainer_of (_ec_id : Z) : ElasticContainer :=
  mkEC _ec_id ∅ ∅ 0 mem_g.mem_default cpu_g.cpu_default.

Definition with_subcontainers (m : gmap key (ContainerId * list loc)) (e : ElasticContainer) :=
  mkEC (ec_id e) m (sc_ac_map e) (fair_cpu_share e) (_mem e) (_cpu e).
Definition with_sc_ac_map (m : gmap key (ContainerId * option AgentClient.AgentClient)) (e : ElasticContainer) :=
  mkEC (ec_id e) (subcontainers e) m (fair_cpu_share e) (_mem e) (_cpu e).
Definition with_fair_cpu_share (z : Z) (e : ElasticContainer) :=
  mkEC (ec_id e) (subcontainers e) (sc_ac_map e) z (_mem e) (_cpu e).
Definition with_mem (m : mem_g.mem) (e : ElasticContainer) :=
  mkEC (ec_id e) (subcontainers e) (sc_ac_map e) (fair_cpu_share e) m (_cpu e).
Definition with_cpu (c : cpu_g.cpu) (e : ElasticContainer) :=
  mkEC (ec_id e) (subcontainers e) (sc_ac_map e) (fair_cpu_share e) (_mem e) c.

(** The second constructor assigns empty tables and ignores the clients. *)
Definition ElasticContainer_of_agents (_ec_id : Z) (_agent_clients : list AgentClient.AgentClient) : ElasticContainer :=
  with_sc_ac_map ∅ (with_subcontainers ∅ (ElasticContainer_of _ec_id)).

(** *** Getters *)
Definition get_ec_id (e : ElasticContainer) : Z := ec_id e.
Definition get_num_subcontainers (e : ElasticContainer) : Z := i32 (Z.of_nat (size (subcontainers e))).
Definition get_cpu_unallocated_rt (e : ElasticContainer) : Z := cpu_g.get_unallocated_rt (_cpu e).
Definition get_cpu_slice (e : ElasticContainer) : Z := cpu_g.get_slice (_cpu e).
Definition get_fair_cpu_share (e : ElasticContainer) : Z := fair_cpu_share e.
Definition get_overrun (e : ElasticContainer) : Z := cpu_g.get_overrun (_cpu e).
Definition get_total_cpu (e : ElasticContainer) : Z := cpu_g.get_total_cpu (_cpu e).
Definition get_alloc_rt (e : ElasticContainer) : Z := cpu_g.get_alloc_rt (_cpu e).
(** The pools are [int64_t], the getters return [uint64_t]. *)
Definition get_unallocated_memory_in_pages (e : ElasticContainer) : Z :=
  u64 (mem_g.get_unallocated_memory_in_pages (_mem e)).
Definition get_allocated_memory_in_pages (e : ElasticContainer) : Z :=
  u64 (mem_g.get_allocated_memory_in_pages (_mem e)).
Definition get_memory_slice (e : ElasticContainer) : Z := mem_g.get_slice_size (_mem e).
Definition get_mem_limit_in_pages (e : ElasticContainer) : Z := mem_g.get_mem_limit_in_pages (_mem e).

(** *** Setters *)
Definition on_cpu (f : cpu_g.cpu → cpu_g.cpu) (e : ElasticContainer) : ElasticContainer := with_cpu (f (_cpu e)) e.
Definition on_mem (f : mem_g.mem → mem_g.mem) (e : ElasticContainer) : ElasticContainer := with_mem (f (_mem e)) e.

Definition set_slice_size (z : Z) := on_cpu (cpu_g.set_slice_size z).
Definition incr_unallocated_rt (z : Z) := on_cpu (cpu_g.incr_unalloacted_rt z).
Definition decr_unallocated_rt (z : Z) := on_cpu (cpu_g.decr_unallocated_rt z).
Definition set_unallocated_rt (z : Z) := on_cpu (cpu_g.set_unallocated_rt z).
Definition incr_total_cpu (z : Z) := on_cpu (cpu_g.incr_total_cpu z).
Definition decr_total_cpu (z : Z) := on_cpu (cpu_g.decr_total_cpu z).
Definition incr_overrun (z : Z) := on_cpu (cpu_g.incr_overrun z).
Definition decr_overrun (z : Z) := on_cpu (cpu_g.decr_overrun z).
Definition set_overrun (z : Z) := on_cpu (cpu_g.set_overrun z).
Definition set_total_cpu (z : Z) := on_cpu (cpu_g.set_total_cpu z).
Definition incr_alloc_rt (z : Z) := on_cpu (cpu_g.incr_alloc_rt z).
Definition decr_alloc_rt (z : Z) := on_cpu (cpu_g.decr_alloc_rt z).

(** [int64_t] parameters of the wrappers receive converted [uint64_t]s. *)
Definition set_memory_limit_in_pages (z : Z) := on_mem (mem_g.set_memory_limit_in_pages (u64 (i64 z))).
Definition incr_memory_limit_in_pages (z : Z) := on_mem (mem_g.incr_memory_limit_in_pages z).
Definition decr_memory_limit_in_pages (z : Z) := on_mem (mem_g.decr_memory_limit_in_pages z).
Definition set_unalloc_memory_in_pages (z : Z) := on_mem (mem_g.set_unallocated_memory_in_pages (i64 z)).
Definition decr_unalloc_memory_in_pages (z : Z) := on_mem (mem_g.decr_unallocated_memory_in_pages z).
Definition incr_unalloc_memory_in_pages (z : Z) := on_mem (mem_g.incr_unallocated_memory_in_pages z).
Definition set_alloc_memory_in_pages (z : Z) := on_mem (mem_g.set_allocated_memory_in_pages (i64 z)).
Definition incr_alloc_memory_in_pages (z : Z) := on_mem (mem_g.incr_allocated_memory_in_pages (i64 z)).
Definition decr_alloc_memory_in_pages (z : Z) := on_mem (mem_g.decr_allocated_memory_in_pages (i64 z)).

(** [sc_ac_map.insert({id, client})]: an existing entry stays. *)
Definition add_to_sc_ac_map (id : ContainerId) (client : option AgentClient.AgentClient)
    (e : ElasticContainer) : ElasticContainer :=
  match sc_ac_map e !! key_of id with
  | Some _ => e
  | None => with_sc_ac_map (<[key_of id := (id, client)]> (sc_ac_map e)) e
  end.

(** *** Containers *)

(** [return sc_ac_map[container_id]]: a missing entry is created with a null
    client. *)
Definition get_corres_agent_client (container_id : ContainerId) (e : ElasticContainer) :
    option AgentClient.AgentClient * ElasticContainer :=
  match sc_ac_map e !! key_of container_id with
  | Some (_, ac) => (ac, e)
  | None => (None, with_sc_ac_map (<[key_of container_id := (container_id, None)]> (sc_ac_map e)) e)
  end.

Definition insert_sc (id : ContainerId) (_sc : loc) (e : ElasticContainer) : ElasticContainer :=
  match subcontainers e !! key_of id with
  | Some (k, q) => with_subcontainers (<[key_of id := (k, q ++ [_sc])]> (subcontainers e)) e
  | None => with_subcontainers (<[key_of id := (id, [_sc])]> (subcontainers e)) e
  end.

(** A missing key ends the process; [front]/[back] of an empty queue is
    undefined. *)
Definition get_subcontainer_front (container_id : ContainerId) (e : ElasticContainer) : outcome loc :=
  match subcontainers e !! key_of container_id with
  | None => Fail (Exit 1)
  | Some (_, q) => match head q with Some p => Ok p | None => Fail Undef end
  end.
Definition get_subcontainer_back (container_id : ContainerId) (e : ElasticContainer) : outcome loc :=
  match subcontainers e !! key_of container_id with
  | None => Fail (Exit 1)
  | Some (_, q) => match last q with Some p => Ok p | None => Fail Undef end
  end.
Definition get_sc_for_update_back (container_id : ContainerId) (e : ElasticContainer) : outcome loc :=
  match subcontainers e !! key_of container_id with
  | None => Fail (Exit 1)
  | Some (_, q) => match last q with Some p => Ok p | None => Fail Undef end
  end.

Definition update_fair_cpu_share (e : ElasticContainer) : ElasticContainer :=
  if (size (subcontainers e) =? 0)%nat
  then with_fair_cpu_share (get_total_cpu e) e
  else with_fair_cpu_share (get_total_cpu e / Z.of_nat (size (subcontainers e))) e.

(** The return value, the container object that is deleted (none when the
    queue held one container: its object stays allocated) and the new state. *)
Definition ec_delete_from_subcontainers_map (sc_id : ContainerId) (e : ElasticContainer) :
    Z * option loc * ElasticContainer :=
  match subcontainers e !! key_of sc_id with
  | Some (k, q) =>
      if (1 <? length q)%nat
      then (0, head q, with_subcontainers (<[key_of sc_id := (k, tail q)]> (subcontainers e)) e)
      else (0, None, with_subcontainers (delete (key_of sc_id) (subcontainers e)) e)
  | None => (-1, None, e)
  end.

(** ** Invariants *)

(** No queue is empty, keys sit where their id says, the pools are typed. *)
Definition wf (e : ElasticContainer) : Prop :=
  (∀ k id q, subcontainers e !! k = Some (id, q) → q ≠ [] ∧ key_of id = k) ∧
  (∀ k id ac, sc_ac_map e !! k = Some (id, ac) → key_of id = k) ∧
  cpu_g.wf (_cpu e) ∧ mem_g.wf (_mem e).

(** The queue of containers with a given id. *)
Definition queue_of (id : ContainerId) (e : ElasticContainer) : list loc :=
  match subcontainers e !! key_of id with Some (_, q) => q | None => [] end.

End ElasticContainer.

(** ** The abstract container table

    A multi-queue: for every key a list of containers, oldest first; no entry
    and an empty list are the same thing. *)
Module Table.
Definition table := SubContainer.key → list loc.
Definition empty : table := λ _, [].
Definition push (k : SubContainer.key) (p : loc) (t : table) : table :=
  λ k', if decide (k' = k) then t k' ++ [p] else t k'.
Definition pop (k : SubContainer.key) (t : table) : table :=
  λ k', if decide (k' = k) then tail (t k') else t k'.

(** What a table promises to the code that uses it. *)
Class Spec (S : Type) := {
  abs : S → table;
  ok : S → Prop;
  insert : ContainerId → loc → S → S;
  remove : ContainerId → S → Z * option loc * S;
  newest : ContainerId → S → outcome loc;
  oldest : ContainerId → S → outcome loc;
  insert_spec id p s : ok s → ok (insert id p s) ∧
    ∀ k, abs (insert id p s) k = push (key_of id) p (abs s) k;
  remove_spec id s : ok s → ok (remove id s).2 ∧
    (∀ k, abs (remove id s).2 k = pop (key_of id) (abs s) k) ∧
    (remove id s).1.1 = (if decide (abs s (key_of id) = []) then -1 else 0);
  newest_spec id s : ok s → newest id s =
    match last (abs s (key_of id)) with Some p => Ok p | None => Fail (Exit 1) end;
  oldest_spec id s : ok s → oldest id s =
    match head (abs s (key_of id)) with Some p => Ok p | None => Fail (Exit 1) end;
}.

(** Commands, what a client observes of each, and runs of a table and of its
    abstraction. *)
Inductive cmd := Ins (id : ContainerId) (p : loc) | Rem (id : ContainerId)
  | Newest (id : ContainerId) | Oldest (id : ContainerId).
Inductive reply := Done | Code (z : Z) | At (o : outcome loc).

Definition found (o : option loc) : reply :=
  At match o with Some p => Ok p | None => Fail (Exit 1) end.
Definition step_abs (c : cmd) (t : table) : reply * table :=
  match c with
  | Ins id p => (Done, push (key_of id) p t)
  | Rem id => (Code (if decide (t (key_of id) = []) then -1 else 0), pop (key_of id) t)
  | Newest id => (found (last (t (key_of id))), t)
  | Oldest id => (found (head (t (key_of id))), t)
  end.
Definition step {S} `{!Spec S} (c : cmd) (s : S) : reply * S :=
  match c with
  | Ins id p => (Done, insert id p s)
  | Rem id => let '(r, _, s') := remove id s in (Code r, s')
  | Newest id => (At (newest id s), s)
  | Oldest id => (At (oldest id s), s)
  end.
Fixpoint run {S} (st : cmd → S → reply * S) (cs : list cmd) (s : S) : list reply * S :=
  match cs with
  | [] => ([], s)
  | c :: cs => let '(r, s') := st c s in let '(rs, s'') := run st cs s' in (r :: rs, s'')
  end.

Section Refine.
Context {S : Type} `{!Spec S}.
Implicit Types (s : S) (t : table).

(** [s] implements [t]. *)
Definition implements s t : Prop := ok s ∧ ∀ k, abs s k = t k.

Lemma step_refines c s t :
  implements s t → (step c s).1 = (step_abs c t).1 ∧ implements (step c s).2 (step_abs c t).2.
Proof.
  intros [Hok Habs]. destruct c as [id p|id|id|id]; simpl.
  - destruct (insert_spec id p s Hok) as [? H]. split; [done|]. split; [done|].
    intros k. rewrite H. unfold push. by rewrite Habs.
  - destruct (remove_spec id s Hok) as (? & H & Hr). destruct (remove id s) as [[r f] s']; simpl in *.
    rewrite Habs in Hr. split; [by rewrite Hr|]. split; [done|].
    intros k. rewrite H. unfold pop. by rewrite Habs.
  - rewrite newest_spec by done. rewrite Habs. done.
  - rewrite oldest_spec by done. rewrite Habs. done.
Qed.
Lemma run_refines cs s t :
  implements s t →
  (run step cs s).1 = (run step_abs cs t).1 ∧ implements (run step cs s).2 (run step_abs cs t).2.
Proof.
  revert s t. induction cs as [|c cs IH]; intros s t H; simpl; [done|].
  destruct (step_refines c s t H) as [Hr Hi].
  destruct (step c s) as [r s'], (step_abs c t) as [r' t']; simpl in *. subst r'.
  destruct (IH s' t' Hi) as [Hrs ?].
  destruct (run step cs s'), (run step_abs cs t'); simpl in *. by subst.
Qed.
End Refine.
End Table.

(** ** The container map implements the table *)
Module EcTable.
Import ElasticContainer.

Definition queue_at (e : ElasticContainer) : Table.table :=
  λ k, match subcontainers e !! k with Some (_, q) => q | None => [] end.

Lemma queue_at_other k k' v m e :
  k' ≠ k → subcontainers e = m →
  queue_at (with_subcontainers (<[k := v]> m) e) k' = queue_at e k'.
Proof. intros ? <-. unfold queue_at; simpl. by rewrite lookup_insert_ne. Qed.
Lemma queue_at_here k id q m e :
  queue_at (with_subcontainers (<[k := (id, q)]> m) e) k = q.
Proof. unfold queue_at; simpl. by rewrite lookup_insert_eq. Qed.

Lemma wf_insert_queue e k id q :
  wf e → key_of id = k → q ≠ [] → wf (with_subcontainers (<[k := (id, q)]> (subcontainers e)) e).
Proof.
  intros (H1 & H2 & H3 & H4) Hk Hq. split_and!; simpl; try done.
  intros k' id' q'. rewrite lookup_insert. case_decide; [|by apply H1]. intros [=]. by subst.
Qed.
Lemma queue_nonempty e k id q : wf e → subcontainers e !! k = Some (id, q) → q ≠ [] ∧ key_of id = k.
Proof. intros H ?. by eapply H. Qed.

Lemma insert_sc_spec id p e :
  wf e → wf (insert_sc id p e) ∧
  ∀ k, queue_at (insert_sc id p e) k = Table.push (key_of id) p (queue_at e) k.
Proof.
  intros Hwf. unfold insert_sc.
  destruct (subcontainers e !! key_of id) as [[k0 q]|] eqn:E.
  - destruct (queue_nonempty _ _ _ _ Hwf E). split; [apply wf_insert_queue; [done..|by destruct q]|].
    intros k. unfold Table.push. case_decide; [subst k|by apply queue_at_other].
    rewrite queue_at_here. unfold queue_at. by rewrite E.
  - split; [by apply wf_insert_queue|].
    intros k. unfold Table.push. case_decide; [subst k|by apply queue_at_other].
    rewrite queue_at_here. unfold queue_at. by rewrite E.
Qed.

Lemma delete_sc_spec id e :
  wf e →
  let '(r, freed, e') := ec_delete_from_subcontainers_map id e in
  wf e' ∧ (∀ k, queue_at e' k = Table.pop (key_of id) (queue_at e) k) ∧
  r = (if decide (queue_at e (key_of id) = []) then -1 else 0) ∧
  freed = (if (1 <? length (queue_at e (key_of id)))%nat then head (queue_at e (key_of id)) else None).
Proof.
  intros Hwf. unfold ec_delete_from_subcontainers_map.
  assert (Hq : queue_at e (key_of id) =
    match subcontainers e !! key_of id with Some (_, q) => q | None => [] end) by done.
  destruct (subcontainers e !! key_of id) as [[k0 q]|] eqn:E; rewrite Hq.
  - destruct (queue_nonempty _ _ _ _ Hwf E). rewrite decide_False by done.
    destruct (Nat.ltb_spec 1 (length q)) as [Hl|Hl].
    + split_and!; try done.
      * apply wf_insert_queue; [done..|]. by destruct q as [|? [|]]; simpl in *; [lia..|].
      * intros k. unfold Table.pop. case_decide; [subst k|by apply queue_at_other].
        by rewrite queue_at_here, Hq.
    + split_and!; try done.
      * destruct Hwf as (H1 & ?). split; [|done]. intros k id' q' H'; simpl in H'.
        apply lookup_delete_Some in H' as [? ?]. by eapply H1.
      * intros k. unfold Table.pop, queue_at; simpl. case_decide.
        { subst k. rewrite lookup_delete_eq, E. by destruct q as [|? [|]]; simpl in *; try lia. }
        by rewrite lookup_delete_ne.
  - split_and!; try done. intros k. unfold Table.pop. case_decide; [|done]. by subst k; rewrite Hq.
Qed.

Lemma newest_sc_spec id e :
  wf e → get_sc_for_update_back id e =
  match last (queue_at e (key_of id)) with Some p => Ok p | None => Fail (Exit 1) end.
Proof.
  intros Hwf. unfold get_sc_for_update_back, queue_at.
  destruct (subcontainers e !! key_of id) as [[k0 q]|] eqn:E; [|done].
  destruct (queue_nonempty _ _ _ _ Hwf E). destruct (last q) eqn:El; [done|].
  by apply last_None in El.
Qed.
Lemma oldest_sc_spec id e :
  wf e → get_subcontainer_front id e =
  match head (queue_at e (key_of id)) with Some p => Ok p | None => Fail (Exit 1) end.
Proof.
  intros Hwf. unfold get_subcontainer_front, queue_at.
  destruct (subcontainers e !! key_of id) as [[k0 q]|] eqn:E; [|done].
  destruct (queue_nonempty _ _ _ _ Hwf E). by destruct q.
Qed.

#[global] Program Instance ec_table : Table.Spec ElasticContainer := {
  Table.abs := queue_at;
  Table.ok := wf;
  Table.insert := insert_sc;
  Table.remove := ec_delete_from_subcontainers_map;
  Table.newest := get_sc_for_update_back;
  Table.oldest := get_subcontainer_front;
  Table.insert_spec := insert_sc_spec;
  Table.newest_spec := newest_sc_spec;
  Table.oldest_spec := oldest_sc_spec;
}.
Next Obligation.
  intros id e Hwf. pose proof (delete_sc_spec id e Hwf) as H.
  destruct (ec_delete_from_subcontainers_map id e) as [[r f] e']; simpl. naive_solver.
Qed.

Lemma empty_wf i : wf (ElasticContainer_of i).
Proof.
  unfold wf, cpu_g.wf, mem_g.wf; simpl.
  split_and!; try wrap_lia; by intros k ? ?; rewrite lookup_empty.
Qed.

(** ** Claims *)

(** C21: the container map is a table of FIFO queues: for every sequence of
    insertions, deletions and lookups from an empty elastic container, each
    call answers what it answers on the abstract multi-queue (deletion removes
    the oldest container of the id and reports an unknown id with -1; lookups
    find the newest or the oldest, and end the process exactly when the id is
    unknown), no queue is left empty, and the final queues are the abstract
    ones. *)
Theorem subcontainers_refine_table (i : Z) (cs : list Table.cmd) :
  let '(rs, e) := Table.run Table.step cs (ElasticContainer_of i) in
  let '(rs', t) := Table.run Table.step_abs cs Table.empty in
  rs = rs' ∧ wf e ∧ ∀ k, queue_at e k = t k.
Proof.
  destruct (Table.run_refines cs (ElasticContainer_of i) Table.empty) as [Hr [? ?]].
  { split; [apply empty_wf|]. intros k. done. }
  destruct (Table.run Table.step cs (ElasticContainer_of i)), (Table.run Table.step_abs cs Table.empty).
  by simpl in *.
Qed.

(** Deleting a container deallocates an object only when the id had
    more than one: the object it deallocates is the oldest, and the last
    container of an id is dropped from the map without being deallocated. *)
Theorem delete_frees_all_but_last (id : ContainerId) (e : ElasticContainer) (Hwf : wf e) :
  (ec_delete_from_subcontainers_map id e).1.2 =
  match queue_of id e with p :: _ :: _ => Some p | _ => None end.
Proof.
  pose proof (delete_sc_spec id e Hwf) as H.
  destruct (ec_delete_from_subcontainers_map id e) as [[r f] e']; simpl.
  destruct H as (_ & _ & _ & ->). change (queue_of id e) with (queue_at e (key_of id)).
  by destruct (queue_at e (key_of id)) as [|? [|]].
Qed.
Lemma delete_frees_all_but_last_witness :
  (ec_delete_from_subcontainers_map (ContainerId_of 7 (Ip4 1))
     (insert_sc (ContainerId_of 7 (Ip4 1)) 2 (insert_sc (ContainerId_of 7 (Ip4 1)) 1 (ElasticContainer_of 1)))).1.2
  = Some 1%positive.
Proof.
  rewrite delete_frees_all_but_last; [vm_compute; reflexivity|].
  apply insert_sc_spec, insert_sc_spec, empty_wf.
Defined.

(** C36: the fair CPU share is the largest equal share: it can be handed to
    every container id without exceeding the total, and one more nanosecond
    each would exceed it; with no container it is the whole total. *)
Theorem fair_share_largest (e : ElasticContainer) :
  let e' := update_fair_cpu_share e in
  let n := Z.of_nat (size (subcontainers e)) in
  (n = 0 → fair_cpu_share e' = cpu_g.total_cpu (_cpu e)) ∧
  (0 < n → n * fair_cpu_share e' ≤ cpu_g.total_cpu (_cpu e) < n * (fair_cpu_share e' + 1)) ∧
  subcontainers e' = subcontainers e ∧ _cpu e' = _cpu e ∧ _mem e' = _mem e.
Proof.
  unfold update_fair_cpu_share. destruct (Nat.eqb_spec (size (subcontainers e)) 0) as [H|H];
    cbv zeta; split_and!; try done; simpl; intros; [lia..|].
  unfold get_total_cpu, cpu_g.get_total_cpu. Z.div_mod_to_equations. nia.
Qed.
Lemma fair_share_largest_witness :
  let e := update_fair_cpu_share (set_total_cpu 100 (insert_sc (ContainerId_of 7 (Ip4 1)) 1
             (insert_sc (ContainerId_of 8 (Ip4 1)) 1 (insert_sc (ContainerId_of 9 (Ip4 1)) 2 (ElasticContainer_of 1))))) in
  3 * fair_cpu_share e ≤ 100 < 3 * (fair_cpu_share e + 1).
Proof.
  pose proof (fair_share_largest (set_total_cpu 100 (insert_sc (ContainerId_of 7 (Ip4 1)) 1
    (insert_sc (ContainerId_of 8 (Ip4 1)) 1 (insert_sc (ContainerId_of 9 (Ip4 1)) 2 (ElasticContainer_of 1)))))) as H.
  vm_compute in H. vm_compute. apply H. reflexivity.
Defined.

End EcTable.
