(* ===== verification/World.v ===== *)
(** * The shared state of one manager

    Everything the handlers of a [Manager] read and write: the elastic
    container, the live [SubContainer] objects by address, the process-wide
    table of agent clients, the manager's own two counters and the requests
    sent so far. Containers are shared by address, so a handler that updates a
    container updates it for everyone. A handler is one computation on this
    state; [Conc] has the state of the threads around it.

    The second part states what the books of the controller promise: every
    queued container is alive and filed under its own id, and the pool
    balances; [drift] measures how far the allocated runtime is from the sum of
    the quotas of the queued containers. *)
From S2P Require Import Prelude OmNet Float64 Window LocalStats SubContainer Agents CpuG MemG.
From S2P Require Import ElasticContainer.
Import SubContainer ElasticContainer.

Record World := mkWorld {
  w_ec : ElasticContainer;
  w_heap : gmap loc SubContainer;
  w_acdb : AgentClientDB.db;
  syscall_sequence_number : Z;   (* int64_t *)
  cpuleak : Z;                   (* int64_t *)
  w_trace : list event;
}.

Definition upd_ec (e : ElasticContainer) (w : World) : World :=
  mkWorld e (w_heap w) (w_acdb w) (syscall_sequence_number w) (cpuleak w) (w_trace w).
Definition upd_heap (h : gmap loc SubContainer) (w : World) : World :=
  mkWorld (w_ec w) h (w_acdb w) (syscall_sequence_number w) (cpuleak w) (w_trace w).
Definition upd_seqno (z : Z) (w : World) : World :=
  mkWorld (w_ec w) (w_heap w) (w_acdb w) z (cpuleak w) (w_trace w).
Definition upd_cpuleak (z : Z) (w : World) : World :=
  mkWorld (w_ec w) (w_heap w) (w_acdb w) (syscall_sequence_number w) z (w_trace w).
Definition upd_trace (t : list event) (w : World) : World :=
  mkWorld (w_ec w) (w_heap w) (w_acdb w) (syscall_sequence_number w) (cpuleak w) t.
Definition upd_sc (p : loc) (s : SubContainer) (w : World) : World := upd_heap (<[p := s]> (w_heap w)) w.

(** ** Access to the shared objects *)

(** Reading or writing through a pointer; a dangling pointer is undefined
    behaviour. *)
Definition load (p : loc) : M World SubContainer := λ w,
  match w_heap w !! p with Some s => (Ok s, w) | None => (Fail Undef, w) end.
Definition sc_get {A} (p : loc) (f : SubContainer → A) : M World A := s ← load p; mret (f s).
Definition sc_do (p : loc) (f : SubContainer → SubContainer) : M World unit :=
  s ← load p; modify (upd_sc p (f s)).
Definition ec_get {A} (f : ElasticContainer → A) : M World A := gets (λ w, f (w_ec w)).
Definition ec_do (f : ElasticContainer → ElasticContainer) : M World unit :=
  modify (λ w, upd_ec (f (w_ec w)) w).
(** A lookup that may end the process. *)
Definition ec_find {A} (f : ElasticContainer → outcome A) : M World A := λ w, (f (w_ec w), w).
(** A lookup that may also change the container ([operator[]] of a map). *)
Definition ec_run {A} (f : ElasticContainer → A * ElasticContainer) : M World A := λ w,
  let '(a, e) := f (w_ec w) in (Ok a, upd_ec e w).
(** A request to the outside. *)
Definition rpc {A} (m : M (list event) A) : M World A := λ w,
  let '(o, t) := m (w_trace w) in (o, upd_trace t w).
(** [new SubContainer(...)] *)
Definition new_sc (s : SubContainer) : M World loc := λ w,
  let p := fresh (dom (w_heap w)) in (Ok p, upd_sc p s w).
(** [delete p] *)
Definition free_sc (p : loc) : M World unit :=
  load p ;; modify (λ w, upd_heap (delete p (w_heap w)) w).
(** A value that undefined behaviour may prevent. *)
Definition defined {A} (o : option A) : M World A :=
  match o with Some a => mret a | None => stop Undef end.

(** The order in which a hash table is traversed is not specified: any order
    of its entries. A walk that starts on table [m] while others change it meets
    the keys of [order m] that are in the table when it gets there; besides those
    of [m] these may be keys inserted on the way. [rehashed m m']: an insertion
    has made the table grow between [m] and [m'], which invalidates iterators. *)
Class HashOrder := {
  iter {A} : gmap key A → list (key * A);
  iter_perm {A} (m : gmap key A) : iter m ≡ₚ map_to_list m;
  order {A} : gmap key A → list key;
  order_iter {A} (m : gmap key A) : omap (λ k, pair k <$> m !! k) (order m) = iter m;
  rehashed {A} : gmap key A → gmap key A → bool;
  rehashed_same {A} (m : gmap key A) : rehashed m m = false;
}.
(** For instance the order of the map's own list. *)
Lemma list_order {A} (m : gmap key A) : omap (λ k, pair k <$> m !! k) (map_to_list m).*1 = map_to_list m.
Proof.
  assert (H : ∀ l : list (key * A), (∀ kv, kv ∈ l → m !! kv.1 = Some kv.2) → omap (λ k, pair k <$> m !! k) l.*1 = l).
  { induction l as [|[k a] l IH]; intros Hl; [done|]. simpl. pose proof (Hl (k, a) (list_elem_of_here _ _)) as E.
    simpl in E. rewrite E. simpl. f_equal. apply IH. intros kv Hkv. apply Hl. by right. }
  apply H. intros [k a]. apply elem_of_map_to_list.
Qed.

Section WorldRules.
Implicit Types (w : World) (F : failure → World → Prop).

Lemma wp_load p s Q F w : w_heap w !! p = Some s → wp (load p) Q F w = Q s w.
Proof. unfold wp, load. by intros ->. Qed.
Lemma wp_sc_get {A} p (f : SubContainer → A) s Q F w :
  w_heap w !! p = Some s → wp (sc_get p f) Q F w = Q (f s) w.
Proof. intros. unfold sc_get. by rewrite wp_bind, (wp_load _ s). Qed.
Lemma wp_sc_do p f s Q F w :
  w_heap w !! p = Some s → wp (sc_do p f) Q F w = Q tt (upd_sc p (f s) w).
Proof. intros. unfold sc_do. by rewrite wp_bind, (wp_load _ s). Qed.
Lemma wp_ec_get {A} (f : ElasticContainer → A) Q F w : wp (ec_get f) Q F w = Q (f (w_ec w)) w.
Proof. done. Qed.
Lemma wp_ec_do f Q F w : wp (ec_do f) Q F w = Q tt (upd_ec (f (w_ec w)) w).
Proof. done. Qed.
Lemma wp_defined {A} (o : option A) Q F w :
  wp (defined o) Q F w = match o with Some a => Q a w | None => F Undef w end.
Proof. by destruct o. Qed.
Lemma upd_sc_lookup p s w : w_heap (upd_sc p s w) !! p = Some s.
Proof. apply lookup_insert_eq. Qed.
End WorldRules.

(** [ww] pushes [wp] through the accesses to the shared state; a container
    that was just written is found again. *)
Ltac ww_step :=
  first [ wp_step | rewrite wp_ec_get | rewrite wp_ec_do
        | erewrite wp_sc_get by (first [eassumption | apply upd_sc_lookup])
        | erewrite wp_sc_do by (first [eassumption | apply upd_sc_lookup])
        | erewrite wp_load by (first [eassumption | apply upd_sc_lookup]) ].
Ltac ww := repeat (ww_step; cbv beta).

(** ** The queued containers *)

Definition queued (m : gmap key (ContainerId * list loc)) : list loc :=
  map_to_list m ≫= λ kv, kv.2.2.
Definition quota_at (h : gmap loc SubContainer) (p : loc) : Z :=
  match h !! p with Some s => get_quota s | None => 0 end.
Definition quotas (m : gmap key (ContainerId * list loc)) (h : gmap loc SubContainer) : Z :=
  zsum (quota_at h) (queued m).

(** Every queued container is alive, is filed once and under its own id, and
    its fields are in range. *)
Definition heap_ok (m : gmap key (ContainerId * list loc)) (h : gmap loc SubContainer) : Prop :=
  NoDup (queued m) ∧
  ∀ k id q p, m !! k = Some (id, q) → p ∈ q →
    ∃ s, h !! p = Some s ∧ key_of (c_id s) = k ∧ cpu_l.wf (cpu s).

Lemma elem_of_queued m p : p ∈ queued m ↔ ∃ k id q, m !! k = Some (id, q) ∧ p ∈ q.
Proof.
  unfold queued. rewrite list_elem_of_bind. split.
  - intros ([k [id q]] & Hp & Hm). exists k, id, q. by apply elem_of_map_to_list in Hm.
  - intros (k & id & q & Hm & Hp). exists (k, (id, q)). by rewrite elem_of_map_to_list.
Qed.
Lemma queued_insert m k id q :
  m !! k = None → queued (<[k := (id, q)]> m) ≡ₚ q ++ queued m.
Proof. intros H. unfold queued. by rewrite map_to_list_insert. Qed.
Lemma queued_lookup m k id q :
  m !! k = Some (id, q) → queued m ≡ₚ q ++ queued (delete k m).
Proof.
  intros H. rewrite <-(insert_delete_id m k (id, q)) at 1 by done.
  apply queued_insert. apply lookup_delete_eq.
Qed.
Lemma queued_replace m k id q id' q' :
  m !! k = Some (id, q) → queued (<[k := (id', q')]> m) ≡ₚ q' ++ queued (delete k m).
Proof.
  intros H. rewrite <-insert_delete_eq. apply queued_insert. apply lookup_delete_eq.
Qed.

Lemma zsum_update {A} (f g : A → Z) (l : list A) (a : A) :
  NoDup l → a ∈ l → (∀ b, b ≠ a → g b = f b) → zsum g l = zsum f l + (g a - f a).
Proof.
  intros Hnd Hin Hfg. apply list_elem_of_split in Hin as (l1 & l2 & ->).
  rewrite !zsum_app; simpl.
  apply NoDup_app in Hnd as (_ & H1 & [H2 _]%NoDup_cons).
  rewrite (zsum_ext g f l1), (zsum_ext g f l2); [lia| |].
  - intros b Hb. apply Hfg. by intros ->.
  - intros b Hb. apply Hfg. intros ->. apply (H1 a Hb). left.
Qed.

Lemma quotas_update m h p s s' :
  NoDup (queued m) → p ∈ queued m → h !! p = Some s →
  quotas m (<[p := s']> h) = quotas m h + (get_quota s' - get_quota s).
Proof.
  intros Hnd Hp Hs. unfold quotas.
  rewrite (zsum_update (quota_at h) _ _ p Hnd Hp).
  - unfold quota_at. by rewrite lookup_insert_eq, Hs.
  - intros b Hb. unfold quota_at. by rewrite lookup_insert_ne.
Qed.
Lemma quotas_fresh m h p s :
  p ∉ queued m → quotas m (<[p := s]> h) = quotas m h.
Proof.
  intros Hp. apply zsum_ext. intros b Hb. unfold quota_at.
  rewrite lookup_insert_ne; [done|]. intros ->. done.
Qed.
Lemma quota_le_quotas m h p s :
  heap_ok m h → p ∈ queued m → h !! p = Some s → 0 ≤ get_quota s ≤ quotas m h.
Proof.
  intros [Hnd Hok] Hp Hs.
  assert (Hpos : ∀ a, a ∈ queued m → 0 ≤ quota_at h a).
  { intros a (k & id & q & Hm & Ha)%elem_of_queued.
    destruct (Hok k id q a Hm Ha) as (s' & Hs' & _ & (? & _)).
    unfold quota_at, get_quota, cpu_l.get_quota. rewrite Hs'. wrap_lia. }
  assert (Hq : quota_at h p = get_quota s) by (unfold quota_at; by rewrite Hs).
  pose proof (Hpos p Hp). apply list_elem_of_split in Hp as (l1 & l2 & Hl).
  unfold quotas. rewrite Hl in *. rewrite zsum_app; simpl.
  assert (0 ≤ zsum (quota_at h) l1) by (apply zsum_nonneg; intros; apply Hpos; set_solver).
  assert (0 ≤ zsum (quota_at h) l2) by (apply zsum_nonneg; intros; apply Hpos; set_solver).
  lia.
Qed.
Lemma heap_ok_update m h p s s' :
  heap_ok m h → h !! p = Some s → key_of (c_id s') = key_of (c_id s) → cpu_l.wf (cpu s') →
  heap_ok m (<[p := s']> h).
Proof.
  intros [Hnd Hok] Hs Hc Hw. split; [done|]. intros k id q p' Hm Hp'.
  destruct (Hok k id q p' Hm Hp') as (s0 & Hs0 & ? & ?).
  rewrite lookup_insert. case_decide; [|by exists s0]. subst p'.
  exists s'. split_and!; [done| |done]. rewrite Hc. congruence.
Qed.

(** ** The books *)

Definition pool (w : World) : cpu_g.cpu := _cpu (w_ec w).

(** How far the allocated runtime is from the sum of the quotas. *)
Definition drift (w : World) : Z :=
  cpu_g.alloc_rt (pool w) - quotas (subcontainers (w_ec w)) (w_heap w).

(** The invariant of the handlers: the tables and the pool are well formed, the
    queued containers are alive, and the pool balances: what is allocated and
    what is free is what there is plus what was lent. *)
Definition Inv (w : World) : Prop :=
  wf (w_ec w) ∧ heap_ok (subcontainers (w_ec w)) (w_heap w) ∧ cpu_g.imbalance (pool w) = 0.

(** The range in which the theorems are stated: below 2^52 ns (52 days) of
    runtime per period all conversions between [uint64_t], [int64_t] and
    [double] are exact. *)
Definition small_pool (w : World) : Prop :=
  cpu_g.total_cpu (pool w) + cpu_g.overrun (pool w) < 4503599627370496.

Lemma inv_pool w : Inv w → cpu_g.wf (pool w).
Proof. by intros ((_ & _ & ? & _) & _). Qed.

(** The counters of a balanced small pool. *)
Lemma small_counters w :
  Inv w → small_pool w →
  0 ≤ cpu_g.unallocated_rt (pool w) < 4503599627370496 ∧
  0 ≤ cpu_g.alloc_rt (pool w) < 4503599627370496 ∧
  0 ≤ cpu_g.overrun (pool w) < 4503599627370496 ∧
  0 ≤ cpu_g.total_cpu (pool w) < 4503599627370496.
Proof.
  intros Hinv Hsm. destruct (inv_pool _ Hinv) as (?&?&?&?&?). destruct Hinv as (_ & _ & Hb).
  unfold cpu_g.imbalance, small_pool in *. wrap_lia.
Qed.

(** What a step on one container leaves alone. *)
Definition same_tables (w w' : World) : Prop :=
  subcontainers (w_ec w') = subcontainers (w_ec w) ∧ sc_ac_map (w_ec w') = sc_ac_map (w_ec w) ∧
  _mem (w_ec w') = _mem (w_ec w) ∧ fair_cpu_share (w_ec w') = fair_cpu_share (w_ec w) ∧
  w_acdb w' = w_acdb w.

(** A step that rewrites one container and the pool keeps the invariant when
    the new pool balances, and the drift moves by what the two disagree on. *)
Lemma inv_step w w' p s s' :
  Inv w → w_heap w !! p = Some s → p ∈ queued (subcontainers (w_ec w)) →
  w_heap w' = <[p := s']> (w_heap w) → same_tables w w' → cpu_g.wf (pool w') →
  key_of (c_id s') = key_of (c_id s) → cpu_l.wf (cpu s') →
  cpu_g.imbalance (pool w') = 0 →
  Inv w' ∧ drift w' - drift w =
    (cpu_g.alloc_rt (pool w') - cpu_g.alloc_rt (pool w)) - (get_quota s' - get_quota s).
Proof.
  intros ((Hw1 & Hw2 & _ & Hw3) & Hh & Hb) Hs Hp Heap (Hsub & Hac & Hmem & _) Hcpu Hkey Hscw Hi.
  unfold Inv, drift, wf. rewrite Hsub, Heap, Hac, Hmem. split; [split_and!; try done|].
  - by eapply heap_ok_update.
  - rewrite (quotas_update _ _ _ s s'); [lia|apply Hh|done..].
Qed.
