(* ===== verification/ECAPI.v ===== *)
(** * The API of a manager to its elastic container ([src/ECAPI.{h,cpp}])

    The operations that combine the container table, the pools and the agents:
    quota and memory-limit requests, the quota of a new pod, the moves of pages
    between the pools, and the registration of a new container. The one-line
    forwarders [ec_get_*], [ec_incr_*], ... are the methods of
    [ElasticContainer] themselves, used through [ec_get] and [ec_do]. *)
From S2P Require Import Prelude OmNet Float64 Window LocalStats SubContainer Agents CpuG MemG.
From S2P Require Import ElasticContainer World Types Json JSONFacade CAdvisor AgentAsync.
Import SubContainer ElasticContainer.

(** Return codes of the handlers, and [EXIT_FAILURE]. *)
Definition ALLOC_FAILED : Z := 0.
Definition ALLOC_SUCCESS : Z := 1.
Definition ALLOC_INIT : Z := 2.
Definition ALLOC_MEM_FAILED : Z := 3.
Definition FAILED : Z := -1.
Definition PAGE_SIZE : Z := 4096.

Module ECAPI.
Section Api.
Context {ENV : Env}.

(** [_ec->get_corres_agent_client(id)] followed by the test for null. *)
Definition agent_or_exit (id : ContainerId) : M World AgentClient.AgentClient :=
  agent ← ec_run (get_corres_agent_client id);
  match agent with Some ac => mret ac | None => stop (Exit 1) end.

(** [while(!sc->sc_inserted()) {}] waits for another thread. *)
Definition set_sc_quota_syscall (sc : loc) (_quota seq_number : Z) : M World Z :=
  old ← sc_get sc get_quota;
  let diff_quota := i64 (i64 _quota - i64 old) in
  let change : string := if diff_quota <? 0 then "decr" else "incr" in
  ins ← sc_get sc sc_inserted;
  if negb ins then stop Blocked else
  c ← sc_get sc get_c_id;
  agent ← agent_or_exit c;
  rpc (AgentClient.updateContainerQuota agent (SubContainer.cgroup_id c) _quota change seq_number).

Definition sc_resize_memory_limit_in_pages (container_id : ContainerId) (new_mem_limit : Z) : M World Z :=
  agent ← agent_or_exit container_id;
  rpc (AgentClient.resizeMemoryLimitPages agent (SubContainer.cgroup_id container_id) new_mem_limit).

(** [ElasticContainer::get_sc_memory_limit_in_bytes] and
    [get_sc_memory_usage_in_bytes]: no client or no docker id gives 0. *)
Definition get_sc_memory_limit_in_bytes (sc_id : ContainerId) : M World Z :=
  ac ← ec_run (get_corres_agent_client sc_id);
  match ac with
  | None => mret 0
  | Some ac =>
      if bool_decide (docker_id sc_id = "") then mret 0 else
      let ip := ip4_addr.to_string (AgentClient.get_agent_ip ac) in
      rpc (CAdvisor.getContMemLimit ip (docker_id sc_id))
  end.
Definition get_sc_memory_usage_in_bytes (sc_id : ContainerId) (dock_id : string) : M World Z :=
  ac ← ec_run (get_corres_agent_client sc_id);
  match ac with
  | None => mret 0
  | Some ac =>
      if bool_decide (dock_id = "") then mret 0 else
      let ip := ip4_addr.to_string (AgentClient.get_agent_ip ac) in
      rpc (CAdvisor.getContMemUsage ip dock_id)
  end.
Definition sc_get_memory_limit_in_bytes_cadvisor := get_sc_memory_limit_in_bytes.
Definition sc_get_memory_usage_in_bytes_cadvisor := get_sc_memory_usage_in_bytes.

(** [ElasticContainer::get_sc_from_agent] and [get_tot_mem_alloc_in_pages]: the
    containers of one client, and the sum of the limits cAdvisor reports for the
    keys of the container table ([ceil] of an integer quotient). *)
Definition get_sc_from_agent {ORDER : HashOrder} (client : option AgentClient.AgentClient) :
    M World (list ContainerId) :=
  m ← ec_get sc_ac_map;
  if (size m =? 0)%nat then stop (Exit 1)
  else mret (omap (λ kv, if bool_decide (kv.2.2 = client) then Some kv.2.1 else None) (iter m)).
Definition get_tot_mem_alloc_in_pages {ORDER : HashOrder} : M World Z :=
  m ← ec_get subcontainers;
  tot_mem_alloc ← mfold (λ tot kv, tmp ← get_sc_memory_limit_in_bytes kv.2.1; mret (u64 (tot + tmp))) 0 (iter m);
  mret (tot_mem_alloc / PAGE_SIZE).

(** The flag and the quota (the reference parameter of the source). *)
Definition determine_quota_for_new_pod (req_quota : Z) : M World (Z * Z) :=
  unalloc ← ec_get get_cpu_unallocated_rt;
  if req_quota <=? unalloc then
    ec_do (decr_unallocated_rt req_quota) ;;
    ec_do (incr_alloc_rt req_quota) ;;
    mret (0, req_quota)
  else if unalloc =? 0 then
    quota ← ec_get get_cpu_slice;
    ec_do (incr_overrun quota) ;;
    ec_do (incr_alloc_rt quota) ;;
    mret (1, quota)
  else
    ec_do (set_unallocated_rt 0) ;;
    ec_do (incr_alloc_rt unalloc) ;;
    mret (1, unalloc).

Definition ec_update_alloc_memory_in_pages (mem : Z) : M World unit :=
  ec_do (decr_unalloc_memory_in_pages mem) ;;
  ec_do (incr_alloc_memory_in_pages mem).
Definition ec_update_reclaim_memory_in_pages (mem : Z) : M World unit :=
  ec_do (incr_unalloc_memory_in_pages mem) ;;
  ec_do (decr_alloc_memory_in_pages mem).

Definition sc_set_memory_limit_in_pages (sc_id : ContainerId) (new_mem_limit : Z) : M World unit :=
  sc ← ec_find (get_sc_for_update_back sc_id);
  sc_do sc (set_mem_limit_in_pages new_mem_limit).

(** The two readers nothing calls, given the call object they read their answer
    from ([AgentAsync]); the product is a [uint64_t]. *)
Definition syscall_get_memory_usage_in_bytes (sc_id : ContainerId)
    (o : outcome (AgentAsync.Call ReadMemUsageReply)) : M World Z :=
  _ ← agent_or_exit sc_id; r ← ((λ w, (AgentAsync.getMemoryUsageBytes o, w)) : M World Z); mret (u64 (r * PAGE_SIZE)).
Definition syscall_get_memory_limit_in_bytes (sc_id : ContainerId)
    (o : outcome (AgentAsync.Call ReadMemLimitReply)) : M World Z :=
  _ ← agent_or_exit sc_id; r ← ((λ w, (AgentAsync.getMemoryLimitBytes o, w)) : M World Z); mret (u64 (r * PAGE_SIZE)).

(** [_ec->create_new_sc(...)] and [_ec->insert_sc( *sc)]. *)
Definition create_new_sc (now cgroup_id host_ip sockfd quota nr_throttled : Z) : M World loc :=
  new_sc (SubContainer_of_quota now cgroup_id host_ip sockfd quota nr_throttled).
Definition create_new_sc_plain (now cgroup_id host_ip sockfd : Z) : M World loc :=
  new_sc (SubContainer_of now cgroup_id host_ip sockfd).
Definition ec_insert_sc (sc : loc) : M World Z :=
  c ← sc_get sc get_c_id;
  ec_do (insert_sc c sc) ;;
  mret ALLOC_INIT.

(** The part of [handle_add_cgroup_to_ec] that [ECAPI] and [Manager] share:
    quota, new container, container map, fair share. *)
Definition register_sc (now : Z) (req : msg_t) (ip fd : Z) : M World (Z * Z * loc * Z) :=
  '(update_quota, quota) ← determine_quota_for_new_pod (rsrc_amnt req);
  sc ← create_new_sc now (Types.cgroup_id req) ip fd quota (request req);
  ret ← ec_insert_sc sc;
  ec_do update_fair_cpu_share ;;
  mret (update_quota, quota, sc, ret).

(** [acdb->get_agent_client_by_ip(sc->get_c_id()->server_ip)] *)
Definition agent_of_sc (sc : loc) : M World (option AgentClient.AgentClient) :=
  c ← sc_get sc get_c_id;
  gets (λ w, AgentClientDB.get_agent_client_by_ip (server_ip c) (w_acdb w)).

Definition handle_add_cgroup_to_ec (now : Z) (req res : msg_t) (ip fd : Z) : M World (Z * msg_t) :=
  '(update_quota, quota, sc, ret) ← register_sc now req ip fd;
  target_agent ← agent_of_sc sc;
  match target_agent with
  | Some ac => c ← sc_get sc get_c_id; ec_do (add_to_sc_ac_map c (Some ac))
  | None => mret tt
  end ;;
  when (negb (update_quota =? 0)) (set_sc_quota_syscall sc quota 13 ;; mret tt) ;;
  mret (ret, with_request 0 res).

(** The containers found for a client are those registered with it. *)
Lemma get_sc_from_agent_elem {ORDER : HashOrder} client w ids w' id :
  wf (w_ec w) → get_sc_from_agent client w = (Ok ids, w') →
  id ∈ ids ↔ sc_ac_map (w_ec w) !! key_of id = Some (id, client).
Proof.
  intros (_ & Hwf & _). unfold get_sc_from_agent, ec_get, gets, mbind, M_bind; simpl.
  destruct (size _ =? 0)%nat; [done|]. intros [= <- _]. rewrite list_elem_of_omap. split.
  - intros ([k [i c]] & Hin & Hc). rewrite iter_perm, elem_of_map_to_list in Hin. simpl in *.
    case_bool_decide; [|done]. simplify_eq. by rewrite (Hwf _ _ _ Hin).
  - intros H. exists (key_of id, (id, client)). split; [|simpl; by rewrite bool_decide_true].
    by rewrite iter_perm, elem_of_map_to_list.
Qed.

(** ** What a quota request does *)

(** The agent that serves container [s]; its calls are read in time. *)
Definition served (w : World) (s : SubContainer) (ac : AgentClient.AgentClient) : Prop :=
  inserted s = true ∧ (∃ id, sc_ac_map (w_ec w) !! key_of (c_id s) = Some (id, Some ac)) ∧
  timely (AgentClient.get_agent_ip ac).

(** The request sent for a new quota, and the status read after it. *)
Definition quota_request (s : SubContainer) (_quota seq_number : Z) : ContainerQuotaRequest :=
  QuotaReq (i32 (SubContainer.cgroup_id (c_id s))) _quota
    (if i64 (i64 _quota - i64 (get_quota s)) <? 0 then "decr" else "incr") (i32 seq_number).
Definition quota_answer (w : World) (s : SubContainer) (ac : AgentClient.AgentClient) (_quota seq_number : Z) : Z :=
  i32 (quota_status (w_trace w) (AgentClient.get_agent_ip ac) (quota_request s _quota seq_number)).
Definition quota_sent (w : World) (s : SubContainer) (ac : AgentClient.AgentClient) (_quota seq_number : Z) : World :=
  upd_trace (EvQuota (AgentClient.get_agent_ip ac) (quota_request s _quota seq_number) :: w_trace w) w.

Lemma run_agent_or_exit id w ac i :
  sc_ac_map (w_ec w) !! key_of id = Some (i, Some ac) → agent_or_exit id w = (Ok ac, w).
Proof.
  intros H. unfold agent_or_exit, mbind, M_bind, ec_run, get_corres_agent_client. rewrite H.
  destruct w; reflexivity.
Qed.
Lemma wp_agent_or_exit id w ac i Q F :
  sc_ac_map (w_ec w) !! key_of id = Some (i, Some ac) → wp (agent_or_exit id) Q F w = Q ac w.
Proof. intros H. unfold wp. by rewrite (run_agent_or_exit _ _ _ _ H). Qed.

Lemma wp_set_sc_quota_syscall sc s ac q n Q F w :
  w_heap w !! sc = Some s → served w s ac →
  wp (set_sc_quota_syscall sc q n) Q F w = Q (quota_answer w s ac q n) (quota_sent w s ac q n).
Proof.
  intros Hs (Hi & [i Ha] & Ht). unfold set_sc_quota_syscall. ww. unfold sc_inserted. rewrite Hi; simpl. ww.
  rewrite (wp_agent_or_exit _ _ _ _ _ _ Ha). unfold wp, rpc. by rewrite AgentClient.updateContainerQuota_timely.
Qed.

(** A container that is not inserted yet blocks the caller. *)
Lemma set_sc_quota_syscall_blocked sc s q n w :
  w_heap w !! sc = Some s → inserted s = false → set_sc_quota_syscall sc q n w = (Fail Blocked, w).
Proof.
  intros Hs Hi. unfold set_sc_quota_syscall, sc_get, load, mbind, M_bind, mret, M_ret.
  rewrite Hs. cbv beta iota. rewrite Hs. cbv beta iota. unfold sc_inserted. by rewrite Hi.
Qed.

(** ** The quota of a new pod *)

(** What the pod gets: what it asked for, or what is left, or, when nothing is
    left, a slice on credit. *)
Definition granted (c : cpu_g.cpu) (req_quota : Z) : Z :=
  if cpu_g.unallocated_rt c =? 0 then (if req_quota =? 0 then 0 else cpu_g.slice_size c)
  else Z.min req_quota (cpu_g.unallocated_rt c).
(** The flag that asks for the quota to be set: the pod did not get its wish. *)
Definition quota_flag (c : cpu_g.cpu) (req_quota : Z) : Z :=
  if req_quota <=? cpu_g.unallocated_rt c then 0 else 1.
Definition after_grant (c : cpu_g.cpu) (req_quota : Z) : cpu_g.cpu :=
  let g := granted c req_quota in
  let lent := if bool_decide (cpu_g.unallocated_rt c = 0) then g else 0 in
  cpu_g.Cpu (cpu_g.slice_size c) (cpu_g.unallocated_rt c + lent - g) (cpu_g.total_cpu c)
    (cpu_g.overrun c + lent) (cpu_g.alloc_rt c + g).

Definition fits (c : cpu_g.cpu) : Prop :=
  cpu_g.unallocated_rt c < 9223372036854775808 ∧ cpu_g.slice_size c < 9223372036854775808 ∧
  cpu_g.overrun c < 9223372036854775808 ∧ cpu_g.alloc_rt c < 9223372036854775808.

Lemma wp_determine_quota r Q F w :
  cpu_g.wf (pool w) → fits (pool w) → is_u64 r →
  Q (quota_flag (pool w) r, granted (pool w) r) (upd_ec (with_cpu (after_grant (pool w) r) (w_ec w)) w) →
  wp (determine_quota_for_new_pod r) Q F w.
Proof.
  intros Hwf Hf Hr HQ. unfold determine_quota_for_new_pod. ww.
  unfold get_cpu_unallocated_rt, cpu_g.get_unallocated_rt, get_cpu_slice, cpu_g.get_slice.
  revert HQ. unfold pool, fits, after_grant, granted, quota_flag in *.
  destruct w as [[ecid sub ac fair me [sl un tot ov al]] h db sq lk tr]; simpl in *.
  destruct Hwf as (?&?&?&?&?), Hf as (?&?&?&?); simpl in *.
  destruct (Z.leb_spec r un); [|destruct (Z.eqb_spec un 0)]; intros HQ; ww; simpl;
    unfold decr_unallocated_rt, incr_alloc_rt, incr_overrun, set_unallocated_rt, on_cpu, with_cpu;
    simpl; rewrite ?cpu_g.decr_unallocated_rt_eq; unfold cpu_g.incr_alloc_rt, cpu_g.incr_overrun; simpl;
    rewrite ?u64_small by wrap_lia; rewrite ?cpu_g.sat_sub_small by wrap_lia.
  - unfold upd_ec, with_cpu in *; simpl in *.
    case_bool_decide; destruct (Z.eqb_spec un 0); try lia.
    + subst. destruct (Z.eqb_spec r 0); [|wrap_lia]. subst. rewrite Z.max_l by lia.
      rewrite !Z.add_0_r in *. exact HQ.
    + rewrite Z.min_l in HQ by lia. rewrite Z.max_r by lia. rewrite !Z.add_0_r in HQ. exact HQ.
  - unfold upd_ec, with_cpu in *; simpl in *. subst.
    destruct (Z.eqb_spec r 0); [lia|]. rewrite bool_decide_true in HQ by done.
    replace (0 + sl - sl) with 0 in HQ by lia. exact HQ.
  - unfold upd_ec, with_cpu in *; simpl in *.
    rewrite bool_decide_false in HQ by lia. rewrite Z.min_r in HQ by lia.
    replace (un + 0 - un) with 0 in HQ by lia. rewrite Z.add_0_r in HQ. exact HQ.
Qed.

Lemma granted_bounds c r : cpu_g.wf c → is_u64 r → 0 ≤ granted c r ∧
  (cpu_g.unallocated_rt c ≠ 0 → granted c r ≤ cpu_g.unallocated_rt c) ∧
  (cpu_g.unallocated_rt c = 0 → granted c r ≤ cpu_g.slice_size c).
Proof. intros (?&?&?&?&?) ?. unfold granted. zcase; wrap_lia. Qed.

Lemma after_grant_wf c r : cpu_g.wf c → fits c → is_u64 r → cpu_g.wf (after_grant c r).
Proof.
  intros Hwf (?&?&?&?) Hr. pose proof (granted_bounds c r Hwf Hr) as (?&?&?).
  destruct Hwf as (?&?&?&?&?). unfold after_grant, cpu_g.wf; simpl.
  case_bool_decide; split_and!; wrap_lia.
Qed.
Lemma after_grant_imbalance c r : cpu_g.imbalance (after_grant c r) = cpu_g.imbalance c.
Proof. unfold after_grant, cpu_g.imbalance; simpl. lia. Qed.

(** ** Registering a container *)

(** The container that was registered for request [req], at address [p]. *)
Definition fresh_sc (w : World) : loc := fresh (dom (w_heap w)).
Definition registered (now : Z) (req : msg_t) (ip fd : Z) (w : World) : World :=
  let s := SubContainer_of_quota now (Types.cgroup_id req) ip fd (granted (pool w) (rsrc_amnt req)) (request req) in
  upd_ec (update_fair_cpu_share
           (insert_sc (c_id s) (fresh_sc w) (with_cpu (after_grant (pool w) (rsrc_amnt req)) (w_ec w))))
    (upd_sc (fresh_sc w) s w).

Lemma wp_register_sc now req ip fd Q F w :
  cpu_g.wf (pool w) → fits (pool w) → is_u64 (rsrc_amnt req) →
  Q (quota_flag (pool w) (rsrc_amnt req), granted (pool w) (rsrc_amnt req), fresh_sc w, ALLOC_INIT)
    (registered now req ip fd w) →
  wp (register_sc now req ip fd) Q F w.
Proof.
  intros Hwf Hf Hr HQ. unfold register_sc. rewrite wp_bind. apply wp_determine_quota; [done..|].
  rewrite wp_bind. unfold create_new_sc, new_sc. unfold wp at 1. cbv beta zeta iota.
  unfold ec_insert_sc. ww. destruct w; exact HQ.
Qed.

Lemma queued_insert_sc id p e :
  wf e → queued (subcontainers (insert_sc id p e)) ≡ₚ p :: queued (subcontainers e).
Proof.
  intros Hwf. unfold insert_sc. destruct (subcontainers e !! key_of id) as [[k q]|] eqn:E; simpl.
  - rewrite (queued_replace _ _ _ _ _ _ E), (queued_lookup _ _ _ _ E). solve_Permutation.
  - by rewrite queued_insert.
Qed.

Lemma fresh_sc_not_queued w : heap_ok (subcontainers (w_ec w)) (w_heap w) →
  fresh_sc w ∉ queued (subcontainers (w_ec w)).
Proof.
  intros [_ Hok] (k & id & q & Hm & Hp)%elem_of_queued.
  destruct (Hok k id q _ Hm Hp) as (s & Hs & _). apply elem_of_dom_2 in Hs. unfold fresh_sc in Hs.
  by destruct (is_fresh (dom (w_heap w))).
Qed.

Lemma heap_ok_insert_sc e h p s :
  wf e → heap_ok (subcontainers e) h → p ∉ queued (subcontainers e) → cpu_l.wf (cpu s) →
  heap_ok (subcontainers (insert_sc (c_id s) p e)) (<[p := s]> h).
Proof.
  intros Hwf [Hnd Hok] Hp Hs. split.
  { rewrite queued_insert_sc by done. by constructor. }
  assert (Hold : ∀ k id q p', subcontainers e !! k = Some (id, q) → p' ∈ q →
    ∃ s', <[p := s]> h !! p' = Some s' ∧ key_of (c_id s') = k ∧ cpu_l.wf (cpu s')).
  { intros k id q p' Hm Hp'. destruct (Hok k id q p' Hm Hp') as (s' & ? & ? & ?). exists s'.
    rewrite lookup_insert_ne; [done|]. intros <-. apply Hp, elem_of_queued. eauto. }
  intros k id q p' Hm Hp'. unfold insert_sc in Hm.
  assert (Hnew : ∃ s', <[p := s]> h !! p = Some s' ∧ key_of (c_id s') = key_of (c_id s) ∧ cpu_l.wf (cpu s')).
  { exists s. by rewrite lookup_insert_eq. }
  destruct (subcontainers e !! key_of (c_id s)) as [[k0 q0]|] eqn:E; simpl in Hm;
    apply lookup_insert_Some in Hm as [[<- [= <- <-]]|[? Hm]]; try by eapply Hold.
  - apply elem_of_app in Hp' as [Hp'|Hp']; [by eapply Hold|].
    apply list_elem_of_singleton in Hp' as ->. done.
  - apply list_elem_of_singleton in Hp' as ->. done.
Qed.

Lemma update_fair_cpu_share_wf e : wf e → wf (update_fair_cpu_share e).
Proof. intros. unfold update_fair_cpu_share. by destruct (_ =? _)%nat. Qed.
Lemma update_fair_cpu_share_frame e :
  subcontainers (update_fair_cpu_share e) = subcontainers e ∧
  sc_ac_map (update_fair_cpu_share e) = sc_ac_map e ∧
  _cpu (update_fair_cpu_share e) = _cpu e ∧ _mem (update_fair_cpu_share e) = _mem e.
Proof. unfold update_fair_cpu_share. by destruct (_ =? _)%nat. Qed.
Lemma insert_sc_frame id p e :
  sc_ac_map (insert_sc id p e) = sc_ac_map e ∧ _cpu (insert_sc id p e) = _cpu e ∧
  _mem (insert_sc id p e) = _mem e.
Proof. unfold insert_sc. by destruct (subcontainers e !! _) as [[? ?]|]. Qed.

Lemma registered_inv now req ip fd w :
  Inv w → fits (pool w) → is_u64 (rsrc_amnt req) → is_u32 (request req) →
  Inv (registered now req ip fd w) ∧ drift (registered now req ip fd w) = drift w.
Proof.
  intros ((Hw1 & Hw2 & Hcpu & Hw3) & Hh & Hi) Hf Hr Hq.
  pose proof (fresh_sc_not_queued w Hh) as Hfresh.
  set (g := granted (pool w) (rsrc_amnt req)) in *.
  assert (Hg : is_u64 g).
  { destruct (granted_bounds (pool w) (rsrc_amnt req) Hcpu Hr) as (? & ? & ?). fold g in H, H0, H1.
    destruct Hf as (?&?&?&?). destruct (decide (cpu_g.unallocated_rt (pool w) = 0)); wrap_lia. }
  set (s := SubContainer_of_quota now (Types.cgroup_id req) ip fd g (request req)).
  set (e0 := with_cpu (after_grant (pool w) (rsrc_amnt req)) (w_ec w)).
  assert (Hwf0 : wf e0) by (split_and!; [done..|by apply after_grant_wf|done]).
  assert (Hs : cpu_l.wf (cpu s)) by (by apply cpu_l.cpu_of_wf).
  unfold registered; fold g; fold s; fold e0.
  destruct (update_fair_cpu_share_frame (insert_sc (c_id s) (fresh_sc w) e0)) as (F1 & F2 & F3 & F4).
  destruct (insert_sc_frame (c_id s) (fresh_sc w) e0) as (G1 & G2 & G3).
  unfold Inv, drift, pool, upd_sc, upd_heap, upd_ec. cbn [w_ec w_heap]. rewrite F1, F3, G2.
  split; [split_and!|].
  - apply update_fair_cpu_share_wf, EcTable.insert_sc_spec, Hwf0.
  - by apply heap_ok_insert_sc.
  - unfold e0; simpl. rewrite after_grant_imbalance. done.
  - unfold quotas at 1. rewrite (queued_insert_sc (c_id s)) by done. cbn [zsum foldr].
    assert (quota_at (<[fresh_sc w := s]> (w_heap w)) (fresh_sc w) = g) as ->
      by (unfold quota_at; by rewrite lookup_insert_eq).
    change (foldr _ 0 _) with (quotas (subcontainers (w_ec w)) (<[fresh_sc w := s]> (w_heap w))).
    rewrite quotas_fresh by done. unfold e0, after_grant, pool; simpl. fold (pool w). fold g. lia.
Qed.

End Api.
End ECAPI.
