(* ===== verification/Demo.v ===== *)
(** * A small concrete world

    One node with one agent, one container with half of a four-core pool: the
    inputs at which the theorems about the handlers are instantiated. *)
From S2P Require Import Prelude OmNet Float64 Window LocalStats SubContainer Agents CpuG MemG.
From S2P Require Import ElasticContainer World Types ECAPI Json CAdvisor.
Import SubContainer ElasticContainer ECAPI.

Module Demo.

Definition node : ip4_addr := Ip4 0x0106a8c0.
Definition agent : AgentClient.AgentClient := AgentClient.mkAgentClient 1 (Agent.Agent_of node).

(** What cAdvisor serves for a container with this limit and usage. *)
Import JsonText (json, JNum, JArr, JObj, chars, text_json).
Definition container_json (limit usage : Z) : json :=
  JObj [(chars "/docker/d7", JObj [
    (chars "spec", JObj [(chars "memory", JObj [(chars "limit", JNum limit)])]);
    (chars "stats", JArr [JObj [(chars "memory", JObj [(chars "usage", JNum usage)])]])])].
Definition env (status resize_code limit usage : Z) : Env := {|
  quota_read _ _ _ := Some status;
  resize_completions _ _ _ := [(true, resize_code)];
  web_json := text_json;
  http_get _ _ := Response (J := text_json) 200 (Extracted (container_json limit usage)) (Raised HttpException);
  http_post _ _ _ := RequestFailed (J := text_json) HttpException;
|}.
(** Agents that accept every request and containers of 1 GiB that use 64 MiB. *)
Definition willing : Env := env 0 0 1073741824 67108864.
(** Agents that refuse every quota. *)
Definition refusing : Env := env 14 1 1073741824 67108864.
Definition listed : HashOrder := {|
  iter A m := map_to_list m; iter_perm A m := reflexivity _; order A m := (map_to_list m).*1;
  order_iter A m := list_order m; rehashed A m m' := false; rehashed_same A m := eq_refl;
|}.

Definition cid : ContainerId := ContainerId_of 7 node.
Definition sc (quota : Z) : SubContainer :=
  set_mem_limit_in_pages 262144
    (set_docker_id "d7" (set_sc_inserted true (SubContainer_of_quota 1000000000 7 0x0106a8c0 3 quota 0))).
Definition ec (fair : Z) (c : cpu_g.cpu) (m : mem_g.mem) : ElasticContainer :=
  mkEC 1 {[ key_of cid := (cid, [1%positive]) ]} {[ key_of cid := (cid, Some agent) ]} fair m c.
Definition mem : mem_g.mem := mem_g.Mem 1048576 5000 786432 262144.
Definition world (quota fair : Z) (c : cpu_g.cpu) : World :=
  mkWorld (ec fair c mem) {[ 1%positive := sc quota ]} {[ node := agent ]} 5 0 [].

(** A usage report of the container. *)
Definition report (rx_quota rt_remaining throttled : Z) : msg_t :=
  Msg node 7 0 rx_quota throttled rt_remaining 1 0.

Lemma sc_wf quota : is_u64 quota → cpu_l.wf (cpu (sc quota)).
Proof. intros. by apply cpu_l.cpu_of_wf. Qed.
Lemma queued_demo : queued {[ key_of cid := (cid, [1%positive]) ]} = [1%positive].
Proof. done. Qed.
Lemma ec_wf fair c m : cpu_g.wf c → mem_g.wf m → wf (ec fair c m).
Proof.
  intros. unfold wf; simpl. split_and!; try done.
  - intros k id q [<- [= <- <-]]%lookup_singleton_Some. done.
  - intros k id a [<- [= <- <-]]%lookup_singleton_Some. done.
Qed.
Lemma heap_ok_demo quota : is_u64 quota →
  heap_ok {[ key_of cid := (cid, [1%positive]) ]} {[ 1%positive := sc quota ]}.
Proof.
  intros. split; [rewrite queued_demo; apply NoDup_singleton|].
  intros k id q p [<- [= <- <-]]%lookup_singleton_Some ->%list_elem_of_singleton.
  exists (sc quota). split_and!; [done..|by apply sc_wf].
Qed.
Lemma mem_wf : mem_g.wf mem.
Proof. unfold mem_g.wf; simpl. split_and!; wrap_lia. Qed.
Lemma world_inv quota fair c :
  is_u64 quota → cpu_g.wf c → cpu_g.imbalance c = 0 → Inv (world quota fair c).
Proof. intros. split_and!; [by apply ec_wf, mem_wf|by apply heap_ok_demo|done]. Qed.

End Demo.
