(* ===== verification/ManagerCpu.v ===== *)
(** * CPU: usage reports and idle containers ([src/Manager.cpp], 41-301)

    [handle_cpu_usage_report] is the control loop of the program: every period
    a container reports its quota, the runtime it did not use and its throttle
    counter, and the handler moves runtime between the container, the pool and
    the overrun account. The handler is written as its stages; each branch of
    its case distinction is a definition of its own. [check_for_idle_containers]
    takes the surplus of containers that stopped reporting. *)
From S2P Require Import Prelude OmNet Float64 Window LocalStats SubContainer Agents CpuG MemG.
From S2P Require Import ElasticContainer World Types ECAPI.
Import SubContainer ElasticContainer ECAPI.

Definition REQ_CPU : Z := 0.
Definition REQ_MEM : Z := 1.
Definition REQ_INIT : Z := 2.
Definition MAX_CPU_LOSS_IN_NS : Z := 1000.
Definition MAX_UNUSED_RT_IN_NS : Z := 5000000.

Module ManagerCpu.
Section Report.
Context {ENV : Env}.

(** Lines 83-111: the container is found, its time stamp and its report number
    are updated; the result is whether it had been idle. *)
Definition report_seen (now : Z) (req : msg_t) (sc : loc) : M World bool :=
  idle_flag ← sc_get sc (check_if_idle now);
  sc_do sc (update_last_seen_ts now) ;;
  sc_do sc incr_cpustat_seq_num ;;
  n ← sc_get sc get_seq_num;
  when (negb (n =? cpustat_seq_num req)) (sc_do sc (set_cpustat_seq_num (cpustat_seq_num req))) ;;
  mret idle_flag.

(** Lines 113-135: the reported quota against the recorded one, in
    microseconds. [false]: the handler returns here. *)
Definition report_resync (rx_quota : Z) (sc : loc) : M World unit :=
  q ← sc_get sc get_quota;
  if rx_quota <? q then
    let diff := u64 (q - rx_quota) in
    sc_do sc (set_quota rx_quota) ;;
    sc_do sc flush ;;
    ec_do (decr_alloc_rt diff) ;;
    ec_do (incr_unallocated_rt diff)
  else
    let diff := u64 (rx_quota - q) in
    ec_do (decr_unallocated_rt diff) ;;
    sc_do sc (set_quota rx_quota) ;;
    sc_do sc flush ;;
    ec_do (incr_alloc_rt diff).
Definition report_mismatch (rx_quota : Z) (sc : loc) : M World bool :=
  q ← sc_get sc get_quota;
  if negb (rx_quota / 1000 =? q / 1000) then
    n ← sc_get sc (fst ∘ incr_quota_mismatch_counter);
    sc_do sc (snd ∘ incr_quota_mismatch_counter) ;;
    if 2 <? n then
      report_resync rx_quota sc ;;
      sc_do sc reset_quota_mismatch_counter ;;
      mret true
    else mret false
  else mret true.

(** Lines 137-144. *)
Definition report_leak : M World unit :=
  alloc ← ec_get get_alloc_rt;
  unalloc ← ec_get get_cpu_unallocated_rt;
  total ← ec_get get_total_cpu;
  let total_rt_in_sys := u64 (alloc + unalloc) in
  leak ← gets cpuleak;
  let leak := i64 (leak + i64 (i64 total - i64 total_rt_in_sys)) in
  modify (upd_cpuleak leak) ;;
  when (MAX_CPU_LOSS_IN_NS <=? leak)
    (ec_do (incr_unallocated_rt leak) ;; modify (upd_cpuleak 0)).

(** Lines 146-148: the two window means and the unused share of the quota. *)
Definition report_stats (req : msg_t) (sc : loc) : M World (Z * double) :=
  s ← load sc;
  '(rt_mean, s) ← defined (insert_rt_stats (runtime_remaining req) s);
  sc_do sc (λ _, s) ;;
  '(thr_mean, s) ← defined (insert_th_stats (request req) s);
  sc_do sc (λ _, s) ;;
  mret (rt_mean, thr_mean).
Definition percent_decr (req : msg_t) : double :=
  let rx := i64 (rsrc_amnt req) in
  ddiv (dbl_of_Z (i64 (rx - i64 (rx - i64 (runtime_remaining req))))) (dbl_of_Z (rsrc_amnt req)).

(** [ret = set_sc_quota_syscall(sc, quota, seq); if(ret) log; else { ... }] *)
Definition try_quota (sc : loc) (quota seq : Z) (on_success : M World unit) : M World unit :=
  ret ← set_sc_quota_syscall sc quota seq;
  if negb (i32 ret =? 0) then mret tt
  else sc_do sc (set_quota_flag true) ;; on_success.

(** The updates after a successful request: runtime taken from the pool, given
    back to it, lent beyond it, or repaid. *)
Definition book_take (sc : loc) (amount quota : Z) : M World unit :=
  ec_do (decr_unallocated_rt amount) ;; sc_do sc (set_quota quota) ;; sc_do sc flush ;;
  ec_do (incr_alloc_rt amount).
Definition book_give (sc : loc) (amount quota : Z) : M World unit :=
  ec_do (incr_unallocated_rt amount) ;; sc_do sc (set_quota quota) ;; sc_do sc flush ;;
  ec_do (decr_alloc_rt amount).
Definition book_lend (sc : loc) (amount quota : Z) : M World unit :=
  ec_do (incr_overrun amount) ;; sc_do sc (set_quota quota) ;; sc_do sc flush ;;
  ec_do (incr_alloc_rt amount).
Definition book_repay (sc : loc) (amount quota : Z) : M World unit :=
  sc_do sc flush ;; ec_do (decr_overrun amount) ;; sc_do sc (set_quota quota) ;;
  ec_do (decr_alloc_rt amount).

(** Lines 150-167: back from idle, up to one core at once. *)
Definition branch_idle (rx_quota seq : Z) (sc : loc) : M World unit :=
  unalloc ← ec_get get_cpu_unallocated_rt;
  let new_quota := Z.min unalloc 100000000 in
  let extra_rt := u64 (new_quota - rx_quota) in
  when (0 <? extra_rt) (try_quota sc new_quota seq (book_take sc extra_rt new_quota)).

(** Lines 168-196: the overrun is worked off by containers above the fair
    share. The conversion of the product to an integer may be undefined. *)
Definition overrun_to_sub (fair slice overrun rx_quota : Z) : option Z :=
  let amnt_share_over := u64 (rx_quota - fair) in
  let percent_over := ddiv (dsub (dbl_of_Z rx_quota) (dbl_of_Z fair)) (dbl_of_Z fair) in
  to_sub ← (if dlt d1 percent_over
            then dbl_to_u64 (dmul percent_over (dbl_of_Z slice))
            else dbl_to_u64 (dmul percent_over (dbl_of_Z amnt_share_over)));
  let to_sub := if to_sub <? slice / 2 then amnt_share_over else to_sub in
  Some (Z.min overrun to_sub).
Definition branch_overrun (rx_quota seq : Z) (sc : loc) : M World unit :=
  fair ← ec_get get_fair_cpu_share;
  slice ← ec_get get_cpu_slice;
  overrun ← ec_get get_overrun;
  to_sub ← defined (overrun_to_sub fair slice overrun rx_quota);
  let updated_quota := u64 (rx_quota - to_sub) in
  try_quota sc updated_quota seq (book_repay sc to_sub updated_quota).

(** Lines 197-243: a throttled container below the fair share, topped up from
    the pool or, when the pool is empty, on credit. *)
Definition share_lacking (fair slice rx_quota : Z) : option Z :=
  let amnt_share_lacking := u64 (fair - rx_quota) in
  let percent_under := ddiv (dsub (dbl_of_Z fair) (dbl_of_Z rx_quota)) (dbl_of_Z fair) in
  if slice / 2 <? amnt_share_lacking
  then dbl_to_u64 (dmul percent_under (dbl_of_Z amnt_share_lacking))
  else Some amnt_share_lacking.
Definition fair_to_add (fair slice unalloc rx_quota : Z) : option Z :=
  to_add ← share_lacking fair slice rx_quota;
  Some (if slice / 2 <? u64 (fair - rx_quota) then Z.min unalloc to_add else to_add).
Definition branch_fair (rx_quota seq : Z) (sc : loc) : M World unit :=
  fair ← ec_get get_fair_cpu_share;
  slice ← ec_get get_cpu_slice;
  unalloc ← ec_get get_cpu_unallocated_rt;
  if 0 <? unalloc then
    to_add ← defined (fair_to_add fair slice unalloc rx_quota);
    let updated_quota := u64 (rx_quota + to_add) in
    try_quota sc updated_quota seq (book_take sc to_add updated_quota)
  else
    overrun ← defined (share_lacking fair slice rx_quota);
    let updated_quota := u64 (rx_quota + overrun) in
    try_quota sc updated_quota seq (book_lend sc overrun updated_quota).

(** Lines 244-260: throttled above the fair share. *)
Definition throttle_extra (slice unalloc : Z) (thr_mean : double) : option Z :=
  z ← dbl_to_u64 (dmul (dmul (dbl_of_Z 20) thr_mean) (dbl_of_Z slice));
  Some (Z.min unalloc z).
Definition branch_throttled (rx_quota : Z) (thr_mean : double) (seq : Z) (sc : loc) : M World unit :=
  slice ← ec_get get_cpu_slice;
  unalloc ← ec_get get_cpu_unallocated_rt;
  extra_rt ← defined (throttle_extra slice unalloc thr_mean);
  when (0 <? extra_rt)
    (let updated_quota := u64 (rx_quota + extra_rt) in
     try_quota sc updated_quota seq (book_take sc extra_rt updated_quota)).

(** Lines 261-277 and 278-294: runtime the container does not use goes back. *)
Definition shrink_to (rx_quota new_quota seq : Z) (sc : loc) : M World unit :=
  slice ← ec_get get_cpu_slice;
  let new_quota := Z.max slice new_quota in
  when (negb (new_quota =? rx_quota))
    (try_quota sc new_quota seq (book_give sc (u64 (rx_quota - new_quota)) new_quota)).
Definition four_fifths (rx_quota : Z) : option Z :=
  dbl_to_u64 (dmul (dbl_of_Z rx_quota) (dsub d1 d_0p2)).
Definition branch_unused (rx_quota seq : Z) (sc : loc) : M World unit :=
  new_quota ← defined (four_fifths rx_quota);
  shrink_to rx_quota new_quota seq sc.
Definition branch_slack (rx_quota seq : Z) (sc : loc) : M World unit :=
  shrink_to rx_quota (u64 (rx_quota - MAX_UNUSED_RT_IN_NS)) seq sc.

(** Lines 150-294: the case distinction. *)
Definition report_adjust (idle_flag : bool) (rt_mean : Z) (thr_mean : double) (req : msg_t) (seq : Z)
    (sc : loc) : M World unit :=
  let rx_quota := rsrc_amnt req in
  unalloc ← ec_get get_cpu_unallocated_rt;
  overrun ← ec_get get_overrun;
  fair ← ec_get get_fair_cpu_share;
  slice ← ec_get get_cpu_slice;
  if idle_flag && (0 <? unalloc) then branch_idle rx_quota seq sc
  else if (0 <? overrun) && (fair <? rx_quota) then branch_overrun rx_quota seq sc
  else if (rx_quota <? fair) && dlt d_0p5 thr_mean then branch_fair rx_quota seq sc
  else if dle d_0p1 thr_mean && (0 <? unalloc) then branch_throttled rx_quota thr_mean seq sc
  else if dlt d_0p2 (percent_decr req) && (slice <=? rx_quota) then branch_unused rx_quota seq sc
  else if (MAX_UNUSED_RT_IN_NS <? rt_mean) && (slice <? rx_quota) then branch_slack rx_quota seq sc
  else mret tt.

(** The whole handler; [now] is the clock. *)
Definition handle_cpu_usage_report (now : Z) (req res : msg_t) : M World (Z * msg_t) :=
  if negb (req_type req =? REQ_CPU) then mret (ALLOC_FAILED, res) else
  sc ← ec_find (get_sc_for_update_back (ContainerId_of (Types.cgroup_id req) (client_ip req)));
  idle_flag ← report_seen now req sc;
  seq ← gets syscall_sequence_number;
  matched ← report_mismatch (rsrc_amnt req) sc;
  if negb matched then mret (ALLOC_SUCCESS, with_request 1 res) else
  report_leak ;;
  '(rt_mean, thr_mean) ← report_stats req sc;
  report_adjust idle_flag rt_mean thr_mean req (u32 seq) sc ;;
  modify (λ w, upd_seqno (i64 (syscall_sequence_number w + 1)) w) ;;
  mret (ALLOC_SUCCESS, with_request 1 res).

End Report.

(** ** Idle containers ([check_for_idle_containers], 41-73) *)
Section Idle.
Context {ENV : Env} {ORDER : HashOrder}.

Definition min_quota : Z := 30000000.

(** The body of the loop for one queue; the result is the next sequence
    number. *)
Definition idle_one (now : Z) (seq : Z) (q : list loc) : M World Z :=
  sc ← defined (last q);
  idle ← sc_get sc (check_if_idle now);
  if negb idle then mret seq else
  idle_quota ← sc_get sc get_quota;
  if idle_quota =? min_quota then mret seq else
  try_quota sc min_quota seq (book_give sc (u64 (idle_quota - min_quota)) min_quota) ;;
  mret (u32 (seq + 1)).

(** One pass over the containers; the loop sleeps two seconds between passes
    and never ends. *)
Definition check_for_idle_containers (now : Z) (seq : Z) : M World Z :=
  m ← ec_get subcontainers;
  mfold (λ seq kv, idle_one now seq kv.2.2) seq (iter m).

End Idle.

(** ** Bookings *)
Section Bookings.
Context {ENV : Env}.
Implicit Types (w : World) (s : SubContainer).

(** The state after a booking: container [sc] is [s'], the pool is [c']. *)
Definition booked (sc : loc) s' (c' : cpu_g.cpu) w : World :=
  upd_ec (with_cpu c' (w_ec w)) (upd_sc sc s' w).

Ltac book :=
  intros Hs; unfold book_take, book_give, book_lend, book_repay; ww; f_equal; unfold booked, upd_sc, upd_heap, upd_ec, incr_alloc_rt, decr_alloc_rt,
    incr_unallocated_rt, decr_unallocated_rt, incr_overrun, decr_overrun, on_cpu, with_cpu, pool;
  simpl; f_equal; apply insert_insert_eq.
Lemma wp_book_take sc s a q Q F w : w_heap w !! sc = Some s →
  wp (book_take sc a q) Q F w =
  Q tt (booked sc (flush (set_quota q s)) (cpu_g.incr_alloc_rt a (cpu_g.decr_unallocated_rt a (pool w))) w).
Proof. book. Qed.
Lemma wp_book_give sc s a q Q F w : w_heap w !! sc = Some s →
  wp (book_give sc a q) Q F w =
  Q tt (booked sc (flush (set_quota q s)) (cpu_g.decr_alloc_rt a (cpu_g.incr_unalloacted_rt a (pool w))) w).
Proof. book. Qed.
Lemma wp_book_lend sc s a q Q F w : w_heap w !! sc = Some s →
  wp (book_lend sc a q) Q F w =
  Q tt (booked sc (flush (set_quota q s)) (cpu_g.incr_alloc_rt a (cpu_g.incr_overrun a (pool w))) w).
Proof. book. Qed.
Lemma wp_book_repay sc s a q Q F w : w_heap w !! sc = Some s →
  wp (book_repay sc a q) Q F w =
  Q tt (booked sc (flush (set_quota q s)) (cpu_g.decr_alloc_rt a (cpu_g.decr_overrun a (pool w))) w).
Proof. book. Qed.

(** What one adjustment does to the world [w], for container [s] at [sc] that
    reported quota [rx]: nothing, or one request to the container's agent. If
    the agent refuses, nothing is booked; if it accepts, the container's quota
    is the requested one, the allocation moves by the difference to the
    reported quota, and the pool still balances. [oq] is the quota requested. *)
Definition adjusted (ac : AgentClient.AgentClient) (seq : Z) (sc : loc) s (rx : Z) (oq : option Z) w w' : Prop :=
  Inv w' ∧ same_tables w w' ∧
  syscall_sequence_number w' = syscall_sequence_number w ∧ cpuleak w' = cpuleak w ∧
  cpu_g.total_cpu (pool w') = cpu_g.total_cpu (pool w) ∧
  match oq with
  | None => w' = w
  | Some q =>
      is_u64 q ∧ ∃ s', w_trace w' = w_trace (quota_sent w s ac q seq) ∧
      w_heap w' = <[sc := s']> (w_heap w) ∧ c_id s' = c_id s ∧ inserted s' = inserted s ∧
      if quota_answer w s ac q seq =? 0
      then get_quota s' = q ∧ cpu_g.alloc_rt (pool w') - cpu_g.alloc_rt (pool w) = q - rx
      else s' = s ∧ pool w' = pool w
  end.

(** The situation in which a container is adjusted. *)
Definition ready w (sc : loc) s (ac : AgentClient.AgentClient) : Prop :=
  Inv w ∧ small_pool w ∧ w_heap w !! sc = Some s ∧ sc ∈ queued (subcontainers (w_ec w)) ∧ served w s ac.

Lemma ready_lows w sc s ac : ready w sc s ac → cpu_g.lows (pool w).
Proof.
  intros (HI & Hsm & _). destruct (small_counters _ HI Hsm) as (?&?&?&?).
  unfold cpu_g.lows, cpu_g.low. lia.
Qed.
Lemma ready_cpu w sc s ac : ready w sc s ac → cpu_l.wf (cpu s) ∧ inserted s = true.
Proof.
  intros ((_ & [_ Hok] & _) & _ & Hs & (k & id & q & Hm & Hp)%elem_of_queued & [Hi _]).
  destruct (Hok k id q sc Hm Hp) as (s' & Hs' & _ & Hw). rewrite Hs in Hs'. by simplify_eq.
Qed.
Lemma i32_quota_answer w s ac q seq : i32 (quota_answer w s ac q seq) = quota_answer w s ac q seq.
Proof. unfold quota_answer. wrap_lia. Qed.

Lemma adjusted_refl w sc s ac seq rx : ready w sc s ac → adjusted ac seq sc s rx None w w.
Proof. intros (? & _). unfold adjusted, same_tables. by split_and!. Qed.

(** Requests either change nothing but the trace, or are booked. *)
Lemma wp_try_quota w sc s ac q seq rx m F :
  ready w sc s ac → is_u64 q →
  (∀ w1, w1 = upd_sc sc (set_quota_flag true s) (quota_sent w s ac q seq) → 
     ∃ c', wp m (λ _ w', w' = booked sc (flush (set_quota q (set_quota_flag true s))) c' w1) never w1 ∧
       cpu_g.wf c' ∧ cpu_g.imbalance c' = 0 ∧ cpu_g.total_cpu c' = cpu_g.total_cpu (pool w) ∧
       cpu_g.alloc_rt c' - cpu_g.alloc_rt (pool w) = q - rx) →
  wp (try_quota sc q seq m) (λ _ w', adjusted ac seq sc s rx (Some q) w w') F w.
Proof.
  intros Hr Hq Hm. pose proof (ready_cpu _ _ _ _ Hr) as [Hw _].
  destruct Hr as (HI & Hsm & Hs & Hin & Hac). unfold try_quota. rewrite wp_bind.
  erewrite wp_set_sc_quota_syscall by done. rewrite i32_quota_answer.
  destruct (Z.eqb_spec (quota_answer w s ac q seq) 0) as [H0|H0]; simpl.
  - rewrite wp_bind, (wp_sc_do _ _ s) by done.
    destruct (Hm _ eq_refl) as (c' & Hwp & Hc1 & Hc2 & Hc3 & Hc4).
    eapply wp_mono; [exact Hwp| |by intros ? ? []]. intros [] w' ->.
    set (s' := flush (set_quota q (set_quota_flag true s))).
    set (w' := booked sc s' c' _).
    assert (Heap : w_heap w' = <[sc := s']> (w_heap w)) by apply insert_insert_eq.
    assert (Hst : same_tables w w') by done.
    assert (Hw' : cpu_l.wf (cpu s')).
    { destruct Hw as (?&?&?&?&?). apply cpu_l.flush_wf. split_and!; done. }
    destruct (inv_step w w' sc s s' HI Hs Hin Heap Hst Hc1 eq_refl Hw' Hc2) as [HI' _].
    unfold adjusted. split_and!; try done. exists s'. split_and!; try done.
    rewrite (proj2 (Z.eqb_eq _ _) H0). done.
  - rewrite wp_ret. unfold adjusted. split_and!; try done. exists s. split_and!; try done.
    + simpl. by rewrite insert_id.
    + rewrite (proj2 (Z.eqb_neq _ _) H0). done.
Qed.

(** The pool after a booking. *)
Ltac book_with lem :=
  intros w1 ->; eexists; split; [erewrite lem by apply upd_sc_lookup; reflexivity|].

Lemma take_adjusts w sc s ac q seq rx a F :
  ready w sc s ac → is_u64 q → 0 ≤ a ≤ cpu_g.unallocated_rt (pool w) → q = rx + a →
  wp (try_quota sc q seq (book_take sc a q)) (λ _ w', adjusted ac seq sc s rx (Some q) w w') F w.
Proof.
  intros Hr Hq Ha ->. pose proof (ready_lows _ _ _ _ Hr) as Hl. apply wp_try_quota; [done..|].
  book_with wp_book_take.
  change (pool (upd_sc _ _ _)) with (pool w). rewrite cpu_g.take_eq by done.
  destruct Hr as (HI & _). pose proof (inv_pool _ HI) as (?&?&?&?&?). destruct HI as (_ & _ & Hb).
  unfold cpu_g.lows, cpu_g.low, cpu_g.imbalance, cpu_g.wf in *; simpl. split_and!; wrap_lia.
Qed.
Lemma take_wrapped_adjusts w sc s ac q seq rx F :
  ready w sc s ac → is_u64 q → q < rx → rx ≤ cpu_g.alloc_rt (pool w) →
  wp (try_quota sc q seq (book_take sc (u64 (q - rx)) q)) (λ _ w', adjusted ac seq sc s rx (Some q) w w') F w.
Proof.
  intros Hr Hq Hlt Hrx. pose proof (ready_lows _ _ _ _ Hr) as Hl. apply wp_try_quota; [done..|].
  book_with wp_book_take.
  change (pool (upd_sc _ _ _)) with (pool w). replace (q - rx) with (- (rx - q)) by lia.
  destruct Hr as (HI & _). pose proof (inv_pool _ HI) as (?&?&?&?&?). destruct HI as (_ & _ & Hb).
  unfold cpu_g.lows, cpu_g.low in Hl. rewrite cpu_g.take_wrapped by wrap_lia.
  unfold cpu_g.imbalance, cpu_g.wf in *; simpl. split_and!; wrap_lia.
Qed.
Lemma give_adjusts w sc s ac q seq rx F :
  ready w sc s ac → 0 ≤ q ≤ rx → rx ≤ cpu_g.alloc_rt (pool w) →
  wp (try_quota sc q seq (book_give sc (u64 (rx - q)) q)) (λ _ w', adjusted ac seq sc s rx (Some q) w w') F w.
Proof.
  intros Hr Hq Hrx. pose proof (ready_lows _ _ _ _ Hr) as Hl.
  apply wp_try_quota; [done|unfold cpu_g.lows, cpu_g.low in Hl; wrap_lia|].
  book_with wp_book_give.
  change (pool (upd_sc _ _ _)) with (pool w).
  destruct Hr as (HI & _). pose proof (inv_pool _ HI) as (?&?&?&?&?). destruct HI as (_ & _ & Hb).
  rewrite u64_small by wrap_lia. rewrite cpu_g.give_eq by (done || lia).
  unfold cpu_g.lows, cpu_g.low, cpu_g.imbalance, cpu_g.wf in *; simpl. split_and!; wrap_lia.
Qed.
Lemma lend_adjusts w sc s ac q seq rx a F :
  ready w sc s ac → is_u64 q → cpu_g.low a → q = rx + a →
  wp (try_quota sc q seq (book_lend sc a q)) (λ _ w', adjusted ac seq sc s rx (Some q) w w') F w.
Proof.
  intros Hr Hq Ha ->. pose proof (ready_lows _ _ _ _ Hr) as Hl. apply wp_try_quota; [done..|].
  book_with wp_book_lend.
  change (pool (upd_sc _ _ _)) with (pool w). rewrite cpu_g.lend_eq by done.
  destruct Hr as (HI & _). pose proof (inv_pool _ HI) as (?&?&?&?&?). destruct HI as (_ & _ & Hb).
  unfold cpu_g.lows, cpu_g.low, cpu_g.imbalance, cpu_g.wf in *; simpl. split_and!; wrap_lia.
Qed.
Lemma repay_adjusts w sc s ac q seq rx a F :
  ready w sc s ac → is_u64 q → 0 ≤ a ≤ cpu_g.overrun (pool w) → a ≤ cpu_g.alloc_rt (pool w) → q = rx - a →
  wp (try_quota sc q seq (book_repay sc a q)) (λ _ w', adjusted ac seq sc s rx (Some q) w w') F w.
Proof.
  intros Hr Hq Ha Hal ->. pose proof (ready_lows _ _ _ _ Hr) as Hl. apply wp_try_quota; [done..|].
  book_with wp_book_repay.
  change (pool (upd_sc _ _ _)) with (pool w). rewrite cpu_g.repay_eq by done.
  destruct Hr as (HI & _). pose proof (inv_pool _ HI) as (?&?&?&?&?). destruct HI as (_ & _ & Hb).
  unfold cpu_g.lows, cpu_g.low, cpu_g.imbalance, cpu_g.wf in *; simpl. split_and!; wrap_lia.
Qed.

End Bookings.

(** ** The amounts *)

Lemma dbl_to_u64_range x z : dbl_to_u64 x = Some z → is_u64 z.
Proof.
  unfold dbl_to_u64. destruct (dtrunc x); [|done]. case_bool_decide; [|done]. by intros [= <-].
Qed.

(** The part of the missing share a container is offered is never more than
    what is missing, whatever the rounding. *)
Lemma share_lacking_bound fair slice rx :
  0 ≤ rx < fair → fair < 9007199254740992 →
  ∃ a, share_lacking fair slice rx = Some a ∧ 0 ≤ a ≤ fair - rx.
Proof.
  intros Hrx Hf. unfold share_lacking. rewrite u64_small by wrap_lia.
  destruct (Z.ltb_spec (slice / 2) (fair - rx)); [|exists (fair - rx); split; [done|lia]].
  rewrite dsub_exact by lia. apply dbl_le_to_u64; [|lia].
  apply dmul_down; [apply ddiv_at_most_one; lia|lia].
Qed.
(** A gap of more than half a slice is closed by at least [1 / 2^j] of itself
    when it is at least [1 / 2^j] of the fair share; a smaller one is closed. *)
Lemma share_lacking_progress fair slice rx j a :
  0 ≤ rx < fair → fair < 9007199254740992 → 0 ≤ j ≤ 53 → fair ≤ (slice / 2) * 2 ^ j →
  share_lacking fair slice rx = Some a →
  if slice / 2 <? fair - rx then (fair - rx) / 2 ^ j ≤ a else a = fair - rx.
Proof.
  intros Hrx Hf Hj Hs. unfold share_lacking. rewrite u64_small by wrap_lia.
  pose proof (pow2_pos j ltac:(lia)).
  destruct (Z.ltb_spec (slice / 2) (fair - rx)); [|intros [=]; done].
  rewrite dsub_exact by lia. apply (dbl_ge_trunc (-157)); [lia..|]. apply (dmul_at_least (-105)); [lia| | |lia|lia].
  - apply ddiv_at_most_one; lia.
  - apply ddiv_at_least; nia.
Qed.
Lemma four_fifths_bound rx :
  0 ≤ rx < 9007199254740992 → ∃ z, four_fifths rx = Some z ∧ 0 ≤ z ≤ rx - rx / 8.
Proof.
  intros Hrx. unfold four_fifths. apply dbl_le_to_u64; [|Z.div_mod_to_equations; lia].
  destruct (decide (rx = 0)) as [->|]; [done|].
  replace (dsub d1 d_0p2) with (S754_finite false 7205759403792794 (-53)) by (vm_compute; done).
  apply dmul_scaled; [lia|Z.div_mod_to_equations; lia|lia|].
  change (2 ^ (- (-53))) with 9007199254740992. Z.div_mod_to_equations. lia.
Qed.

(** ** The policy

    What the controller means to do, as a function of what it knows, in
    unbounded arithmetic except for the four amounts that are computed in
    floating point: the quota to request, if any. *)
Definition unless_equal (q rx : Z) : option Z := if q =? rx then None else Some q.
Definition target_fair (fair slice unalloc rx : Z) : option Z :=
  if 0 <? unalloc then a ← fair_to_add fair slice unalloc rx; Some (rx + a)
  else a ← share_lacking fair slice rx; Some (rx + a).
Definition target_throttled (slice unalloc rx : Z) (thr_mean : double) : option Z :=
  z ← throttle_extra slice unalloc thr_mean; unless_equal (rx + z) rx.
Definition target_unused (slice rx : Z) : option Z :=
  z ← four_fifths rx; unless_equal (Z.max slice z) rx.
Definition target (idle : bool) (c : cpu_g.cpu) (fair rx rt_mean : Z) (thr_mean unused : double) : option Z :=
  let unalloc := cpu_g.unallocated_rt c in
  let overrun := cpu_g.overrun c in
  let slice := cpu_g.slice_size c in
  if idle && (0 <? unalloc) then unless_equal (Z.min unalloc 100000000) rx
  else if (0 <? overrun) && (fair <? rx) then t ← overrun_to_sub fair slice overrun rx; Some (rx - t)
  else if (rx <? fair) && dlt d_0p5 thr_mean then target_fair fair slice unalloc rx
  else if dle d_0p1 thr_mean && (0 <? unalloc) then target_throttled slice unalloc rx thr_mean
  else if dlt d_0p2 unused && (slice <=? rx) then target_unused slice rx
  else if (MAX_UNUSED_RT_IN_NS <? rt_mean) && (slice <? rx)
  then unless_equal (Z.max slice (rx - MAX_UNUSED_RT_IN_NS)) rx
  else None.

(** ** The branches *)
Section Branches.
Context {ENV : Env}.
Implicit Types (w : World) (s : SubContainer).

Abbreviation unalloc_of w := (cpu_g.unallocated_rt (pool w)).
Abbreviation overrun_of w := (cpu_g.overrun (pool w)).
Abbreviation slice_of w := (cpu_g.slice_size (pool w)).
Abbreviation fair_of w := (fair_cpu_share (w_ec w)).

(** What the theorems about one adjustment assume of the numbers: the reported
    quota is allocated, the fair share is in range, the slice is at least 5ms
    (it is 30ms unless it was resized), working off the overrun
    does not take more than the container has, topping up a small gap does not
    take more than the pool has, and the throttle bonus is a number. *)
Record adjust_ok w (rx : Z) (thr_mean : double) : Prop := {
  ok_rx : 0 ≤ rx ≤ cpu_g.alloc_rt (pool w);
  ok_fair : 0 ≤ fair_of w < 4503599627370496;
  ok_slice : MAX_UNUSED_RT_IN_NS ≤ slice_of w;
  ok_overrun : 0 < overrun_of w → fair_of w < rx →
    ∃ t, overrun_to_sub (fair_of w) (slice_of w) (overrun_of w) rx = Some t ∧ t ≤ rx;
  ok_topup : rx < fair_of w → 0 < unalloc_of w → fair_of w - rx ≤ slice_of w / 2 →
    fair_of w - rx ≤ unalloc_of w;
  ok_throttle : 0 < unalloc_of w → ∃ z, throttle_extra (slice_of w) (unalloc_of w) thr_mean = Some z;
}.

Lemma overrun_to_sub_range fair slice overrun rx t :
  0 ≤ overrun → overrun_to_sub fair slice overrun rx = Some t → 0 ≤ t ≤ overrun.
Proof.
  intros Ho. unfold overrun_to_sub.
  destruct (if dlt d1 _ then _ else _) as [z|] eqn:E; simpl; [|done]. intros [= <-].
  assert (is_u64 z) by (destruct (dlt d1 _); by eapply dbl_to_u64_range).
  pose proof (u64_is_u64 (rx - fair)). destruct (z <? slice / 2); wrap_unfold; lia.
Qed.
Lemma throttle_extra_range slice unalloc thr z :
  0 ≤ unalloc → throttle_extra slice unalloc thr = Some z → 0 ≤ z ≤ unalloc.
Proof.
  intros Hu. unfold throttle_extra. destruct (dbl_to_u64 _) as [y|] eqn:E; simpl; [|done].
  intros [= <-]. apply dbl_to_u64_range in E. wrap_unfold. lia.
Qed.
Lemma fair_to_add_range fair slice unalloc rx :
  0 ≤ rx < fair → fair < 9007199254740992 → 0 ≤ unalloc →
  (fair - rx ≤ slice / 2 → fair - rx ≤ unalloc) →
  ∃ a, fair_to_add fair slice unalloc rx = Some a ∧ 0 ≤ a ≤ unalloc ∧ a ≤ fair - rx.
Proof.
  intros Hrx Hf Hu Hgap. destruct (share_lacking_bound fair slice rx Hrx Hf) as (a & Ha & ?).
  unfold fair_to_add. rewrite Ha; simpl. rewrite u64_small by wrap_lia.
  destruct (Z.ltb_spec (slice / 2) (fair - rx)); eexists; (split; [done|]); lia.
Qed.

Section Adjusted.
Variables (w : World) (sc : loc) (s : SubContainer) (ac : AgentClient.AgentClient) (seq rx : Z)
  (thr_mean : double) (F : failure → World → Prop).
Hypothesis Hr : ready w sc s ac.
Hypothesis Hok : adjust_ok w rx thr_mean.

Lemma counters : 0 ≤ unalloc_of w < 4503599627370496 ∧ 0 ≤ cpu_g.alloc_rt (pool w) < 4503599627370496 ∧
  0 ≤ overrun_of w < 4503599627370496 ∧ is_u64 (slice_of w).
Proof.
  destruct Hr as (HI & Hsm & _). destruct (small_counters _ HI Hsm) as (?&?&?&?).
  by destruct (inv_pool _ HI).
Qed.

Lemma branch_idle_adjusts :
  wp (branch_idle rx seq sc)
    (λ _ w', adjusted ac seq sc s rx (unless_equal (Z.min (unalloc_of w) 100000000) rx) w w') F w.
Proof.
  destruct counters as (?&?&?&?). destruct (ok_rx _ _ _ Hok). unfold branch_idle. ww.
  change (get_cpu_unallocated_rt (w_ec w)) with (unalloc_of w).
  set (nq := Z.min (unalloc_of w) 100000000). unfold when.
  unfold unless_equal. destruct (Z.eqb_spec nq rx) as [->|Hne].
  { rewrite Z.sub_diag. change (0 <? u64 0) with false. cbv iota. rewrite wp_ret. by apply adjusted_refl. }
  destruct (Z.ltb_spec 0 (u64 (nq - rx))); [|wrap_lia].
  destruct (decide (rx ≤ nq)).
  - rewrite u64_small by wrap_lia. apply take_adjusts; [done|wrap_lia..].
  - apply take_wrapped_adjusts; [done|wrap_lia|lia..].
Qed.

Lemma branch_overrun_adjusts :
  0 < overrun_of w → fair_of w < rx →
  wp (branch_overrun rx seq sc) (λ _ w', adjusted ac seq sc s rx
    (t ← overrun_to_sub (fair_of w) (slice_of w) (overrun_of w) rx; Some (rx - t)) w w') F w.
Proof.
  intros Ho Hf. destruct counters as (?&?&?&?). destruct (ok_rx _ _ _ Hok).
  destruct (ok_overrun _ _ _ Hok Ho Hf) as (t & Ht & Hle). unfold branch_overrun. ww.
  change (overrun_to_sub _ _ _ _) with (overrun_to_sub (fair_of w) (slice_of w) (overrun_of w) rx).
  rewrite wp_defined, Ht. cbn [mbind option_bind]. apply overrun_to_sub_range in Ht; [|lia].
  rewrite u64_small by wrap_lia. apply repay_adjusts; [done|wrap_lia|lia..].
Qed.

Lemma branch_fair_adjusts :
  rx < fair_of w → wp (branch_fair rx seq sc) (λ _ w', adjusted ac seq sc s rx
    (target_fair (fair_of w) (slice_of w) (unalloc_of w) rx) w w') F w.
Proof.
  intros Hlt. destruct counters as (?&?&?&?). destruct (ok_rx _ _ _ Hok), (ok_fair _ _ _ Hok).
  unfold branch_fair, target_fair. ww.
  change (get_cpu_unallocated_rt (w_ec w)) with (unalloc_of w).
  change (get_fair_cpu_share (w_ec w)) with (fair_of w). change (get_cpu_slice (w_ec w)) with (slice_of w).
  destruct (Z.ltb_spec 0 (unalloc_of w)) as [Hu|Hu].
  - destruct (fair_to_add_range (fair_of w) (slice_of w) (unalloc_of w) rx) as (a & Ha & ? & ?);
      [lia..|by apply (ok_topup _ _ _ Hok)|].
    ww. rewrite wp_defined, Ha. cbn [mbind option_bind]. rewrite u64_small by wrap_lia. apply take_adjusts; [done|wrap_lia|lia|done].
  - destruct (share_lacking_bound (fair_of w) (slice_of w) rx) as (a & Ha & ?); [lia..|].
    ww. rewrite wp_defined, Ha. cbn [mbind option_bind]. rewrite u64_small by wrap_lia.
    apply lend_adjusts; [done|wrap_lia|unfold cpu_g.low; lia|done].
Qed.

Lemma branch_throttled_adjusts :
  0 < unalloc_of w →
  wp (branch_throttled rx thr_mean seq sc) (λ _ w', adjusted ac seq sc s rx
    (target_throttled (slice_of w) (unalloc_of w) rx thr_mean) w w') F w.
Proof.
  intros Hu. destruct counters as (?&?&?&?). destruct (ok_rx _ _ _ Hok).
  destruct (ok_throttle _ _ _ Hok Hu) as (z & Hz). unfold branch_throttled, target_throttled. ww.
  change (throttle_extra _ _ _) with (throttle_extra (slice_of w) (unalloc_of w) thr_mean).
  rewrite wp_defined, Hz. cbn [mbind option_bind]. apply throttle_extra_range in Hz; [|lia].
  unfold when, unless_equal. destruct (Z.ltb_spec 0 z), (Z.eqb_spec (rx + z) rx); try lia;
    [|rewrite wp_ret; by apply adjusted_refl].
  rewrite u64_small by wrap_lia. apply take_adjusts; [done|wrap_lia|lia|done].
Qed.

Lemma shrink_to_adjusts new_quota :
  slice_of w ≤ rx → 0 ≤ new_quota ≤ rx →
  wp (shrink_to rx new_quota seq sc)
    (λ _ w', adjusted ac seq sc s rx (unless_equal (Z.max (slice_of w) new_quota) rx) w w') F w.
Proof.
  intros Hsl Hn. destruct counters as (?&?&?&?). destruct (ok_rx _ _ _ Hok). unfold shrink_to. ww.
  change (get_cpu_slice (w_ec w)) with (slice_of w). unfold when, unless_equal.
  destruct (Z.eqb_spec (Z.max (slice_of w) new_quota) rx); simpl; [rewrite wp_ret; by apply adjusted_refl|].
  apply give_adjusts; [done|wrap_unfold; lia..].
Qed.

Lemma branch_unused_adjusts :
  slice_of w ≤ rx →
  wp (branch_unused rx seq sc) (λ _ w', adjusted ac seq sc s rx (target_unused (slice_of w) rx) w w') F w.
Proof.
  intros Hsl. destruct counters as (?&?&?&?). destruct (ok_rx _ _ _ Hok).
  destruct (four_fifths_bound rx) as (z & Hz & ?); [lia|]. unfold branch_unused, target_unused. ww.
  rewrite wp_defined, Hz. cbn [mbind option_bind]. pose proof (Z.div_pos rx 8 ltac:(lia) ltac:(lia)). apply shrink_to_adjusts; done || lia.
Qed.

(** The last branch is entered with an average of more than 5ms left over; the
    subtraction of 5ms wraps around when the quota itself is smaller. *)
Lemma branch_slack_adjusts :
  slice_of w < rx → wp (branch_slack rx seq sc) (λ _ w', adjusted ac seq sc s rx
    (unless_equal (Z.max (slice_of w) (rx - MAX_UNUSED_RT_IN_NS)) rx) w w') F w.
Proof.
  intros Hsl. destruct counters as (?&?&?&?). destruct (ok_rx _ _ _ Hok). unfold branch_slack.
  pose proof (ok_slice _ _ _ Hok).
  unfold MAX_UNUSED_RT_IN_NS in *. rewrite u64_small by wrap_lia. apply shrink_to_adjusts; lia.
Qed.

Lemma report_adjust_adjusts idle_flag rt_mean req :
  rsrc_amnt req = rx →
  wp (report_adjust idle_flag rt_mean thr_mean req seq sc) (λ _ w', adjusted ac seq sc s rx
    (target idle_flag (pool w) (fair_of w) rx rt_mean thr_mean (percent_decr req)) w w') F w.
Proof.
  intros Hrx. unfold report_adjust, target. rewrite Hrx. ww.
  change (get_cpu_unallocated_rt (w_ec w)) with (unalloc_of w).
  change (get_fair_cpu_share (w_ec w)) with (fair_of w). change (get_cpu_slice (w_ec w)) with (slice_of w).
  change (get_overrun (w_ec w)) with (overrun_of w).
  destruct (idle_flag && (0 <? unalloc_of w)); [by apply branch_idle_adjusts|].
  destruct ((0 <? overrun_of w) && (fair_of w <? rx)) eqn:E1.
  { apply andb_true_iff in E1 as [?%Z.ltb_lt ?%Z.ltb_lt]. by apply branch_overrun_adjusts. }
  destruct ((rx <? fair_of w) && dlt d_0p5 thr_mean) eqn:E2.
  { apply andb_true_iff in E2 as [?%Z.ltb_lt _]. by apply branch_fair_adjusts. }
  destruct (dle d_0p1 thr_mean && (0 <? unalloc_of w)) eqn:E3.
  { apply andb_true_iff in E3 as [_ ?%Z.ltb_lt]. by apply branch_throttled_adjusts. }
  destruct (dlt d_0p2 (percent_decr req) && (slice_of w <=? rx)) eqn:E4.
  { apply andb_true_iff in E4 as [_ ?%Z.leb_le]. by apply branch_unused_adjusts. }
  destruct ((MAX_UNUSED_RT_IN_NS <? rt_mean) && (slice_of w <? rx)) eqn:E5.
  { apply andb_true_iff in E5 as [_ ?%Z.ltb_lt]. by apply branch_slack_adjusts. }
  rewrite wp_ret. by apply adjusted_refl.
Qed.

End Adjusted.
End Branches.

(** ** The stages before the adjustment *)
Section Stages.
Context {ENV : Env}.
Implicit Types (w : World) (s : SubContainer).

(** The means a report leads to; [None]: the mean does not fit [uint64_t]. *)
Definition rt_mean_of (req : msg_t) s : option Z :=
  '(m, _) ← Window.insert (dbl_of_Z (runtime_remaining req)) (cpu_l.rt_winstats (cpu s)); dbl_to_u64 m.
Definition thr_mean_of (req : msg_t) s : option double :=
  '(m, _) ← Window.insert (dbl_of_Z (u32 (request req - cpu_l.nr_throttled (cpu s)))) (cpu_l.th_winstats (cpu s));
  Some m.

(** What the stages leave alone of a container. *)
Definition same_account s s' : Prop :=
  c_id s' = c_id s ∧ inserted s' = inserted s ∧ get_quota s' = get_quota s.
Definition same_windows s s' : Prop :=
  cpu_l.rt_winstats (cpu s') = cpu_l.rt_winstats (cpu s) ∧
  cpu_l.th_winstats (cpu s') = cpu_l.th_winstats (cpu s) ∧
  cpu_l.nr_throttled (cpu s') = cpu_l.nr_throttled (cpu s) ∧
  quota_mismatch_counter s' = quota_mismatch_counter s.

Lemma upd_sc_upd_sc sc s1 s2 w : upd_sc sc s2 (upd_sc sc s1 w) = upd_sc sc s2 w.
Proof. unfold upd_sc, upd_heap; simpl. by rewrite insert_insert_eq. Qed.

Lemma ready_upd w sc s s' ac :
  ready w sc s ac → same_account s s' → cpu_l.wf (cpu s') →
  ready (upd_sc sc s' w) sc s' ac ∧ drift (upd_sc sc s' w) = drift w.
Proof.
  intros (HI & Hsm & Hs & Hin & Hac) (Hc & Hi & Hq) Hw.
  destruct (inv_step w (upd_sc sc s' w) sc s s') as [HI' Hd]; try done.
  { exact (inv_pool w HI). } { by rewrite Hc. } { apply HI. }
  split; [|rewrite Hq in Hd; change (pool (upd_sc sc s' w)) with (pool w) in Hd; lia].
  unfold ready, served in *. rewrite Hc, Hi. split_and!; try done; [apply upd_sc_lookup|apply Hac..].
Qed.

Lemma wp_report_seen now req sc s ac Q F w :
  ready w sc s ac → is_u64 (cpustat_seq_num req) →
  (∀ s', same_account s s' → same_windows s s' → cpu_l.wf (cpu s') → last_seen_ts s' = now →
     cpu_l.seq_num (cpu s') = cpustat_seq_num req →
     Q (check_if_idle now s) (upd_sc sc s' w)) →
  wp (report_seen now req sc) Q F w.
Proof.
  intros Hr Hn HQ. destruct (ready_cpu _ _ _ _ Hr) as [(?&?&?&?&?) _]. destruct Hr as (_ & _ & Hs & _).
  unfold report_seen. ww. rewrite !upd_sc_upd_sc. unfold when.
  destruct (Z.eqb_spec (get_seq_num (incr_cpustat_seq_num (update_last_seen_ts now s))) (cpustat_seq_num req)) as [E|E];
    simpl negb; cbv iota; ww; rewrite ?upd_sc_upd_sc; apply HQ; try done; split_and!; try done;
    simpl; auto using u64_is_u64.
Qed.

Lemma wp_report_leak Q F w :
  Inv w → small_pool w → -4611686018427387904 ≤ cpuleak w ≤ 0 →
  Q tt (upd_cpuleak (cpuleak w - cpu_g.overrun (pool w)) w) →
  wp report_leak Q F w.
Proof.
  intros HI Hsm Hl HQ. destruct (small_counters _ HI Hsm) as (?&?&?&?). destruct HI as (_ & _ & Hb).
  unfold report_leak. ww. unfold cpu_g.imbalance, small_pool in *.
  unfold get_alloc_rt, get_cpu_unallocated_rt, get_total_cpu, cpu_g.get_alloc_rt, cpu_g.get_unallocated_rt,
    cpu_g.get_total_cpu. fold (pool w).
  rewrite u64_small by wrap_lia. rewrite (i64_small (cpu_g.total_cpu _)) by wrap_lia.
  rewrite (i64_small (cpu_g.alloc_rt _ + _)) by wrap_lia.
  replace (cpu_g.total_cpu (pool w) - _) with (- cpu_g.overrun (pool w)) by lia.
  rewrite (i64_small (- _)) by wrap_lia. rewrite i64_small by wrap_lia. rewrite Z.add_opp_r.
  unfold when, MAX_CPU_LOSS_IN_NS. destruct (Z.leb_spec 1000 (cpuleak w - cpu_g.overrun (pool w))); [lia|].
  by ww.
Qed.

Lemma wp_report_stats req sc s rt thr Q F w :
  w_heap w !! sc = Some s → cpu_l.wf (cpu s) → is_u32 (request req) →
  rt_mean_of req s = Some rt → thr_mean_of req s = Some thr →
  (∀ s', same_account s s' → cpu_l.wf (cpu s') → Q (rt, thr) (upd_sc sc s' w)) →
  wp (report_stats req sc) Q F w.
Proof.
  intros Hs (Hq & Hn & Ht & Hrw & Htw) Hreq Hrt Hthr HQ. unfold rt_mean_of, thr_mean_of in *.
  destruct (cpu_l.insert_window_wf _ (dbl_of_Z (runtime_remaining req)) Hrw) as (m1 & w1 & E1 & Hw1).
  destruct (cpu_l.insert_window_wf _ (dbl_of_Z (u32 (request req - cpu_l.nr_throttled (cpu s)))) Htw)
    as (m2 & w2 & E2 & Hw2).
  rewrite E1 in Hrt. rewrite E2 in Hthr. simpl in Hrt, Hthr. injection Hthr as ->.
  unfold report_stats, insert_rt_stats, insert_th_stats, cpu_l.insert_rt_stats, cpu_l.insert_th_stats,
    cpu_l.get_throttle_increase. ww. rewrite wp_defined, E1. simpl. rewrite Hrt. simpl. ww.
  rewrite wp_defined. cbn -[dbl_of_Z u32]. rewrite E2. simpl. ww. rewrite upd_sc_upd_sc.
  apply HQ; [done|]. by split_and!.
Qed.

Lemma wp_report_mismatch_ok rx sc s Q F w :
  w_heap w !! sc = Some s → rx / 1000 = get_quota s / 1000 →
  Q true w → wp (report_mismatch rx sc) Q F w.
Proof.
  intros Hs Hm HQ. unfold report_mismatch. ww. rewrite (proj2 (Z.eqb_eq _ _) Hm); simpl. by ww.
Qed.

(** What a report comes to, seen from before it: at most one request, for the
    reporting container; its answer decides whether anything is booked. *)
Definition settled (ac : AgentClient.AgentClient) (seq : Z) (sc : loc) s (rx : Z) (oq : option Z) w w' : Prop :=
  match oq with
  | None => w_trace w' = w_trace w ∧ pool w' = pool w ∧ quota_at (w_heap w') sc = get_quota s
  | Some q =>
      is_u64 q ∧ w_trace w' = EvQuota (AgentClient.get_agent_ip ac) (quota_request s q seq) :: w_trace w ∧
      if quota_answer w s ac q seq =? 0
      then quota_at (w_heap w') sc = q ∧ cpu_g.alloc_rt (pool w') - cpu_g.alloc_rt (pool w) = q - rx
      else pool w' = pool w ∧ quota_at (w_heap w') sc = get_quota s
  end.

Lemma adjusted_drift ac seq sc s rx oq w w' :
  ready w sc s ac → adjusted ac seq sc s rx oq w w' →
  drift w' = drift w ∨ drift w' - drift w = get_quota s - rx.
Proof.
  intros (HI & _ & Hs & Hin & _) (_ & (Hsub & _) & _ & _ & _ & Hoq).
  destruct oq as [q|]; [|subst w'; by left]. destruct Hoq as (_ & s' & _ & Hh & _ & _ & Ha).
  unfold drift. rewrite Hsub, Hh.
  destruct HI as (_ & [Hnd _] & _).
  destruct (_ =? 0).
  - right. rewrite (quotas_update _ _ _ s s') by done. lia.
  - left. destruct Ha as [-> ->]. by rewrite insert_id.
Qed.

Lemma adjusted_settled ac seq sc s s0 rx oq w w0 w' :
  adjusted ac seq sc s rx oq w w' → w_heap w !! sc = Some s →
  same_account s0 s → pool w = pool w0 → w_trace w = w_trace w0 → settled ac seq sc s0 rx oq w0 w'.
Proof.
  intros (_ & _ & _ & _ & _ & Hor) Hs (Hc & _ & Hq) Hp Ht.
  assert (Hqa : ∀ q, quota_answer w s ac q seq = quota_answer w0 s0 ac q seq).
  { intros q. unfold quota_answer, quota_request. by rewrite Hc, Hq, Ht. }
  assert (Hreq : ∀ q, quota_request s q seq = quota_request s0 q seq).
  { intros q. unfold quota_request. by rewrite Hc, Hq. }
  destruct oq as [q|]; simpl in *; [destruct Hor as (Hqw & s' & Htr & Hh & _ & _ & Ha)|subst w'].
  2: { split_and!; try done. unfold quota_at. by rewrite Hs, Hq. }
  - rewrite Hqa in Ha. unfold quota_at. rewrite Hh, lookup_insert_eq, <-Hp.
    split_and!; [done| |].
    + rewrite Htr. simpl. by rewrite Hreq, Ht.
    + destruct (_ =? 0); [done|]. destruct Ha as [-> ->]. by rewrite Hq.
Qed.

(** An outcome depends on the container's id and quota, the pool and what was
    sent before. *)
Lemma settled_cong ac seq sc s s1 rx oq w w1 w' :
  c_id s1 = c_id s → get_quota s1 = get_quota s → w_trace w1 = w_trace w → pool w1 = pool w →
  settled ac seq sc s1 rx oq w1 w' → settled ac seq sc s rx oq w w'.
Proof.
  intros Hc Hq Ht Hp H. destruct oq as [q|]; simpl in *; rewrite <-Hq, <-Hp; [|by rewrite <-Ht].
  assert (quota_request s q seq = quota_request s1 q seq) as E by (unfold quota_request; by rewrite Hc, Hq).
  unfold quota_answer in *. rewrite E, <-Ht. exact H.
Qed.

(** ** Claims: reports *)

(** What is assumed of the world and of a report that agrees with the recorded
    quota (to the microsecond). *)
Record report_hyps (req : msg_t) w (sc : loc) s (ac : AgentClient.AgentClient) (rt : Z) (thr : double) : Prop := {
  rh_ready : ready w sc s ac;
  rh_find : get_sc_for_update_back (ContainerId_of (Types.cgroup_id req) (client_ip req)) (w_ec w) = Ok sc;
  rh_type : req_type req = REQ_CPU;
  rh_msg : msg_wf req;
  rh_match : rsrc_amnt req / 1000 = get_quota s / 1000;
  rh_leak : -4611686018427387904 ≤ cpuleak w ≤ 0;
  rh_rt : rt_mean_of req s = Some rt;
  rh_thr : thr_mean_of req s = Some thr;
  rh_ok : adjust_ok w (rsrc_amnt req) thr;
}.

(** The second half of the handler, once the quotas agree or have been brought
    to agree. *)
Definition report_outcome (req : msg_t) (seq : Z) (sc : loc) s (ac : AgentClient.AgentClient) (oq : option Z) w w' : Prop :=
  Inv w' ∧ same_tables w w' ∧ settled ac seq sc s (rsrc_amnt req) oq w w' ∧
  (drift w' = drift w ∨ drift w' - drift w = get_quota s - rsrc_amnt req) ∧
  cpu_g.total_cpu (pool w') = cpu_g.total_cpu (pool w) ∧
  cpuleak w' = cpuleak w - cpu_g.overrun (pool w) ∧
  syscall_sequence_number w' = i64 (syscall_sequence_number w + 1).
Lemma wp_report_rest idle req res w sc s ac rt thr seq :
  ready w sc s ac → msg_wf req → -4611686018427387904 ≤ cpuleak w ≤ 0 →
  rt_mean_of req s = Some rt → thr_mean_of req s = Some thr → adjust_ok w (rsrc_amnt req) thr →
  wp (report_leak ;;
      '(rt_mean, thr_mean) ← report_stats req sc;
      report_adjust idle rt_mean thr_mean req seq sc ;;
      modify (λ w, upd_seqno (i64 (syscall_sequence_number w + 1)) w) ;;
      mret (ALLOC_SUCCESS, with_request 1 res))
    (λ a w', a = (ALLOC_SUCCESS, with_request 1 res) ∧ report_outcome req seq sc s ac
      (target idle (pool w) (fair_cpu_share (w_ec w)) (rsrc_amnt req) rt thr (percent_decr req)) w w') never w.
Proof.
  intros Hr (?&?&?&?&?&?&?&?) Hleak Hrt Hthr Hok. rewrite wp_bind.
  apply wp_report_leak; [apply Hr|apply Hr|done|]. set (wl := upd_cpuleak _ _). rewrite wp_bind.
  apply (wp_report_stats _ _ s rt thr); [apply Hr|apply (ready_cpu _ _ _ _ Hr)|done..|].
  intros s2 Ha2 Hcw2. assert (Hrl : ready wl sc s ac) by exact Hr.
  destruct (ready_upd _ _ _ s2 _ Hrl Ha2 Hcw2) as [Hr2 Hd2]. rewrite wp_bind.
  eapply wp_mono; [apply (report_adjust_adjusts (upd_sc sc s2 wl) sc s2 ac _ (rsrc_amnt req) thr never);
    [done|by destruct Hok|done]| |done].
  intros [] w' Hadj. ww. split; [done|].
  pose proof (adjusted_drift _ _ _ _ _ _ _ _ Hr2 Hadj) as Hdr.
  assert (Hset : settled ac seq sc s (rsrc_amnt req)
      (target idle (pool w) (fair_cpu_share (w_ec w)) (rsrc_amnt req) rt thr (percent_decr req)) w w').
  { eapply adjusted_settled; [exact Hadj|apply Hr2|exact Ha2|done..]. }
  destruct Ha2 as (_ & _ & Hq2). destruct Hadj as (HI' & Hst & Hsq & Hlk & Htot & _).
  split; [exact HI'|]. split; [exact Hst|]. split; [exact Hset|].
  change (drift (upd_seqno _ w')) with (drift w'). split;
    [|split_and!; [exact Htot|exact Hlk|exact (f_equal (λ z, i64 (z + 1)) Hsq)]].
  change (drift wl) with (drift w) in Hd2. rewrite Hq2, Hd2 in Hdr. exact Hdr.
Qed.

Lemma report_spec now req res w sc s ac rt thr :
  report_hyps req w sc s ac rt thr →
  ∃ w', handle_cpu_usage_report now req res w = (Ok (ALLOC_SUCCESS, with_request 1 res), w') ∧
    report_outcome req (u32 (syscall_sequence_number w)) sc s ac
      (target (check_if_idle now s) (pool w) (fair_cpu_share (w_ec w)) (rsrc_amnt req) rt thr (percent_decr req)) w w'.
Proof.
  intros [Hr Hfind Htype Hmsg Hmatch Hleak Hrt Hthr Hok].
  enough (Hwp : wp (handle_cpu_usage_report now req res) (λ a w', a = (ALLOC_SUCCESS, with_request 1 res) ∧
    report_outcome req (u32 (syscall_sequence_number w)) sc s ac
      (target (check_if_idle now s) (pool w) (fair_cpu_share (w_ec w)) (rsrc_amnt req) rt thr (percent_decr req)) w w')
    never w).
  { apply wp_never_inv in Hwp as (a & w' & Hrun & -> & ?). by exists w'. }
  unfold handle_cpu_usage_report. rewrite Htype. simpl negb. cbv iota.
  rewrite wp_bind. unfold ec_find at 1, wp at 1. rewrite Hfind. rewrite wp_bind.
  apply (wp_report_seen _ _ _ s ac); [done|by destruct Hmsg as (?&?&?&?&?&?&?&?)|].
  intros s1 Ha1 (Hw1 & Hw2 & Hw3 & _) Hcw1 _ _.
  destruct (ready_upd _ _ _ s1 _ Hr Ha1 Hcw1) as [Hr1 Hd1]. rewrite wp_bind, wp_gets, wp_bind.
  pose proof Ha1 as (Hc1 & Hi1 & Hq1).
  apply (wp_report_mismatch_ok _ _ s1); [apply Hr1|by rewrite Hq1|]. simpl negb. cbv iota.
  eapply wp_mono; [apply (wp_report_rest _ _ _ _ _ s1 ac rt thr); [done..| | |by destruct Hok]| |done].
  { unfold rt_mean_of in *. by rewrite Hw1. } { unfold thr_mean_of in *. by rewrite Hw2, Hw3. }
  intros a w' (-> & HI & Hst & Hset & Hd & Ht & Hl & Hsq). split; [done|]. split_and!; try done.
  - by apply (settled_cong _ _ _ s s1 _ _ w (upd_sc sc s1 w)).
  - rewrite Hd1, Hq1 in Hd. exact Hd.
Qed.

End Stages.
End ManagerCpu.
