(* ===== verification/CpuPolicy.v ===== *)
(** * The CPU policy in exact arithmetic ([src/Manager.cpp], 146-294)

    What [handle_cpu_usage_report] means to ask for, written without its
    computation: the branches and amounts over the integers and rationals, with
    the error that [double] arithmetic may make stated as a tolerance. The
    amounts the handler computes are shown to be within it. *)
From Stdlib Require Import QArith Lqa SpecFloat.
From S2P Require Import Prelude OmNet Float64 FloatError Window LocalStats SubContainer Agents CpuG MemG.
From S2P Require Import ElasticContainer World Types ECAPI ManagerCpu.
Import SubContainer ElasticContainer ECAPI ManagerCpu.
#[local] Open Scope Z_scope.

Module CpuPolicy.

(** The quotient of two integers. *)
Definition ratio (a b : Z) : Q := (inject_Z a / inject_Z b)%Q.

(** What a container [over] its fair share repays of the overrun: its excess,
    as a share of the fair share, times the slice or (up to twice the fair
    share) times the excess; all of the excess if that is less than half a
    slice; never more than the overrun. *)
Definition repays (fair slice overrun rx t : Z) : Prop :=
  let over := rx - fair in
  ∃ z, about z (ratio over fair * inject_Z (if fair <? over then slice else over)) ∧
    t = Z.min overrun (if z <? slice / 2 then over else z).

(** What a throttled container below its fair share gets: what it lacks, if
    that is at most half a slice; otherwise the part of it that it lacks of
    the fair share, and no more than the pool holds, unless that is empty. *)
Definition tops_up (fair slice unalloc rx a : Z) : Prop :=
  let lacking := fair - rx in
  if slice / 2 <? lacking then
    ∃ z, about z (ratio lacking fair * inject_Z lacking) ∧ z ≤ lacking ∧
      a = (if 0 <? unalloc then Z.min unalloc z else z)
  else a = lacking.

(** Whether more than a fifth of the quota was left over; at the threshold
    itself rounding decides. *)
Definition fifth_unused (remaining rx : Z) (b : bool) : Prop :=
  0 < rx < 9007199254740992 → 0 ≤ remaining < 9007199254740992 →
    ((1 # 5) < (1 - 8 * ulp) * ratio remaining rx → b = true)%Q ∧
    ((1 + 8 * ulp) * ratio remaining rx < (1 # 5) → b = false)%Q.

(** The quota to ask for: for a container that was idle, one that works off the
    overrun, one below or above the fair share that was throttled, one that
    leaves more than a fifth unused and one that leaves more than 5 ms unused
    on average. *)
Definition policy (idle : bool) (c : cpu_g.cpu) (fair rx remaining rt_mean : Z) (thr_mean : double)
    (oq : option Z) : Prop :=
  let unalloc := cpu_g.unallocated_rt c in
  let overrun := cpu_g.overrun c in
  let slice := cpu_g.slice_size c in
  ∃ unused, fifth_unused remaining rx unused ∧
  if idle && (0 <? unalloc) then oq = unless_equal (Z.min unalloc 100000000) rx
  else if (0 <? overrun) && (fair <? rx) then ∃ t, repays fair slice overrun rx t ∧ oq = Some (rx - t)
  else if (rx <? fair) && dlt d_0p5 thr_mean then ∃ a, tops_up fair slice unalloc rx a ∧ oq = Some (rx + a)
  else if dle d_0p1 thr_mean && (0 <? unalloc) then
    ∃ z, about z ((20 # 1) * dq thr_mean * inject_Z slice) ∧ oq = unless_equal (rx + Z.min unalloc z) rx
  else if unused && (slice <=? rx) then ∃ z, about z ((4 # 5) * inject_Z rx) ∧ oq = unless_equal (Z.max slice z) rx
  else if (5000000 <? rt_mean) && (slice <? rx) then oq = unless_equal (Z.max slice (rx - 5000000)) rx
  else oq = None.

(** ** The amounts the handler computes *)

Lemma ratio_nonneg a b : 0 ≤ a → 0 < b → (0 <= ratio a b)%Q.
Proof.
  intros. unfold ratio. apply Qle_shift_div_l; [rewrite <-(Zlt_Qlt 0); lia|]. rewrite Qmult_0_l, <-(Zle_Qle 0). lia.
Qed.

(** An infinite factor makes the conversion undefined. *)
Lemma infinite_undefined n :
  0 < n < 18446744073709551616 → dbl_to_u64 (dmul (S754_infinity false) (dbl_of_Z n)) = None.
Proof. intros Hn. destruct (dbl_of_Z_near n Hn) as [Hj|[(m & e & Hj & _) _]]; by rewrite Hj. Qed.
Lemma share_about a b n z :
  0 < a < 9007199254740992 → 0 < b < 9007199254740992 → 0 < n < 18446744073709551616 →
  dbl_to_u64 (dmul (ddiv (dbl_of_Z a) (dbl_of_Z b)) (dbl_of_Z n)) = Some z → about z (ratio a b * inject_Z n).
Proof.
  intros Ha Hb Hn Hz. destruct (ddiv_near a b Ha Hb) as [Hi|[Hp Hv]].
  - by rewrite Hi, infinite_undefined in Hz.
  - apply (scaled_about (-105) 3 (ddiv (dbl_of_Z a) (dbl_of_Z b))); try done. apply ratio_nonneg; lia.
Qed.

Lemma dlt_one a b :
  0 < a < 4503599627370496 → 0 < b < 4503599627370496 →
  ddiv (dbl_of_Z a) (dbl_of_Z b) ≠ S754_infinity false → dlt d1 (ddiv (dbl_of_Z a) (dbl_of_Z b)) = (b <? a).
Proof.
  intros Ha Hb Hni. destruct (ddiv_near a b ltac:(lia) ltac:(lia)) as [?|[Hp _]]; [done|].
  assert (Hd1 : normal (-52) d1) by apply (dbl_of_Z_value 1 ltac:(lia)).
  assert (dq d1 == 1)%Q as E1 by apply (dbl_of_Z_value 1 ltac:(lia)). destruct (Z.ltb_spec b a) as [Hlt|Hge].
  - apply (dlt_value _ _ _ _ Hd1 Hp). rewrite E1. apply ddiv_above_one; lia.
  - apply not_true_is_false. intros H%(dlt_value _ _ _ _ Hd1 Hp). rewrite E1 in H.
    pose proof (dbl_le_value _ _ (ddiv_at_most_one a b ltac:(lia) ltac:(lia))) as H'. change (inject_Z 1) with 1%Q in H'. lra.
Qed.

Lemma overrun_to_sub_repays fair slice overrun rx t :
  0 ≤ fair < rx → rx < 4503599627370496 → 0 < slice < 18446744073709551616 →
  overrun_to_sub fair slice overrun rx = Some t → repays fair slice overrun rx t.
Proof.
  intros Hf Hrx Hs. unfold overrun_to_sub. rewrite u64_small by wrap_lia. rewrite dsub_exact by lia.
  destruct (decide (fair = 0)) as [->|].
  { assert (ddiv (dbl_of_Z (rx - 0)) (dbl_of_Z 0) = S754_infinity false) as -> by (rewrite dbl_of_Z_exact by lia; done).
    change (dlt d1 (S754_infinity false)) with true. cbv iota. by rewrite infinite_undefined. }
  destruct (ddiv_near (rx - fair) fair) as [Hi|[(m & e & Hi & _) _]]; [lia..| |].
  { rewrite Hi. change (dlt d1 (S754_infinity false)) with true. cbv iota. by rewrite infinite_undefined. }
  rewrite dlt_one by (lia || by rewrite Hi). clear Hi. unfold repays. cbv zeta.
  destruct (fair <? rx - fair); (destruct (dbl_to_u64 _) as [z|] eqn:Hz; simpl; [|done]); intros [= <-]; exists z;
    (split; [|done]); (eapply share_about; [..|exact Hz]; lia).
Qed.

Lemma share_lacking_tops_up fair slice unalloc rx a :
  0 ≤ rx < fair → fair < 4503599627370496 →
  (if 0 <? unalloc then fair_to_add fair slice unalloc rx else share_lacking fair slice rx) = Some a →
  tops_up fair slice unalloc rx a.
Proof.
  intros Hrx Hf. destruct (share_lacking_bound fair slice rx) as (b & Hb & Hle); [lia..|].
  unfold tops_up, fair_to_add. rewrite Hb. revert Hb. unfold share_lacking. rewrite u64_small by wrap_lia.
  rewrite dsub_exact by lia. destruct (slice / 2 <? fair - rx); cbn [mbind option_bind].
  - intros Hb Ha. exists b. split; [eapply share_about; [..|exact Hb]; lia|]. split; [lia|].
    destruct (0 <? unalloc); by injection Ha.
  - intros [= <-] Ha. by destruct (0 <? unalloc); injection Ha.
Qed.

Lemma throttle_extra_about slice unalloc thr x :
  0 < slice < 18446744073709551616 → dle d_0p1 thr = true → throttle_extra slice unalloc thr = Some x →
  ∃ z, about z ((20 # 1) * dq thr * inject_Z slice) ∧ x = Z.min unalloc z.
Proof.
  intros Hs Hle. unfold throttle_extra. destruct (dbl_to_u64 _) as [z|] eqn:Hz; simpl; [|done]. intros [= <-].
  exists z. split; [|done].
  assert (H20 : normal (-52) (dbl_of_Z 20)) by apply (dbl_of_Z_value 20 ltac:(lia)).
  assert (E20 : (dq (dbl_of_Z 20) == 20 # 1)%Q) by apply (dbl_of_Z_value 20 ltac:(lia)).
  assert (thr = S754_infinity false ∨ positive_from (-56) thr) as [->|Hp].
  { unfold dle, SFleb, SFcompare in Hle. revert Hle. destruct thr as [?|[]| |[] m e]; try done; [by left|].
    intros Hle. right. exists m, e. split; [done|]. revert Hle. change d_0p1 with (S754_finite false 7205759403792794 (-56)).
    cbv iota beta. zstd. destruct (Z.compare_spec (-56) e); [lia|lia|done]. }
  { exfalso. revert Hz. change (dmul (dbl_of_Z 20) (S754_infinity false)) with (S754_infinity false).
    by rewrite infinite_undefined. }
  assert (0 <= dq thr)%Q by (by eapply dq_nonneg).
  destruct (dmul_near _ _ _ _ H20 Hp) as [Hi|[Hn Hv]]; [lia| |].
  { by rewrite Hi, infinite_undefined in Hz. }
  eapply (scaled_about (-108) 1); [exact Hn| |done|nra|lia|done|exact Hz].
  revert Hv. apply near_eq; [reflexivity|]. by rewrite E20.
Qed.

Lemma four_fifths_about rx z :
  0 ≤ rx < 9007199254740992 → four_fifths rx = Some z → about z ((4 # 5) * inject_Z rx).
Proof.
  intros Hrx Hz. destruct (decide (rx = 0)) as [->|].
  { injection Hz as <-. by vm_compute. }
  unfold four_fifths in Hz. replace (dsub d1 d_0p2) with (S754_finite false 7205759403792794 (-53)) in Hz by (vm_compute; done).
  set (c := S754_finite false 7205759403792794 (-53)) in *.
  assert (Hc : normal (-53) c) by (eexists _, _; split; [done|lia]).
  destruct (dbl_of_Z_value rx ltac:(lia)) as [Hn Ev]. assert (0 < inject_Z rx)%Q by (rewrite <-(Zlt_Qlt 0); lia).
  destruct (dmul_near _ _ _ _ Hn (normal_positive _ _ Hc)) as [Hi|[Hm Hv]]; [lia|by rewrite Hi in Hz|].
  eapply (near_about 3); [|exact Hm|done|nra|exact Hz]. apply (near_trans 1 1 _ _ (dq (dbl_of_Z rx) * dq c)); [done| |nra|done..].
  assert (near 1 (dq c) (4 # 5)) as Hc' by (split; by vm_compute).
  apply (near_scale _ _ _ (inject_Z rx)) in Hc'; [|lra]. revert Hc'. apply near_eq; [rewrite Ev; ring|reflexivity].
Qed.

Lemma percent_decr_fifth req :
  fifth_unused (runtime_remaining req) (rsrc_amnt req) (dlt d_0p2 (percent_decr req)).
Proof.
  intros Hrx Hrem. unfold percent_decr.
  assert (i64 (i64 (rsrc_amnt req) - i64 (i64 (rsrc_amnt req) - i64 (runtime_remaining req))) = runtime_remaining req) as ->.
  { rewrite (i64_small (rsrc_amnt req)), (i64_small (runtime_remaining req)) by wrap_lia. rewrite !i64_small; wrap_lia. }
  set (y := ddiv _ _). assert (Hd : normal (-55) d_0p2).
  { change d_0p2 with (S754_finite false 7205759403792794 (-55)). eexists _, _. split; [done|lia]. }
  assert (near 1 (dq d_0p2) (1 # 5)) as [Hd1 Hd2] by (split; by vm_compute).
  pose proof (ratio_nonneg (runtime_remaining req) (rsrc_amnt req) ltac:(lia) ltac:(lia)) as Hr.
  destruct (Z.eq_dec (runtime_remaining req) 0) as [E0|].
  { assert (y = S754_zero false) as ->.
    { unfold y. rewrite E0. destruct (dbl_of_Z_value (rsrc_amnt req) Hrx) as [(m & e & Hm & _) _]. by rewrite Hm. }
    split; [|done]. rewrite E0. unfold ratio, Qdiv. rewrite Qmult_0_l, Qmult_0_r. by intros ?%Qlt_not_le. }
  destruct (ddiv_near (runtime_remaining req) (rsrc_amnt req)) as [Hi|[Hp [H1 H2]]]; [lia..| |].
  { fold y in Hi. rewrite Hi. split; [done|]. intros Hlt. exfalso.
    destruct (Z.le_gt_cases (runtime_remaining req) (rsrc_amnt req)) as [Hle|Hgt].
    - pose proof (ddiv_at_most_one (runtime_remaining req) (rsrc_amnt req) ltac:(lia) ltac:(lia)) as H.
      fold y in H. by rewrite Hi in H.
    - assert (1 <= ratio (runtime_remaining req) (rsrc_amnt req))%Q; [|unfold ulp in *; lra].
      unfold ratio. apply Qle_shift_div_l; [rewrite <-(Zlt_Qlt 0); lia|]. rewrite Qmult_1_l, <-Zle_Qle. lia. }
  fold y in Hp, H1, H2. fold (ratio (runtime_remaining req) (rsrc_amnt req)) in H1, H2. unfold ulp in *. split.
  - intros Hlt. apply (dlt_value _ _ _ _ Hd Hp). lra.
  - intros Hlt. apply not_true_is_false. intros H%(dlt_value _ _ _ _ Hd Hp). lra.
Qed.

(** ** The handler's policy is this one *)
Section Target.
Context {ENV : Env}.

Lemma target_policy idle req w sc s ac rt thr :
  ready w sc s ac → adjust_ok w (rsrc_amnt req) thr →
  policy idle (pool w) (fair_cpu_share (w_ec w)) (rsrc_amnt req) (runtime_remaining req) rt thr
    (target idle (pool w) (fair_cpu_share (w_ec w)) (rsrc_amnt req) rt thr (percent_decr req)).
Proof.
  intros Hr Hok. destruct (counters w sc s ac Hr) as (?&?&?&Hsl). destruct (ok_rx _ _ _ Hok), (ok_fair _ _ _ Hok).
  pose proof (ok_slice _ _ _ Hok) as Hsl'. unfold MAX_UNUSED_RT_IN_NS, is_u64 in *.
  exists (dlt d_0p2 (percent_decr req)). split; [apply percent_decr_fifth|]. unfold target.
  destruct (idle && _); [done|].
  destruct ((0 <? cpu_g.overrun (pool w)) && (fair_cpu_share (w_ec w) <? rsrc_amnt req)) eqn:E1.
  { apply andb_true_iff in E1 as [Ho%Z.ltb_lt Hf%Z.ltb_lt]. destruct (ok_overrun _ _ _ Hok Ho Hf) as (t & Ht & _).
    rewrite Ht. exists t. split; [|done].
    apply overrun_to_sub_repays; [lia|lia|lia|done]. }
  destruct ((rsrc_amnt req <? fair_cpu_share (w_ec w)) && dlt d_0p5 thr) eqn:E2.
  { apply andb_true_iff in E2 as [Hlt%Z.ltb_lt _]. unfold target_fair.
    destruct (share_lacking_bound (fair_cpu_share (w_ec w)) (cpu_g.slice_size (pool w)) (rsrc_amnt req)) as (b & Hb & _); [lia..|].
    assert (∃ a, (if 0 <? cpu_g.unallocated_rt (pool w) then fair_to_add (fair_cpu_share (w_ec w)) (cpu_g.slice_size (pool w))
      (cpu_g.unallocated_rt (pool w)) (rsrc_amnt req) else share_lacking (fair_cpu_share (w_ec w)) (cpu_g.slice_size (pool w))
      (rsrc_amnt req)) = Some a) as [a Ha].
    { unfold fair_to_add. rewrite Hb. destruct (0 <? cpu_g.unallocated_rt (pool w)); simpl; eauto. }
    exists a. split; [apply share_lacking_tops_up; [lia|lia|done]|]. destruct (0 <? cpu_g.unallocated_rt (pool w)); by rewrite Ha. }
  destruct (dle d_0p1 thr && (0 <? cpu_g.unallocated_rt (pool w))) eqn:E3.
  { apply andb_true_iff in E3 as [Hd Hu%Z.ltb_lt]. destruct (ok_throttle _ _ _ Hok Hu) as (x & Hx).
    unfold target_throttled. rewrite Hx. apply throttle_extra_about in Hx as (z & Hz & ->); [|lia|done]. by exists z. }
  destruct (dlt d_0p2 (percent_decr req) && _); [|unfold MAX_UNUSED_RT_IN_NS; by destruct ((5000000 <? rt) && _)].
  destruct (four_fifths_bound (rsrc_amnt req)) as (z & Hz & _); [lia|]. unfold target_unused. rewrite Hz.
  exists z. split; [apply four_fifths_about; [lia|done]|done].
Qed.
End Target.

End CpuPolicy.
