(* ===== verification/CpuTheorems.v ===== *)
(** * What the CPU handlers guarantee

    The theorems about [handle_cpu_usage_report] and
    [check_for_idle_containers], each with an instance on a concrete world. *)
From S2P Require Import Prelude OmNet Float64 Window LocalStats SubContainer Agents CpuG MemG.
From S2P Require Import ElasticContainer World Types ECAPI Demo ManagerCpu CpuPolicy.
Import SubContainer ElasticContainer ECAPI ManagerCpu CpuPolicy.

Module CpuTheorems.
Section Claims.
Context {ENV : Env}.

(** C2: a usage report that agrees with the recorded quota to the microsecond
    is answered (the handler returns success and marks the reply), and
    afterwards the pool still balances (allocated plus free is the total plus
    the overrun), every queued container is still alive under its own id, the
    total is unchanged, and the allocation has drifted from the sum of the
    quotas by less than a microsecond, not at all when the report is exact. The
    leak counter only moves down, so the leak correction does not fire.

    This is under [report_hyps]: the books balance before, the container is
    queued and inserted, has an agent whose call is read before it is deleted,
    total plus overrun and the fair share are below 2^52 ns, the reported quota
    is at most the allocation, the slice is at least 5 ms, the leak counter is
    between -2^62 and 0, both window means are defined; and, where the report
    takes that branch: working off the overrun takes no more than the reported
    quota, a gap to the fair share of at most half a slice is covered by the
    pool, the throttle bonus is a 64-bit number. Without the last three the
    pool need not balance: [topup_overdraws], [overrun_request_wraps]. *)
Theorem report_conserves (now : Z) (req res : msg_t) (w : World) (sc : loc) (s : SubContainer)
    (ac : AgentClient.AgentClient) (rt : Z) (thr : double)
    (H : report_hyps req w sc s ac rt thr) :
  ∃ w', handle_cpu_usage_report now req res w = (Ok (ALLOC_SUCCESS, with_request 1 res), w') ∧
    Inv w' ∧ cpu_g.total_cpu (pool w') = cpu_g.total_cpu (pool w) ∧
    Z.abs (drift w' - drift w) < 1000 ∧ (rsrc_amnt req = get_quota s → drift w' = drift w) ∧
    cpuleak w' ≤ cpuleak w.
Proof.
  pose proof H as [Hr _ _ _ Hm _ _ _ Hok].
  destruct (report_spec now req res w sc s ac rt thr H) as (w' & Hrun & HI & _ & _ & Hd & Ht & Hl & _).
  destruct (counters w sc s ac Hr) as (_ & _ & ? & _). destruct (ok_rx _ _ _ Hok).
  exists w'. split_and!; try done; [|lia..]. Z.div_mod_to_equations. lia.
Qed.

(** C3: under the assumptions of [report_conserves] the handler carries out the
    policy of [CpuPolicy.policy], which gives the quota to ask for in exact
    arithmetic, up to the rounding of [double] (eight parts in 2^52 and the
    conversion to an integer). When the policy asks for nothing, no request is
    sent and pool and quota stay; when it asks for a quota, exactly one request
    is sent, for that quota, to the agent of the reporting container, with the
    manager's sequence number. Nothing is booked unless the status code that is
    read right after the call was started is 0 (which is not the agent's answer:
    see [Agents.quota_read]); if it is, the recorded quota is the one that was
    requested and the allocation moves by its difference to the reported quota.
    The container table, the agents, the fair share and the memory pool are
    untouched. *)
Theorem report_follows_policy (now : Z) (req res : msg_t) (w : World) (sc : loc) (s : SubContainer)
    (ac : AgentClient.AgentClient) (rt : Z) (thr : double)
    (H : report_hyps req w sc s ac rt thr) :
  let w' := (handle_cpu_usage_report now req res w).2 in
  same_tables w w' ∧
  ∃ oq, policy (check_if_idle now s) (pool w) (fair_cpu_share (w_ec w)) (rsrc_amnt req) (runtime_remaining req) rt thr oq ∧
  match oq with
  | None => w_trace w' = w_trace w ∧ pool w' = pool w ∧ quota_at (w_heap w') sc = get_quota s
  | Some q =>
      let rq := quota_request s q (u32 (syscall_sequence_number w)) in
      is_u64 q ∧ w_trace w' = EvQuota (AgentClient.get_agent_ip ac) rq :: w_trace w ∧
      ∃ code, quota_read (w_trace w) (AgentClient.get_agent_ip ac) rq = Some code ∧
      if i32 code =? 0
      then quota_at (w_heap w') sc = q ∧
           cpu_g.alloc_rt (pool w') - cpu_g.alloc_rt (pool w) = q - rsrc_amnt req
      else pool w' = pool w ∧ quota_at (w_heap w') sc = get_quota s
  end.
Proof.
  destruct (report_spec now req res w sc s ac rt thr H) as (w' & Hrun & _ & Hst & Hset & _).
  rewrite Hrun. split; [done|]. destruct H as [Hr _ _ _ _ _ _ _ Hok].
  eexists. split; [by apply (target_policy _ _ _ sc s ac)|]. unfold settled, quota_answer in Hset.
  destruct (target _ _ _ _ _ _ _) as [q|]; [|exact Hset]. destruct Hset as (Hq & Ht & Hset).
  split; [exact Hq|]. split; [exact Ht|]. apply quota_status_read; [apply Hr|exact Hset].
Qed.

(** ** Disagreement about the quota *)

Lemma wp_report_mismatch_bad rx sc s Q F w :
  w_heap w !! sc = Some s → rx / 1000 ≠ get_quota s / 1000 → quota_mismatch_counter s ≤ 2 →
  Q false (upd_sc sc (incr_quota_mismatch_counter s).2 w) → wp (report_mismatch rx sc) Q F w.
Proof.
  intros Hs Hm Hc HQ. unfold report_mismatch. ww. rewrite (proj2 (Z.eqb_neq _ _) Hm); simpl negb; cbv iota. ww.
  change ((fst ∘ incr_quota_mismatch_counter) s) with (quota_mismatch_counter s).
  destruct (Z.ltb_spec 2 (quota_mismatch_counter s)); [lia|]. ww. exact HQ.
Qed.

(** Rewriting a container's statistics keeps the books. *)
Lemma recorded_inv w sc s s' ac :
  ready w sc s ac → same_account s s' → cpu_l.wf (cpu s') → Inv (upd_sc sc s' w) ∧ drift (upd_sc sc s' w) = drift w.
Proof.
  intros (HI & _ & Hs & Hin & _) (Hc & _ & Hq) Hwf.
  destruct (inv_step w (upd_sc sc s' w) sc s s') as [HI' Hd]; try done; [exact (inv_pool w HI)|by rewrite Hc|apply HI|].
  split; [done|]. change (pool (upd_sc sc s' w)) with (pool w) in Hd. lia.
Qed.

(** A report that disagrees with the recorded quota, early on: only the
    container's bookkeeping of reports changes. *)
Record mismatch_hyps (req : msg_t) (w : World) (sc : loc) (s : SubContainer) (ac : AgentClient.AgentClient) : Prop := {
  mm_ready : ready w sc s ac;
  mm_find : get_sc_for_update_back (ContainerId_of (Types.cgroup_id req) (client_ip req)) (w_ec w) = Ok sc;
  mm_type : req_type req = REQ_CPU;
  mm_msg : msg_wf req;
  mm_mis : rsrc_amnt req / 1000 ≠ get_quota s / 1000;
  mm_count : 0 ≤ quota_mismatch_counter s ≤ 2;
}.
Lemma wp_mismatch now req res w sc s ac :
  mismatch_hyps req w sc s ac →
  wp (handle_cpu_usage_report now req res) (λ a w', a = (ALLOC_SUCCESS, with_request 1 res) ∧
    ∃ s', w' = upd_sc sc s' w ∧ same_account s s' ∧ cpu_l.wf (cpu s') ∧
    quota_mismatch_counter s' = quota_mismatch_counter s + 1 ∧
    cpu_l.rt_winstats (cpu s') = cpu_l.rt_winstats (cpu s) ∧
    cpu_l.th_winstats (cpu s') = cpu_l.th_winstats (cpu s) ∧
    last_seen_ts s' = now ∧ cpu_l.seq_num (cpu s') = cpustat_seq_num req) never w.
Proof.
  intros [Hr Hfind Htype (?&?&?&?&?&?&?&?) Hmis Hcount].
  unfold handle_cpu_usage_report. rewrite Htype. simpl negb. cbv iota.
  rewrite wp_bind. unfold ec_find at 1, wp at 1. rewrite Hfind. rewrite wp_bind.
  apply (wp_report_seen _ _ _ s ac); [done..|]. intros s1 (Hc1 & Hi1 & Hq1) (Hw1 & Hw2 & Hw3 & Hw4) Hwf Hts Hsq.
  ww. apply (wp_report_mismatch_bad _ _ s1); [apply upd_sc_lookup|by rewrite Hq1|lia|].
  simpl negb. cbv iota. rewrite wp_ret. split; [done|]. rewrite upd_sc_upd_sc.
  eexists. split; [reflexivity|]. rewrite <-Hw1, <-Hw2, <-Hw4.
  split_and!; try done. simpl. rewrite Hw4. wrap_lia.
Qed.

(** As long as a container has disagreed with the recorded quota at
    most three times, such a report is answered at once: no request is sent,
    the pool, the quota and the windows stay as they are, and only the
    disagreement is counted. *)
Theorem mismatch_only_counts (now : Z) (req res : msg_t) (w : World) (sc : loc) (s : SubContainer)
    (ac : AgentClient.AgentClient) (H : mismatch_hyps req w sc s ac) :
  ∃ s', handle_cpu_usage_report now req res w = (Ok (ALLOC_SUCCESS, with_request 1 res), upd_sc sc s' w) ∧
    quota_mismatch_counter s' = quota_mismatch_counter s + 1 ∧ get_quota s' = get_quota s ∧
    cpu_l.rt_winstats (cpu s') = cpu_l.rt_winstats (cpu s) ∧
    cpu_l.th_winstats (cpu s') = cpu_l.th_winstats (cpu s) ∧
    last_seen_ts s' = now ∧ cpu_l.seq_num (cpu s') = cpustat_seq_num req ∧
    Inv (upd_sc sc s' w) ∧ drift (upd_sc sc s' w) = drift w.
Proof.
  pose proof (wp_mismatch now req res w sc s ac H) as Hwp.
  apply wp_never_inv in Hwp as (a & w' & Hrun & -> & s' & -> & Hacc & Hwf & ?). exists s'.
  destruct (recorded_inv w sc s s' ac (mm_ready _ _ _ _ _ H) Hacc Hwf). destruct Hacc as (_ & _ & ?).
  split_and!; tauto.
Qed.

(** ** Giving in to the container *)

(** The container and the pool after the fourth disagreement. *)
Definition resynced (rx : Z) (s : SubContainer) : SubContainer :=
  reset_quota_mismatch_counter (flush (set_quota rx (incr_quota_mismatch_counter s).2)).
Definition resync_pool (d : Z) (c : cpu_g.cpu) : cpu_g.cpu :=
  cpu_g.Cpu (cpu_g.slice_size c) (cpu_g.unallocated_rt c - d) (cpu_g.total_cpu c) (cpu_g.overrun c) (cpu_g.alloc_rt c + d).
Definition resync (rx : Z) (sc : loc) (s : SubContainer) (w : World) : World :=
  booked sc (resynced rx s) (resync_pool (rx - get_quota s) (pool w)) w.
(** The pool can cover an increase and the allocation a decrease. *)
Record resync_ok (rx : Z) (w : World) (s : SubContainer) : Prop := {
  ro_rx : is_u64 rx;
  ro_mis : rx / 1000 ≠ get_quota s / 1000;
  ro_count : 2 < quota_mismatch_counter s;
  ro_down : rx < get_quota s → get_quota s ≤ cpu_g.alloc_rt (pool w);
  ro_up : get_quota s < rx → rx - get_quota s ≤ cpu_g.unallocated_rt (pool w);
}.

Lemma run_resync rx w sc s ac : ready w sc s ac → resync_ok rx w s →
  report_mismatch rx sc w = (Ok true, resync rx sc s w).
Proof.
  intros Hr [Hrx Hmis Hcount Hdown Hup].
  pose proof (ready_cpu _ _ _ _ Hr) as [(Hq&?&?&?&?) _]. pose proof (ready_lows _ _ _ _ Hr) as Hl.
  destruct Hr as (HI & Hsm & Hs & Hin & Hac). pose proof (inv_pool _ HI) as (?&?&?&?&?).
  change (cpu_l.quota (cpu s)) with (get_quota s) in Hq. unfold cpu_g.lows, cpu_g.low in Hl.
  enough (Hwp : wp (report_mismatch rx sc) (λ a w', a = true ∧ w' = resync rx sc s w) never w)
    by (apply wp_never_inv in Hwp as (? & ? & ? & -> & ->); done).
  unfold report_mismatch. ww. rewrite (proj2 (Z.eqb_neq _ _) Hmis); simpl negb; cbv iota. ww.
  change ((fst ∘ incr_quota_mismatch_counter) s) with (quota_mismatch_counter s).
  destruct (Z.ltb_spec 2 (quota_mismatch_counter s)) as [_|]; [|lia]. unfold report_resync. ww.
  change (get_quota _) with (get_quota s).
  destruct (Z.ltb_spec rx (get_quota s)); ww; (split; [done|]).
  all: unfold resync, resync_pool, booked, upd_sc, upd_heap, upd_ec, incr_alloc_rt, decr_alloc_rt, incr_unallocated_rt,
    decr_unallocated_rt, on_cpu, with_cpu; cbn [w_ec w_heap w_acdb syscall_sequence_number cpuleak w_trace
    ec_id subcontainers sc_ac_map fair_cpu_share _mem _cpu]; rewrite !insert_insert_eq; fold (pool w).
  all: f_equal; f_equal; rewrite u64_small by wrap_lia.
  - rewrite cpu_g.decr_alloc_rt_eq. unfold cpu_g.incr_unalloacted_rt; simpl.
    rewrite cpu_g.sat_sub_small, u64_small by wrap_lia. unfold cpu_g.set_unallocated_rt; simpl.
    f_equal; wrap_unfold; lia.
  - rewrite cpu_g.take_eq by (done || lia). reflexivity.
Qed.
Lemma resync_ready rx w sc s ac : ready w sc s ac → resync_ok rx w s →
  ready (resync rx sc s w) sc (resynced rx s) ac ∧ drift (resync rx sc s w) = drift w ∧ same_tables w (resync rx sc s w).
Proof.
  intros Hr [Hrx Hmis Hcount Hdown Hup].
  pose proof (ready_cpu _ _ _ _ Hr) as [(Hq&?&?&?&?) _]. pose proof (ready_lows _ _ _ _ Hr) as Hl.
  destruct Hr as (HI & Hsm & Hs & Hin & Hac). pose proof (inv_pool _ HI) as (?&?&?&?&?).
  change (cpu_l.quota (cpu s)) with (get_quota s) in Hq. unfold cpu_g.lows, cpu_g.low in Hl.
  destruct HI as (Hwf & Hok & Hb). assert (Hst : same_tables w (resync rx sc s w)) by done.
  destruct (inv_step w (resync rx sc s w) sc s (resynced rx s)) as [HI' Hd]; try done.
  { unfold cpu_g.wf, resync, resync_pool; simpl. split_and!; wrap_lia. }
  { apply cpu_l.flush_wf. by split_and!. }
  { unfold cpu_g.imbalance, resync, resync_pool in *; simpl. lia. }
  split; [|split; [|done]].
  - split_and!; [done|exact Hsm|apply lookup_insert_eq|done|exact Hac].
  - change (get_quota (resynced rx s)) with rx in Hd.
    change (cpu_g.alloc_rt (pool (resync rx sc s w))) with (cpu_g.alloc_rt (pool w) + (rx - get_quota s)) in Hd. lia.
Qed.

(** The fourth disagreement gives in to the container: its recorded
    quota becomes the reported one, the counter and the windows restart, and
    the difference is moved between the pool and the allocation, so that the
    pool balances and the allocation keeps following the quotas (provided the
    pool can cover an increase and the allocation a decrease). *)
Theorem mismatch_resyncs (rx : Z) (w : World) (sc : loc) (s : SubContainer) (ac : AgentClient.AgentClient)
    (Hr : ready w sc s ac) (Hrx : is_u64 rx)
    (Hmis : rx / 1000 ≠ get_quota s / 1000) (Hcount : 2 < quota_mismatch_counter s)
    (Hdown : rx < get_quota s → get_quota s ≤ cpu_g.alloc_rt (pool w))
    (Hup : get_quota s < rx → rx - get_quota s ≤ cpu_g.unallocated_rt (pool w)) :
  ∃ w', report_mismatch rx sc w = (Ok true, w') ∧ Inv w' ∧ drift w' = drift w ∧ same_tables w w' ∧
    w_trace w' = w_trace w ∧ cpu_g.alloc_rt (pool w') - cpu_g.alloc_rt (pool w) = rx - get_quota s ∧
    ∃ s', w_heap w' !! sc = Some s' ∧ get_quota s' = rx ∧ quota_mismatch_counter s' = 0.
Proof.
  assert (Hok : resync_ok rx w s) by done.
  destruct (resync_ready rx w sc s ac Hr Hok) as ((HI & _ & Hs' & _) & Hd & Hst).
  exists (resync rx sc s w). split_and!; try done; [by apply run_resync with ac|simpl; lia|].
  exists (resynced rx s). by split_and!.
Qed.

(** A report that disagrees for the fourth time; what is assumed of the rest of
    the handler concerns the container and the pool after giving in. *)
Record resync_hyps (req : msg_t) (w : World) (sc : loc) (s : SubContainer) (ac : AgentClient.AgentClient)
    (rt : Z) (thr : double) : Prop := {
  rs_ready : ready w sc s ac;
  rs_find : get_sc_for_update_back (ContainerId_of (Types.cgroup_id req) (client_ip req)) (w_ec w) = Ok sc;
  rs_type : req_type req = REQ_CPU;
  rs_msg : msg_wf req;
  rs_ok : resync_ok (rsrc_amnt req) w s;
  rs_leak : -4611686018427387904 ≤ cpuleak w ≤ 0;
  rs_rt : rt_mean_of req (resynced (rsrc_amnt req) s) = Some rt;
  rs_thr : thr_mean_of req (resynced (rsrc_amnt req) s) = Some thr;
  rs_adjust : adjust_ok (resync (rsrc_amnt req) sc s w) (rsrc_amnt req) thr;
}.
Lemma resync_spec now req res w sc s ac rt thr : resync_hyps req w sc s ac rt thr →
  let wr := resync (rsrc_amnt req) sc s w in
  ∃ w', handle_cpu_usage_report now req res w = (Ok (ALLOC_SUCCESS, with_request 1 res), w') ∧
    Inv w' ∧ drift w' = drift w ∧ same_tables w w' ∧
    settled ac (u32 (syscall_sequence_number w)) sc (resynced (rsrc_amnt req) s) (rsrc_amnt req)
      (target (check_if_idle now s) (pool wr) (fair_cpu_share (w_ec w)) (rsrc_amnt req) rt thr (percent_decr req)) wr w'.
Proof.
  intros [Hr Hfind Htype Hmsg Hok Hleak Hrt Hthr Hadj] wr.
  enough (Hwp : wp (handle_cpu_usage_report now req res) (λ a w', a = (ALLOC_SUCCESS, with_request 1 res) ∧
    Inv w' ∧ drift w' = drift w ∧ same_tables w w' ∧
    settled ac (u32 (syscall_sequence_number w)) sc (resynced (rsrc_amnt req) s) (rsrc_amnt req)
      (target (check_if_idle now s) (pool wr) (fair_cpu_share (w_ec w)) (rsrc_amnt req) rt thr (percent_decr req)) wr w')
    never w).
  { apply wp_never_inv in Hwp as (a & w' & Hrun & -> & ?). by exists w'. }
  unfold handle_cpu_usage_report. rewrite Htype. simpl negb. cbv iota.
  rewrite wp_bind. unfold ec_find at 1, wp at 1. rewrite Hfind. rewrite wp_bind.
  apply (wp_report_seen _ _ _ s ac); [done|by destruct Hmsg as (?&?&?&?&?&?&?&?)|].
  intros s1 Ha1 (Hw1 & Hw2 & Hw3 & Hcnt) Hcw1 _ _.
  destruct (ready_upd _ _ _ s1 _ Hr Ha1 Hcw1) as [Hr1 Hd1]. destruct Ha1 as (Hc1 & Hi1 & Hq1).
  assert (Hok1 : resync_ok (rsrc_amnt req) (upd_sc sc s1 w) s1).
  { destruct Hok. constructor; rewrite ?Hq1, ?Hcnt; done. }
  rewrite wp_bind, wp_gets, wp_bind. unfold wp at 1. rewrite (run_resync _ _ _ _ _ Hr1 Hok1). simpl negb. cbv iota.
  destruct (resync_ready _ _ _ _ _ Hr1 Hok1) as (Hr2 & Hd2 & Hst2).
  assert (Hpool : pool (resync (rsrc_amnt req) sc s1 (upd_sc sc s1 w)) = pool wr)
    by (change (resync_pool (rsrc_amnt req - get_quota s1) (pool w) = resync_pool (rsrc_amnt req - get_quota s) (pool w));
        by rewrite Hq1).
  eapply wp_mono; [apply (wp_report_rest _ _ _ _ _ (resynced (rsrc_amnt req) s1) ac rt thr); [done..| | |]| |done].
  { unfold rt_mean_of in *. simpl in *. by rewrite Hw1. }
  { unfold thr_mean_of in *. simpl in *. by rewrite Hw2, Hw3. }
  { destruct Hadj. constructor; rewrite ?Hpool; done. }
  rewrite Hpool. intros a w' (-> & HI & Hst & Hset & Hd & _). split_and!; try done.
  - change (get_quota (resynced (rsrc_amnt req) s1)) with (rsrc_amnt req) in Hd. lia.
  - by apply (settled_cong _ _ _ _ (resynced (rsrc_amnt req) s1) _ _ wr (resync (rsrc_amnt req) sc s1 (upd_sc sc s1 w))).
Qed.


(** ** Topping up and shrinking *)

(** A throttled container below its fair share is never raised above
    it: whatever the floating-point rounding of the percentage, both the top-up
    from the pool and the top-up on credit are computed without undefined
    behaviour and are at most what is missing. *)
Theorem topup_never_overshoots (fair slice unalloc rx : Z)
    (Hrx : 0 ≤ rx < fair) (Hfair : fair < 9007199254740992) (Hun : 0 ≤ unalloc) :
  ∃ a b, fair_to_add fair slice unalloc rx = Some a ∧ share_lacking fair slice rx = Some b ∧
    0 ≤ a ∧ u64 (rx + a) ≤ fair ∧ 0 ≤ b ∧ u64 (rx + b) ≤ fair.
Proof.
  destruct (share_lacking_bound fair slice rx Hrx Hfair) as (b & Hb & ?).
  eexists _, b. unfold fair_to_add. rewrite Hb; simpl. split; [reflexivity|]. split; [done|].
  destruct (_ <? _); wrap_lia.
Qed.

(** Giving back unused runtime never raises a quota and never takes
    it below the slice: the two shrinking branches ask for a quota between the
    slice and the reported one. *)
Theorem shrink_in_range (slice rx : Z) (Hslice : MAX_UNUSED_RT_IN_NS ≤ slice ≤ rx)
    (Hrx : rx < 9007199254740992) :
  ∃ z, four_fifths rx = Some z ∧ slice ≤ Z.max slice z ≤ rx ∧
    slice ≤ Z.max slice (u64 (rx - MAX_UNUSED_RT_IN_NS)) ≤ rx.
Proof.
  unfold MAX_UNUSED_RT_IN_NS in *. destruct (four_fifths_bound rx) as (z & Hz & ?); [lia|].
  pose proof (Z.div_pos rx 8 ltac:(lia) ltac:(lia)). exists z. split; [done|]. rewrite u64_small by wrap_lia. lia.
Qed.

(** C37: a small gap to the fair share (at most half a slice) is topped
    up without looking at the pool: when the pool holds less and the agent
    accepts, the difference is booked out of nothing and the pool no longer
    balances. *)
Theorem topup_overdraws (rx seq : Z) (w : World) (sc : loc) (s : SubContainer) (ac : AgentClient.AgentClient)
    (Hr : ready w sc s ac)
    (Hgap : 0 < cpu_g.unallocated_rt (pool w) < fair_cpu_share (w_ec w) - rx)
    (Hhalf : fair_cpu_share (w_ec w) - rx ≤ cpu_g.slice_size (pool w) / 2)
    (Hrx : 0 ≤ rx) (Hfair : fair_cpu_share (w_ec w) < 4503599627370496)
    (Hacc : quota_answer w s ac (fair_cpu_share (w_ec w)) seq = 0) :
  ∃ w', branch_fair rx seq sc w = (Ok tt, w') ∧ quota_at (w_heap w') sc = fair_cpu_share (w_ec w) ∧
    cpu_g.imbalance (pool w') = fair_cpu_share (w_ec w) - rx - cpu_g.unallocated_rt (pool w) ∧
    cpu_g.imbalance (pool w') ≠ 0.
Proof.
  pose proof (ready_lows _ _ _ _ Hr) as Hl. destruct Hr as (HI & Hsm & Hs & Hin & Hac).
  destruct HI as (_ & _ & Hb). set (fair := fair_cpu_share (w_ec w)) in *.
  set (s' := flush (set_quota fair (set_quota_flag true s))).
  set (c' := cpu_g.Cpu (cpu_g.slice_size (pool w)) 0 (cpu_g.total_cpu (pool w)) (cpu_g.overrun (pool w))
               (cpu_g.alloc_rt (pool w) + (fair - rx))).
  enough (Hwp : wp (branch_fair rx seq sc) (λ _ w', quota_at (w_heap w') sc = fair ∧ pool w' = c') never w).
  { apply wp_never_inv in Hwp as ([] & w' & Hrun & Hq & Hc). exists w'. rewrite Hc.
    unfold cpu_g.imbalance, c' in *; simpl. split_and!; [done|done|lia..]. }
  unfold branch_fair. ww. unfold cpu_g.lows, cpu_g.low in Hl.
  change (get_cpu_unallocated_rt (w_ec w)) with (cpu_g.unallocated_rt (pool w)).
  change (get_fair_cpu_share (w_ec w)) with fair. change (get_cpu_slice (w_ec w)) with (cpu_g.slice_size (pool w)).
  destruct (Z.ltb_spec 0 (cpu_g.unallocated_rt (pool w))); [|lia]. ww. rewrite wp_defined.
  unfold fair_to_add, share_lacking. rewrite !(u64_small (fair - rx)) by wrap_lia.
  destruct (Z.ltb_spec (cpu_g.slice_size (pool w) / 2) (fair - rx)); [lia|]. cbn -[u64].
  replace (rx + (fair - rx)) with fair by lia. rewrite (u64_small fair) by wrap_lia.
  unfold try_quota. rewrite wp_bind. erewrite wp_set_sc_quota_syscall by done. rewrite i32_quota_answer, Hacc.
  simpl negb. cbv iota. rewrite wp_bind, (wp_sc_do _ _ s) by done.
  erewrite wp_book_take by apply upd_sc_lookup.
  change (pool (upd_sc _ _ _)) with (pool w). split.
  { unfold booked, quota_at; simpl. by rewrite lookup_insert_eq. }
  unfold pool at 1. cbn [booked upd_ec w_ec with_cpu _cpu]. rewrite cpu_g.decr_unallocated_rt_eq, cpu_g.sat_sub_small by lia.
  unfold cpu_g.incr_alloc_rt, c'; simpl. rewrite u64_small by wrap_lia. f_equal; lia.
Qed.

(** ** Containers that stopped reporting *)
Section IdlePass.
Context {ORDER : HashOrder}.

(** The container a queue shows: the newest of its id. *)
Definition newest (w : World) (p : loc) : Prop :=
  ∃ k id q, subcontainers (w_ec w) !! k = Some (id, q) ∧ last q = Some p.

(** What a pass at [now] may do to one container: only the newest of an id, and
    only if idle, is moved to 30ms. *)
Definition idled (now : Z) (w : World) (p : loc) (s s' : SubContainer) : Prop :=
  c_id s' = c_id s ∧ inserted s' = inserted s ∧ last_seen_ts s' = last_seen_ts s ∧
  (get_quota s' = get_quota s ∨ newest w p ∧ check_if_idle now s = true ∧ get_quota s' = min_quota).

(** How the containers of a pass relate to those before it. *)
Definition passed (now : Z) (w w' : World) : Prop :=
  Inv w' ∧ same_tables w w' ∧ drift w' = drift w ∧
  cpu_g.total_cpu (pool w') = cpu_g.total_cpu (pool w) ∧
  cpu_g.overrun (pool w') = cpu_g.overrun (pool w) ∧
  (∀ p s', w_heap w' !! p = Some s' → ∃ s, w_heap w !! p = Some s ∧ idled now w p s s') ∧
  (∀ p s, w_heap w !! p = Some s → is_Some (w_heap w' !! p)).

(** If idle before the pass, container [p] holds 30ms. *)
Definition surrendered (now : Z) (w w' : World) (p : loc) : Prop :=
  ∀ s s', w_heap w !! p = Some s → w_heap w' !! p = Some s' → check_if_idle now s = true →
    get_quota s' = min_quota.

(** Every agent accepts every quota. *)
Definition agents_accept : Prop := ∀ tr ip rq, i32 (quota_status tr ip rq) = 0.

(** The newest container of every queue can be reached and holds at least
    30ms. *)
Definition idle_hyps (w : World) : Prop :=
  Inv w ∧ small_pool w ∧ 0 ≤ drift w ∧
  ∀ k id q p s, subcontainers (w_ec w) !! k = Some (id, q) → last q = Some p → w_heap w !! p = Some s →
    min_quota ≤ get_quota s ∧ ∃ ac, served w s ac.

Lemma passed_refl now w : Inv w → passed now w w.
Proof. intros. unfold passed, idled, same_tables. split_and!; try done; eauto 10. Qed.
Lemma wp_try_quota_cases w sc s ac q seq m Q F :
  w_heap w !! sc = Some s → served w s ac →
  (quota_answer w s ac q seq ≠ 0 → Q tt (quota_sent w s ac q seq)) →
  wp m Q F (upd_sc sc (set_quota_flag true s) (quota_sent w s ac q seq)) →
  wp (try_quota sc q seq m) Q F w.
Proof.
  intros Hs Hac Hno Hyes. unfold try_quota. rewrite wp_bind.
  erewrite wp_set_sc_quota_syscall by done. rewrite i32_quota_answer.
  destruct (Z.eqb_spec (quota_answer w s ac q seq) 0); simpl negb; cbv iota.
  - by rewrite wp_bind, (wp_sc_do _ _ s).
  - rewrite wp_ret. by apply Hno.
Qed.

(** One surrender of the surplus over 30ms: nothing happens, because the agent
    refuses, or container [sc] ends with 30ms. *)
Definition gave (w1 w2 : World) (sc : loc) : Prop :=
  (w_heap w2 = w_heap w1 ∧ (agents_accept → False)) ∨
  ∃ s', w_heap w2 = <[sc := s']> (w_heap w1) ∧ get_quota s' = min_quota.
Lemma surplus_given now w w1 sc s ac seq F :
  passed now w w1 → small_pool w → 0 ≤ drift w → ready w1 sc s ac → min_quota ≤ get_quota s →
  newest w sc → check_if_idle now s = true →
  wp (try_quota sc min_quota seq (book_give sc (u64 (get_quota s - min_quota)) min_quota))
     (λ _ w2, passed now w w2 ∧ gave w1 w2 sc) F w1.
Proof.
  intros Hp Hsm Hdr Hr Hq Hnew Hidle. pose proof Hp as (HI1 & Hst1 & Hd1 & Ht1 & Ho1 & Hh1 & Hh1').
  pose proof (ready_lows _ _ _ _ Hr) as Hl. pose proof (ready_cpu _ _ _ _ Hr) as [(?&?&?&?&?) _].
  destruct Hr as (_ & _ & Hs & Hin & Hac). destruct (quota_le_quotas _ _ _ _ (proj1 (proj2 HI1)) Hin Hs) as [_ Hle].
  assert (get_quota s ≤ cpu_g.alloc_rt (pool w1)) by (unfold drift in *; lia).
  apply (wp_try_quota_cases _ _ s ac); [done..|intros Hno; split; [exact Hp|left; split; [done|intros Hacc; apply Hno, Hacc]]|].
  erewrite wp_book_give by apply upd_sc_lookup. change (pool (upd_sc _ _ _)) with (pool w1).
  unfold cpu_g.lows, cpu_g.low, min_quota in *.
  rewrite u64_small by wrap_lia. rewrite cpu_g.give_eq by (unfold cpu_g.lows, cpu_g.low; lia).
  set (s' := flush _). set (c' := cpu_g.Cpu _ _ _ _ _). set (w2 := booked sc s' c' _).
  assert (Heap : w_heap w2 = <[sc := s']> (w_heap w1)) by apply insert_insert_eq.
  assert (Hcw : cpu_g.wf c').
  { destruct (inv_pool _ HI1) as (?&?&?&?&?). unfold cpu_g.wf, c'; simpl. split_and!; wrap_lia. }
  assert (Hw' : cpu_l.wf (cpu s')) by (apply cpu_l.flush_wf; split_and!; simpl; try done; wrap_lia).
  destruct (inv_step w1 w2 sc s s') as [HI2 Hd2]; try done.
  { destruct HI1 as (_ & _ & Hb). change (pool w2) with c'. unfold cpu_g.imbalance, c' in *; simpl. lia. }
  change (pool w2) with c' in Hd2. change (get_quota s') with 30000000 in Hd2.
  assert (cpu_g.alloc_rt c' = cpu_g.alloc_rt (pool w1) - (get_quota s - 30000000)) by done.
  split; [|right; by exists s']. split_and!; try done; [lia| |].
  - intros p t. rewrite Heap, lookup_insert. case_decide as Heq; [|by apply Hh1].
    intros [= <-]. subst p. destruct (Hh1 _ _ Hs) as (s0 & ? & ? & ? & Hls & ?). exists s0.
    unfold idled. split_and!; try done. right. split_and!; [done| |done]. by rewrite <- (check_if_idle_seen now s).
  - intros p t Hp0. rewrite Heap, lookup_insert. case_decide; [done|]. by eapply Hh1'.
Qed.

(** Containers that were brought to 30ms stay there. *)
Lemma gave_surrendered now w w1 w2 sc p :
  gave w1 w2 sc → surrendered now w w1 p → surrendered now w w2 p.
Proof.
  intros [[Heap _]|(s' & Heap & Hq)] H s t Hs; rewrite Heap; [by apply H|]. rewrite lookup_insert.
  case_decide; [by intros [= <-]|]. by apply H.
Qed.

Lemma idle_one_passes w w1 now seq k id q F :
  idle_hyps w → passed now w w1 → subcontainers (w_ec w) !! k = Some (id, q) →
  wp (idle_one now seq q) (λ _ w2, passed now w w2 ∧
    (∀ p, surrendered now w w1 p → surrendered now w w2 p) ∧
    (agents_accept → ∀ p, last q = Some p → surrendered now w w2 p)) F w1.
Proof.
  intros (HI & Hsm & Hdr & Hall) Hp Hk. pose proof Hp as (HI1 & Hst1 & _ & Ht1 & Ho1 & Hh1 & _).
  pose proof Hst1 as (Hsub & Hac & _ & _ & _).
  assert (Hk1 : subcontainers (w_ec w1) !! k = Some (id, q)) by (by rewrite Hsub).
  destruct (EcTable.queue_nonempty _ _ _ _ (proj1 HI1) Hk1) as [Hne _].
  destruct (last q) as [p|] eqn:Hlast; [|by apply last_None in Hlast].
  assert (Hpq : p ∈ q) by (by apply last_Some_elem_of).
  destruct (proj2 (proj1 (proj2 HI1)) _ _ _ _ Hk1 Hpq) as (s & Hs & _ & _).
  destruct (Hh1 _ _ Hs) as (s0 & Hs0 & Hc & Hi & Hls & Hq).
  destruct (Hall _ _ _ _ _ Hk Hlast Hs0) as (Hmin & ac & Hins & i & Hag).
  assert (Hsame : check_if_idle now s = check_if_idle now s0) by (by apply check_if_idle_seen).
  unfold idle_one. rewrite Hlast. ww. rewrite wp_defined. ww.
  destruct (check_if_idle now s) eqn:Hidle; simpl negb; cbv iota; cycle 1.
  { rewrite wp_ret. split_and!; [done..|]. intros _ p' [= <-] u v Hu. congruence. }
  ww. destruct (Z.eqb_spec (get_quota s) min_quota).
  { rewrite wp_ret. split_and!; [done..|]. intros _ p' [= <-] u v Hu. congruence. }
  ww. eapply wp_mono; [apply (surplus_given now w w1 p s ac seq F); try done| |done].
  - split_and!; try done.
    + unfold small_pool in *. lia.
    + apply elem_of_queued. eauto.
    + unfold served. rewrite Hc, Hi, Hac. eauto.
  - destruct Hq as [|(_ & _ & ?)]; lia.
  - by exists k, id, q.
  - intros _ w2 [Hp2 Hg]. rewrite wp_ret. split_and!; [done|intros; by eapply gave_surrendered|].
    intros Hacc p' [= <-] u v Hu. destruct Hg as [[_ []]|(s' & -> & Hq')]; [done|].
    rewrite lookup_insert_eq. by intros [= <-].
Qed.

Lemma wp_idle_pass now seq w :
  idle_hyps w → wp (check_for_idle_containers now seq) (λ _ w', passed now w w' ∧
    (agents_accept → ∀ p, newest w p → surrendered now w w' p)) never w.
Proof.
  intros H. unfold check_for_idle_containers. ww.
  eapply wp_mono; [apply (wp_mfold _ (λ l _ w', passed now w w' ∧ (agents_accept → ∀ k id q p,
    subcontainers (w_ec w) !! k = Some (id, q) → last q = Some p →
    (k, (id, q)) ∈ l ∨ surrendered now w w' p)))| |done].
  - split; [apply passed_refl, H|]. intros _ k id q p Hk _. left. rewrite iter_perm. by apply elem_of_map_to_list.
  - intros [k [id q]] l n w1 Hin [Hp Hl]. simpl. rewrite iter_perm in Hin. apply elem_of_map_to_list in Hin.
    eapply wp_mono; [by apply (idle_one_passes w w1 now n k id q never)| |done].
    intros _ w2 (Hp2 & Hmono & Hnew). split; [done|]. intros Hacc k' id' q' p Hk' Hlast.
    destruct (Hl Hacc _ _ _ _ Hk' Hlast) as [[[= -> -> ->]|?]%elem_of_cons|?]; eauto.
  - intros n w' [Hp Hl]. split; [done|]. intros Hacc p (k & id & q & Hk & Hlast).
    by destruct (Hl Hacc _ _ _ _ Hk Hlast) as [?%not_elem_of_nil|].
Qed.

(** C13: one pass over the idle containers returns, whatever the order
    in which the hash table lists them and whatever status is read from the
    calls: the pool balances, the allocation still follows the quotas, nothing
    is lent or repaid and the tables are untouched. A container's quota changes
    only if it is the newest of its id and has not reported for two seconds, and
    then to 30ms; when every call reads status 0, the quota of every such
    container is 30ms afterwards.

    This is under [idle_hyps]: the books balance before, total plus overrun are
    below 2^52 ns, the allocation is no less than the sum of the quotas, and the
    newest container of every id holds at least 30 ms, is inserted and has an
    agent whose call is read before it is deleted. Of an idle container with
    less than 30 ms the difference wraps around: [small_idle_quota_wraps]. *)
Theorem idle_pass_conserves (now seq : Z) (w : World) (H : idle_hyps w) :
  ∃ n w', check_for_idle_containers now seq w = (Ok n, w') ∧ Inv w' ∧ drift w' = drift w ∧
    same_tables w w' ∧ cpu_g.overrun (pool w') = cpu_g.overrun (pool w) ∧
    (∀ p s', w_heap w' !! p = Some s' → ∃ s, w_heap w !! p = Some s ∧
       (get_quota s' = get_quota s ∨
        newest w p ∧ check_if_idle now s = true ∧ get_quota s' = min_quota)) ∧
    (agents_accept → ∀ p s, newest w p → w_heap w !! p = Some s → check_if_idle now s = true →
       quota_at (w_heap w') p = min_quota).
Proof.
  pose proof (wp_idle_pass now seq w H) as Hwp.
  apply wp_never_inv in Hwp as (n & w' & Hrun & (HI & Hst & Hd & _ & Ho & Hh & Hh') & Hacc). exists n, w'.
  split_and!; try done.
  - intros p s' Hs'. destruct (Hh p s' Hs') as (s & ? & _ & _ & _ & ?). by exists s.
  - intros Ha p s Hn Hs Hi. destruct (Hh' _ _ Hs) as [s' Hs']. unfold quota_at. rewrite Hs'.
    by apply (Hacc Ha p Hn s s').
Qed.

(** The test for idle containers is [quota != 30ms], not [quota >
    30ms]: an idle container with less than 30ms is raised to 30ms, and when the
    pool does not hold the difference the unsigned subtraction makes the pool
    claim almost 2^64 ns of free runtime. *)
Theorem small_idle_quota_wraps (now seq : Z) (w : World) (sc : loc) (s : SubContainer)
    (ac : AgentClient.AgentClient) (Hr : ready w sc s ac) (Hidle : check_if_idle now s = true)
    (Hsmall : get_quota s + cpu_g.unallocated_rt (pool w) < min_quota)
    (Hacc : quota_answer w s ac min_quota seq = 0) :
  ∃ w', idle_one now seq [sc] w = (Ok (u32 (seq + 1)), w') ∧
    cpu_g.unallocated_rt (pool w') =
      18446744073709551616 - (min_quota - get_quota s - cpu_g.unallocated_rt (pool w)).
Proof.
  pose proof (ready_lows _ _ _ _ Hr) as Hl. pose proof (ready_cpu _ _ _ _ Hr) as [(Hq&_) _].
  change (cpu_l.quota (cpu s)) with (get_quota s) in Hq.
  destruct Hr as (HI & Hsm & Hs & Hin & Hac). unfold cpu_g.lows, cpu_g.low, min_quota in *.
  enough (Hwp : wp (idle_one now seq [sc]) (λ n w', n = u32 (seq + 1) ∧ cpu_g.unallocated_rt (pool w') =
      18446744073709551616 - (30000000 - get_quota s - cpu_g.unallocated_rt (pool w))) never w).
  { apply wp_never_inv in Hwp as (n & w' & Hrun & -> & ?). by exists w'. }
  unfold idle_one, min_quota. simpl last. ww. rewrite wp_defined. ww. rewrite Hidle. simpl negb. cbv iota. ww.
  destruct (Z.eqb_spec (get_quota s) 30000000); [wrap_lia|]. ww.
  unfold try_quota. ww. erewrite wp_set_sc_quota_syscall by done. rewrite i32_quota_answer, Hacc.
  simpl negb. cbv iota. rewrite wp_bind, (wp_sc_do _ _ s) by done.
  erewrite wp_book_give by apply upd_sc_lookup. rewrite wp_ret. split; [done|].
  change (pool (upd_sc _ _ _)) with (pool w).
  unfold pool at 1. cbn [booked upd_ec w_ec with_cpu _cpu]. rewrite cpu_g.decr_alloc_rt_eq.
  cbn -[u64]. change (cpu_l.get_quota (cpu s)) with (get_quota s) in *. wrap_lia.
Qed.

End IdlePass.
End Claims.

(** ** Instances *)

(** Half of a four-core pool in use, half of the quota unused. *)
Definition pool0 : cpu_g.cpu := cpu_g.Cpu 30000000 200000000 400000000 0 200000000.
Definition w0 : World := Demo.world 200000000 400000000 pool0.
Definition req0 : msg_t := Demo.report 200000000 100000000 0.

#[local] Existing Instance Demo.willing.
Ltac concrete := vm_compute; repeat split; intros; discriminate.
Lemma served_demo quota fair c : served (Demo.world quota fair c) (Demo.sc quota) Demo.agent.
Proof. split; [done|]. split; [exists Demo.cid; by vm_compute|]. intros tr rq. by exists 0. Qed.
Lemma ready_demo quota fair c :
  is_u64 quota → cpu_g.wf c → cpu_g.imbalance c = 0 → cpu_g.total_cpu c + cpu_g.overrun c < 4503599627370496 →
  ready (Demo.world quota fair c) 1 (Demo.sc quota) Demo.agent.
Proof.
  intros. split_and!; [by apply Demo.world_inv|done|done|cbn [Demo.world w_ec Demo.ec subcontainers];
    rewrite Demo.queued_demo; left|apply served_demo].
Qed.
Lemma report_hyps0 : report_hyps req0 w0 1 (Demo.sc 200000000) Demo.agent 100000000 (S754_zero false).
Proof.
  constructor; try done.
  - apply ready_demo; concrete.
  - constructor; cbn; try lia.
    + unfold MAX_UNUSED_RT_IN_NS. lia.
    + intros. exists 0. by vm_compute.
Qed.

Lemma report_conserves_witness :
  ∃ w', handle_cpu_usage_report (ENV := Demo.willing) 1500000000 req0 req0 w0 =
      (Ok (ALLOC_SUCCESS, with_request 1 req0), w') ∧
    Inv w' ∧ cpu_g.total_cpu (pool w') = 400000000 ∧ Z.abs (drift w' - drift w0) < 1000 ∧
    (200000000 = 200000000 → drift w' = drift w0) ∧ cpuleak w' ≤ 0.
Proof. exact (report_conserves (ENV := Demo.willing) 1500000000 req0 req0 _ _ _ _ _ _ report_hyps0). Defined.

(** Half of the quota was not used: a fifth of it is given back. *)
Lemma report_follows_policy_witness :
  let w' := (handle_cpu_usage_report (ENV := Demo.willing) 1500000000 req0 req0 w0).2 in
  same_tables w0 w' ∧ quota_at (w_heap w') 1 = 160000000 ∧
  ∃ oq, policy (check_if_idle 1500000000 (Demo.sc 200000000)) pool0 400000000 200000000 100000000 100000000
    (S754_zero false) oq.
Proof.
  destruct (report_follows_policy (ENV := Demo.willing) 1500000000 req0 req0 _ _ _ _ _ _ report_hyps0)
    as [Ht (oq & Hp & _)].
  split; [exact Ht|]. split; [vm_compute; reflexivity|]. exists oq. exact Hp.
Defined.

Lemma mismatch_only_counts_witness :
  ∃ s', handle_cpu_usage_report (ENV := Demo.willing) 1500000000 (Demo.report 150000000 0 0) req0 w0 =
    (Ok (ALLOC_SUCCESS, with_request 1 req0), upd_sc 1 s' w0) ∧ quota_mismatch_counter s' = 1.
Proof.
  destruct (mismatch_only_counts (ENV := Demo.willing) 1500000000 (Demo.report 150000000 0 0) req0 w0 1
    (Demo.sc 200000000) Demo.agent) as (s' & ? & ? & _).
  - constructor; [apply ready_demo; concrete|done|done|concrete|by vm_compute|by vm_compute].
  - exists s'. split_and!; assumption.
Defined.

(** The demo container after three disagreements. *)
Definition w3 : World := upd_sc 1 (SubContainer.with_mismatch 3 (Demo.sc 200000000)) w0.
Lemma mismatch_resyncs_witness :
  ∃ w', report_mismatch 150000000 1 w3 = (Ok true, w') ∧ Inv w' ∧ drift w' = drift w3.
Proof.
  destruct (mismatch_resyncs 150000000 w3 1 (SubContainer.with_mismatch 3 (Demo.sc 200000000)) Demo.agent)
    as (w' & ? & ? & ? & _).
  - apply (ready_upd w0 1 (Demo.sc 200000000)); [apply ready_demo; concrete|done|]. apply Demo.sc_wf. wrap_lia.
  - wrap_lia.
  - by vm_compute.
  - by vm_compute.
  - cbn. lia.
  - cbn. lia.
  - exists w'. split_and!; assumption.
Defined.

(** The container reports 150ms instead of 200ms for the fourth time. *)
Definition req3 : msg_t := Demo.report 150000000 0 0.
Definition sc3 : SubContainer := SubContainer.with_mismatch 3 (Demo.sc 200000000).
Lemma ready3 : ready w3 1 sc3 Demo.agent.
Proof. apply (ready_upd w0 1 (Demo.sc 200000000) sc3 Demo.agent); [apply ready_demo; concrete|done|]. by apply Demo.sc_wf. Qed.
Lemma resync_hyps3 : resync_hyps req3 w3 1 sc3 Demo.agent 0 (S754_zero false).
Proof.
  constructor; [exact ready3|done|done|done| |done|by vm_compute|by vm_compute|].
  - constructor; [done|done|done|intros; vm_compute; done|intros; vm_compute; done].
  - constructor; cbn; try lia; [unfold MAX_UNUSED_RT_IN_NS; lia|]. intros. exists 0. by vm_compute.
Qed.

Lemma topup_never_overshoots_witness :
  ∃ a b, fair_to_add 100000000 30000000 50000000 33333333 = Some a ∧
    share_lacking 100000000 30000000 33333333 = Some b ∧
    0 ≤ a ∧ u64 (33333333 + a) ≤ 100000000 ∧ 0 ≤ b ∧ u64 (33333333 + b) ≤ 100000000.
Proof. apply topup_never_overshoots; lia. Defined.

Lemma shrink_in_range_witness :
  ∃ z, four_fifths 100000001 = Some z ∧ 30000000 ≤ Z.max 30000000 z ≤ 100000001 ∧
    30000000 ≤ Z.max 30000000 (u64 (100000001 - MAX_UNUSED_RT_IN_NS)) ≤ 100000001.
Proof. apply shrink_in_range; unfold MAX_UNUSED_RT_IN_NS; lia. Defined.

(** A gap of 10ms to the fair share and 1ms in the pool. *)
Definition w_gap : World := Demo.world 90000000 100000000 (cpu_g.Cpu 30000000 1000000 91000000 0 90000000).
Lemma topup_overdraws_witness :
  ∃ w', branch_fair (ENV := Demo.willing) 90000000 5 1 w_gap = (Ok tt, w') ∧
    quota_at (w_heap w') 1 = 100000000 ∧ cpu_g.imbalance (pool w') = 9000000 ∧ cpu_g.imbalance (pool w') ≠ 0.
Proof.
  apply (topup_overdraws (ENV := Demo.willing) 90000000 5 w_gap 1 (Demo.sc 90000000) Demo.agent).
  - apply ready_demo; concrete.
  - by vm_compute.
  - by vm_compute.
  - lia.
  - by vm_compute.
  - by vm_compute.
Defined.

Lemma idle_pass_conserves_witness :
  ∃ n w', check_for_idle_containers (ENV := Demo.willing) (ORDER := Demo.listed) 9000000000 0 w0 = (Ok n, w') ∧
    Inv w' ∧ drift w' = 0 ∧ quota_at (w_heap w') 1 = 30000000.
Proof.
  destruct (idle_pass_conserves (ENV := Demo.willing) (ORDER := Demo.listed) 9000000000 0 w0)
    as (n & w' & ? & ? & Hd & _ & _ & _ & Hacc).
  - destruct (ready_demo 200000000 400000000 pool0) as (? & ? & _); [concrete..|].
    split_and!; try done. intros k id q p s Hk Hp Hs. cbn in Hk, Hs.
    apply lookup_singleton_Some in Hk as [<- [= <- <-]]. injection Hp as <-.
    apply lookup_singleton_Some in Hs as [_ <-].
    split; [by vm_compute|]. exists Demo.agent. apply served_demo.
  - exists n, w'. split_and!; [assumption..|rewrite Hd; by vm_compute|].
    apply (Hacc (λ _ _ _, eq_refl) 1%positive (Demo.sc 200000000)); [|done|by vm_compute].
    exists (key_of Demo.cid), Demo.cid, [1%positive]. by split.
Defined.

(** An idle container with 10ms and an empty pool. *)
Definition w_idle : World := Demo.world 10000000 10000000 (cpu_g.Cpu 30000000 0 10000000 0 10000000).
Lemma small_idle_quota_wraps_witness :
  ∃ w', idle_one (ENV := Demo.willing) 9000000000 0 [1%positive] w_idle = (Ok 1, w') ∧
    cpu_g.unallocated_rt (pool w') = 18446744073689551616.
Proof.
  apply (small_idle_quota_wraps (ENV := Demo.willing) 9000000000 0 w_idle 1 (Demo.sc 10000000) Demo.agent).
  - apply ready_demo; concrete.
  - by vm_compute.
  - by vm_compute.
  - by vm_compute.
Defined.

(** A fair share of 10ms, a quota of 40ms and an overrun of 100ms. *)
Definition w_over : World := Demo.world 40000000 10000000 (cpu_g.Cpu 30000000 0 10000000 100000000 110000000).

(** Working off the overrun can take more than the container
    has: three times over its fair share, a container is to lose three slices;
    with a quota of 40ms the unsigned subtraction asks the agent for a quota of
    2^64 - 50000000 ns, although the books were in order. *)
Theorem overrun_request_wraps :
  Inv w_over ∧ drift w_over = 70000000 ∧
  let w' := (handle_cpu_usage_report (ENV := Demo.willing) 1500000000 (Demo.report 40000000 0 0) req0 w_over).2 in
  w_trace w' = [EvQuota Demo.node (QuotaReq 7 18446744073659551616 "decr" 5)] ∧
  quota_at (w_heap w') 1 = 18446744073659551616.
Proof.
  split; [apply Demo.world_inv; concrete|]. split; [by vm_compute|]. cbv zeta. split; by vm_compute.
Qed.

End CpuTheorems.
