(* ===== verification/CpuProgress.v ===== *)
(** * Convergence of the CPU policy ([src/Manager.cpp], [handle_cpu_usage_report])

    The comments of the handler promise that the corrections converge. Here a
    container keeps sending reports of one kind, each is accepted, and between
    two of them anything may happen that leaves its quota alone. *)
From Stdlib Require Import SpecFloat.
From S2P Require Import Prelude OmNet Float64 Window LocalStats SubContainer Agents CpuG MemG.
From S2P Require Import ElasticContainer World Types ECAPI Demo ManagerCpu CpuTheorems.
Import SubContainer ElasticContainer ECAPI ManagerCpu.

Section Progress.
Context {ENV : Env}.
Context (sc : loc) (fair slice : Z).
Abbreviation quota w := (quota_at (w_heap w) sc).

(** A report of the container's recorded quota that the agent would accept a
    change for, in a world with the given fair share and slice. *)
Record accepted_report (now : Z) (req : msg_t) (w : World) (s : SubContainer) (thr : double) (rt : Z)
    (ac : AgentClient.AgentClient) : Prop := {
  ar_hyps : report_hyps req w sc s ac rt thr;
  ar_exact : rsrc_amnt req = get_quota s;
  ar_active : check_if_idle now s = false;
  ar_fair : fair_cpu_share (w_ec w) = fair;
  ar_slice : cpu_g.slice_size (pool w) = slice;
  ar_accepts : ∀ rq, i32 (quota_status (w_trace w) (AgentClient.get_agent_ip ac) rq) = 0;
}.

(** The container left more than a fifth of its quota unused, was not
    throttled, and nobody waits for what it has borrowed. *)
Definition unused_report (w w' : World) : Prop :=
  ∃ now req res s thr rt ac, accepted_report now req w s thr rt ac ∧
    slice ≤ rsrc_amnt req ∧ (cpu_g.overrun (pool w) = 0 ∨ rsrc_amnt req ≤ fair) ∧
    dlt d_0p5 thr = false ∧ dle d_0p1 thr = false ∧ dlt d_0p2 (percent_decr req) = true ∧
    w' = (handle_cpu_usage_report now req res w).2.
(** The container was throttled below the fair share, and the pool either
    covers what it lacks or is empty. *)
Definition throttled_report (w w' : World) : Prop :=
  ∃ now req res s thr rt ac, accepted_report now req w s thr rt ac ∧
    rsrc_amnt req < fair ∧ dlt d_0p5 thr = true ∧
    (cpu_g.unallocated_rt (pool w) = 0 ∨ fair - rsrc_amnt req ≤ cpu_g.unallocated_rt (pool w)) ∧
    w' = (handle_cpu_usage_report now req res w).2.

(** [n] reports, with other activity in between. *)
Inductive reports (R : World → World → Prop) : nat → World → World → Prop :=
  | reports_done w w' : quota w' = quota w → reports R 0 w w'
  | reports_more n w w1 w2 w' : quota w1 = quota w → R w1 w2 → reports R n w2 w' → reports R (S n) w w'.

Lemma accepted_quota now req res w s thr rt ac oq : accepted_report now req w s thr rt ac →
  target false (pool w) fair (rsrc_amnt req) rt thr (percent_decr req) = oq →
  quota w = rsrc_amnt req ∧ quota (handle_cpu_usage_report now req res w).2 = default (rsrc_amnt req) oq.
Proof.
  intros [H Hx Hi Hf _ Ha] Ht. destruct (report_spec now req res w sc s ac rt thr H) as (w' & Hrun & _ & _ & Hset & _).
  rewrite Hi, Hf, Ht in Hset. rewrite Hrun. simpl. split.
  - destruct (rh_ready _ _ _ _ _ _ _ H) as (_ & _ & Hs & _). unfold quota_at. by rewrite Hs, Hx.
  - destruct oq as [q|]; simpl in *; [|destruct Hset as (_ & _ & ->); done].
    destruct Hset as (_ & _ & Hset). unfold quota_answer in Hset. rewrite Ha in Hset. by destruct Hset.
Qed.

Lemma accepted_bounds now req w s thr rt ac : accepted_report now req w s thr rt ac →
  0 ≤ rsrc_amnt req < 4503599627370496 ∧ 0 ≤ fair < 4503599627370496 ∧ 5000000 ≤ slice.
Proof.
  intros [H _ _ Hf Hs _]. pose proof (rh_ok _ _ _ _ _ _ _ H) as Hok.
  destruct (counters w sc s ac (rh_ready _ _ _ _ _ _ _ H)) as (_ & ? & _).
  pose proof (ok_rx _ _ _ Hok). pose proof (ok_fair _ _ _ Hok). pose proof (ok_slice _ _ _ Hok).
  unfold MAX_UNUSED_RT_IN_NS in *. rewrite Hf, Hs in *. lia.
Qed.

Lemma unused_step w w' : unused_report w w' →
  5000000 ≤ slice ≤ quota w ∧ slice ≤ quota w' ≤ Z.max slice (quota w - slice / 8).
Proof.
  intros (now & req & res & s & thr & rt & ac & Ha & Hrx & Hov & H5 & H1 & H2 & ->).
  destruct (accepted_bounds _ _ _ _ _ _ _ Ha) as (? & ? & ?).
  destruct (four_fifths_bound (rsrc_amnt req)) as (z & Hz & Hb); [lia|].
  destruct (accepted_quota now req res w s thr rt ac (unless_equal (Z.max slice z) (rsrc_amnt req)) Ha) as [Hq Hq'].
  { unfold target. rewrite (ar_slice _ _ _ _ _ _ _ Ha), H5, H1, H2, andb_false_r. simpl.
    rewrite (proj2 (Z.leb_le slice _)) by lia. simpl.
    replace ((0 <? cpu_g.overrun (pool w)) && (fair <? rsrc_amnt req)) with false.
    - unfold target_unused. by rewrite Hz.
    - symmetry. apply andb_false_iff. destruct Hov as [->|?]; [by left|right]. apply Z.ltb_ge. lia. }
  rewrite Hq, Hq'. assert (slice / 8 ≤ rsrc_amnt req / 8) by (apply Z.div_le_mono; lia).
  assert (default (rsrc_amnt req) (unless_equal (Z.max slice z) (rsrc_amnt req)) = Z.max slice z) as ->.
  { unfold unless_equal. destruct (Z.eqb_spec (Z.max slice z) (rsrc_amnt req)); done. }
  lia.
Qed.

Lemma throttled_step w w' j : 0 ≤ j ≤ 53 → fair ≤ slice / 2 * 2 ^ j → throttled_report w w' →
  quota w' ≤ fair ∧ fair - quota w' ≤ Z.max 0 (fair - quota w - slice / 2 / 2 ^ j).
Proof.
  intros Hj Hjs (now & req & res & s & thr & rt & ac & Ha & Hrx & H5 & Hun & ->).
  destruct (accepted_bounds _ _ _ _ _ _ _ Ha) as (? & ? & ?).
  destruct (share_lacking_bound fair slice (rsrc_amnt req)) as (a & Ea & Hab); [lia..|].
  pose proof (share_lacking_progress fair slice (rsrc_amnt req) j a ltac:(lia) ltac:(lia) Hj Hjs Ea) as Hp.
  destruct (accepted_quota now req res w s thr rt ac (Some (rsrc_amnt req + a)) Ha) as [Hq Hq'].
  { unfold target. rewrite (ar_slice _ _ _ _ _ _ _ Ha), H5. simpl.
    rewrite (proj2 (Z.ltb_ge fair _)), andb_false_r by lia. rewrite (proj2 (Z.ltb_lt _ fair)) by lia. simpl.
    unfold target_fair, fair_to_add. rewrite Ea. simpl.
    destruct (Z.ltb_spec 0 (cpu_g.unallocated_rt (pool w))) as [Hu|]; [|done].
    destruct Hun as [?|?]; [lia|]. destruct (slice / 2 <? u64 (fair - rsrc_amnt req)); [rewrite Z.min_r by lia|]; done. }
  rewrite Hq, Hq'. simpl. pose proof (pow2_pos j ltac:(lia)).
  destruct (Z.ltb_spec (slice / 2) (fair - rsrc_amnt req)); [|lia].
  assert (slice / 2 / 2 ^ j ≤ (fair - rsrc_amnt req) / 2 ^ j) by (apply Z.div_le_mono; lia). lia.
Qed.

(** C19: a container that holds at least a slice and keeps reporting more than a
    fifth of its quota unused is shrunk to the slice and not below: after [n]
    reports its quota is at most the old one less [n] eighths of a slice, so the
    slice is reached within eight reports per slice of quota. Each report names
    the recorded quota, at least a slice, of a container that is not idle; its
    mean of throttled periods is below 0.1; nothing is lent out, or the quota is
    at most the fair share; its request is answered with status 0; and the
    assumptions of [report_conserves] hold. Between two reports anything may
    happen that leaves the quota alone. *)
Theorem unused_quota_converges (n : nat) (w w' : World) (Hslice : slice ≤ quota w)
    (H : reports unused_report n w w') :
  slice ≤ quota w' ≤ Z.max slice (quota w - Z.of_nat n * (slice / 8)).
Proof.
  induction H as [w w' Hq|n w w1 w2 w' Hq Hr _ IH]; [rewrite Hq; lia|].
  destruct (unused_step w1 w2 Hr) as [? ?]. specialize (IH ltac:(lia)). rewrite Hq in *.
  pose proof (Z.div_pos slice 8 ltac:(lia) ltac:(lia)). lia.
Qed.

(** C20: a container that keeps reporting throttling below its fair share is
    raised to it and not above: after [n] accepted reports the gap has shrunk by
    [n] times the [2^j]-th part of half a slice, where [2^j] is how many half
    slices the fair share has, so the fair share is reached within a bounded
    number of reports, from the pool or on credit, rounding included. *)
Theorem fair_share_reached (n : nat) (j : Z) (w w' : World) (Hj : 0 ≤ j ≤ 53) (Hshare : fair ≤ slice / 2 * 2 ^ j)
    (Hfair : quota w ≤ fair) (H : reports throttled_report n w w') :
  quota w' ≤ fair ∧ fair - quota w' ≤ Z.max 0 (fair - quota w - Z.of_nat n * (slice / 2 / 2 ^ j)).
Proof.
  induction H as [w w' Hq|n w w1 w2 w' Hq Hr _ IH]; [rewrite Hq; lia|].
  destruct (throttled_step w1 w2 j Hj Hshare Hr) as [? ?]. specialize (IH ltac:(lia)). rewrite Hq in *. 
  destruct Hr as (now & req & res & s & thr & rt & ac & Ha & _).
  destruct (accepted_bounds _ _ _ _ _ _ _ Ha) as (_ & _ & ?). pose proof (pow2_pos j ltac:(lia)).
  assert (0 ≤ slice / 2 / 2 ^ j) by (apply Z.div_pos; [apply Z.div_pos|]; lia). lia.
Qed.
End Progress.

(** ** Instances *)
Import CpuTheorems.

(** 200ms of which 100ms are not used: a fifth is given back. *)
Lemma unused_quota_converges_witness :
  ∃ w', reports 1 (unused_report (ENV := Demo.willing) 1 400000000 30000000) 1 w0 w' ∧
    30000000 ≤ quota_at (w_heap w') 1 ≤ 200000000 - 3750000.
Proof.
  set (w' := (handle_cpu_usage_report (ENV := Demo.willing) 1500000000 req0 req0 w0).2).
  assert (reports 1 (unused_report (ENV := Demo.willing) 1 400000000 30000000) 1 w0 w') as H.
  { eapply reports_more; [done| |by apply reports_done]. exists 1500000000, req0, req0, (Demo.sc 200000000), (S754_zero false), 100000000, Demo.agent.
    split_and!; [|vm_compute; done|by left|vm_compute; done..|reflexivity].
    constructor; [exact report_hyps0|vm_compute; done..|]. intros. vm_compute. done. }
  exists w'. split; [exact H|].
  exact (unused_quota_converges (ENV := Demo.willing) 1 400000000 30000000 1 w0 w' ltac:(vm_compute; done) H).
Defined.

(** 50ms of a fair share of 100ms, throttled in the last period: [w_low]. *)
Definition w_low : World := Demo.world 50000000 100000000 (cpu_g.Cpu 30000000 50000000 100000000 0 50000000).
Definition req_low : msg_t := Demo.report 50000000 0 1.
Lemma fair_share_reached_witness :
  ∃ w', reports 1 (throttled_report (ENV := Demo.willing) 1 100000000 30000000) 1 w_low w' ∧
    quota_at (w_heap w') 1 ≤ 100000000 ∧ 100000000 - quota_at (w_heap w') 1 ≤ 50000000 - 1875000.
Proof.
  set (w' := (handle_cpu_usage_report (ENV := Demo.willing) 1500000000 req_low req_low w_low).2).
  assert (reports 1 (throttled_report (ENV := Demo.willing) 1 100000000 30000000) 1 w_low w') as H.
  { eapply reports_more; [done| |by apply reports_done]. exists 1500000000, req_low, req_low, (Demo.sc 50000000), (dbl_of_Z 1), 0, Demo.agent.
    split_and!; [|vm_compute; done|vm_compute; done| |reflexivity].
    - constructor; [|vm_compute; done..|]; [|intros; vm_compute; done].
      constructor; try done; [apply ready_demo; concrete|].
      constructor; cbn; try lia; [unfold MAX_UNUSED_RT_IN_NS; lia|]. intros. eexists. by vm_compute.
    - right. vm_compute. done. }
  exists w'. split; [exact H|].
  exact (fair_share_reached (ENV := Demo.willing) 1 100000000 30000000 1 3 w_low w' ltac:(lia) ltac:(vm_compute; done)
    ltac:(vm_compute; done) H).
Defined.
