(* ===== verification/ManagerMem.v ===== *)
(** * Memory: requests, reclaiming, new pods ([src/Manager.cpp], 303-424, 509-572, 588-617)

    A container that reaches its limit asks for pages; the manager hands out at
    most a slice, first from the pool, else by shrinking the limits of other
    containers towards what they use. [byte_to_page(x)] is
    [ceil((x)/4096)]: [x] is an integer, so the division has already discarded
    the fraction when [ceil] is applied, and the result, below 2^52, is exact as
    a [double]; comparing it with a [uint64_t] compares the integers. The
    [std::async] calls of a reclaim run one after the other here, in an
    arbitrary order; a task that fails does not stop the others. *)
From S2P Require Import Prelude OmNet Float64 Window LocalStats SubContainer Agents CpuG MemG.
From S2P Require Import ElasticContainer World Types ECAPI ManagerCpu Json CAdvisor.
Import SubContainer ElasticContainer ECAPI.

Definition byte_to_page (x : Z) : Z := x / 4096.
Definition page_to_byte (x : Z) : Z := u64 (x * 4096).
Definition SAFE_MARGIN_BYTES : Z := 52428800.

Module ManagerMem.
Section Mem.
Context {ENV : Env} {ORDER : HashOrder}.

Definition reclaim (containerId : ContainerId) (subContainer : loc) : M World Z :=
  mem_limit_pages ← sc_get subContainer SubContainer.get_mem_limit_in_pages;
  let mem_limit_bytes := page_to_byte mem_limit_pages in
  dock_id ← sc_get subContainer get_docker_id;
  mem_usage_bytes ← sc_get_memory_usage_in_bytes_cadvisor containerId dock_id;
  if mem_usage_bytes =? u64 (u64 (-1) * PAGE_SIZE) then mret 0 else
  if SAFE_MARGIN_BYTES <? u64 (mem_limit_bytes - mem_usage_bytes) then
    let resize_target_bytes := u64 (mem_usage_bytes + SAFE_MARGIN_BYTES) in
    is_max_mem_resized ← sc_resize_memory_limit_in_pages containerId (byte_to_page resize_target_bytes);
    if is_max_mem_resized =? 0 then
      let pages_reclaimed := byte_to_page (u64 (mem_limit_bytes - resize_target_bytes)) in
      c ← sc_get subContainer get_c_id;
      sc_set_memory_limit_in_pages c (byte_to_page resize_target_bytes) ;;
      mret pages_reclaimed
    else mret 0
  else mret 0.

(** [std::async]: what the task comes to is kept for [get()], and the other
    tasks go on; [exit] and undefined behaviour end the process at once. *)
Definition async {A} (m : M World A) : M World (outcome A) := λ w,
  match m w with
  | (Fail (Exit c), w') => (Fail (Exit c), w')
  | (Fail Undef, w') => (Fail Undef, w')
  | (o, w') => (Ok o, w')
  end.
Definition future_get {A} (f : outcome A) : M World A := λ w, (f, w).
Definition launch_reclaim (client_fd : Z) (futures : list (outcome Z)) (kv : key * (ContainerId * list loc)) :
    M World (list (outcome Z)) :=
  sc ← defined (last kv.2.2);
  fd ← sc_get sc get_fd;
  if fd =? client_fd then mret futures
  else reclaimed ← async (reclaim kv.2.1 sc); mret (futures ++ [reclaimed]).
Definition collect (ret : Z) (rec : outcome Z) : M World Z := r ← future_get rec; mret (u64 (ret + r)).
Definition handle_reclaim_memory (client_fd : Z) : M World Z :=
  m ← ec_get subcontainers;
  futures ← mfold (launch_reclaim client_fd) [] (iter m);
  mfold collect 0 futures.

(** The body of the loop over the containers in [run]; with [skip], the tasks
    of [handle_reclaim_memory] one after the other. *)
Definition reclaim_entry (skip : SubContainer → bool) (ret : Z) (kv : key * (ContainerId * list loc)) : M World Z :=
  sc ← defined (last kv.2.2);
  b ← sc_get sc skip;
  if (b : bool) then mret ret
  else r ← reclaim kv.2.1 sc; mret (u64 (ret + r)).

(** The grant, from the pages available ([int64_t]) and the slice. *)
Definition grant (memory_available slice : Z) : Z :=
  if slice <? u64 memory_available then slice else u64 memory_available.
Definition grant_mem (req res : msg_t) (memory_available : Z) : M World (Z * msg_t) :=
  slice ← ec_get get_memory_slice;
  let ret := grant memory_available slice in
  ec_update_alloc_memory_in_pages ret ;;
  let res := with_rsrc_amnt (u64 (rsrc_amnt req + ret)) res in
  sc ← ec_find (get_sc_for_update_back (ContainerId_of (Types.cgroup_id req) (client_ip req)));
  sc_do sc (set_mem_limit_in_pages (rsrc_amnt res)) ;;
  mret (ALLOC_SUCCESS, with_request 0 res).
Definition handle_mem_req (req res : msg_t) (clifd : Z) : M World (Z * msg_t) :=
  if negb (req_type req =? REQ_MEM) then mret (ALLOC_MEM_FAILED, with_rsrc_amnt 0 res) else
  u ← ec_get get_unallocated_memory_in_pages;
  let memory_available := i64 u in
  if 0 <? memory_available then grant_mem req res memory_available
  else
    reclaimed_mem ← handle_reclaim_memory clifd;
    if 0 <? reclaimed_mem then
      when (memory_available <? 0)
        (ec_do (incr_unalloc_memory_in_pages (u64 (i64 (memory_available * -1)))) ;;
         ec_do (decr_alloc_memory_in_pages (u64 (i64 (memory_available * -1))))) ;;
      ec_update_reclaim_memory_in_pages reclaimed_mem ;;
      u ← ec_get get_unallocated_memory_in_pages;
      grant_mem req res (i64 u)
    else mret (ALLOC_MEM_FAILED, with_rsrc_amnt 0 res).

(** A new pod waits for its docker id, which another thread fills in. *)
Definition determine_mem_limit_for_new_pod (sc : loc) (clifd : Z) : M World unit :=
  d ← sc_get sc get_docker_id;
  if bool_decide (d = "") then stop Blocked else
  c ← sc_get sc get_c_id;
  mem_lim_bytes ← sc_get_memory_limit_in_bytes_cadvisor c;
  let sc_mem_limit_in_pages := byte_to_page mem_lim_bytes in
  unalloc ← ec_get get_unallocated_memory_in_pages;
  (if sc_mem_limit_in_pages <=? unalloc then ec_update_alloc_memory_in_pages sc_mem_limit_in_pages
   else if unalloc =? 0 then mret tt
   else
     reclaimed_mem ← handle_reclaim_memory clifd;
     ec_update_reclaim_memory_in_pages reclaimed_mem ;;
     unalloc ← ec_get get_unallocated_memory_in_pages;
     if sc_mem_limit_in_pages <=? unalloc then ec_update_alloc_memory_in_pages sc_mem_limit_in_pages
     else
       c ← sc_get sc get_c_id;
       is_max_mem_resized ← sc_resize_memory_limit_in_pages c unalloc;
       when (is_max_mem_resized =? 0) (ec_update_alloc_memory_in_pages sc_mem_limit_in_pages)) ;;
  sc_do sc (set_mem_limit_in_pages sc_mem_limit_in_pages).

(** [run]: waits until the application is complete, then reclaims every five
    seconds; this is one round. *)
Definition run_ready (num_containers : Z) (w : World) : bool := num_containers <=? get_num_subcontainers (w_ec w).
Definition run (num_containers : Z) : M World unit :=
  ok ← gets (run_ready num_containers);
  if negb ok then stop Blocked else
  m ← ec_get subcontainers;
  ret ← mfold (reclaim_entry (λ _, false)) 0 (iter m);
  when (0 <? ret) (ec_update_reclaim_memory_in_pages ret).

(** ** Lemmas *)
Implicit Types (w : World) (s : SubContainer).

(** When every task returns, collecting the futures is the sequential sum. *)
Lemma launch_collect fd l fs r0 r w w' :
  mfold (reclaim_entry (λ s, get_fd s =? fd)) r0 l w = (Ok r, w') →
  ∃ new, mfold (launch_reclaim fd) fs l w = (Ok (fs ++ new), w') ∧
    ∀ w2, mfold collect r0 new w2 = (Ok r, w2).
Proof.
  revert fs r0 w. induction l as [|kv l IH]; intros fs r0 w; cbn [mfold].
  { intros [= <- <-]. exists []. by rewrite app_nil_r. }
  rewrite !run_bind. unfold reclaim_entry at 1, launch_reclaim at 1. rewrite !run_bind.
  destruct (defined (last kv.2.2) w) as [[sc|f] w1]; [|done]. rewrite !run_bind.
  unfold sc_get. rewrite !run_bind. destruct (load sc w1) as [[s|f] w2]; [|done].
  unfold mret, M_ret. cbv beta iota. destruct (get_fd s =? fd); [apply IH|].
  rewrite !run_bind. unfold async at 1. destruct (reclaim kv.2.1 sc w2) as [[x|f] w3]; [|done]. cbv beta iota.
  intros H. destruct (IH (fs ++ [Ok x]) _ _ H) as (new & Hl & Hc). exists (Ok x :: new).
  rewrite <-app_assoc in Hl. split; [exact Hl|]. intros w4. cbn [mfold]. rewrite run_bind. apply Hc.
Qed.
Lemma run_handle_reclaim fd r w w' :
  mfold (reclaim_entry (λ s, get_fd s =? fd)) 0 (iter (subcontainers (w_ec w))) w = (Ok r, w') →
  handle_reclaim_memory fd w = (Ok r, w').
Proof.
  intros H. destruct (launch_collect fd _ [] 0 r w w' H) as (new & Hl & Hc).
  unfold handle_reclaim_memory, ec_get. rewrite !run_bind. unfold gets. cbv beta iota. rewrite run_bind, Hl. apply Hc.
Qed.

(** The agents answer every resize request. *)
Definition answering : Prop := ∀ t ip req, ∃ c rest, resize_completions t ip req = (true, c) :: rest.
(** They carry every one of them out. *)
Definition accepting : Prop := ∀ t ip req, ∃ rest, resize_completions t ip req = (true, 0) :: rest.

Lemma wp_resize id w ac i lim Q F :
  answering → sc_ac_map (w_ec w) !! key_of id = Some (i, Some ac) →
  (∀ z t, (accepting → z = 0) → Q z (upd_trace t w)) → wp (sc_resize_memory_limit_in_pages id lim) Q F w.
Proof.
  intros Hans Ha HQ. unfold sc_resize_memory_limit_in_pages. rewrite wp_bind.
  rewrite (wp_agent_or_exit _ _ _ _ _ _ Ha). unfold wp, rpc.
  rewrite AgentClient.resizeMemoryLimitPages_eq.
  destruct (Hans (w_trace w) (AgentClient.get_agent_ip ac) (ResizeReq (i32 (SubContainer.cgroup_id id)) lim))
    as (c & rest & E). rewrite E. apply HQ. intros Hacc.
  destruct (Hacc (w_trace w) (AgentClient.get_agent_ip ac) (ResizeReq (i32 (SubContainer.cgroup_id id)) lim)) as (? & E').
  rewrite E in E'. by injection E' as -> _.
Qed.

Lemma wp_get_corres id w ac i Q F :
  sc_ac_map (w_ec w) !! key_of id = Some (i, ac) →
  wp (ec_run (get_corres_agent_client id)) Q F w = Q ac w.
Proof. intros H. unfold wp, ec_run, get_corres_agent_client. rewrite H. by destruct w. Qed.

(** What the node of agent [ac] answers when asked for the usage of [s] after
    the events [t], and the usage so reported in world [w]. *)
Definition node_answer (t : list event) (ac : AgentClient.AgentClient) s : outcome Z :=
  (CAdvisor.getContMemUsage (ip4_addr.to_string (AgentClient.get_agent_ip ac)) (get_docker_id s) t).1.
Definition usage_of w (ac : AgentClient.AgentClient) s : Z :=
  match node_answer (w_trace w) ac s with Ok u => u | Fail _ => 0 end.
Definition node_answers w (ac : AgentClient.AgentClient) s : Prop :=
  node_answer (w_trace w) ac s = Ok (usage_of w ac s).
Lemma usage_is_u64 w ac s : is_u64 (usage_of w ac s).
Proof.
  unfold usage_of, node_answer. destruct (CAdvisor.getContMemUsage _ _ _) as [[u|f] t] eqn:E; simpl; [|wrap_lia].
  by eapply CAdvisor.usage_u64.
Qed.

(** A container whose memory can be looked at: it is the newest of its queue,
    it has an agent and a docker id, and its limit is below 2^51 pages. *)
Definition visible w (id : ContainerId) (sc : loc) s (ac : AgentClient.AgentClient) : Prop :=
  w_heap w !! sc = Some s ∧ get_docker_id s ≠ "" ∧ key_of id = key_of (c_id s) ∧
  (∃ i, sc_ac_map (w_ec w) !! key_of (c_id s) = Some (i, Some ac)) ∧
  get_sc_for_update_back (c_id s) (w_ec w) = Ok sc ∧
  0 ≤ SubContainer.get_mem_limit_in_pages s < 2251799813685248.

(** What reclaiming from one container comes to, when it uses [usage] bytes: its
    limit is lowered to the usage plus the safe margin, rounded down to pages,
    or nothing happens, because it is not above that or the agent refuses. *)
Definition reclaimed (sc : loc) s (usage r : Z) w w' : Prop :=
  w_ec w' = w_ec w ∧
  ((r = 0 ∧ w_heap w' = w_heap w ∧
    (accepting → SubContainer.get_mem_limit_in_pages s * 4096 ≤ usage + SAFE_MARGIN_BYTES)) ∨
   (let lim := SubContainer.get_mem_limit_in_pages s in
    let target := usage + SAFE_MARGIN_BYTES in
    target < lim * 4096 ∧ r = (lim * 4096 - target) / 4096 ∧
    w_heap w' = <[sc := set_mem_limit_in_pages (target / 4096) s]> (w_heap w))).

Lemma wp_node_usage w ac s Q F :
  node_answers w ac s → (∀ t, Q (usage_of w ac s) (upd_trace t w)) →
  wp (rpc (CAdvisor.getContMemUsage (ip4_addr.to_string (AgentClient.get_agent_ip ac)) (get_docker_id s))) Q F w.
Proof.
  unfold node_answers, node_answer. intros Hn HQ. unfold wp, rpc.
  destruct (CAdvisor.getContMemUsage _ _ _) as [o t]. simpl in Hn. subst o. apply HQ.
Qed.

Lemma wp_reclaim id sc s ac w F :
  answering → visible w id sc s ac → node_answers w ac s →
  usage_of w ac s ≤ SubContainer.get_mem_limit_in_pages s * 4096 →
  wp (reclaim id sc) (λ r w', reclaimed sc s (usage_of w ac s) r w w') F w.
Proof.
  intros Hans (Hs & Hd & Hk & (i & Ha) & Hback & Hlim) Hnode Hu.
  set (lim := SubContainer.get_mem_limit_in_pages s) in *. set (U := usage_of w ac s) in *.
  assert (HU : is_u64 U) by apply usage_is_u64.
  unfold reclaim. ww. unfold sc_get_memory_usage_in_bytes_cadvisor, get_sc_memory_usage_in_bytes.
  rewrite wp_bind. assert (Ha' : sc_ac_map (w_ec w) !! key_of id = Some (i, Some ac)) by (by rewrite Hk).
  rewrite (wp_get_corres _ _ _ _ _ _ Ha'). rewrite bool_decide_false by done.
  apply (wp_node_usage w ac s); [done|]. intros t1. fold lim. fold U. set (w1 := upd_trace t1 w).
  change (u64 (u64 (-1) * PAGE_SIZE)) with 18446744073709547520.
  destruct (Z.eqb_spec U 18446744073709547520); [lia|].
  unfold page_to_byte. rewrite (u64_small (lim * 4096)) by wrap_lia.
  rewrite (u64_small (lim * 4096 - U)) by wrap_lia. unfold SAFE_MARGIN_BYTES in *.
  destruct (Z.ltb_spec 52428800 (lim * 4096 - U)) as [Hlt|];
    [|rewrite wp_ret; split; [done|]; left; split_and!; [done..|]; intros _; unfold SAFE_MARGIN_BYTES; lia].
  rewrite (u64_small (U + 52428800)) by wrap_lia. rewrite wp_bind.
  apply (wp_resize _ _ ac i); [done..|]. intros z t Hz.
  destruct (Z.eqb_spec z 0); [|rewrite wp_ret; split; [done|]; left; split_and!; [done..|]; intros Hacc; by apply Hz in Hacc].
  ww. unfold sc_set_memory_limit_in_pages. rewrite wp_bind. unfold ec_find, wp at 1.
  change (w_ec (upd_trace t w1)) with (w_ec w). change (get_c_id s) with (c_id s). rewrite Hback. ww.
  rewrite u64_small by wrap_lia. split; [done|]. right. unfold byte_to_page, SAFE_MARGIN_BYTES; simpl.
  split_and!; [lia|done|done].
Qed.

(** The new limit is above the usage, below the old limit, and the pages handed
    back are the pages taken, up to one page lost to rounding. *)
Lemma reclaimed_numbers lim usage :
  0 ≤ usage → usage + SAFE_MARGIN_BYTES < lim * 4096 →
  let target := usage + SAFE_MARGIN_BYTES in
  let r := (lim * 4096 - target) / 4096 in
  usage < (target / 4096) * 4096 ∧ target / 4096 < lim ∧ 0 ≤ r ∧
  lim - 1 ≤ r + target / 4096 ≤ lim.
Proof. intros Hu Ht. unfold SAFE_MARGIN_BYTES in *. cbv zeta. Z.div_mod_to_equations. lia. Qed.

(** *** The pools *)
Definition mpool w : mem_g.mem := _mem (w_ec w).
Definition upd_mpool (m : mem_g.mem) w : World := upd_ec (with_mem m (w_ec w)) w.

Lemma wp_update_alloc n w Q F :
  mem_g.sane (mpool w) → 0 ≤ n < 1152921504606846976 →
  wp (ec_update_alloc_memory_in_pages n) Q F w =
  Q tt (upd_mpool (mem_g.Mem (mem_g.memory_limit_in_pages (mpool w)) (mem_g.slice_size (mpool w))
    (Z.max 0 (mem_g.unallocated_memory_in_pages (mpool w) - n))
    (mem_g.allocated_memory_in_pages (mpool w) + n)) w).
Proof.
  intros (?&?&Hs) Hn. unfold mem_g.tracked in Hs. unfold ec_update_alloc_memory_in_pages. ww. f_equal.
  unfold upd_mpool, incr_alloc_memory_in_pages, decr_unalloc_memory_in_pages, on_mem, with_mem, upd_ec; simpl.
  fold (mpool w). rewrite mem_g.decr_unallocated_small by lia. rewrite i64_small by wrap_lia.
  rewrite mem_g.incr_allocated_small by (simpl; lia). reflexivity.
Qed.
Lemma wp_update_reclaim n w Q F :
  mem_g.sane (mpool w) → 0 ≤ n < 1152921504606846976 →
  wp (ec_update_reclaim_memory_in_pages n) Q F w =
  Q tt (upd_mpool (mem_g.Mem (mem_g.memory_limit_in_pages (mpool w)) (mem_g.slice_size (mpool w))
    (mem_g.unallocated_memory_in_pages (mpool w) + n)
    (Z.max 0 (mem_g.allocated_memory_in_pages (mpool w) - n))) w).
Proof.
  intros (?&?&Hs) Hn. unfold mem_g.tracked in Hs. unfold ec_update_reclaim_memory_in_pages. ww. f_equal.
  unfold upd_mpool, decr_alloc_memory_in_pages, incr_unalloc_memory_in_pages, on_mem, with_mem, upd_ec; simpl.
  fold (mpool w). rewrite mem_g.incr_unallocated_small by lia. rewrite i64_small by wrap_lia.
  rewrite mem_g.decr_allocated_small by (simpl; lia). reflexivity.
Qed.

End Mem.
End ManagerMem.
