(* ===== verification/MemTheorems.v ===== *)
(** * What the memory handlers guarantee

    The theorems about [reclaim], [handle_reclaim_memory], [handle_mem_req],
    [determine_mem_limit_for_new_pod] and [run], each with an instance on a
    concrete world. *)
From S2P Require Import Prelude OmNet Float64 Window LocalStats SubContainer Agents CpuG MemG.
From S2P Require Import ElasticContainer World Types ECAPI Demo ManagerCpu ManagerMem Json CAdvisor.
From S2P Require Import JSONFacade.
Import SubContainer ElasticContainer ECAPI ManagerMem.

Module MemTheorems.

(** ** The limits of the queued containers *)
Definition limit_at (h : gmap loc SubContainer) (p : loc) : Z :=
  match h !! p with Some s => SubContainer.get_mem_limit_in_pages s | None => 0 end.
Definition limits (w : World) : Z := zsum (limit_at (w_heap w)) (queued (subcontainers (w_ec w))).

Lemma limits_update m h p s s' :
  NoDup (queued m) → p ∈ queued m → h !! p = Some s →
  zsum (limit_at (<[p := s']> h)) (queued m) =
  zsum (limit_at h) (queued m) +
    (SubContainer.get_mem_limit_in_pages s' - SubContainer.get_mem_limit_in_pages s).
Proof.
  intros Hnd Hp Hs. rewrite (zsum_update (limit_at h) _ _ p Hnd Hp).
  - unfold limit_at. by rewrite lookup_insert_eq, Hs.
  - intros b Hb. unfold limit_at. by rewrite lookup_insert_ne.
Qed.
Lemma queued_disjoint m k k' id id' q q' p :
  NoDup (queued m) → m !! k = Some (id, q) → m !! k' = Some (id', q') → k ≠ k' → p ∈ q → p ∉ q'.
Proof.
  intros Hnd Hk Hk' Hne Hp Hp'. rewrite (queued_lookup _ _ _ _ Hk) in Hnd.
  apply NoDup_app in Hnd as (_ & H & _). apply (H p Hp), elem_of_queued.
  exists k', id', q'. by rewrite lookup_delete_ne.
Qed.

Section Claims.
Context {ENV : Env} {ORDER : HashOrder}.

(** What is assumed of the world when memory is reclaimed: agents answer, and
    every newest container can be looked at, is known to its node's cAdvisor and
    never uses more than its limit; the limits add up to less than 2^60 pages. *)
Record mem_hyps (w : World) : Prop := {
  mh_wf : wf (w_ec w);
  mh_heap : heap_ok (subcontainers (w_ec w)) (w_heap w);
  mh_answering : answering;
  mh_limits : limits w < 1152921504606846976;
  mh_nonneg : ∀ p s, w_heap w !! p = Some s → 0 ≤ SubContainer.get_mem_limit_in_pages s;
  mh_newest : ∀ k id q p s, subcontainers (w_ec w) !! k = Some (id, q) → last q = Some p →
    w_heap w !! p = Some s →
    get_docker_id s ≠ "" ∧ 0 ≤ SubContainer.get_mem_limit_in_pages s < 2251799813685248 ∧
    ∃ ac i, sc_ac_map (w_ec w) !! k = Some (i, Some ac) ∧
      ∀ t, ∃ u, node_answer t ac s = Ok u ∧ u ≤ SubContainer.get_mem_limit_in_pages s * 4096;
}.

Lemma limits_nonneg w :
  (∀ p s, w_heap w !! p = Some s → 0 ≤ SubContainer.get_mem_limit_in_pages s) → 0 ≤ limits w.
Proof.
  intros H. apply zsum_nonneg. intros p _. unfold limit_at.
  destruct (w_heap w !! p) eqn:E; [by eapply H|lia].
Qed.

(** What is left of the limit of container [s] at [p], filed under [k], when its
    node reported a usage of [u] bytes and the agent carried out the resize: the
    usage plus 50 MiB, in whole pages, if that is less than the limit was. *)
Definition shrunk (w : World) (h : gmap loc SubContainer) (k : key) (p : loc) (s : SubContainer) : Prop :=
  ∃ ac i t u, sc_ac_map (w_ec w) !! k = Some (i, Some ac) ∧ node_answer t ac s = Ok u ∧
    limit_at h p = if u + 52428800 <? SubContainer.get_mem_limit_in_pages s * 4096 then (u + 52428800) / 4096
                   else SubContainer.get_mem_limit_in_pages s.

(** The state of the loop when the entries [l] are still to come. *)
Definition reclaiming (skip : SubContainer → bool) (w : World) (l : list (key * (ContainerId * list loc))) (ret : Z) (w' : World) : Prop :=
  NoDup l.*1 ∧ (∀ kv, kv ∈ l → subcontainers (w_ec w) !! kv.1 = Some kv.2) ∧
  w_ec w' = w_ec w ∧ dom (w_heap w') = dom (w_heap w) ∧
  (∀ kv p, kv ∈ l → last kv.2.2 = Some p → w_heap w' !! p = w_heap w !! p) ∧
  (∀ p s, w_heap w !! p = Some s → skip s = true → w_heap w' !! p = Some s) ∧
  0 ≤ ret ∧ (∀ p s, w_heap w' !! p = Some s → 0 ≤ SubContainer.get_mem_limit_in_pages s) ∧
  limits w' + ret ≤ limits w ≤
    limits w' + ret + (Z.of_nat (size (subcontainers (w_ec w))) - Z.of_nat (length l)) ∧
  (accepting → ∀ kv p s, subcontainers (w_ec w) !! kv.1 = Some kv.2 → kv ∉ l → last kv.2.2 = Some p →
     w_heap w !! p = Some s → skip s = false → shrunk w (w_heap w') kv.1 p s).

Lemma newest_visible w w' k id q :
  mem_hyps w → w_ec w' = w_ec w → subcontainers (w_ec w) !! k = Some (id, q) →
  (∀ p, last q = Some p → w_heap w' !! p = w_heap w !! p) →
  ∃ p s ac, last q = Some p ∧ p ∈ q ∧ visible w' id p s ac ∧ node_answers w' ac s ∧ w_heap w !! p = Some s ∧
    usage_of w' ac s ≤ SubContainer.get_mem_limit_in_pages s * 4096 ∧
    ∃ i, sc_ac_map (w_ec w) !! k = Some (i, Some ac).
Proof.
  intros H Hec Hk Hsame. destruct (EcTable.queue_nonempty _ _ _ _ (mh_wf _ H) Hk) as [Hne Hid].
  destruct (last q) as [p|] eqn:Hl; [|by apply last_None in Hl].
  assert (Hp : p ∈ q) by (by apply last_Some_elem_of).
  destruct (proj2 (mh_heap _ H) _ _ _ _ Hk Hp) as (s & Hs & Hkey & _).
  destruct (mh_newest _ H _ _ _ _ _ Hk Hl Hs) as (Hd & Hlim & ac & i & Hac & Hu).
  destruct (Hu (w_trace w')) as (u & Hans & Hule).
  assert (Huse : usage_of w' ac s = u) by (unfold usage_of; by rewrite Hans).
  exists p, s, ac. rewrite Huse. unfold node_answers. rewrite Huse. split_and!; try done; [|by exists i].
  unfold visible. rewrite Hec, (Hsame p eq_refl), Hkey. split_and!; try done.
  - by exists i.
  - unfold get_sc_for_update_back. by rewrite Hkey, Hk, Hl.
  - by destruct Hlim.
  - by destruct Hlim.
Qed.

Lemma reclaiming_next skip w l kv ret w' :
  reclaiming skip w (kv :: l) ret w' →
  (accepting → ∀ p s, last kv.2.2 = Some p → w_heap w !! p = Some s → skip s = false →
     shrunk w (w_heap w') kv.1 p s) →
  reclaiming skip w l ret w'.
Proof.
  intros ([_ ?]%NoDup_cons & Hin & ? & ? & Hsame & ? & ? & ? & ? & Hsh) Hkv. split_and!; try done.
  - intros. apply Hin. by right.
  - intros. apply (Hsame kv0); [by right|done].
  - lia.
  - simpl in *. lia.
  - intros Hacc kv0 p s Hk0 Hni Hl Hs Hsk. destruct (decide (kv0 = kv)) as [->|]; [by apply Hkv|].
    apply Hsh; try done. by intros [->|]%elem_of_cons.
Qed.

Lemma reclaim_entry_step w skip kv l ret w' F :
  mem_hyps w → reclaiming skip w (kv :: l) ret w' →
  wp (reclaim_entry skip ret kv) (λ r w'', reclaiming skip w l r w'') F w'.
Proof.
  intros H HJ. pose proof HJ as (Hnd & Hin & Hec & Hdom & Hsame & Hskip & Hret & Hl0 & Hlim & Hsh).
  destruct kv as [k [id q]]. pose proof (Hin _ (list_elem_of_here _ _)) as Hk. simpl in Hk.
  destruct (newest_visible w w' k id q H Hec Hk) as (p & s & ac & Hlast & Hpq & Hv & Hnode & Hs & Hu & i & Hi).
  { intros p Hp. by apply (Hsame (k, (id, q))); [left|]. }
  pose proof (proj1 Hv) as Hs'. unfold reclaim_entry. cbn [snd fst]. rewrite Hlast. ww. rewrite wp_defined. ww.
  destruct (skip s) eqn:Esk.
  { rewrite wp_ret. eapply reclaiming_next; [done|]. simpl. intros _ p' s'' Hp' Hs'' ?. congruence. }
  rewrite wp_bind.
  eapply wp_mono; [apply (wp_reclaim id p s ac); [apply H|done..]| |done].
  intros r w'' [Hec' Hcase]. rewrite wp_ret.
  destruct Hcase as [(-> & Hh & Hno)|(Ht & -> & Hh)].
  - rewrite Z.add_0_r. rewrite u64_small by (pose proof (mh_limits _ H); pose proof (limits_nonneg w' Hl0); wrap_lia).
    apply reclaiming_next in HJ; [unfold reclaiming, limits in *; by rewrite Hec', Hh|].
    simpl. intros Hacc p' s'' Hp' Hs'' _. rewrite Hlast in Hp'. injection Hp' as <-. rewrite Hs in Hs''. injection Hs'' as <-.
    exists ac, i, (w_trace w'), (usage_of w' ac s). split_and!; [done|exact Hnode|].
    specialize (Hno Hacc). unfold SAFE_MARGIN_BYTES in Hno. unfold limit_at. rewrite Hs'.
    by rewrite (proj2 (Z.ltb_ge _ _) Hno).
  - assert (HU : is_u64 (usage_of w' ac s)) by apply usage_is_u64.
    destruct (reclaimed_numbers _ _ (proj1 HU) Ht) as (_ & Hlt & Hr0 & Hr1).
    set (r := (_ - _) / 4096) in *. set (lim' := (_ + _) / 4096) in *.
    assert (Hnew : limits w'' = limits w' + (lim' - SubContainer.get_mem_limit_in_pages s)).
    { unfold limits. rewrite Hec', Hh, Hec. apply limits_update; [apply H| |done].
      apply elem_of_queued. eauto. }
    assert (Hnn : ∀ p s, w_heap w'' !! p = Some s → 0 ≤ SubContainer.get_mem_limit_in_pages s).
    { intros p0 s0. rewrite Hh, lookup_insert. case_decide; [|by apply Hl0]. intros [= <-].
      change (0 ≤ lim'). unfold lim', SAFE_MARGIN_BYTES. apply Z.div_pos; wrap_unfold; lia. }
    pose proof (limits_nonneg w'' Hnn). pose proof (mh_limits _ H).
    rewrite u64_small by wrap_lia.
    apply NoDup_cons in Hnd as [Hkl Hnd].
    assert (Hother : ∀ k2 id2 q2 p2, k2 ≠ k → subcontainers (w_ec w) !! k2 = Some (id2, q2) → last q2 = Some p2 → p ≠ p2).
    { intros k2 id2 q2 p2 Hne Hk2 Hl2 <-.
      eapply (queued_disjoint _ k k2); [apply H|exact Hk|exact Hk2|done|exact Hpq|by apply last_Some_elem_of]. }
    split_and!; try done; [|by rewrite Hec'|by rewrite Hh, dom_insert_lookup_L|..].
    + intros kv Hin2. apply Hin. by right.
    + intros [k2 [id2 q2]] p2 Hin2 Hl2. rewrite Hh, lookup_insert_ne.
      { apply (Hsame (k2, (id2, q2))); [by right|done]. }
      apply (Hother k2 id2 q2); [|exact (Hin _ (list_elem_of_further _ _ _ Hin2))|done].
      intros ->. apply Hkl. by apply (list_elem_of_fmap_2 fst) in Hin2.
    + intros p2 s2 Hs2 Hsk2. rewrite Hh, lookup_insert_ne; [by apply Hskip|]. intros <-. congruence.
    + lia.
    + lia.
    + simpl in *. lia.
    + intros Hacc [k2 [id2 q2]] p2 s2 Hk2 Hni Hl2 Hs2 Hsk2. simpl in *. destruct (decide (k2 = k)) as [->|Hne].
      * rewrite Hk in Hk2. injection Hk2 as <- <-. rewrite Hlast in Hl2. injection Hl2 as <-.
        rewrite Hs in Hs2. injection Hs2 as <-. exists ac, i, (w_trace w'), (usage_of w' ac s).
        split_and!; [done|exact Hnode|]. rewrite Hh. unfold limit_at. rewrite lookup_insert_eq.
        unfold SAFE_MARGIN_BYTES in Ht. by rewrite (proj2 (Z.ltb_lt _ _) Ht).
      * unfold shrunk, limit_at. rewrite Hh, lookup_insert_ne by (by eapply Hother).
        apply (Hsh Hacc (k2, (id2, q2))); try done. by intros [[= ? _ _]|]%elem_of_cons.
Qed.

Lemma reclaim_loop skip w :
  mem_hyps w →
  ∃ r w', mfold (reclaim_entry skip) 0 (iter (subcontainers (w_ec w))) w = (Ok r, w') ∧
    w_ec w' = w_ec w ∧ dom (w_heap w') = dom (w_heap w) ∧
    (∀ p s, w_heap w !! p = Some s → skip s = true → w_heap w' !! p = Some s) ∧ 0 ≤ r ∧ 0 ≤ limits w' ∧
    limits w' + r ≤ limits w ≤ limits w' + r + Z.of_nat (size (subcontainers (w_ec w))) ∧
    (accepting → ∀ k id q p s, subcontainers (w_ec w) !! k = Some (id, q) → last q = Some p →
       w_heap w !! p = Some s → skip s = false → shrunk w (w_heap w') k p s).
Proof.
  intros H. set (l := iter (subcontainers (w_ec w))).
  assert (Hl : l ≡ₚ map_to_list (subcontainers (w_ec w))) by apply iter_perm.
  assert (Hlen : length l = size (subcontainers (w_ec w))) by (by rewrite Hl, length_map_to_list).
  assert (Hwp : wp (mfold (reclaim_entry skip) 0 l) (reclaiming skip w []) never w).
  { apply wp_mfold; [|intros kv l' r w' _; by apply reclaim_entry_step].
    split_and!; try done; [| |apply (mh_nonneg _ H)|lia|lia|].
    - rewrite Hl. apply NoDup_fst_map_to_list.
    - intros [k v] Hin. rewrite Hl in Hin. by apply elem_of_map_to_list in Hin.
    - intros _ [k v] p s Hk Hni. exfalso. apply Hni. rewrite Hl. by apply elem_of_map_to_list. }
  apply wp_never_inv in Hwp as (r & w' & Hrun & _ & _ & Hec & Hdom & _ & Hskip & Hr & Hnn & Hlim & Hsh).
  exists r, w'. split_and!; try done; [by apply limits_nonneg|lia|simpl in Hlim; lia|].
  intros Hacc k id q p s Hk Hlast Hs Hsk. apply (Hsh Hacc (k, (id, q))); try done. by intros ?%not_elem_of_nil.
Qed.

(** ** Claims *)


(** C14: where every agent answers, every newest container has a docker id and a
    limit below 2^51 pages, its node reports its usage and that is no more than
    its limit ([mem_hyps]), reclaiming from all containers but those of the
    requester's connection, in whatever order, returns and invents no memory: the
    pages it reports were all taken from the limits of containers, and at most
    one page per container is lost. The containers of the requester's connection
    are not touched, the pools are left to the caller, and when the agents carry
    out the resizes, the newest container of every other connection is left with
    its usage plus 50 MiB, or with its limit if that was no more. (A container
    that uses more than its limit breaks this: [reclaim_over_limit_fabricates].) *)
Theorem reclaim_invents_nothing (client_fd : Z) (w : World) (H : mem_hyps w) :
  ∃ r w', handle_reclaim_memory client_fd w = (Ok r, w') ∧ w_ec w' = w_ec w ∧ 0 ≤ r ∧
    limits w' + r ≤ limits w ≤ limits w' + r + Z.of_nat (size (subcontainers (w_ec w))) ∧
    (∀ p s, w_heap w !! p = Some s → get_fd s = client_fd → w_heap w' !! p = Some s) ∧
    (accepting → ∀ k id q p s, subcontainers (w_ec w) !! k = Some (id, q) → last q = Some p →
       w_heap w !! p = Some s → get_fd s ≠ client_fd → shrunk w (w_heap w') k p s).
Proof.
  destruct (reclaim_loop (λ s, get_fd s =? client_fd) w H) as (r & w' & Hrun & Hec & _ & Hskip & Hr & _ & Hl & Hsh).
  exists r, w'. split_and!; try done; [by apply run_handle_reclaim|lia|lia| |].
  - intros p s Hs Hfd. apply Hskip; [done|]. by apply Z.eqb_eq.
  - intros Hacc k id q p s Hk Hp Hs Hfd. apply (Hsh Hacc k id q); try done. by apply Z.eqb_neq.
Qed.

(** The pool after [n] pages were granted or reclaimed. *)
Definition granted_pool (n : Z) (m : mem_g.mem) : mem_g.mem :=
  mem_g.Mem (mem_g.memory_limit_in_pages m) (mem_g.slice_size m)
    (mem_g.unallocated_memory_in_pages m - n) (mem_g.allocated_memory_in_pages m + n).

Lemma grant_small avail slice : 0 < avail < 1152921504606846976 → grant avail slice = Z.min slice avail.
Proof. intros. unfold grant. rewrite u64_small by wrap_lia. destruct (Z.ltb_spec slice avail); lia. Qed.

Lemma wp_grant_mem req res sc s w Q F :
  mem_g.wf (mpool w) → mem_g.sane (mpool w) → 0 < mem_g.unallocated_memory_in_pages (mpool w) →
  get_sc_for_update_back (ContainerId_of (Types.cgroup_id req) (client_ip req)) (w_ec w) = Ok sc →
  w_heap w !! sc = Some s →
  let g := Z.min (mem_g.slice_size (mpool w)) (mem_g.unallocated_memory_in_pages (mpool w)) in
  Q (ALLOC_SUCCESS, with_request 0 (with_rsrc_amnt (u64 (rsrc_amnt req + g)) res))
    (upd_sc sc (set_mem_limit_in_pages (u64 (rsrc_amnt req + g)) s) (upd_mpool (granted_pool g (mpool w)) w)) →
  wp (grant_mem req res (mem_g.unallocated_memory_in_pages (mpool w))) Q F w.
Proof.
  intros (_ & Hsl & _) Hsane Hpos Hfind Hs g HQ. pose proof Hsane as (?&?&Htr). unfold mem_g.tracked in Htr.
  unfold grant_mem. ww. change (get_memory_slice (w_ec w)) with (mem_g.slice_size (mpool w)).
  rewrite grant_small by lia. fold g. rewrite wp_update_alloc by (done || (unfold g; wrap_unfold; lia)). ww.
  unfold ec_find, wp at 1. change (get_sc_for_update_back ?a (w_ec (upd_mpool _ _))) with (get_sc_for_update_back a (w_ec w)).
  rewrite Hfind. ww. rewrite Z.max_r by (unfold g; lia). exact HQ.
Qed.

(** C16: a memory request of a known container while the pool holds pages (and
    the slice is not zero) is granted exactly the smaller of the slice and the
    pool, at least one page; the pool and the allocation move by exactly the
    grant, the container's limit becomes the requested limit plus the grant, no
    other container and no agent is asked, and the reply carries the new limit. *)
Theorem mem_req_from_pool (req res : msg_t) (clifd : Z) (w : World) (sc : loc) (s : SubContainer)
    (Htype : req_type req = REQ_MEM) (Hwf : mem_g.wf (mpool w)) (Hsane : mem_g.sane (mpool w))
    (Hpos : 0 < mem_g.unallocated_memory_in_pages (mpool w)) (Hslice : 0 < mem_g.slice_size (mpool w))
    (Hfind : get_sc_for_update_back (ContainerId_of (Types.cgroup_id req) (client_ip req)) (w_ec w) = Ok sc)
    (Hs : w_heap w !! sc = Some s) :
  let g := Z.min (mem_g.slice_size (mpool w)) (mem_g.unallocated_memory_in_pages (mpool w)) in
  let amount := u64 (rsrc_amnt req + g) in
  1 ≤ g ∧
  ∃ w', handle_mem_req req res clifd w = (Ok (ALLOC_SUCCESS, with_request 0 (with_rsrc_amnt amount res)), w') ∧
    w_heap w' = <[sc := set_mem_limit_in_pages amount s]> (w_heap w) ∧ w_trace w' = w_trace w ∧
    mem_g.unallocated_memory_in_pages (mpool w') = mem_g.unallocated_memory_in_pages (mpool w) - g ∧
    mem_g.allocated_memory_in_pages (mpool w') = mem_g.allocated_memory_in_pages (mpool w) + g ∧
    w_ec w' = with_mem (mpool w') (w_ec w) ∧ mem_g.slice_size (mpool w') = mem_g.slice_size (mpool w).
Proof.
  intros g amount. pose proof Hsane as (?&?&Htr). split; [lia|].
  exists (upd_sc sc (set_mem_limit_in_pages amount s) (upd_mpool (granted_pool g (mpool w)) w)).
  split; [|by split_and!].
  match goal with |- _ = ?r => enough (Hwp : wp (handle_mem_req req res clifd)
    (λ a w', (Ok a, w') = r) never w) end.
  { apply wp_never_inv in Hwp as (a & w' & -> & Ha). exact Ha. }
  unfold handle_mem_req. rewrite Htype. simpl negb. cbv iota. ww.
  change (get_unallocated_memory_in_pages (w_ec w)) with (u64 (mem_g.unallocated_memory_in_pages (mpool w))).
  unfold mem_g.tracked in Htr. rewrite u64_small, i64_small by wrap_lia.
  destruct (Z.ltb_spec 0 (mem_g.unallocated_memory_in_pages (mpool w))); [|lia].
  by apply (wp_grant_mem req res sc s).
Qed.

(** A request that finds the pool empty reclaims first and then grants from
    what came back, or fails when nothing did. *)
Lemma wp_empty_pool (req res : msg_t) (clifd r : Z) (w w1 : World) Q :
  req_type req = REQ_MEM → mem_g.unallocated_memory_in_pages (mpool w) = 0 →
  mfold (reclaim_entry (λ s, get_fd s =? clifd)) 0 (iter (subcontainers (w_ec w))) w = (Ok r, w1) →
  wp (if 0 <? r then
        ec_update_reclaim_memory_in_pages r ;; u ← ec_get get_unallocated_memory_in_pages; grant_mem req res (i64 u)
      else mret (ALLOC_MEM_FAILED, with_rsrc_amnt 0 res)) Q never w1 →
  wp (handle_mem_req req res clifd) Q never w.
Proof.
  intros Htype Hempty Hrun HQ. unfold handle_mem_req. rewrite Htype. simpl negb. cbv iota. ww.
  change (get_unallocated_memory_in_pages (w_ec w)) with (u64 (mem_g.unallocated_memory_in_pages (mpool w))).
  rewrite Hempty. change (i64 (u64 0)) with 0. change (0 <? 0) with false. cbv iota. rewrite wp_bind.
  eapply wp_ok; [by apply run_handle_reclaim|].
  destruct (0 <? r); [|exact HQ]. unfold when. ww. rewrite wp_bind in HQ. exact HQ.
Qed.

(** The pool after [r] reclaimed pages are booked back. *)
Definition reclaimed_pool (r : Z) (m : mem_g.mem) : mem_g.mem :=
  mem_g.Mem (mem_g.memory_limit_in_pages m) (mem_g.slice_size m)
    (mem_g.unallocated_memory_in_pages m + r) (Z.max 0 (mem_g.allocated_memory_in_pages m - r)).

(** Booking the yield to an empty pool and granting from it. *)
Lemma wp_regrant req res r sc s w Q F :
  mem_g.wf (mpool w) → mem_g.sane (mpool w) → mem_g.unallocated_memory_in_pages (mpool w) = 0 →
  0 < r ≤ mem_g.allocated_memory_in_pages (mpool w) → r < 1152921504606846976 →
  get_sc_for_update_back (ContainerId_of (Types.cgroup_id req) (client_ip req)) (w_ec w) = Ok sc →
  w_heap w !! sc = Some s →
  let g := Z.min (mem_g.slice_size (mpool w)) r in
  Q (ALLOC_SUCCESS, with_request 0 (with_rsrc_amnt (u64 (rsrc_amnt req + g)) res))
    (upd_sc sc (set_mem_limit_in_pages (u64 (rsrc_amnt req + g)) s)
      (upd_mpool (granted_pool g (reclaimed_pool r (mpool w))) (upd_mpool (reclaimed_pool r (mpool w)) w))) →
  wp (ec_update_reclaim_memory_in_pages r ;; u ← ec_get get_unallocated_memory_in_pages; grant_mem req res (i64 u)) Q F w.
Proof.
  intros (?&?&?&?) Hsane Hempty Hr Hr' Hfind Hs g HQ. pose proof Hsane as (?&?&Htr). unfold mem_g.tracked in Htr.
  rewrite wp_bind, wp_update_reclaim by (done || lia). ww. fold (reclaimed_pool r (mpool w)).
  set (w2 := upd_mpool (reclaimed_pool r (mpool w)) w).
  assert (Hu : mem_g.unallocated_memory_in_pages (mpool w2) = r) by (simpl; lia).
  change (get_unallocated_memory_in_pages (w_ec w2)) with (u64 (mem_g.unallocated_memory_in_pages (mpool w2))).
  rewrite Hu, u64_small, i64_small by wrap_lia. rewrite <-Hu at 1.
  apply (wp_grant_mem req res sc s); [|split_and!; rewrite ?Hu|lia|done|done|].
  - unfold mem_g.wf; simpl. split_and!; try done; wrap_lia.
  - lia.
  - simpl. lia.
  - unfold mem_g.tracked; simpl. lia.
  - rewrite Hu. exact HQ.
Qed.

(** C17: with an empty pool the other containers are asked, under the
    assumptions of [reclaim_invents_nothing] and with limits that the allocation
    covers. The yield is what [handle_reclaim_memory] returns in that state:
    pages taken from the limits, at most one per container being lost. If it is
    zero, the request fails with code 3 and an amount of zero, in the state the
    reclaim left, with the pools as they were; otherwise the whole yield is moved
    from the allocation to the pool and the smaller of it and the slice is taken
    from there for the requester, whose recorded limit and reply are the
    requested amount plus the grant. *)
Theorem mem_req_empty_pool (req res : msg_t) (clifd : Z) (w : World) (sc : loc)
    (Htype : req_type req = REQ_MEM) (H : mem_hyps w) (Hsane : mem_g.sane (mpool w))
    (Hempty : mem_g.unallocated_memory_in_pages (mpool w) = 0)
    (Halloc : limits w ≤ mem_g.allocated_memory_in_pages (mpool w))
    (Hfind : get_sc_for_update_back (ContainerId_of (Types.cgroup_id req) (client_ip req)) (w_ec w) = Ok sc)
    (Hsc : is_Some (w_heap w !! sc)) :
  ∃ r w1, handle_reclaim_memory clifd w = (Ok r, w1) ∧ w_ec w1 = w_ec w ∧
    0 ≤ r ∧ limits w1 + r ≤ limits w ≤ limits w1 + r + Z.of_nat (size (subcontainers (w_ec w))) ∧
    if r =? 0
    then handle_mem_req req res clifd w = (Ok (ALLOC_MEM_FAILED, with_rsrc_amnt 0 res), w1)
    else
      let g := Z.min (mem_g.slice_size (mpool w)) r in
      let amount := u64 (rsrc_amnt req + g) in
      ∃ w', handle_mem_req req res clifd w = (Ok (ALLOC_SUCCESS, with_request 0 (with_rsrc_amnt amount res)), w') ∧
        w_heap w' = alter (set_mem_limit_in_pages amount) sc (w_heap w1) ∧ w_trace w' = w_trace w1 ∧
        mem_g.unallocated_memory_in_pages (mpool w') = r - g ∧
        mem_g.allocated_memory_in_pages (mpool w') = mem_g.allocated_memory_in_pages (mpool w) - r + g ∧
        limit_at (w_heap w') sc = amount.
Proof.
  destruct (reclaim_loop (λ s, get_fd s =? clifd) w H) as (r & w1 & Hrun & Hec & Hdom & _ & Hr & Hl0 & Hl & _).
  exists r, w1. split; [by apply run_handle_reclaim|]. split; [done|]. split; [done|]. split; [lia|].
  assert (Hmp : mpool w1 = mpool w) by (unfold mpool; by rewrite Hec).
  destruct (Z.eqb_spec r 0) as [->|Hr0].
  - enough (Hwp : wp (handle_mem_req req res clifd)
      (λ a w', a = (ALLOC_MEM_FAILED, with_rsrc_amnt 0 res) ∧ w' = w1) never w).
    { by apply wp_never_inv in Hwp as (a & w' & Hr' & -> & ->). }
    by apply wp_empty_pool with 0 w1.
  - destruct Hsc as [s0 Hs0]. assert (is_Some (w_heap w1 !! sc)) as [s Hs].
    { apply elem_of_dom. rewrite Hdom. by apply elem_of_dom_2 in Hs0. }
    pose proof (mh_limits _ H). destruct (mh_wf _ H) as (_ & _ & _ & Hmw). fold (mpool w) in Hmw.
    set (g := Z.min (mem_g.slice_size (mpool w)) r). set (m1 := reclaimed_pool r (mpool w)).
    set (w3 := upd_sc sc (set_mem_limit_in_pages (u64 (rsrc_amnt req + g)) s)
      (upd_mpool (granted_pool g m1) (upd_mpool m1 w1))).
    assert (Hwp : wp (handle_mem_req req res clifd)
      (λ a w', a = (ALLOC_SUCCESS, with_request 0 (with_rsrc_amnt (u64 (rsrc_amnt req + g)) res)) ∧ w' = w3) never w).
    { apply (wp_empty_pool req res clifd r w w1 _ Htype Hempty Hrun). destruct (Z.ltb_spec 0 r); [|lia].
      apply (wp_regrant req res r sc s); rewrite ?Hmp, ?Hec; try done; lia. }
    apply wp_never_inv in Hwp as (a & w' & Hr' & -> & ->). exists w3. split; [exact Hr'|].
    fold g. unfold limit_at. simpl. rewrite lookup_insert_eq. simpl.
    split_and!; [|done|lia|lia|done]. apply map_eq. intros p. destruct (decide (p = sc)) as [->|].
    + by rewrite lookup_insert_eq, lookup_alter_eq, Hs.
    + by rewrite lookup_insert_ne, lookup_alter_ne.
Qed.

(** C18: a round of the periodic reclaim, once the application is complete and
    under the assumptions of [reclaim_invents_nothing] and with limits that the
    allocation covers, returns having moved some number of pages from the
    allocation to the pool; these are the pages by which the limits have
    decreased, less at most one page per container, and the limits are still
    covered by the allocation. When the agents carry out the resizes, the newest
    container of every id is left with its usage plus 50 MiB, or with its limit
    if that was no more. *)
Theorem run_conserves (num_containers : Z) (w : World) (H : mem_hyps w) (Hsane : mem_g.sane (mpool w))
    (Hready : run_ready num_containers w = true)
    (Hcov : limits w ≤ mem_g.allocated_memory_in_pages (mpool w)) :
  ∃ r w', run num_containers w = (Ok tt, w') ∧ 0 ≤ r ∧
    mem_g.unallocated_memory_in_pages (mpool w') = mem_g.unallocated_memory_in_pages (mpool w) + r ∧
    mem_g.allocated_memory_in_pages (mpool w') = mem_g.allocated_memory_in_pages (mpool w) - r ∧
    limits w' + r ≤ limits w ≤ limits w' + r + Z.of_nat (size (subcontainers (w_ec w))) ∧
    limits w' ≤ mem_g.allocated_memory_in_pages (mpool w') ∧
    (accepting → ∀ k id q p s, subcontainers (w_ec w) !! k = Some (id, q) → last q = Some p →
       w_heap w !! p = Some s → shrunk w (w_heap w') k p s).
Proof.
  destruct (reclaim_loop (λ _, false) w H) as (r & w1 & Hrun & Hec & _ & _ & Hr & Hl0 & Hl & Hsh).
  pose proof (mh_limits _ H). assert (Hmp : mpool w1 = mpool w) by (unfold mpool; by rewrite Hec).
  enough (Hwp : wp (run num_containers) (λ _ w', w_heap w' = w_heap w1 ∧ limits w' = limits w1 ∧
    mem_g.unallocated_memory_in_pages (mpool w') = mem_g.unallocated_memory_in_pages (mpool w) + r ∧
    mem_g.allocated_memory_in_pages (mpool w') = mem_g.allocated_memory_in_pages (mpool w) - r) never w).
  { apply wp_never_inv in Hwp as ([] & w' & ? & Hh & Hlw & ? & ?). exists r, w'. rewrite Hh, Hlw. split_and!; try done; [lia..|].
    intros Hacc k id q p s Hk Hp Hs. by apply (Hsh Hacc k id q). }
  unfold run. ww. rewrite Hready. simpl negb. cbv iota. ww. eapply wp_ok; [exact Hrun|].
  unfold when. destruct (Z.ltb_spec 0 r).
  - rewrite wp_update_reclaim by (rewrite ?Hmp; done || lia).
    change (limits (upd_mpool _ w1)) with (limits w1). simpl. rewrite Hmp. split_and!; [done..|lia|lia].
  - rewrite wp_ret, Hmp. split_and!; [done..|lia|lia].
Qed.

(** What reclaiming does when the unsigned test for the safe margin succeeds and
    the agent accepts. *)
Lemma reclaim_resized id sc s ac w :
  visible w id sc s ac → node_answers w ac s → usage_of w ac s < 4611686018427387904 →
  SAFE_MARGIN_BYTES < u64 (SubContainer.get_mem_limit_in_pages s * 4096 - usage_of w ac s) →
  (∀ t req, resize_completions t (AgentClient.get_agent_ip ac) req = [(true, 0)]) →
  let target := usage_of w ac s + SAFE_MARGIN_BYTES in
  ∃ w', reclaim id sc w = (Ok (u64 (SubContainer.get_mem_limit_in_pages s * 4096 - target) / 4096), w') ∧
    w_heap w' = <[sc := set_mem_limit_in_pages (target / 4096) s]> (w_heap w).
Proof.
  intros (Hs & Hd & Hk & (i & Ha) & Hback & Hlim) Hnode Hsmall Hmargin Hacc target. unfold SAFE_MARGIN_BYTES in *.
  set (lim := SubContainer.get_mem_limit_in_pages s) in *. set (U := usage_of w ac s) in *.
  assert (HU : is_u64 U) by apply usage_is_u64.
  enough (Hwp : wp (reclaim id sc) (λ r w', r = u64 (lim * 4096 - target) / 4096 ∧
    w_heap w' = <[sc := set_mem_limit_in_pages (target / 4096) s]> (w_heap w)) never w).
  { apply wp_never_inv in Hwp as (r & w' & ? & -> & ?). by exists w'. }
  unfold reclaim. ww. unfold sc_get_memory_usage_in_bytes_cadvisor, get_sc_memory_usage_in_bytes.
  rewrite wp_bind. assert (Ha' : sc_ac_map (w_ec w) !! key_of id = Some (i, Some ac)) by (by rewrite Hk).
  rewrite (wp_get_corres _ _ _ _ _ _ Ha'). rewrite bool_decide_false by done.
  apply (wp_node_usage w ac s); [done|]. intros t1. fold lim. fold U. set (w1 := upd_trace t1 w).
  change (u64 (u64 (-1) * PAGE_SIZE)) with 18446744073709547520.
  destruct (Z.eqb_spec U 18446744073709547520); [lia|].
  unfold page_to_byte. rewrite (u64_small (lim * 4096)) by wrap_lia. unfold SAFE_MARGIN_BYTES.
  rewrite (proj2 (Z.ltb_lt _ _) Hmargin).
  rewrite (u64_small (U + 52428800)) by wrap_lia. rewrite wp_bind.
  unfold sc_resize_memory_limit_in_pages. rewrite wp_bind, (wp_agent_or_exit id w1 ac i _ _ Ha').
  unfold rpc, wp at 1. rewrite AgentClient.resizeMemoryLimitPages_eq, Hacc. cbn [i32].
  change (i32 0 =? 0) with true. cbv iota. ww.
  unfold sc_set_memory_limit_in_pages. rewrite wp_bind. unfold ec_find, wp at 1.
  change (w_ec (upd_trace _ w1)) with (w_ec w). change (get_c_id s) with (c_id s). rewrite Hback. ww.
  by unfold byte_to_page.
Qed.

(** C38: for a container that uses more than its limit the unsigned
    difference of limit and usage is huge, so the test for the safe margin
    succeeds: the limit is raised to the usage plus 50 MiB and more than 2^51
    pages are reported as reclaimed. *)
Theorem reclaim_over_limit_fabricates (id : ContainerId) (sc : loc) (s : SubContainer)
    (ac : AgentClient.AgentClient) (w : World) (Hv : visible w id sc s ac) (Hnode : node_answers w ac s)
    (Hover : SubContainer.get_mem_limit_in_pages s * 4096 < usage_of w ac s < 4611686018427387904)
    (Hacc : ∀ t req, resize_completions t (AgentClient.get_agent_ip ac) req = [(true, 0)]) :
  ∃ r w', reclaim id sc w = (Ok r, w') ∧ 2251799813685248 ≤ r ∧
    w_heap w' = <[sc := set_mem_limit_in_pages ((usage_of w ac s + 52428800) / 4096) s]> (w_heap w).
Proof.
  destruct Hv as (Hs & Hrest). pose proof Hrest as (_ & _ & _ & _ & Hlim).
  destruct (reclaim_resized id sc s ac w) as (w' & Hrun & Hh); [by split|done|lia| |done|].
  { unfold SAFE_MARGIN_BYTES. wrap_lia. }
  eexists _, w'. split; [exact Hrun|]. split; [|exact Hh].
  unfold SAFE_MARGIN_BYTES. apply Z.div_le_lower_bound; [lia|]. wrap_lia.
Qed.

(** A node that cannot be reached, or answers with another status than
    OK, looks like one whose containers use nothing: the next reclaim lowers
    their limits to 50 MiB, whatever they really use. *)
Theorem unreachable_node_shrinks {L : WebJsonLaws web_json} (id : ContainerId) (sc : loc) (s : SubContainer)
    (ac : AgentClient.AgentClient) (w : World) (Hv : visible w id sc s ac)
    (Hdown : ∀ url, JSONFacade.json_return (http_get (w_trace w) url) = Ok null)
    (Hlim : 12800 < SubContainer.get_mem_limit_in_pages s)
    (Hacc : ∀ t req, resize_completions t (AgentClient.get_agent_ip ac) req = [(true, 0)]) :
  ∃ w', reclaim id sc w = (Ok (SubContainer.get_mem_limit_in_pages s - 12800), w') ∧
    limit_at (w_heap w') sc = 12800.
Proof.
  pose proof Hv as (_ & _ & _ & _ & _ & Hl).
  assert (Hans : node_answer (w_trace w) ac s = Ok 0) by (by apply CAdvisor.usage_unreachable).
  assert (Hu : usage_of w ac s = 0) by (unfold usage_of; by rewrite Hans).
  destruct (reclaim_resized id sc s ac w) as (w' & Hrun & Hh); [done| |lia| |done|].
  { unfold node_answers. by rewrite Hu. }
  { rewrite Hu. unfold SAFE_MARGIN_BYTES. wrap_lia. }
  rewrite Hu in *. exists w'. split.
  - rewrite Hrun. unfold SAFE_MARGIN_BYTES. do 2 f_equal. rewrite u64_small by wrap_lia.
    Z.div_mod_to_equations. lia.
  - rewrite Hh. unfold limit_at. by rewrite lookup_insert_eq.
Qed.

End Claims.

(** ** Instances *)
Definition cpu0 : cpu_g.cpu := cpu_g.Cpu 30000000 200000000 400000000 0 200000000.
Definition wm (m : mem_g.mem) : World := upd_mpool m (Demo.world 200000000 400000000 cpu0).
(** One container with 1 GiB and a pool of [un] pages. *)
Definition pages (un : Z) : mem_g.mem := mem_g.Mem 1048576 5000 un 262144.
Ltac concrete := vm_compute; repeat split; intros; discriminate.

Lemma answering_demo : answering (ENV := Demo.willing).
Proof. intros t ip req. by exists 0, []. Qed.
Lemma visible_demo m : visible (wm m) Demo.cid 1 (Demo.sc 200000000) Demo.agent.
Proof.
  split_and!; try done; [|by vm_compute..]. exists Demo.cid. by vm_compute.
Qed.
Lemma mem_hyps_demo m : mem_g.wf m → mem_hyps (ENV := Demo.willing) (wm m).
Proof.
  intros Hm. constructor.
  - apply Demo.ec_wf; [concrete|done].
  - apply Demo.heap_ok_demo. wrap_lia.
  - apply answering_demo.
  - by vm_compute.
  - intros p s Hs. cbn in Hs. apply lookup_singleton_Some in Hs as [_ <-]. concrete.
  - intros k id q p s Hk Hp Hs. cbn in Hk, Hs.
    apply lookup_singleton_Some in Hk as [<- [= <- <-]]. injection Hp as <-.
    apply lookup_singleton_Some in Hs as [_ <-]. split; [done|]. split; [concrete|].
    exists Demo.agent, Demo.cid. split; [by vm_compute|]. intros t. exists 67108864. by vm_compute.
Qed.
Lemma pages_wf un : is_i64 un → mem_g.wf (pages un).
Proof. intros. unfold mem_g.wf; simpl. split_and!; try done; wrap_lia. Qed.

Lemma reclaim_invents_nothing_witness :
  ∃ r w', handle_reclaim_memory (ENV := Demo.willing) (ORDER := Demo.listed) 9 (wm (pages 0)) = (Ok r, w') ∧
    limits w' + r ≤ limits (wm (pages 0)).
Proof.
  destruct (reclaim_invents_nothing (ENV := Demo.willing) (ORDER := Demo.listed) 9 (wm (pages 0)))
    as (r & w' & ? & _ & _ & [? _] & _).
  - apply mem_hyps_demo, pages_wf. wrap_lia.
  - exists r, w'. split; assumption.
Defined.

Definition mem_request : msg_t := Msg Demo.node 7 1 262144 0 0 0 0.
Lemma mem_req_from_pool_witness :
  ∃ w', handle_mem_req (ENV := Demo.willing) (ORDER := Demo.listed) mem_request mem_request 3 (wm (pages 3000)) =
      (Ok (ALLOC_SUCCESS, with_request 0 (with_rsrc_amnt 265144 mem_request)), w') ∧
    mem_g.unallocated_memory_in_pages (mpool w') = 0 ∧ mem_g.allocated_memory_in_pages (mpool w') = 265144.
Proof.
  destruct (mem_req_from_pool (ENV := Demo.willing) (ORDER := Demo.listed) mem_request mem_request 3
    (wm (pages 3000)) 1 (Demo.sc 200000000)) as (_ & w' & Hrun & _ & _ & Hu & Ha & _);
    [done|apply pages_wf; wrap_lia|done..|].
  exists w'. split; [exact Hrun|]. split; [exact Hu|exact Ha].
Defined.
Lemma mem_req_empty_pool_witness :
  ∃ r w', handle_reclaim_memory (ENV := Demo.willing) (ORDER := Demo.listed) 9 (wm (pages 0)) = (Ok r, w') ∧
    limits w' + r ≤ 262144 ∧
    (handle_mem_req (ENV := Demo.willing) (ORDER := Demo.listed) mem_request mem_request 9 (wm (pages 0))).1 =
      Ok (ALLOC_SUCCESS, with_request 0 (with_rsrc_amnt 267144 mem_request)).
Proof.
  destruct (mem_req_empty_pool (ENV := Demo.willing) (ORDER := Demo.listed) mem_request mem_request 9
    (wm (pages 0)) 1) as (r & w1 & Hrun & _ & _ & [Hl _] & _).
  - done.
  - apply mem_hyps_demo, pages_wf. wrap_lia.
  - done.
  - done.
  - by vm_compute.
  - by vm_compute.
  - by exists (Demo.sc 200000000).
  - exists r, w1. split; [exact Hrun|]. split; [exact Hl|]. vm_compute. reflexivity.
Defined.
Lemma run_conserves_witness :
  ∃ r w', run (ENV := Demo.willing) (ORDER := Demo.listed) 1 (wm (pages 0)) = (Ok tt, w') ∧
    mem_g.unallocated_memory_in_pages (mpool w') = r ∧ limits w' + r ≤ 262144 ∧
    mem_g.allocated_memory_in_pages (mpool w') = 262144 - r.
Proof.
  destruct (run_conserves (ENV := Demo.willing) (ORDER := Demo.listed) 1 (wm (pages 0)))
    as (r & w' & Hrun & _ & Hu & Ha & [Hl _] & _).
  - apply mem_hyps_demo, pages_wf. wrap_lia.
  - done.
  - by vm_compute.
  - by vm_compute.
  - exists r, w'. split; [exact Hrun|]. split; [exact Hu|]. split; [exact Hl|exact Ha].
Defined.

(** A container of 1 GiB that uses 1 GiB and one byte. *)
Definition greedy : Env := Demo.env 0 0 1073741824 1073741825.
Lemma reclaim_over_limit_fabricates_witness :
  ∃ r w', reclaim (ENV := greedy) Demo.cid 1 (wm (pages 0)) = (Ok r, w') ∧ 2251799813685248 ≤ r.
Proof.
  destruct (reclaim_over_limit_fabricates (ENV := greedy) Demo.cid 1 (Demo.sc 200000000) Demo.agent (wm (pages 0)))
    as (r & w' & ? & ? & _).
  - apply visible_demo.
  - by vm_compute.
  - by vm_compute.
  - done.
  - exists r, w'. split; assumption.
Defined.

(** The node of a container of 1 GiB does not answer. *)
Definition unreachable : Env := {|
  quota_read _ _ _ := Some 0; resize_completions _ _ _ := [(true, 0)]; web_json := JsonText.text_json;
  http_get _ _ := RequestFailed (J := JsonText.text_json) HttpException;
  http_post _ _ _ := RequestFailed (J := JsonText.text_json) HttpException;
|}.
Lemma unreachable_node_shrinks_witness :
  ∃ w', reclaim (ENV := unreachable) Demo.cid 1 (wm (pages 0)) = (Ok 249344, w') ∧ limit_at (w_heap w') 1 = 12800.
Proof.
  apply (unreachable_node_shrinks (ENV := unreachable) (L := JsonText.text_json_laws) Demo.cid 1 (Demo.sc 200000000) Demo.agent (wm (pages 0)));
    [apply visible_demo|done|by vm_compute|done].
Defined.

(** A node that answers without the expected fields. *)
Definition garbled : Env := {|
  quota_read _ _ _ := Some 0; resize_completions _ _ _ := [(true, 0)]; web_json := JsonText.text_json;
  http_get _ _ := Response (J := JsonText.text_json) 200
    (Extracted (JsonText.JObj [(JsonText.chars "/docker/d7", JsonText.JObj [])])) (Raised HttpException);
  http_post _ _ _ := RequestFailed (J := JsonText.text_json) HttpException;
|}.
(** An answer of cAdvisor without the expected fields raises an exception
    that nobody catches: with an empty pool the thread of the requesting
    container ends with it, and with it the process, before any page is moved. *)
Theorem garbled_answer_throws :
  let w := wm (pages 0) in
  let '(o, w') := handle_mem_req (ENV := garbled) (ORDER := Demo.listed) (Msg Demo.node 7 1 100 0 0 1 0) (Msg Demo.node 7 1 100 0 0 1 0) 9 w in
  o = Fail Throw ∧ mpool w' = mpool w ∧ w_heap w' = w_heap w.
Proof. vm_compute. by split_and!. Qed.

(** A new pod of 262144 pages for which only 1000 pages are left
    and nothing can be reclaimed has its limit lowered to 1000 pages by the
    agent, but the controller books and records the full 262144: the pools add
    up to 261144 pages more than before, and the recorded limit is not the one
    the agent set. *)
Theorem newpod_books_full_limit :
  let w := wm (pages 1000) in
  let '(o, w') := determine_mem_limit_for_new_pod (ENV := Demo.willing) (ORDER := Demo.listed) 1 3 w in
  o = Ok tt ∧ mem_g.tracked (mpool w') = mem_g.tracked (mpool w) + 261144 ∧
  limit_at (w_heap w') 1 = 262144 ∧
  head (w_trace w') = Some (EvResize Demo.node (ResizeReq 7 1000)).
Proof. vm_compute. by split_and!. Qed.

End MemTheorems.
