(* ===== verification/Manager.v ===== *)
(** * Registration and dispatch ([src/Manager.cpp], 7-15, 426-507)

    The first message of a container registers it; [handle_req] dispatches on
    the type of a message. The thread a registration starts to set the memory
    limit is [ManagerMem.determine_mem_limit_for_new_pod]; the handlers return
    the container it is started for. *)
From S2P Require Import Prelude OmNet Float64 Window LocalStats SubContainer Agents CpuG MemG.
From S2P Require Import ElasticContainer World Types ECAPI Demo ManagerCpu ManagerMem.
Import SubContainer ElasticContainer ECAPI ManagerCpu ManagerMem.

Definition BASE_GRPC_PORT : Z := 4447.

Module Manager.

(** The port of the manager's deployment service. *)
Definition grpc_port (_manager_id : Z) : Z := i32 (BASE_GRPC_PORT + _manager_id - 1).

Section Handlers.
Context {ENV : Env} {ORDER : HashOrder}.

Definition handle_add_cgroup_to_ec (now : Z) (req res : msg_t) (ip fd : Z) : M World (Z * msg_t * loc) :=
  '(update_quota, quota, sc, ret) ← register_sc now req ip fd;
  target_agent ← agent_of_sc sc;
  match target_agent with
  | Some ac =>
      c ← sc_get sc get_c_id;
      ec_do (add_to_sc_ac_map c (Some ac)) ;;
      sc_do sc (set_sc_inserted true)
  | None => mret tt
  end ;;
  when (negb (update_quota =? 0)) (set_sc_quota_syscall sc quota 13 ;; mret tt) ;;
  mret (ret, with_request (u32 (request res + 1)) res, sc).

(** The return code, the reply, and the container and descriptor of the thread
    that was started. *)
Definition handle_req (now : Z) (req res : msg_t) (host_ip clifd : Z) : M World (Z * msg_t * option (loc * Z)) :=
  if req_type req =? REQ_MEM then
    '(ret, res) ← handle_mem_req req res clifd; mret (i32 ret, res, None)
  else if req_type req =? REQ_CPU then
    '(ret, res) ← handle_cpu_usage_report now req res; mret (i32 ret, res, None)
  else if req_type req =? REQ_INIT then
    '(ret, res, sc) ← handle_add_cgroup_to_ec now req res host_ip clifd; mret (i32 ret, res, Some (sc, clifd))
  else mret (FAILED, res, None).

(** ** Lemmas *)
Implicit Types (w : World).

Definition new_id (req : msg_t) (ip : Z) : ContainerId :=
  ContainerId_of (Types.cgroup_id req) (ip4_addr.from_net ip).
(** The container object a registration creates. *)
Definition new_sc_of (now : Z) (req : msg_t) (ip fd : Z) w : SubContainer :=
  SubContainer_of_quota now (Types.cgroup_id req) ip fd (granted (pool w) (rsrc_amnt req)) (request req).

Lemma registered_lookup now req ip fd w :
  w_heap (registered now req ip fd w) !! fresh_sc w = Some (new_sc_of now req ip fd w).
Proof. apply lookup_insert_eq. Qed.
Lemma registered_sc_ac_map now req ip fd w :
  sc_ac_map (w_ec (registered now req ip fd w)) = sc_ac_map (w_ec w).
Proof.
  unfold registered; cbn [upd_ec w_ec].
  rewrite (proj1 (proj2 (update_fair_cpu_share_frame _))). by rewrite (proj1 (insert_sc_frame _ _ _)).
Qed.
Lemma registered_newest now req ip fd w :
  wf (w_ec w) → cpu_g.wf (after_grant (pool w) (rsrc_amnt req)) →
  get_sc_for_update_back (new_id req ip) (w_ec (registered now req ip fd w)) = Ok (fresh_sc w).
Proof.
  intros Hwf Hc. unfold registered; cbn [upd_ec w_ec]. unfold get_sc_for_update_back.
  rewrite (proj1 (update_fair_cpu_share_frame _)).
  set (e := with_cpu _ (w_ec w)). unfold insert_sc. cbn [new_id].
  change (c_id (SubContainer_of_quota _ _ _ _ _ _)) with (new_id req ip).
  destruct (subcontainers e !! key_of (new_id req ip)) as [[k q]|]; simpl; rewrite lookup_insert_eq; [|done].
  by rewrite last_snoc.
Qed.

(** Filing the agent of container [p] and marking it as inserted. *)
Definition joined (p : loc) (s : SubContainer) (ac : AgentClient.AgentClient) w : World :=
  upd_sc p (set_sc_inserted true s) (upd_ec (add_to_sc_ac_map (c_id s) (Some ac) (w_ec w)) w).

Lemma add_to_sc_ac_map_frame id ac e :
  subcontainers (add_to_sc_ac_map id ac e) = subcontainers e ∧ _cpu (add_to_sc_ac_map id ac e) = _cpu e ∧
  _mem (add_to_sc_ac_map id ac e) = _mem e ∧ fair_cpu_share (add_to_sc_ac_map id ac e) = fair_cpu_share e.
Proof. unfold add_to_sc_ac_map. by destruct (sc_ac_map e !! _). Qed.
Lemma add_to_sc_ac_map_wf id ac e : wf e → wf (add_to_sc_ac_map id ac e).
Proof.
  intros Hwf. unfold add_to_sc_ac_map. destruct (sc_ac_map e !! key_of id) eqn:E; [done|].
  destruct Hwf as (H1 & H2 & H3 & H4). split_and!; try done; simpl.
  intros k i a. rewrite lookup_insert. case_decide; [|by apply H2]. intros [= <- _]. done.
Qed.

Lemma joined_inv p s ac w :
  Inv w → w_heap w !! p = Some s → p ∈ queued (subcontainers (w_ec w)) →
  Inv (joined p s ac w) ∧ drift (joined p s ac w) = drift w.
Proof.
  intros (Hwf & Hh & Hb) Hs Hin. destruct (add_to_sc_ac_map_frame (c_id s) (Some ac) (w_ec w)) as (F1 & F2 & F3 & _).
  assert (Hsw : cpu_l.wf (cpu s)).
  { apply elem_of_queued in Hin as (k & id & q & Hm & Hp).
    destruct (proj2 Hh _ _ _ _ Hm Hp) as (s' & Hs' & _ & Hw). rewrite Hs in Hs'. by simplify_eq. }
  unfold Inv, drift, pool, joined, upd_sc, upd_heap, upd_ec; cbn [w_ec w_heap]. rewrite F1, F2.
  split; [split_and!|].
  - by apply add_to_sc_ac_map_wf.
  - by eapply heap_ok_update.
  - exact Hb.
  - rewrite (quotas_update _ _ _ s); [|apply Hh|done..]. unfold get_quota; simpl. lia.
Qed.

(** The client that quota requests for container [id] go to after it was
    registered from a node with agent [ac]: the one filed under its id before,
    which may be null ([null_agent_sticks]), or [ac]. *)
Definition client_of (id : ContainerId) (ac : AgentClient.AgentClient) w : option AgentClient.AgentClient :=
  match sc_ac_map (w_ec w) !! key_of id with Some (_, filed) => filed | None => Some ac end.
Lemma joined_served p s ac ac' w :
  client_of (c_id s) ac w = Some ac' → timely (AgentClient.get_agent_ip ac') →
  served (joined p s ac w) (set_sc_inserted true s) ac'.
Proof.
  intros Hcl Ht. unfold served, joined, upd_sc, upd_heap, upd_ec; cbn [w_ec]. unfold client_of, add_to_sc_ac_map in *.
  split; [done|]. split; [|done]. destruct (sc_ac_map (w_ec w) !! key_of (c_id s)) as [[i f]|] eqn:E.
  - exists i. rewrite <-Hcl. exact E.
  - injection Hcl as <-. exists (c_id s). simpl. by rewrite lookup_insert_eq.
Qed.

(** The world after the registration of a container whose agent is known. *)
Definition enrolled (now : Z) (req : msg_t) (ip fd : Z) (ac : AgentClient.AgentClient) w : World :=
  joined (fresh_sc w) (new_sc_of now req ip fd w) ac (registered now req ip fd w).

Section Enrol.
Variables (now : Z) (req res : msg_t) (ip fd : Z) (w : World) (ac ac' : AgentClient.AgentClient).
Hypotheses (HI : Inv w) (Hf : fits (pool w)) (Hmsg : msg_wf req)
  (Hac : AgentClientDB.get_agent_client_by_ip (ip4_addr.from_net ip) (w_acdb w) = Some ac)
  (Hcl : client_of (new_id req ip) ac w = Some ac') (Ht : timely (AgentClient.get_agent_ip ac')).

Lemma enrolled_fields :
  after_grant (pool w) (rsrc_amnt req) = pool (enrolled now req ip fd ac w) ∧
  get_sc_for_update_back (new_id req ip) (w_ec (enrolled now req ip fd ac w)) = Ok (fresh_sc w) ∧
  fresh_sc w ∈ queued (subcontainers (w_ec (registered now req ip fd w))) ∧
  served (enrolled now req ip fd ac w) (set_sc_inserted true (new_sc_of now req ip fd w)) ac'.
Proof.
  set (w1 := registered now req ip fd w). set (s := new_sc_of now req ip fd w).
  destruct (add_to_sc_ac_map_frame (c_id s) (Some ac) (w_ec w1)) as (F1 & F2 & _).
  assert (Hag : after_grant (pool w) (rsrc_amnt req) = pool w1).
  { unfold w1, registered, pool; cbn [upd_ec w_ec].
    rewrite (proj1 (proj2 (proj2 (update_fair_cpu_share_frame _)))), (proj1 (proj2 (insert_sc_frame _ _ _))). done. }
  assert (Hnew : get_sc_for_update_back (new_id req ip) (w_ec w1) = Ok (fresh_sc w)).
  { destruct Hmsg as (?&?&?&?&?&?&?&?). destruct (registered_inv now req ip fd w) as [HI1 _]; [done..|].
    apply registered_newest; [apply HI|]. rewrite Hag. by apply inv_pool. }
  split_and!.
  - rewrite Hag. symmetry. exact F2.
  - unfold enrolled, joined, upd_sc, upd_heap, upd_ec; cbn [w_ec]. unfold get_sc_for_update_back in *.
    fold w1 s. by rewrite F1.
  - unfold get_sc_for_update_back in Hnew. destruct (subcontainers (w_ec w1) !! _) as [[k q]|] eqn:E; [|done].
    destruct (last q) eqn:El; [|done]. injection Hnew as ->. apply elem_of_queued. exists (key_of (new_id req ip)), k, q.
    split; [done|]. by apply last_Some_elem_of.
  - apply joined_served; [|done]. unfold client_of. rewrite registered_sc_ac_map. apply Hcl.
Qed.

Lemma enrolled_inv :
  Inv (enrolled now req ip fd ac w) ∧ drift (enrolled now req ip fd ac w) = drift w.
Proof.
  pose proof Hmsg as (?&?&?&?&?&?&?&?). destruct (registered_inv now req ip fd w) as [HI1 <-]; [done..|].
  apply joined_inv; [done|apply registered_lookup|]. by destruct enrolled_fields as (_ & _ & ? & _).
Qed.

Lemma wp_add_cgroup :
  let w2 := enrolled now req ip fd ac w in
  wp (handle_add_cgroup_to_ec now req res ip fd)
    (λ a w', a = (ALLOC_INIT, with_request (u32 (request res + 1)) res, fresh_sc w) ∧
      w' = if rsrc_amnt req <=? cpu_g.unallocated_rt (pool w) then w2
           else quota_sent w2 (set_sc_inserted true (new_sc_of now req ip fd w)) ac' (granted (pool w) (rsrc_amnt req)) 13)
    never w.
Proof.
  intros w2. destruct enrolled_fields as (_ & _ & _ & Hsv). pose proof Hmsg as (?&?&?&?&?&?&?&?).
  set (w1 := registered now req ip fd w) in *. set (s := new_sc_of now req ip fd w) in *.
  assert (Hs : w_heap w1 !! fresh_sc w = Some s) by apply registered_lookup.
  unfold handle_add_cgroup_to_ec. rewrite wp_bind. apply wp_register_sc; [by apply inv_pool|done..|].
  fold w1. set (f := quota_flag _ _). unfold agent_of_sc. ww.
  change (server_ip (get_c_id s)) with (ip4_addr.from_net ip).
  change (w_acdb w1) with (w_acdb w). rewrite Hac. ww. change (upd_sc _ _ _) with w2.
  assert (Hs2 : w_heap w2 !! fresh_sc w = Some (set_sc_inserted true s)) by apply upd_sc_lookup.
  unfold when, f, quota_flag. destruct (rsrc_amnt req <=? cpu_g.unallocated_rt (pool w)); simpl negb; cbv iota; ww; [done|].
  erewrite wp_set_sc_quota_syscall by done. by ww.
Qed.
End Enrol.

(** ** Claims *)

(** C10: registering a container on a node whose agent is known, where no null
    client is filed for its id and the client's call is read in time, returns
    the code that makes the server reply. The container is queued as the newest
    of its id and served by the client filed for it; it gets what it asked for,
    or what the pool has left, or, from an empty pool, a slice on credit; the
    pool balances, the allocation moves with the quotas, and exactly when the
    pool did not hold what was asked for one request is sent, for the quota
    granted, with sequence number 13. (A null client left by an earlier lookup
    is not replaced: [null_agent_sticks].) *)
Theorem add_cgroup_conserves (now : Z) (req res : msg_t) (ip fd : Z) (w : World) (ac ac' : AgentClient.AgentClient)
    (HI : Inv w) (Hf : fits (pool w)) (Hmsg : msg_wf req)
    (Hac : AgentClientDB.get_agent_client_by_ip (ip4_addr.from_net ip) (w_acdb w) = Some ac)
    (Hcl : client_of (new_id req ip) ac w = Some ac') (Ht : timely (AgentClient.get_agent_ip ac')) :
  ∃ w' s', handle_add_cgroup_to_ec now req res ip fd w =
      (Ok (ALLOC_INIT, with_request (u32 (request res + 1)) res, fresh_sc w), w') ∧
    Inv w' ∧ drift w' = drift w ∧
    get_sc_for_update_back (new_id req ip) (w_ec w') = Ok (fresh_sc w) ∧
    w_heap w' !! fresh_sc w = Some s' ∧ get_quota s' = granted (pool w) (rsrc_amnt req) ∧
    served w' s' ac' ∧
    pool w' = after_grant (pool w) (rsrc_amnt req) ∧
    w_trace w' = if rsrc_amnt req <=? cpu_g.unallocated_rt (pool w) then w_trace w
      else EvQuota (AgentClient.get_agent_ip ac') (quota_request s' (granted (pool w) (rsrc_amnt req)) 13) :: w_trace w.
Proof.
  destruct (enrolled_fields now req ip fd w ac ac') as (Hag & Hnew & _ & Hsv); [done..|].
  destruct (enrolled_inv now req ip fd w ac ac') as [HI2 Hd2]; [done..|].
  pose proof (wp_add_cgroup now req res ip fd w ac ac' HI Hf Hmsg Hac Hcl Ht) as Hwp. cbv zeta in Hwp.
  set (w2 := enrolled now req ip fd ac w) in *. set (s2 := set_sc_inserted true _) in Hsv.
  apply wp_never_inv in Hwp as (a & w' & Hrun & -> & Hw'). exists w', s2. split; [exact Hrun|].
  assert (Hsame : Inv w' ∧ drift w' = drift w2 ∧ w_ec w' = w_ec w2 ∧ w_heap w' = w_heap w2)
    by (rewrite Hw'; by destruct (_ <=? _)).
  destruct Hsame as (HI' & Hd' & Hec' & Hheap'). rewrite Hec', Hheap'.
  split_and!; try done.
  - congruence.
  - apply upd_sc_lookup.
  - unfold served in *. by rewrite Hec'.
  - rewrite Hag. unfold pool. by rewrite Hec'.
  - rewrite Hw'. by destruct (_ <=? _).
Qed.

(** A container on a node without a known agent is still queued
    and its quota is still booked; if the pool could not give it what it asked
    for, the thread that serves its connection then waits for ever for an
    agent, otherwise the registration succeeds although no quota of this
    container can ever be changed. *)
Theorem add_cgroup_unknown_agent (now : Z) (req res : msg_t) (ip fd : Z) (w : World)
    (HI : Inv w) (Hf : fits (pool w)) (Hmsg : msg_wf req)
    (Hac : AgentClientDB.get_agent_client_by_ip (ip4_addr.from_net ip) (w_acdb w) = None) :
  let w1 := registered now req ip fd w in
  handle_add_cgroup_to_ec now req res ip fd w =
    (if rsrc_amnt req <=? cpu_g.unallocated_rt (pool w)
     then Ok (ALLOC_INIT, with_request (u32 (request res + 1)) res, fresh_sc w) else Fail Blocked, w1) ∧
  (∃ s, w_heap w1 !! fresh_sc w = Some s ∧ inserted s = false) ∧
  ∀ q n, set_sc_quota_syscall (fresh_sc w) q n w1 = (Fail Blocked, w1).
Proof.
  destruct Hmsg as (?&?&?&?&?&?&?&?). cbv zeta. set (w1 := registered now req ip fd w).
  set (s := new_sc_of now req ip fd w).
  assert (Hs : w_heap w1 !! fresh_sc w = Some s) by apply registered_lookup.
  assert (Hblock : ∀ q n, set_sc_quota_syscall (fresh_sc w) q n w1 = (Fail Blocked, w1)).
  { intros q n. by apply (set_sc_quota_syscall_blocked _ s). }
  split_and!; [|by exists s|exact Hblock].
  enough (Hwp : wp (handle_add_cgroup_to_ec now req res ip fd)
    (λ a w', rsrc_amnt req ≤ cpu_g.unallocated_rt (pool w) ∧ w' = w1 ∧
       a = (ALLOC_INIT, with_request (u32 (request res + 1)) res, fresh_sc w))
    (λ f w', cpu_g.unallocated_rt (pool w) < rsrc_amnt req ∧ f = Blocked ∧ w' = w1) w).
  { unfold wp in Hwp. destruct (handle_add_cgroup_to_ec _ _ _ _ _ w) as [[a|f] w'].
    - destruct Hwp as (? & -> & ->). destruct (Z.leb_spec (rsrc_amnt req) (cpu_g.unallocated_rt (pool w))); [done|lia].
    - destruct Hwp as (? & -> & ->). destruct (Z.leb_spec (rsrc_amnt req) (cpu_g.unallocated_rt (pool w))); [lia|done]. }
  unfold handle_add_cgroup_to_ec. rewrite wp_bind. apply wp_register_sc; [by apply inv_pool|done..|].
  fold w1. unfold agent_of_sc. ww. change (server_ip (get_c_id s)) with (ip4_addr.from_net ip).
  change (w_acdb w1) with (w_acdb w). rewrite Hac. ww. unfold when, quota_flag.
  destruct (Z.leb_spec (rsrc_amnt req) (cpu_g.unallocated_rt (pool w))); simpl negb; cbv iota; ww; [done|].
  unfold wp. rewrite Hblock. done.
Qed.

(** Looking up the agent of an unknown container files a null
    client under its id ([operator[]] of the map), and a later registration
    does not replace it: the first quota request for the registered container
    then ends the process. *)
Theorem null_agent_sticks (id : ContainerId) (e : ElasticContainer) (ac : AgentClient.AgentClient)
    (sc : loc) (s : SubContainer) (q n : Z) (w : World)
    (Hnone : sc_ac_map e !! key_of id = None)
    (Hw : w_ec w = add_to_sc_ac_map id (Some ac) (get_corres_agent_client id e).2)
    (Hs : w_heap w !! sc = Some s) (Hid : key_of (c_id s) = key_of id) (Hins : inserted s = true) :
  set_sc_quota_syscall sc q n w = (Fail (Exit 1), w).
Proof.
  assert (Hnull : sc_ac_map (w_ec w) !! key_of (c_id s) = Some (id, None)).
  { rewrite Hid, Hw. unfold get_corres_agent_client. rewrite Hnone. unfold add_to_sc_ac_map; simpl.
    rewrite lookup_insert_eq. simpl. by rewrite lookup_insert_eq. }
  assert (Hwp : wp (set_sc_quota_syscall sc q n) (λ _ _, False) (λ f w', f = Exit 1 ∧ w' = w) w).
  { unfold set_sc_quota_syscall. ww. unfold sc_inserted. rewrite Hins. simpl negb. cbv iota. ww.
    unfold agent_or_exit. rewrite wp_bind. change (get_c_id s) with (c_id s).
    rewrite (wp_get_corres _ _ None id) by done. by rewrite wp_stop. }
  unfold wp in Hwp. destruct (set_sc_quota_syscall sc q n w) as [[a|f] w']; [done|]. by destruct Hwp as [-> ->].
Qed.

End Handlers.

(** ** Instances *)

(** The demo world, where a second container connects from the same node. *)
Definition w0 : World := Demo.world 200000000 400000000 (cpu_g.Cpu 30000000 200000000 400000000 0 200000000).
Definition init_msg (cg quota : Z) : msg_t := Msg Demo.node cg 2 quota 0 0 0 0.
Ltac concrete := vm_compute; repeat split; intros; discriminate.

Lemma add_cgroup_conserves_witness :
  ∃ w' s', handle_add_cgroup_to_ec (ENV := Demo.willing) 2000000000 (init_msg 8 300000000) (init_msg 8 300000000)
      0x0106a8c0 4 w0 = (Ok (ALLOC_INIT, with_request 1 (init_msg 8 300000000), fresh_sc w0), w') ∧
    w_heap w' !! fresh_sc w0 = Some s' ∧ get_quota s' = 200000000.
Proof.
  destruct (add_cgroup_conserves (ENV := Demo.willing) 2000000000 (init_msg 8 300000000) (init_msg 8 300000000)
    0x0106a8c0 4 w0 Demo.agent Demo.agent) as (w' & s' & ? & _ & _ & _ & ? & ? & _).
  - apply Demo.world_inv; concrete.
  - concrete.
  - concrete.
  - by vm_compute.
  - by vm_compute.
  - intros tr rq. by exists 0.
  - exists w', s'. split_and!; assumption.
Defined.

Lemma add_cgroup_unknown_agent_witness :
  (handle_add_cgroup_to_ec (ENV := Demo.willing) 2000000000 (init_msg 8 300000000) (init_msg 8 300000000)
      0x0206a8c0 4 w0).1 = Fail Blocked.
Proof.
  destruct (add_cgroup_unknown_agent (ENV := Demo.willing) 2000000000 (init_msg 8 300000000)
    (init_msg 8 300000000) 0x0206a8c0 4 w0) as (Hrun & _).
  - apply Demo.world_inv; concrete.
  - concrete.
  - concrete.
  - by vm_compute.
  - rewrite Hrun. by vm_compute.
Defined.

(** The container is registered after its id was looked up in vain. *)
Definition e_null : ElasticContainer := ElasticContainer_of 1.
Definition w_null : World :=
  mkWorld (add_to_sc_ac_map Demo.cid (Some Demo.agent) (get_corres_agent_client Demo.cid e_null).2)
    {[ 1%positive := Demo.sc 5 ]} ∅ 0 0 [].
Lemma null_agent_sticks_witness :
  set_sc_quota_syscall (ENV := Demo.willing) 1 10 0 w_null = (Fail (Exit 1), w_null).
Proof.
  apply (null_agent_sticks (ENV := Demo.willing) Demo.cid e_null Demo.agent 1 (Demo.sc 5)); by vm_compute.
Defined.

End Manager.
