(* ===== verification/Server.v ===== *)
(** * The socket server ([src/Server.{h,cpp}])

    Initialisation, the loops that read requests and the rules by which replies
    are written. What the operating system returns (descriptors, return codes,
    the bytes of a read) is input of the definitions. The TCP buffer lives
    across the requests of a connection: a short read leaves the rest of the
    previous request in place. *)
From S2P Require Import Prelude OmNet Float64 Window LocalStats SubContainer Agents CpuG MemG.
From S2P Require Import ElasticContainer World Types ECAPI Demo ManagerCpu ManagerMem Manager.
Import SubContainer ElasticContainer ECAPI ManagerCpu ManagerMem.

Definition HANDLE_REQ_BUFF : nat := 56.

Module Server.

(** ** Initialisation *)

(** The results of the system calls, and the part of the object they set. *)
Record sys_results := SysR { socket_fd : Z; setsockopt_rc : Z; bind_rc : Z; listen_rc : Z }.
Record sock_state := Sock { tcp_fd : Z; udp_fd : Z; server_initialized : Z; num_of_cli : Z }.

Definition Server_of : sock_state := Sock 0 0 0 0.
Definition initialize_tcp (r : sys_results) : M sock_state unit :=
  modify (λ s, Sock (socket_fd r) (udp_fd s) (server_initialized s) 0) ;;
  if socket_fd r =? 0 then stop (Exit 1)
  else if negb (setsockopt_rc r =? 0) then stop (Exit 1)
  else if bind_rc r <? 0 then stop (Exit 1)
  else if listen_rc r <? 0 then stop (Exit 1)
  else modify (λ s, Sock (tcp_fd s) (udp_fd s) (i32 (server_initialized s + 1)) (num_of_cli s)).
Definition initialize_udp (r : sys_results) : M sock_state unit :=
  modify (λ s, Sock (tcp_fd s) (socket_fd r) (server_initialized s) (num_of_cli s)) ;;
  if socket_fd r =? 0 then stop (Exit 1)
  else if negb (setsockopt_rc r =? 0) then stop (Exit 1)
  else if bind_rc r <? 0 then stop (Exit 1)
  else modify (λ s, Sock (tcp_fd s) (udp_fd s) (i32 (server_initialized s + 1)) (num_of_cli s)).
(** The guard at the start of [serve_tcp] and [serve_udp]. *)
Definition serve_guard : M sock_state unit :=
  n ← gets server_initialized;
  if negb (n =? 2) then stop (Exit 1) else mret tt.

(** ** Replies *)

(** When a reply is written: over TCP (lines 132-157), over UDP (222-233). [ret]
    is the [uint64_t] the result of [handle_req] is converted to. *)
Definition tcp_writes (ret : Z) (res : msg_t) : bool :=
  if ret =? ALLOC_INIT then true
  else if (ret =? ALLOC_SUCCESS) && (request res =? 0) then true
  else ret =? ALLOC_MEM_FAILED.
Definition udp_sends (ret : Z) (res : msg_t) : bool := (request res =? 0) && (ret =? ALLOC_SUCCESS).

(** ** Requests *)

(** [read(fd, buff, 56)] of [bytes] into a buffer that keeps what it had. *)
Definition overlay (bytes buff : list Z) : list Z := bytes ++ drop (length bytes) buff.
(** [req->set_ip_from_net(ip)] through the pointer into the buffer. *)
Definition poke_ip (ip : Z) (buff : list Z) : list Z := overlay (le_store 4 ip) buff.

(** What the environment supplies for one request: the time, the bytes read,
    the uninitialised memory of the reply and whether the write succeeds. *)
Record input := In { in_now : Z; in_bytes : list Z; in_garbage : Z; in_write_ok : bool }.

Section Handlers.
Context {ENV : Env} {ORDER : HashOrder}.

(** One iteration: the new buffer, the reply if one is written, and whether the
    loop goes on. *)
Definition tcp_step (client_ip client_fd : Z) (buff_in : list Z) (i : input) : M World (list Z * option msg_t * bool) :=
  let buff_in := poke_ip client_ip (overlay (in_bytes i) buff_in) in
  let req := msg_of_bytes buff_in in
  let res := msg_copy (in_garbage i) req in
  '(ret, res, _) ← Manager.handle_req (in_now i) req res (ip4_addr.to_uint32 (ip4_addr.from_net client_ip)) client_fd;
  if tcp_writes (u64 ret) res then mret (buff_in, Some res, in_write_ok i)
  else mret (buff_in, None, true).

(** The requests of a connection until [read] returns no more; the result is
    the list of replies written. *)
Fixpoint tcp_loop (client_ip client_fd : Z) (buff_in : list Z) (ins : list input) : M World (list msg_t) :=
  match ins with
  | [] => mret []
  | i :: ins =>
      '(buff_in, reply, go) ← tcp_step client_ip client_fd buff_in i;
      if (go : bool) then
        rs ← tcp_loop client_ip client_fd buff_in ins;
        mret (match reply with Some r => r :: rs | None => rs end)
      else mret []
  end.
Definition handle_client_reqs_tcp (client_ip client_fd : Z) (ins : list input) : M World (list msg_t) :=
  tcp_loop client_ip client_fd (replicate HANDLE_REQ_BUFF 0) ins.

(** One datagram into a fresh buffer; [None] is a failed [recvfrom], which is
    logged and then handled like an empty one. *)
Definition handle_client_reqs_udp (client_ip client_fd now : Z) (datagram : option (list Z)) (garbage : Z) :
    M World (option msg_t) :=
  let bytes := match datagram with Some b => b | None => [] end in
  let req := msg_of_bytes (overlay bytes (replicate HANDLE_REQ_BUFF 0)) in
  let req := set_ip_from_host (ip4_addr.to_uint32 (Types.client_ip req)) req in
  let res := msg_copy garbage req in
  '(ret, res, _) ← Manager.handle_req now req res (ip4_addr.to_uint32 (ip4_addr.from_net client_ip)) client_fd;
  mret (if udp_sends (u64 ret) res then Some res else None).

(** [serve_udp]: behind the guard, one datagram after the other on the serving
    thread; the replies, while datagrams come. *)
Definition serve_udp (st : sock_state) (client_ip : Z) (datagrams : list (Z * option (list Z) * Z)) :
    M World (list (option msg_t)) :=
  match serve_guard st with
  | (Fail f, _) => stop f
  | (Ok _, _) =>
      mfold (λ sent '(now, datagram, garbage),
        r ← handle_client_reqs_udp client_ip (udp_fd st) now datagram garbage; mret (sent ++ [r])) [] datagrams
  end.

(** ** What the handlers can return *)

(** No assumption on how a computation fails. *)
Definition anyhow {S} : failure → S → Prop := λ _ _, True.
Lemma wp_anyhow {S A} (m : M S A) s : wp m (λ _ _, True) anyhow s.
Proof. unfold wp, anyhow. by destruct (m s) as [[?|?] ?]. Qed.
(** The value of a sequence is the value of its last step. *)
Lemma wp_last {S A B} (m : M S A) (k : A → M S B) Q s :
  (∀ a s', wp (k a) (λ b _, Q b) anyhow s') → wp (m ≫= k) (λ b _, Q b) anyhow s.
Proof. intros H. rewrite wp_bind. eapply wp_mono; [apply wp_anyhow|by intros; apply H|done]. Qed.
Lemma wp_value {S A} (a : A) (Q : A → Prop) s : Q a → wp (mret a : M S A) (λ b _, Q b) anyhow s.
Proof. done. Qed.
(** Walks to the values a handler can return. *)
Ltac values :=
  repeat first
    [ apply wp_last; intros
    | match goal with
      | |- wp (if ?b then _ else _) _ _ _ => destruct b
      | |- wp (let '_ := ?p in _) _ _ _ => destruct p
      | |- wp (match ?p with _ => _ end) _ _ _ => destruct p
      end
    | apply wp_value ].

Lemma cpu_report_value now req res w :
  req_type req = REQ_CPU →
  wp (handle_cpu_usage_report now req res) (λ a _, a = (ALLOC_SUCCESS, with_request 1 res)) anyhow w.
Proof. intros Ht. unfold handle_cpu_usage_report. rewrite Ht. simpl negb. cbv iota. by values. Qed.
Lemma mem_req_value req res fd w :
  req_type req = REQ_MEM →
  wp (handle_mem_req req res fd)
     (λ a _, a.1 = ALLOC_MEM_FAILED ∨ (a.1 = ALLOC_SUCCESS ∧ request a.2 = 0)) anyhow w.
Proof.
  intros Ht. unfold handle_mem_req, grant_mem. rewrite Ht. simpl negb. cbv iota. values; auto.
Qed.
Lemma add_cgroup_value now req res ip fd w :
  wp (Manager.handle_add_cgroup_to_ec now req res ip fd) (λ a _, a.1.1 = ALLOC_INIT) anyhow w.
Proof.
  unfold Manager.handle_add_cgroup_to_ec. rewrite wp_bind.
  apply (wp_mono _ (λ a _, a.2 = ALLOC_INIT) _ anyhow); [| |done].
  - unfold register_sc, ec_insert_sc. apply wp_last. intros [f q] s1. apply wp_last. intros p s2.
    rewrite !wp_bind. apply (wp_mono _ (λ _ _, True) _ anyhow); [apply wp_anyhow| |done].
    intros c s3 _. rewrite wp_bind. apply (wp_mono _ (λ _ _, True) _ anyhow); [apply wp_anyhow| |done].
    intros [] s4 _. rewrite wp_ret. by values.
  - intros [[[f q] p] r] s1 Hr. simpl in Hr. subst r. by values.
Qed.

Lemma report_unknown now req res w :
  req_type req = REQ_CPU → subcontainers (w_ec w) !! key_of (ContainerId_of (Types.cgroup_id req) (Types.client_ip req)) = None →
  handle_cpu_usage_report now req res w = (Fail (Exit 1), w).
Proof.
  intros Ht Hnone. unfold handle_cpu_usage_report. rewrite Ht.
  change (negb (REQ_CPU =? REQ_CPU)) with false. cbv iota.
  unfold mbind at 1, M_bind at 1, ec_find, get_sc_for_update_back. by rewrite Hnone.
Qed.

(** ** Claims *)

(** Whether a request is answered depends on its type alone, whatever
    the state and the environment: a registration always, a memory request
    always over TCP (also when it fails) and only when granted over UDP, a
    usage report never, a message of any other type never. *)
Theorem replies_by_type (now : Z) (req res : msg_t) (host_ip fd : Z) (w : World) :
  match Manager.handle_req now req res host_ip fd w with
  | (Ok (ret, res', _), _) =>
      tcp_writes (u64 ret) res' = bool_decide (req_type req = REQ_MEM ∨ req_type req = REQ_INIT) ∧
      (udp_sends (u64 ret) res' = true → req_type req = REQ_MEM ∧ ret = ALLOC_SUCCESS)
  | (Fail _, _) => True
  end.
Proof.
  enough (Hwp : wp (Manager.handle_req now req res host_ip fd) (λ a _,
      tcp_writes (u64 a.1.1) a.1.2 = bool_decide (req_type req = REQ_MEM ∨ req_type req = REQ_INIT) ∧
      (udp_sends (u64 a.1.1) a.1.2 = true → req_type req = REQ_MEM ∧ a.1.1 = ALLOC_SUCCESS)) anyhow w).
  { unfold wp in Hwp. by destruct (Manager.handle_req _ _ _ _ _ w) as [[[[ret res'] t]|f] w']. }
  unfold Manager.handle_req, REQ_MEM, REQ_CPU, REQ_INIT.
  destruct (Z.eqb_spec (req_type req) 1) as [Hm|Hm].
  { rewrite bool_decide_true by (by left). rewrite wp_bind. eapply wp_mono; [by apply mem_req_value| |done].
    intros [ret r] w' [H|[H Hq]]; simpl in *; subst ret; rewrite wp_ret; simpl.
    - split; [done|]. unfold udp_sends. rewrite andb_comm. done.
    - unfold tcp_writes, udp_sends. rewrite Hq. done. }
  destruct (Z.eqb_spec (req_type req) 0) as [Hc|Hc].
  { rewrite bool_decide_false by lia. rewrite wp_bind. eapply wp_mono; [by apply cpu_report_value| |done].
    intros a w' ->. rewrite wp_ret. done. }
  destruct (Z.eqb_spec (req_type req) 2) as [Hi|Hi].
  { rewrite bool_decide_true by (by right). rewrite wp_bind. eapply wp_mono; [apply add_cgroup_value| |done].
    intros [[ret r] p] w' H; simpl in H; subst ret. rewrite wp_ret. simpl. split; [done|].
    unfold udp_sends. rewrite andb_comm. done. }
  rewrite bool_decide_false by lia. rewrite wp_ret. simpl. split; [done|]. unfold udp_sends. by rewrite andb_comm.
Qed.

(** A request that arrives as a full message is what the handler
    sees, with the sender's address in place of the address field, whatever an
    earlier request left in the buffer. *)
Theorem full_read_is_message (ip p1 p2 : Z) (m : msg_t) (buff : list Z)
    (Hm : msg_wf m) (Hip : is_u32 ip) (Hbuff : length buff = HANDLE_REQ_BUFF) :
  msg_of_bytes (poke_ip ip (overlay (msg_to_bytes p1 p2 m) buff)) = set_ip_from_net ip m.
Proof.
  destruct (msg_bytes p1 p2 m Hm) as [_ Hlen]. unfold poke_ip, overlay.
  rewrite Hlen, (drop_ge buff), app_nil_r by (rewrite Hbuff; done). rewrite length_le_store.
  unfold msg_to_bytes at 1. rewrite drop_app_length' by (by rewrite length_le_store).
  assert (Hm' : msg_wf (set_ip_from_net ip m)) by (destruct Hm as (?&?&?&?&?&?&?&?); by split_and!).
  by destruct (msg_bytes p1 p2 (set_ip_from_net ip m) Hm') as [H _].
Qed.

(** A datagram that cannot be read is handled as an all-zero
    message, that is, as a usage report of container 0 on node 0.0.0.0; since
    no such container exists, the whole controller exits. *)
Theorem udp_read_error_exits (client_ip client_fd now garbage : Z) (w : World)
    (Hnone : subcontainers (w_ec w) !! (0, 0) = None) :
  handle_client_reqs_udp client_ip client_fd now None garbage w = (Fail (Exit 1), w).
Proof.
  unfold handle_client_reqs_udp. set (req := set_ip_from_host _ _). cbv zeta.
  assert (Hr : req = Msg (Ip4 0) 0 0 0 0 0 0 0) by done. rewrite Hr.
  unfold Manager.handle_req. change (req_type (Msg (Ip4 0) 0 0 0 0 0 0 0)) with 0.
  change (0 =? REQ_MEM) with false. change (0 =? REQ_CPU) with true. cbv iota.
  unfold mbind at 1, M_bind at 1. unfold mbind at 1, M_bind at 1.
  by rewrite report_unknown.
Qed.

(** The serving loops start exactly when both sockets were set up:
    after the two initialisations the guard passes, and after one or none it
    ends the process. *)
Theorem serve_needs_both (t u : sys_results) :
  let ok r := negb (socket_fd r =? 0) && (setsockopt_rc r =? 0) && negb (bind_rc r <? 0) in
  (initialize_tcp t ;; initialize_udp u ;; serve_guard) Server_of =
    (if ok t && negb (listen_rc t <? 0) && ok u then (Ok tt, Sock (socket_fd t) (socket_fd u) 2 0)
     else (Fail (Exit 1), ((initialize_tcp t ;; initialize_udp u) Server_of).2)) ∧
  (initialize_udp u ;; serve_guard) Server_of = (Fail (Exit 1), (initialize_udp u Server_of).2) ∧
  serve_guard Server_of = (Fail (Exit 1), Server_of).
Proof.
  cbv zeta. unfold initialize_tcp, initialize_udp, serve_guard, mbind, M_bind, modify, gets, stop; simpl.
  destruct (socket_fd t =? 0), (setsockopt_rc t =? 0), (bind_rc t <? 0), (listen_rc t <? 0),
    (socket_fd u =? 0), (setsockopt_rc u =? 0), (bind_rc u <? 0); by split_and!.
Qed.

End Handlers.

(** ** Accepting connections ([serve_tcp], 89-107)

    [accept] stores the peer's address in the one [server_sock_tcp.addr]; the
    thread that serves the connection reads the address from there when it
    starts. *)
Module Accept.

(** The shared address, the connections whose thread has not started yet, and
    the address each started connection works with. *)
Record state := St { addr : Z; pending : list Z; serving : list (Z * Z) }.
Definition start : state := St 0 [] [].

Inductive event := EvAccept (clifd ip : Z) | EvRefuse | EvStart (clifd : Z).
(** A failed [accept] is logged and the loop goes on; a thread may start at any
    time after its connection was accepted. *)
Inductive step : event → state → state → Prop :=
| accepted clifd ip st : 0 < clifd →
    step (EvAccept clifd ip) st (St ip (pending st ++ [clifd]) (serving st))
| refused st : step EvRefuse st st
| started clifd l1 l2 st : pending st = l1 ++ clifd :: l2 →
    step (EvStart clifd) st (St (addr st) (l1 ++ l2) ((clifd, addr st) :: serving st)).
(** The states reachable by a sequence of events, latest first. *)
Inductive run : list event → state → Prop :=
| run_nil : run [] start
| run_step ev es st st' : run es st → step ev st st' → run (ev :: es) st'.

(** Every accepted connection's thread starts before the next [accept]. *)
Fixpoint settled (es : list event) : Prop :=
  match es with
  | EvAccept _ _ :: _ => False
  | EvRefuse :: es => settled es
  | EvStart _ :: _ | [] => True
  end.
Fixpoint prompt (es : list event) : Prop :=
  match es with
  | [] => True
  | EvAccept _ _ :: es => prompt es ∧ settled es
  | _ :: es => prompt es
  end.
(** The connection that is waiting for its thread, if threads are prompt. *)
Fixpoint waiting (es : list event) : option (Z * Z) :=
  match es with
  | EvAccept clifd ip :: _ => Some (clifd, ip)
  | EvRefuse :: es => waiting es
  | EvStart _ :: _ | [] => None
  end.
Lemma settled_waiting es : settled es → waiting es = None.
Proof. induction es as [|[| |] es IH]; simpl; done. Qed.
Lemma waiting_accepted es clifd ip : waiting es = Some (clifd, ip) → EvAccept clifd ip ∈ es.
Proof.
  induction es as [|[| |] es IH]; simpl; try done; [intros [= -> ->]; left|intros; right; by apply IH].
Qed.

Lemma prompt_pending es st :
  run es st → prompt es →
  match waiting es with
  | Some (clifd, ip) => pending st = [clifd] ∧ addr st = ip
  | None => pending st = []
  end ∧ ∀ clifd ip, (clifd, ip) ∈ serving st → EvAccept clifd ip ∈ es.
Proof.
  induction 1 as [|ev es st st' Hrun IH Hstep]; intros Hpr.
  { split; [done|]. by intros ? ? ?%elem_of_nil. }
  destruct Hstep as [clifd ip st Hpos|st|clifd l1 l2 st Hp]; simpl in Hpr.
  - destruct Hpr as [Hpr Hset]. destruct (IH Hpr) as [Hpend Hserv].
    rewrite (settled_waiting _ Hset) in Hpend. split; simpl.
    + by rewrite Hpend.
    + intros c i Hin. right. by apply Hserv.
  - destruct (IH Hpr) as [Hpend Hserv]. split; [done|]. intros. right. by apply Hserv.
  - destruct (IH Hpr) as [Hpend Hserv]. destruct (waiting es) as [[c i]|] eqn:Hw.
    + destruct Hpend as [Hpend <-]. rewrite Hpend in Hp. destruct l1 as [|? [|]]; try done.
      injection Hp as <- <-. split; [done|]. simpl. intros c0 i0 [[= -> ->]|Hin]%elem_of_cons.
      * right. by apply waiting_accepted.
      * right. by apply Hserv.
    + rewrite Hpend in Hp. by destruct l1.
Qed.

(** When the thread of every connection starts before the next
    connection is accepted, each connection is served under the address it
    came from. *)
Theorem prompt_threads_know_peer (es : list event) (st : state) (clifd ip : Z)
    (Hrun : run es st) (Hprompt : prompt es) (Hserv : (clifd, ip) ∈ serving st) :
  EvAccept clifd ip ∈ es.
Proof. by destruct (prompt_pending es st Hrun Hprompt) as [_ H]; apply H. Qed.
Lemma prompt_threads_know_peer_witness : EvAccept 5 17 ∈ [EvStart 5; EvAccept 5 17].
Proof.
  apply (prompt_threads_know_peer [EvStart 5; EvAccept 5 17] (St 17 [] [(5, 17)])).
  - eapply run_step; [eapply run_step; [constructor|by apply accepted]|by apply (started 5 [] [])].
  - simpl. done.
  - left.
Defined.

(** Otherwise it need not be: with two connections accepted
    before the first thread runs, the first connection is served under the
    address of the second. *)
Theorem late_thread_takes_next_peer (fd1 fd2 ip1 ip2 : Z) (H1 : 0 < fd1) (H2 : 0 < fd2) :
  ∃ st, run [EvStart fd1; EvAccept fd2 ip2; EvAccept fd1 ip1] st ∧ (fd1, ip2) ∈ serving st.
Proof.
  eexists. split.
  - eapply run_step; [|by apply (started fd1 [] [fd2] (St ip2 [fd1; fd2] []))].
    apply (run_step (EvAccept fd2 ip2) _ (St ip1 [fd1] [])); [|by apply accepted].
    apply (run_step (EvAccept fd1 ip1) _ start); [constructor|by apply accepted].
  - left.
Qed.
Lemma late_thread_takes_next_peer_witness :
  ∃ st, run [EvStart 5; EvAccept 6 34; EvAccept 5 17] st ∧ (5, 34) ∈ serving st.
Proof. apply late_thread_takes_next_peer; lia. Defined.

End Accept.

(** ** Instances *)
Lemma full_read_is_message_witness :
  msg_of_bytes (poke_ip 17 (overlay (msg_to_bytes 7 9 (Msg (Ip4 3) 23 2 10000000 1 14 3 (-5)))
    (replicate 56%nat 255))) = Msg (Ip4 17) 23 2 10000000 1 14 3 (-5).
Proof.
  apply (full_read_is_message 17 7 9 (Msg (Ip4 3) 23 2 10000000 1 14 3 (-5))).
  - unfold msg_wf; simpl; split_and!; wrap_lia.
  - wrap_lia.
  - reflexivity.
Defined.
Lemma udp_read_error_exits_witness :
  handle_client_reqs_udp (ENV := Demo.willing) (ORDER := Demo.listed) 17 4 0 None 0 Manager.w0 =
  (Fail (Exit 1), Manager.w0).
Proof. apply udp_read_error_exits. by vm_compute. Defined.

End Server.
