(* ===== verification/Deploy.v ===== *)
(** * The deployment service ([src/DeployServerGRPC/])

    The deployer reports the limits of the application and the pods it starts,
    and asks for pods to be removed. The service keeps two tables of its own:
    the docker ids deployed under every container id, and the container id of
    every docker id. *)
From S2P Require Import Prelude OmNet Float64 Window LocalStats SubContainer Agents CpuG MemG.
From S2P Require Import ElasticContainer World Types ECAPI Demo ManagerCpu ManagerMem Manager.
Import SubContainer ElasticContainer ECAPI.

Module Deploy.

(** The messages of [deploy.proto] the service receives and sends. *)
Record ExportAppSpec := AppSpec { app_name : string; cpu_limit : Z; mem_limit : Z }.
Record ExportPodSpec := PodSpec { pod_docker_id : string; pod_cgroup_id : Z; node_ip : string }.
Record AppSpecReply := AppReply { ar_app_name : string; ar_cpu_limit : Z; ar_mem_limit : Z; ar_thanks : string }.
Record PodSpecReply := PodReply { pr_docker_id : string; pr_cgroup_id : Z; pr_node_ip : string; pr_thanks : string }.
Record DeletePodReply := DelReply { dr_docker_id : string; dr_thanks : string }.
Inductive Status := OK | CANCELLED.

Definition success : string := "thx".
Definition fail : string := "fail".

Record Service := mkService {
  d_w : World;
  deployedPods : gmap key (ContainerId * list string);
  dockerToSubContainer : gmap string ContainerId;
}.
Definition with_w (w : World) (d : Service) : Service := mkService w (deployedPods d) (dockerToSubContainer d).
Definition with_pods (m : gmap key (ContainerId * list string)) (d : Service) : Service :=
  mkService (d_w d) m (dockerToSubContainer d).
Definition with_docks (m : gmap string ContainerId) (d : Service) : Service :=
  mkService (d_w d) (deployedPods d) m.

(** A computation on the shared world, in the service. *)
Definition on_w {A} (m : M World A) : M Service A := λ d, let '(o, w) := m (d_w d) in (o, with_w w d).

(** ** [ReportAppSpec] *)
Definition ReportAppSpec (appSpec : ExportAppSpec) : M Service (Status * AppSpecReply) :=
  on_w (ec_do (set_total_cpu (u64 (cpu_limit appSpec * 100000)))) ;;
  on_w (t ← ec_get get_total_cpu; ec_do (set_unallocated_rt t)) ;;
  let pages := u64 (u64 (mem_limit appSpec * 1024) * 1024) / 4096 in
  on_w (ec_do (set_memory_limit_in_pages pages)) ;;
  on_w (ec_do (set_unalloc_memory_in_pages pages)) ;;
  on_w (ec_do (set_alloc_memory_in_pages 0)) ;;
  mret (OK, AppReply (app_name appSpec) (cpu_limit appSpec) (mem_limit appSpec) success).

Section Pods.
Context (inet_addr : string → Z).

(** [ContainerId(pod->cgroup_id(), pod->node_ip())]: a malformed address
    throws. *)
Definition pod_id (pod : ExportPodSpec) : option ContainerId :=
  ip ← ip4_addr.from_string inet_addr (node_ip pod);
  Some (ContainerId_of (u32 (pod_cgroup_id pod)) ip).
Definition get_pod_id (pod : ExportPodSpec) : M Service ContainerId :=
  match pod_id pod with Some c => mret c | None => stop Throw end.

(** ** [ReportPodSpec] *)
Definition push_pod (sc_id : ContainerId) (dock_id : string) (d : Service) : Service :=
  match deployedPods d !! key_of sc_id with
  | Some (k, q) => with_pods (<[key_of sc_id := (k, q ++ [dock_id])]> (deployedPods d)) d
  | None => with_pods (<[key_of sc_id := (sc_id, [dock_id])]> (deployedPods d)) d
  end.
Definition insertPodSpec (pod : ExportPodSpec) : M Service Z :=
  sc_id ← get_pod_id pod;
  modify (push_pod sc_id (pod_docker_id pod)) ;;
  docks ← gets dockerToSubContainer;
  match docks !! pod_docker_id pod with
  | Some _ => mret (-3)
  | None => modify (with_docks (<[pod_docker_id pod := sc_id]> docks)) ;; mret 0
  end.

(** The thread waits on the condition variable until the container's agent is
    known, then names the newest container with that id. *)
Definition scIdToDockerIdMatcherThread (sc_id : ContainerId) (dock_id : string) : M World unit :=
  m ← ec_get sc_ac_map;
  match m !! key_of sc_id with
  | None => stop Blocked
  | Some _ =>
      sc ← ec_find (get_sc_for_update_back sc_id);
      sc_do sc (set_docker_id dock_id) ;;
      _ ← ec_find (get_subcontainer_back sc_id); mret tt
  end.
Definition setPodSpecReply (pod : ExportPodSpec) (status : string) : PodSpecReply :=
  PodReply (pod_docker_id pod) (pod_cgroup_id pod) (node_ip pod) status.
Definition ReportPodSpec (pod : ExportPodSpec) : M Service (Status * PodSpecReply) :=
  ret ← insertPodSpec pod;
  let status := if ret =? 0 then success else fail in
  (if bool_decide (status = "thx") then
     sc_id ← get_pod_id pod; on_w (scIdToDockerIdMatcherThread sc_id (pod_docker_id pod))
   else mret tt) ;;
  mret (OK, setPodSpecReply pod status).

End Pods.

(** ** [DeletePod] *)
Definition getScIdFromDockerId (dock_id : string) (d : Service) : ContainerId :=
  match dockerToSubContainer d !! dock_id with Some c => c | None => ContainerId_default end.

Definition deleteFromScAcMap (sc_id : ContainerId) : M World Z :=
  m ← ec_get sc_ac_map;
  match m !! key_of sc_id with
  | Some _ => ec_do (with_sc_ac_map (delete (key_of sc_id) m)) ;; mret 0
  | None => mret (-1)
  end.
Definition deleteFromSubcontainersMap (sc_id : ContainerId) : M World Z :=
  '(ret, freed) ← ec_run (λ e, let '(r, f, e') := ec_delete_from_subcontainers_map sc_id e in ((r, f), e'));
  match freed with Some p => free_sc p | None => mret tt end ;;
  mret ret.
Definition deleteFromDeployedPodsMap (sc_id : ContainerId) : M Service Z :=
  m ← gets deployedPods;
  match m !! key_of sc_id with
  | Some _ => modify (with_pods (delete (key_of sc_id) m)) ;; mret 0
  | None => mret (-1)
  end.
Definition deleteFromDockerIdScMap (dock_id : string) : M Service Z :=
  m ← gets dockerToSubContainer;
  match m !! dock_id with
  | Some _ => modify (with_docks (delete dock_id m)) ;; mret 0
  | None => mret (-1)
  end.
Definition code (ret : Z) : string := if ret =? 0 then success else fail.

Definition setDeletePodReply (dock_id status : string) : DeletePodReply := DelReply dock_id status.

(** The pages and the runtime of the removed container go back to the pools. *)
Definition return_resources (quota sc_mem_limit : Z) : M World unit :=
  ec_do update_fair_cpu_share ;;
  ec_do (decr_alloc_rt quota) ;;
  ec_do (incr_unallocated_rt quota) ;;
  ec_do (incr_unalloc_memory_in_pages sc_mem_limit) ;;
  ec_do (decr_alloc_memory_in_pages sc_mem_limit).
Definition DeletePod (dock_id : string) : M Service (Status * DeletePodReply) :=
  sc_id ← gets (getScIdFromDockerId dock_id);
  if SubContainer.cgroup_id sc_id =? 0 then mret (CANCELLED, setDeletePodReply dock_id fail) else
  sc_mem_limit ← on_w (sc ← ec_find (get_subcontainer_front sc_id); sc_get sc SubContainer.get_mem_limit_in_pages);
  quota ← on_w (sc ← ec_find (get_subcontainer_front sc_id); sc_get sc get_quota);
  s1 ← on_w (deleteFromScAcMap sc_id);
  s2 ← on_w (deleteFromSubcontainersMap sc_id);
  s3 ← deleteFromDeployedPodsMap sc_id;
  s4 ← deleteFromDockerIdScMap dock_id;
  on_w (return_resources quota sc_mem_limit) ;;
  let ok := bool_decide (code s1 = success ∧ code s2 = success ∧ code s3 = success ∧ code s4 = success) in
  mret (OK, setDeletePodReply dock_id (if (ok : bool) then success else fail)).

(** ** Lemmas *)

Lemma wp_on_w {A} (m : M World A) Q F d :
  wp (on_w m) Q F d = wp m (λ a w, Q a (with_w w d)) (λ f w, F f (with_w w d)) (d_w d).
Proof. unfold wp, on_w. by destruct (m (d_w d)) as [[a|f] w]. Qed.

Lemma upd_ec_id w : upd_ec (w_ec w) w = w.
Proof. by destruct w. Qed.
Lemma wp_deleteFromScAcMap id Q F w :
  wp (deleteFromScAcMap id) Q F w =
  Q (if decide (is_Some (sc_ac_map (w_ec w) !! key_of id)) then 0 else -1)
    (upd_ec (with_sc_ac_map (delete (key_of id) (sc_ac_map (w_ec w))) (w_ec w)) w).
Proof.
  unfold deleteFromScAcMap. ww. destruct (sc_ac_map (w_ec w) !! key_of id) eqn:E.
  - ww. by rewrite decide_True by eauto.
  - ww. rewrite decide_False by (by intros [? ?]). rewrite delete_id by done.
    assert (with_sc_ac_map (sc_ac_map (w_ec w)) (w_ec w) = w_ec w) as -> by (by destruct (w_ec w)).
    by rewrite upd_ec_id.
Qed.
Lemma wp_deleteFromDeployedPodsMap id Q F d :
  wp (deleteFromDeployedPodsMap id) Q F d =
  Q (if decide (is_Some (deployedPods d !! key_of id)) then 0 else -1)
    (with_pods (delete (key_of id) (deployedPods d)) d).
Proof.
  unfold deleteFromDeployedPodsMap. ww. destruct (deployedPods d !! key_of id) eqn:E.
  - ww. by rewrite decide_True by eauto.
  - ww. rewrite decide_False by (by intros [? ?]). rewrite delete_id by done. by destruct d.
Qed.
Lemma wp_deleteFromDockerIdScMap dock c Q F d :
  dockerToSubContainer d !! dock = Some c →
  wp (deleteFromDockerIdScMap dock) Q F d = Q 0 (with_docks (delete dock (dockerToSubContainer d)) d).
Proof. intros H. unfold deleteFromDockerIdScMap. ww. rewrite H. by ww. Qed.

(** Removing the oldest container of an id. *)
Lemma remove_front e h id k p q s :
  wf e → heap_ok (subcontainers e) h → subcontainers e !! key_of id = Some (k, p :: q) → h !! p = Some s →
  ∃ f e', ec_delete_from_subcontainers_map id e = (0, f, e') ∧ (f = None ∨ f = Some p) ∧
    let h' := match f with Some p => delete p h | None => h end in
    wf e' ∧ heap_ok (subcontainers e') h' ∧
    quotas (subcontainers e') h' = quotas (subcontainers e) h - get_quota s ∧
    queue_of id e' = q ∧
    sc_ac_map e' = sc_ac_map e ∧ _cpu e' = _cpu e ∧ _mem e' = _mem e.
Proof.
  intros Hwf [Hnd Hok] Hk Hs.
  pose proof (EcTable.delete_sc_spec id e Hwf) as Hspec.
  assert (Hq : EcTable.queue_at e (key_of id) = p :: q) by (unfold EcTable.queue_at; by rewrite Hk).
  destruct (ec_delete_from_subcontainers_map id e) as [[r f] e'] eqn:E.
  destruct Hspec as (Hwf' & Hpop & -> & Hf). rewrite Hq in *.
  assert (Hperm : queued (subcontainers e) ≡ₚ p :: queued (subcontainers e')).
  { revert E. unfold ec_delete_from_subcontainers_map. rewrite Hk. rewrite (queued_lookup _ _ _ _ Hk).
    destruct (1 <? length (p :: q))%nat eqn:El; intros [= <- <-]; simpl.
    - by rewrite (queued_replace _ _ _ _ _ _ Hk).
    - apply Nat.ltb_ge in El. destruct q; [done|simpl in El; lia]. }
  assert (Hframe : sc_ac_map e' = sc_ac_map e ∧ _cpu e' = _cpu e ∧ _mem e' = _mem e).
  { revert E. unfold ec_delete_from_subcontainers_map. rewrite Hk.
    by destruct (1 <? length (p :: q))%nat; intros [= <- <-]. }
  rewrite Hperm in Hnd. apply NoDup_cons in Hnd as [Hpn Hnd'].
  set (h' := match f with Some p => delete p h | None => h end).
  assert (Hf' : f = None ∨ f = Some p) by (rewrite Hf; destruct (1 <? _)%nat; auto).
  assert (Hsame : ∀ x, x ≠ p → h' !! x = h !! x).
  { intros x Hx. destruct Hf' as [E'|E']; unfold h'; rewrite E'; [done|]. by rewrite lookup_delete_ne. }
  exists f, e'. split; [by rewrite decide_False|]. split; [done|]. cbv zeta. fold h'.
  split; [done|]. split; [split; [done|]|]. 2: split; [|split; [|done]].
  - intros k0 id0 q0 x Hm Hx.
    assert (Hxp : x ≠ p) by (intros ->; apply Hpn, elem_of_queued; eauto).
    rewrite Hsame by done.
    assert (Hq0 : EcTable.queue_at e' k0 = q0) by (unfold EcTable.queue_at; by rewrite Hm).
    assert (Hx0 : x ∈ EcTable.queue_at e k0).
    { rewrite Hpop in Hq0. unfold Table.pop in Hq0. case_decide; [|by rewrite Hq0].
      subst k0. rewrite Hq in Hq0 |- *. simpl in Hq0. subst. by right. }
    unfold EcTable.queue_at in Hx0. destruct (subcontainers e !! k0) as [[i1 q1]|] eqn:E1; [|by apply elem_of_nil in Hx0].
    by eapply Hok.
  - unfold quotas. rewrite Hperm. simpl. unfold quota_at at 2. rewrite Hs.
    rewrite (zsum_ext (quota_at h') (quota_at h)); [lia|].
    intros x Hx. unfold quota_at. rewrite Hsame; [done|]. by intros ->.
  - unfold queue_of. specialize (Hpop (key_of id)). unfold EcTable.queue_at, Table.pop in Hpop.
    rewrite decide_True in Hpop by done. rewrite Hk in Hpop. exact Hpop.
Qed.

(** ** Claims *)

(** What a report of the application leaves behind. *)
Definition limits_set (spec : ExportAppSpec) (w : World) : World :=
  let T := u64 (cpu_limit spec * 100000) in
  let P := u64 (u64 (mem_limit spec * 1024) * 1024) / 4096 in
  upd_ec (with_mem (mem_g.Mem (u64 (i64 P)) (mem_g.slice_size (ManagerMem.mpool w)) (i64 P) 0)
    (with_cpu (cpu_g.Cpu (cpu_g.slice_size (pool w)) T T (cpu_g.overrun (pool w)) (cpu_g.alloc_rt (pool w)))
      (w_ec w))) w.
Lemma app_spec_eq spec d :
  ReportAppSpec spec d =
  (Ok (OK, AppReply (app_name spec) (cpu_limit spec) (mem_limit spec) success), with_w (limits_set spec (d_w d)) d).
Proof. reflexivity. Qed.
(** The pool balances when nothing is allocated but what was lent. *)
Lemma limits_set_inv spec w :
  Inv w → cpu_g.alloc_rt (pool w) = cpu_g.overrun (pool w) →
  Inv (limits_set spec w) ∧ drift (limits_set spec w) = drift w.
Proof.
  intros ((W1 & W2 & (C1 & _ & _ & C4 & C5) & (_ & M2 & _ & _)) & Hh & _) He.
  assert (Hc : ∀ T, is_u64 T →
    cpu_g.wf (cpu_g.Cpu (cpu_g.slice_size (pool w)) T T (cpu_g.overrun (pool w)) (cpu_g.alloc_rt (pool w))))
    by (intros; by split_and!).
  assert (Hm : ∀ P, mem_g.wf (mem_g.Mem (u64 (i64 P)) (mem_g.slice_size (ManagerMem.mpool w)) (i64 P) 0))
    by (intros; split_and!; [apply u64_is_u64|exact M2|apply i64_is_i64|done]).
  split; [|done]. split; [|split; [exact Hh|]].
  - split; [exact W1|split; [exact W2|split]]; [apply Hc, u64_is_u64|apply Hm].
  - unfold cpu_g.imbalance. change (pool (limits_set spec w)) with
      (cpu_g.Cpu (cpu_g.slice_size (pool w)) (u64 (cpu_limit spec * 100000)) (u64 (cpu_limit spec * 100000))
        (cpu_g.overrun (pool w)) (cpu_g.alloc_rt (pool w))). cbn [cpu_g.alloc_rt cpu_g.unallocated_rt
        cpu_g.total_cpu cpu_g.overrun]. lia.
Qed.

(** Reporting the application sets the total and the free runtime to
    100000 ns per millicore and the memory to 256 pages per MiB, all of it free.
    The runtime already allocated and lent is not taken into account: the pool
    balances afterwards exactly when the two were equal, as they are before the
    first container. *)
Theorem app_spec_sets_pools (spec : ExportAppSpec) (d : Service)
    (Hcpu : 0 ≤ cpu_limit spec * 100000 < 18446744073709551616) (Hmem : 0 ≤ mem_limit spec < 8796093022208) :
  ∃ d', ReportAppSpec spec d =
      (Ok (OK, AppReply (app_name spec) (cpu_limit spec) (mem_limit spec) success), d') ∧
    cpu_g.total_cpu (pool (d_w d')) = cpu_limit spec * 100000 ∧
    cpu_g.unallocated_rt (pool (d_w d')) = cpu_limit spec * 100000 ∧
    cpu_g.imbalance (pool (d_w d')) = cpu_g.alloc_rt (pool (d_w d)) - cpu_g.overrun (pool (d_w d)) ∧
    ManagerMem.mpool (d_w d') = mem_g.Mem (mem_limit spec * 256) (mem_g.slice_size (ManagerMem.mpool (d_w d)))
      (mem_limit spec * 256) 0.
Proof.
  assert (Hp : u64 (u64 (mem_limit spec * 1024) * 1024) / 4096 = mem_limit spec * 256).
  { rewrite (u64_small (mem_limit spec * 1024)) by wrap_lia. rewrite u64_small by wrap_lia.
    Z.div_mod_to_equations. lia. }
  eexists. split; [apply app_spec_eq|]. unfold limits_set. rewrite Hp, !u64_small, !i64_small by wrap_lia.
  unfold cpu_g.imbalance, pool, ManagerMem.mpool; simpl. split_and!; try done; lia.
Qed.
Lemma app_spec_sets_pools_witness :
  ∃ d', ReportAppSpec (AppSpec "hotel" 4000 5000) (mkService Manager.w0 ∅ ∅) =
      (Ok (OK, AppReply "hotel" 4000 5000 success), d') ∧
    cpu_g.total_cpu (pool (d_w d')) = 400000000.
Proof.
  destruct (app_spec_sets_pools (AppSpec "hotel" 4000 5000) (mkService Manager.w0 ∅ ∅)) as (d' & ? & ? & _);
    simpl; [lia..|].
  exists d'. split; assumption.
Defined.

(** What is assumed when a pod is removed: its docker id is known, its container
    id has queued containers, and what the oldest of them holds is booked. *)
Record delete_hyps (dock : string) (d : Service) (sc_id k : ContainerId) (p : loc) (q : list loc)
    (s : SubContainer) : Prop := {
  dh_inv : Inv (d_w d);
  dh_small : small_pool (d_w d);
  dh_sane : mem_g.sane (ManagerMem.mpool (d_w d));
  dh_dock : dockerToSubContainer d !! dock = Some sc_id;
  dh_cg : SubContainer.cgroup_id sc_id ≠ 0;
  dh_queue : subcontainers (w_ec (d_w d)) !! key_of sc_id = Some (k, p :: q);
  dh_sc : w_heap (d_w d) !! p = Some s;
  dh_quota : get_quota s ≤ cpu_g.alloc_rt (pool (d_w d));
  dh_mem : 0 ≤ SubContainer.get_mem_limit_in_pages s ≤ mem_g.allocated_memory_in_pages (ManagerMem.mpool (d_w d));
}.

(** Erasing the agent of an id keeps the tables well formed. *)
Lemma erase_agent_wf k e : wf e → wf (with_sc_ac_map (delete k (sc_ac_map e)) e).
Proof.
  intros (H1 & H2 & H3). split_and!; try apply H3; [done|]. simpl.
  intros k' i ac Hk'. apply lookup_delete_Some in Hk' as [_ ?]. by eapply H2.
Qed.

Lemma wp_return_resources q m w Q F :
  let w' := upd_ec (with_mem (mem_g.decr_allocated_memory_in_pages (i64 m)
                      (mem_g.incr_unallocated_memory_in_pages m (ManagerMem.mpool w)))
             (with_cpu (cpu_g.incr_unalloacted_rt q (cpu_g.decr_alloc_rt q (pool w)))
               (update_fair_cpu_share (w_ec w)))) w in
  wp (return_resources q m) Q F w = Q tt w'.
Proof.
  unfold return_resources. ww. f_equal.
  destruct (update_fair_cpu_share_frame (w_ec w)) as (_ & _ & F3 & F4). unfold pool, ManagerMem.mpool.
  rewrite <-F3, <-F4. reflexivity.
Qed.

(** The service after the removal. *)
Definition removed (dock : string) (sc_id : ContainerId) (d : Service) (f : option loc) (e' : ElasticContainer)
    (quota m : Z) : Service :=
  let w := d_w d in
  let e := with_mem (mem_g.Mem (mem_g.memory_limit_in_pages (_mem e')) (mem_g.slice_size (_mem e'))
               (mem_g.unallocated_memory_in_pages (_mem e') + m) (mem_g.allocated_memory_in_pages (_mem e') - m))
            (with_cpu (cpu_g.Cpu (cpu_g.slice_size (_cpu e')) (cpu_g.unallocated_rt (_cpu e') + quota)
               (cpu_g.total_cpu (_cpu e')) (cpu_g.overrun (_cpu e')) (cpu_g.alloc_rt (_cpu e') - quota))
            (update_fair_cpu_share e')) in
  mkService (upd_ec e (upd_heap (match f with Some p => delete p (w_heap w) | None => w_heap w end) w))
    (delete (key_of sc_id) (deployedPods d)) (delete dock (dockerToSubContainer d)).

Lemma delete_pod_spec dock d sc_id k p q s :
  delete_hyps dock d sc_id k p q s →
  ∃ f e', (f = None ∨ f = Some p) ∧
    ec_delete_from_subcontainers_map sc_id
      (with_sc_ac_map (delete (key_of sc_id) (sc_ac_map (w_ec (d_w d)))) (w_ec (d_w d))) = (0, f, e') ∧
    DeletePod dock d = (Ok (OK, DelReply dock
      (if bool_decide (is_Some (sc_ac_map (w_ec (d_w d)) !! key_of sc_id) ∧
                       is_Some (deployedPods d !! key_of sc_id)) then success else fail)),
      removed dock sc_id d f e' (get_quota s) (SubContainer.get_mem_limit_in_pages s)).
Proof.
  intros H. pose proof H as [HI Hsm Hsane Hd Hcg Hq Hs Hquota Hmem].
  set (w := d_w d) in *. destruct HI as (Hwf & Hh & Hb).
  set (e0 := with_sc_ac_map (delete (key_of sc_id) (sc_ac_map (w_ec w))) (w_ec w)).
  destruct (remove_front e0 (w_heap w) sc_id k p q s (erase_agent_wf _ _ Hwf) Hh Hq Hs)
    as (f & e' & Hdel & Hf & _ & _ & _ & _ & _ & Hc' & Hm').
  exists f, e'. split; [done|]. split; [done|].
  match goal with |- _ = (Ok ?a, ?d') =>
    enough (Hwp : wp (DeletePod dock) (λ r d'', r = a ∧ d'' = d') never d)
      by (apply wp_never_inv in Hwp as (? & ? & ? & -> & ->); done) end.
  assert (Hfront : get_subcontainer_front sc_id (w_ec w) = Ok p)
    by (unfold get_subcontainer_front; by rewrite Hq).
  unfold DeletePod. ww. assert (getScIdFromDockerId dock d = sc_id) as -> by (unfold getScIdFromDockerId; by rewrite Hd).
  rewrite (proj2 (Z.eqb_neq _ _) Hcg). ww. rewrite wp_on_w. rewrite wp_bind. unfold ec_find, wp at 1. fold w.
  rewrite Hfront. erewrite wp_sc_get by exact Hs. rewrite wp_bind, wp_on_w, wp_bind. unfold ec_find, wp at 1.
  change (d_w (with_w w d)) with w. rewrite Hfront. erewrite wp_sc_get by exact Hs.
  rewrite wp_bind, wp_on_w. change (d_w (with_w w (with_w w d))) with w. rewrite wp_deleteFromScAcMap. fold e0.
  rewrite wp_bind, wp_on_w. unfold deleteFromSubcontainersMap. rewrite wp_bind. unfold ec_run, wp at 1.
  cbn [d_w with_w w_ec upd_ec]. rewrite Hdel.
  set (w2 := upd_heap (match f with Some p => delete p (w_heap w) | None => w_heap w end) (upd_ec e' w)).
  assert (Hfree : ∀ Q F, wp (match f with Some p => free_sc p | None => mret tt end) Q F
    (upd_ec e' (upd_ec e0 w)) = Q tt w2).
  { intros Q F. destruct Hf as [->| ->]; [done|]. unfold free_sc. rewrite wp_bind. by erewrite wp_load by exact Hs. }
  rewrite wp_bind, Hfree. ww. rewrite wp_deleteFromDeployedPodsMap. ww.
  erewrite wp_deleteFromDockerIdScMap by exact Hd. ww. rewrite wp_on_w, wp_return_resources. ww.
  split.
  - f_equal. unfold setDeletePodReply. f_equal. cbn [deployedPods with_w].
    destruct (decide (is_Some (sc_ac_map (w_ec w) !! key_of sc_id))) as [Ha|Ha],
      (decide (is_Some (deployedPods d !! key_of sc_id))) as [Hp|Hp]; simpl;
      repeat case_bool_decide; tauto.
  - unfold removed, with_docks, with_pods, with_w; cbn [deployedPods dockerToSubContainer d_w]. f_equal.
    subst w2. unfold upd_ec, upd_heap. cbn [w_ec w_heap w_acdb syscall_sequence_number cpuleak w_trace].
    unfold pool, ManagerMem.mpool. cbn [w_ec]. rewrite Hc', Hm'.
    change (_cpu e0) with (pool w). change (_mem e0) with (ManagerMem.mpool w).
    assert (HI' : Inv w) by done. destruct (small_counters _ HI' Hsm) as (?&?&?&?).
    assert (0 ≤ get_quota s) by (apply (quota_le_quotas (subcontainers (w_ec w)) (w_heap w) p);
      [done|apply elem_of_queued; exists (key_of sc_id), k, (p :: q); split; [done|left]|done]).
    destruct Hsane as (?&?&Htr). unfold mem_g.tracked in Htr. fold w in Hmem.
    rewrite mem_g.incr_unallocated_small by lia. rewrite i64_small by wrap_lia.
    rewrite mem_g.decr_allocated_small by (simpl; lia). simpl. rewrite Z.max_r by lia.
    rewrite cpu_g.decr_alloc_rt_eq, cpu_g.sat_sub_small by lia. rewrite Z.max_r by lia.
    unfold cpu_g.incr_unalloacted_rt; simpl. rewrite u64_small by wrap_lia. reflexivity.
Qed.

(** What the service looks like after the removal. *)
Lemma removed_fields dock d sc_id k p q s :
  delete_hyps dock d sc_id k p q s →
  ∃ f e', let w' := d_w (DeletePod dock d).2 in
    (DeletePod dock d).2 = removed dock sc_id d f e' (get_quota s) (SubContainer.get_mem_limit_in_pages s) ∧
    (DeletePod dock d).1 = Ok (OK, DelReply dock
      (if bool_decide (is_Some (sc_ac_map (w_ec (d_w d)) !! key_of sc_id) ∧
                       is_Some (deployedPods d !! key_of sc_id)) then success else fail)) ∧
    wf e' ∧ heap_ok (subcontainers e') (w_heap w') ∧ subcontainers (w_ec w') = subcontainers e' ∧
    quotas (subcontainers e') (w_heap w') = quotas (subcontainers (w_ec (d_w d))) (w_heap (d_w d)) - get_quota s ∧
    queue_of sc_id e' = q ∧ sc_ac_map (w_ec w') = delete (key_of sc_id) (sc_ac_map (w_ec (d_w d))) ∧
    _cpu e' = pool (d_w d) ∧ _mem e' = ManagerMem.mpool (d_w d) ∧
    (∀ x, x ≠ p → w_heap w' !! x = w_heap (d_w d) !! x).
Proof.
  intros H. destruct (delete_pod_spec dock d sc_id k p q s H) as (f & e' & Hf & Hdel & Hrun).
  pose proof H as [(Hwf & Hh & _) _ _ _ _ Hq Hs _ _]. set (w := d_w d) in *.
  destruct (remove_front _ (w_heap w) sc_id k p q s (erase_agent_wf (key_of sc_id) _ Hwf) Hh Hq Hs)
    as (f' & e'' & Hdel' & _ & Hwf' & Hh' & Hquotas & Hqueue & Hac' & Hc' & Hm').
  rewrite Hdel in Hdel'. injection Hdel' as <- <-.
  destruct (update_fair_cpu_share_frame e') as (U1 & U2 & _ & _).
  exists f, e'. rewrite Hrun. cbv zeta. split_and!; try done.
  - etransitivity; [exact U2|exact Hac'].
  - intros x Hx. change (w_heap (d_w _)) with (match f with Some p => delete p (w_heap w) | None => w_heap w end).
    destruct Hf as [->| ->]; [done|]. by rewrite lookup_delete_ne.
Qed.

Lemma removed_inv dock d sc_id k p q s :
  delete_hyps dock d sc_id k p q s →
  let d' := (DeletePod dock d).2 in
  Inv (d_w d') ∧ drift (d_w d') = drift (d_w d) ∧
  cpu_g.unallocated_rt (pool (d_w d')) = cpu_g.unallocated_rt (pool (d_w d)) + get_quota s ∧
  cpu_g.total_cpu (pool (d_w d')) = cpu_g.total_cpu (pool (d_w d)) ∧
  cpu_g.overrun (pool (d_w d')) = cpu_g.overrun (pool (d_w d)) ∧
  mem_g.tracked (ManagerMem.mpool (d_w d')) = mem_g.tracked (ManagerMem.mpool (d_w d)) ∧
  cpu_g.alloc_rt (pool (d_w d')) = cpu_g.alloc_rt (pool (d_w d)) - get_quota s ∧
  mem_g.unallocated_memory_in_pages (ManagerMem.mpool (d_w d')) =
    mem_g.unallocated_memory_in_pages (ManagerMem.mpool (d_w d)) + SubContainer.get_mem_limit_in_pages s ∧
  mem_g.allocated_memory_in_pages (ManagerMem.mpool (d_w d')) =
    mem_g.allocated_memory_in_pages (ManagerMem.mpool (d_w d)) - SubContainer.get_mem_limit_in_pages s.
Proof.
  intros H. destruct (removed_fields dock d sc_id k p q s H)
    as (f & e' & Hd' & _ & Hwf' & Hh' & Hsub & Hquotas & _ & _ & Hc' & Hm' & _).
  pose proof H as [HI Hsm Hsane Hd Hcg Hq Hs Hquota Hmem]. pose proof HI as (Hwf & Hh & Hb).
  set (w := d_w d) in *. destruct (small_counters _ HI Hsm) as (?&?&?&?).
  assert (0 ≤ get_quota s) by (apply (quota_le_quotas (subcontainers (w_ec w)) (w_heap w) p);
    [done|apply elem_of_queued; exists (key_of sc_id), k, (p :: q); split; [done|left]|done]).
  cbv zeta. unfold Inv, drift. rewrite Hsub, Hquotas. rewrite Hd' in Hh' |- *.
  unfold removed, pool, ManagerMem.mpool;
    cbn [d_w w_ec upd_ec upd_heap with_mem with_cpu _cpu _mem].
  rewrite Hc', Hm'. fold (pool w) (ManagerMem.mpool w). split; [split_and!|].
  - destruct (update_fair_cpu_share_wf e' Hwf') as (W1 & W2 & W3 & W4). split_and!; try done; simpl.
    + destruct (inv_pool _ HI) as (?&?&?&?&?). unfold cpu_g.wf; simpl. split_and!; wrap_lia.
    + destruct Hwf as (_ & _ & _ & M1 & M2 & M3 & M4). fold (ManagerMem.mpool w) in *.
      destruct Hsane as (?&?&Htr). unfold mem_g.tracked in Htr. unfold mem_g.wf; simpl. split_and!; wrap_lia.
  - exact Hh'.
  - unfold cpu_g.imbalance in *; simpl. lia.
  - unfold mem_g.tracked; simpl. split_and!; try done; lia.
Qed.

(** C12: removing a pod whose docker id is known and whose container is queued
    gives back what the oldest container of its id held, where the allocations
    cover that ([delete_hyps]): the request is answered, exactly the quota and
    exactly the pages of that container move from the allocations to the pools,
    the total and the overrun stay, the pool balances and the allocation keeps
    following the quotas, the container leaves its queue, no other container is
    touched, the docker id is forgotten, and the reply is "thx" exactly when the
    pod was known to every table. *)
Theorem delete_pod_conserves (dock : string) (d : Service) (sc_id k : ContainerId) (p : loc) (q : list loc)
    (s : SubContainer) (H : delete_hyps dock d sc_id k p q s) :
  ∃ reply d', DeletePod dock d = (Ok (OK, reply), d') ∧
    (dr_thanks reply = success ↔
      is_Some (sc_ac_map (w_ec (d_w d)) !! key_of sc_id) ∧ is_Some (deployedPods d !! key_of sc_id)) ∧
    Inv (d_w d') ∧ drift (d_w d') = drift (d_w d) ∧
    cpu_g.unallocated_rt (pool (d_w d')) = cpu_g.unallocated_rt (pool (d_w d)) + get_quota s ∧
    cpu_g.alloc_rt (pool (d_w d')) = cpu_g.alloc_rt (pool (d_w d)) - get_quota s ∧
    cpu_g.total_cpu (pool (d_w d')) = cpu_g.total_cpu (pool (d_w d)) ∧
    cpu_g.overrun (pool (d_w d')) = cpu_g.overrun (pool (d_w d)) ∧
    mem_g.unallocated_memory_in_pages (ManagerMem.mpool (d_w d')) =
      mem_g.unallocated_memory_in_pages (ManagerMem.mpool (d_w d)) + SubContainer.get_mem_limit_in_pages s ∧
    mem_g.allocated_memory_in_pages (ManagerMem.mpool (d_w d')) =
      mem_g.allocated_memory_in_pages (ManagerMem.mpool (d_w d)) - SubContainer.get_mem_limit_in_pages s ∧
    queue_of sc_id (w_ec (d_w d')) = q ∧ (∀ x, x ≠ p → w_heap (d_w d') !! x = w_heap (d_w d) !! x) ∧
    getScIdFromDockerId dock d' = ContainerId_default.
Proof.
  destruct (removed_inv dock d sc_id k p q s H) as (HI & Hdr & Hun & Htot & Hov & Htr & Hal & Hmu & Hma).
  destruct (removed_fields dock d sc_id k p q s H)
    as (f & e' & Hd' & Hrep & _ & _ & Hsub & _ & Hqueue & _ & _ & _ & Hother).
  destruct (DeletePod dock d) as [o d'] eqn:E. cbv zeta in *. cbn [fst snd] in *. subst o.
  eexists _, d'. split; [done|]. split; [simpl; case_bool_decide; split; try done; tauto|].
  split_and!; try done.
  - unfold queue_of in *. by rewrite Hsub.
  - rewrite Hd'. unfold getScIdFromDockerId, removed; cbn [dockerToSubContainer]. by rewrite lookup_delete_eq.
Qed.

(** C39: removing one of several containers with the same id also removes
    their common agent: the next quota request for the newest of those that are
    left ends the process. *)
Theorem delete_orphans_rest (dock : string) (d : Service) (sc_id k : ContainerId) (p p2 : loc) (q : list loc)
    (s s2 : SubContainer) (quota n : Z) {ENV : Env} (H : delete_hyps dock d sc_id k p q s)
    (Hlast : last q = Some p2) (Hs2 : w_heap (d_w d) !! p2 = Some s2) (Hins : inserted s2 = true) :
  let w' := d_w (DeletePod dock d).2 in
  get_sc_for_update_back sc_id (w_ec w') = Ok p2 ∧
  (set_sc_quota_syscall p2 quota n w').1 = Fail (Exit 1).
Proof.
  destruct (removed_fields dock d sc_id k p q s H)
    as (f & e' & _ & _ & Hwf' & _ & Hsub & _ & Hqueue & Hac & _ & _ & Hsame).
  pose proof H as [(Hwf & Hh & _) _ _ _ _ Hq Hs _ _]. cbv zeta. set (w' := d_w (DeletePod dock d).2) in *.
  assert (Hnew : get_sc_for_update_back sc_id e' = Ok p2).
  { rewrite EcTable.newest_sc_spec by done. change (EcTable.queue_at e' (key_of sc_id)) with (queue_of sc_id e').
    by rewrite Hqueue, Hlast. }
  split; [unfold get_sc_for_update_back in *; by rewrite Hsub|].
  assert (Hin2 : p2 ∈ q) by (by apply last_Some_elem_of).
  assert (Hne : p2 ≠ p).
  { intros ->. destruct Hh as [Hnd _]. rewrite (queued_lookup _ _ _ _ Hq) in Hnd. simpl in Hnd.
    apply NoDup_cons in Hnd as [Hnd _]. apply Hnd, elem_of_app. by left. }
  assert (Hs2' : w_heap w' !! p2 = Some s2) by (by rewrite Hsame).
  assert (Hkey : key_of (c_id s2) = key_of sc_id).
  { destruct (proj2 Hh _ _ _ p2 Hq) as (s' & Hs' & Hk & _); [by right|]. rewrite Hs2 in Hs'.
    injection Hs' as <-. exact Hk. }
  enough (Hwp : wp (set_sc_quota_syscall p2 quota n) (λ _ _, False) (λ f _, f = Exit 1) w').
  { unfold wp in Hwp. by destruct (set_sc_quota_syscall p2 quota n w') as [[|] ?]; [|rewrite Hwp]. }
  unfold set_sc_quota_syscall. ww. unfold sc_inserted. rewrite Hins. simpl negb. cbv iota. ww.
  unfold agent_or_exit. rewrite wp_bind. unfold ec_run, wp at 1, get_corres_agent_client, get_c_id.
  rewrite Hkey, Hac, lookup_delete_eq. done.
Qed.

(** C31: a pod that is reported under a new docker id, after its container
    has connected, is found under that docker id from then on, and the newest
    container with its id carries the docker id; a docker id that is already
    known is refused without touching the containers. *)
Theorem pod_spec_recorded (inet_addr : string → Z) (pod : ExportPodSpec) (d : Service) (c : ContainerId)
    (sc : loc) (s : SubContainer)
    (Hid : pod_id inet_addr pod = Some c)
    (Hsc : get_sc_for_update_back c (w_ec (d_w d)) = Ok sc) (Hs : w_heap (d_w d) !! sc = Some s)
    (Hag : is_Some (sc_ac_map (w_ec (d_w d)) !! key_of c)) :
  ∃ d', match dockerToSubContainer d !! pod_docker_id pod with
    | None =>
        ReportPodSpec inet_addr pod d = (Ok (OK, setPodSpecReply pod success), d') ∧
        getScIdFromDockerId (pod_docker_id pod) d' = c ∧
        d_w d' = upd_sc sc (set_docker_id (pod_docker_id pod) s) (d_w d)
    | Some c0 =>
        ReportPodSpec inet_addr pod d = (Ok (OK, setPodSpecReply pod fail), d') ∧
        getScIdFromDockerId (pod_docker_id pod) d' = c0 ∧ d_w d' = d_w d
    end.
Proof.
  assert (Hgid : ∀ d Q F, wp (get_pod_id inet_addr pod) Q F d = Q c d)
    by (intros; unfold get_pod_id; by rewrite Hid).
  assert (Hpp : ∀ x, d_w (push_pod c x d) = d_w d ∧ dockerToSubContainer (push_pod c x d) = dockerToSubContainer d)
    by (intros x; unfold push_pod; by destruct (deployedPods d !! _) as [[? ?]|]).
  destruct (Hpp (pod_docker_id pod)) as [Hpw Hpd]. set (d1 := push_pod c (pod_docker_id pod) d) in *.
  destruct (dockerToSubContainer d !! pod_docker_id pod) as [c0|] eqn:E.
  - exists d1. split; [|split; [unfold getScIdFromDockerId; by rewrite Hpd, E|done]].
    enough (Hwp : wp (ReportPodSpec inet_addr pod) (λ r d', r = (OK, setPodSpecReply pod fail) ∧ d' = d1) never d)
      by (apply wp_never_inv in Hwp as (? & ? & ? & -> & ->); done).
    unfold ReportPodSpec, insertPodSpec. rewrite !wp_bind, Hgid. ww. fold d1. rewrite Hpd, E. by ww.
  - set (d2 := with_docks (<[pod_docker_id pod := c]> (dockerToSubContainer d)) d1).
    set (d3 := with_w (upd_sc sc (set_docker_id (pod_docker_id pod) s) (d_w d)) d2).
    exists d3. split; [|split; [unfold getScIdFromDockerId; simpl; by rewrite lookup_insert_eq|done]].
    enough (Hwp : wp (ReportPodSpec inet_addr pod) (λ r d', r = (OK, setPodSpecReply pod success) ∧ d' = d3) never d)
      by (apply wp_never_inv in Hwp as (? & ? & ? & -> & ->); done).
    unfold ReportPodSpec, insertPodSpec. rewrite !wp_bind, Hgid. ww. fold d1. rewrite Hpd, E. ww. fold d2.
    change (0 =? 0) with true. cbv iota. change (bool_decide (success = "thx")) with true. cbv iota.
    ww. rewrite Hgid, wp_on_w. change (d_w d2) with (d_w d1). rewrite Hpw.
    unfold scIdToDockerIdMatcherThread. ww. destruct Hag as [v Hv]. rewrite Hv. rewrite wp_bind.
    unfold ec_find at 1, wp at 1. rewrite Hsc. ww. unfold ec_find, wp at 1.
    change (get_subcontainer_back c (w_ec (upd_sc _ _ _))) with (get_sc_for_update_back c (w_ec (d_w d))).
    by rewrite Hsc.
Qed.

(** ** Instances *)
Definition d0 : Service :=
  mkService Manager.w0 {[ key_of Demo.cid := (Demo.cid, ["d7"]) ]} {[ "d7" := Demo.cid ]}.
Lemma delete_hyps_demo : delete_hyps "d7" d0 Demo.cid Demo.cid 1 [] (Demo.sc 200000000).
Proof.
  constructor; try done.
  apply Demo.world_inv; Manager.concrete.
Qed.
Lemma delete_pod_conserves_witness :
  ∃ reply d', DeletePod "d7" d0 = (Ok (OK, reply), d') ∧ Inv (d_w d') ∧
    cpu_g.unallocated_rt (pool (d_w d')) = 400000000 ∧
    mem_g.unallocated_memory_in_pages (ManagerMem.mpool (d_w d')) = 1048576.
Proof.
  destruct (delete_pod_conserves "d7" d0 _ _ _ _ _ delete_hyps_demo) as (r & d' & ? & _ & ? & _ & ? & _ & _ & _ & ? & _).
  exists r, d'. split_and!; assumption.
Defined.

(** The same world with two containers under the same id. *)
Definition w_two : World :=
  upd_ec (insert_sc Demo.cid 2 (on_cpu (cpu_g.set_unallocated_rt 100000000)
    (on_cpu (cpu_g.incr_alloc_rt 100000000) (w_ec Manager.w0))))
    (upd_sc 2 (Demo.sc 100000000) Manager.w0).
Definition d_two : Service := mkService w_two (deployedPods d0) (dockerToSubContainer d0).
Lemma delete_hyps_two : delete_hyps "d7" d_two Demo.cid Demo.cid 1 [2%positive] (Demo.sc 200000000).
Proof.
  constructor; try done.
  split_and!; [| |done].
  - apply EcTable.insert_sc_spec. apply Demo.ec_wf; [Manager.concrete|apply Demo.mem_wf].
  - apply (heap_ok_insert_sc (w_ec Manager.w0) (w_heap Manager.w0) 2 (Demo.sc 100000000)).
    + apply Demo.ec_wf; [Manager.concrete|apply Demo.mem_wf].
    + apply Demo.heap_ok_demo. wrap_lia.
    + change (2%positive ∉ queued {[ key_of Demo.cid := (Demo.cid, [1%positive]) ]}).
      rewrite Demo.queued_demo. by intros ?%list_elem_of_singleton.
    + apply Demo.sc_wf. wrap_lia.
Qed.
Lemma delete_orphans_rest_witness :
  (set_sc_quota_syscall (ENV := Demo.willing) 2 30000000 0 (d_w (DeletePod "d7" d_two).2)).1 = Fail (Exit 1).
Proof.
  apply (delete_orphans_rest (ENV := Demo.willing) "d7" d_two Demo.cid Demo.cid 1 2 [2%positive]
    (Demo.sc 200000000) (Demo.sc 100000000) 30000000 0 delete_hyps_two); by vm_compute.
Defined.

Lemma pod_spec_recorded_witness :
  ∃ d', ReportPodSpec (λ _, 0x0106a8c0) (PodSpec "dx" 7 "192.168.6.1") d0 =
      (Ok (OK, setPodSpecReply (PodSpec "dx" 7 "192.168.6.1") success), d') ∧
    getScIdFromDockerId "dx" d' = Demo.cid.
Proof.
  destruct (pod_spec_recorded (λ _, 0x0106a8c0) (PodSpec "dx" 7 "192.168.6.1") d0 Demo.cid 1 (Demo.sc 200000000))
    as (d' & Hd').
  - by vm_compute.
  - by vm_compute.
  - by vm_compute.
  - vm_compute. eauto.
  - exists d'. destruct Hd' as (? & ? & _). split; assumption.
Defined.

End Deploy.
