(* ===== verification/Gcm.v ===== *)
(** * The global control manager ([src/GlobalControlManager.{h,cpp}], [src/main.cpp])

    Start-up: one manager per tenant, each with its own ports, one client per
    agent, then the first manager is run. The text of the definition file and
    what the system calls return are inputs; [inet_addr] is the C library's. *)
From S2P Require Import Prelude OmNet Float64 Window LocalStats SubContainer Agents CpuG MemG.
From S2P Require Import ElasticContainer World Types ECAPI Demo ManagerCpu ManagerMem Manager Server.
From S2P Require Import Json JSONFacade.
Import SubContainer ElasticContainer.

Definition GCM_PORT : Z := 8888.
Definition BASE_TCP_PORT : Z := 5000.
Definition BASE_UDP_PORT : Z := 6000.

Module Gcm.

(** What the constructors of [Manager], [Server] and [ECAPI] set. *)
Record Mgr := mkMgr {
  manager_id : Z; ip_address : ip4_addr; ports : ports_t; m_agents : list Agent.Agent;
  m_grpc_port : Z; m_sock : Server.sock_state;
}.
Definition Manager_of (id : Z) (gcm_ip : ip4_addr) (controller_ports : ports_t) (agents : list Agent.Agent)
    (r : Server.sys_results * Server.sys_results) : outcome Mgr :=
  match (Server.initialize_tcp r.1 ;; Server.initialize_udp r.2) Server.Server_of with
  | (Ok _, s) => Ok (mkMgr id gcm_ip controller_ports agents (Manager.grpc_port id) s)
  | (Fail f, _) => Fail f
  end.
Definition get_server_id (m : Mgr) : Z := u32 (manager_id m).

Record GlobalControlManager := mkGcm {
  gcm_ip : ip4_addr; gcm_port : Z; controller_ports : list ports_t;
  managers : gmap Z Mgr; manager_counts : Z; agents : list Agent.Agent;
}.
Definition with_managers (ms : gmap Z Mgr) (n : Z) (g : GlobalControlManager) : GlobalControlManager :=
  mkGcm (gcm_ip g) (gcm_port g) (controller_ports g) ms n (agents g).

Section Startup.
Context (inet_addr : string → Z).

(** The constructor; a malformed address throws. *)
Definition GlobalControlManager_of (ip_addr : string) (port : Z) (_agent_ips : list string)
    (_server_ports : list ports_t) : outcome GlobalControlManager :=
  match ip4_addr.from_string inet_addr ip_addr, mapM (ip4_addr.from_string inet_addr) _agent_ips with
  | Some ip, Some ips =>
      let agents := Agent.Agent_of <$> ips in
      if negb (length agents =? length _agent_ips)%nat then Fail (Exit 1)
      else Ok (mkGcm ip port _server_ports ∅ 1 agents)
  | _, _ => Fail Throw
  end.

(** The constructor for plain ports keeps them in [server_ports], which nothing
    reads; [controller_ports] stays empty. *)
Definition GlobalControlManager_of_ports (ip_addr : string) (port : Z) (_agent_ips : list string)
    (_server_ports : list Z) : outcome (GlobalControlManager * list Z) :=
  match GlobalControlManager_of ip_addr port _agent_ips [] with
  | Ok g => Ok (g, _server_ports)
  | Fail f => Fail f
  end.

Definition create_manager (r : Server.sys_results * Server.sys_results) : M GlobalControlManager Z := λ g,
  let n := manager_counts g in
  match managers g !! n with
  | Some _ => (Ok 0, g)
  | None =>
      match controller_ports g !! Z.to_nat (n - 1) with
      | None => (Fail Undef, g)
      | Some ports =>
          match Manager_of n (gcm_ip g) ports (agents g) r with
          | Fail f => (Fail f, g)
          | Ok mngr => (Ok (get_server_id mngr), with_managers (<[n := mngr]> (managers g)) (i32 (n + 1)) g)
          end
      end
  end.

Definition get_manager (manager_id : Z) (g : GlobalControlManager) : outcome Mgr :=
  match managers g !! manager_id with Some m => Ok m | None => Fail (Exit 1) end.
(** [run]: the manager that is started; without one the end iterator is
    dereferenced. *)
Definition run (g : GlobalControlManager) : outcome Mgr :=
  match managers g !! 1 with Some m => Ok m | None => Fail Undef end.

(** The clients are numbered in the order they are allocated. *)
Fixpoint connect (next : positive) (num_connections : Z) (ags : list Agent.Agent) (d : AgentClientDB.db) :
    Z * AgentClientDB.db :=
  match ags with
  | [] => (num_connections, d)
  | ag :: ags =>
      connect (Pos.succ next) (u32 (num_connections + 1)) ags
        (AgentClientDB.add_agent_client (AgentClient.mkAgentClient next ag) d)
  end.
Definition init_agent_connections (g : GlobalControlManager) (d : AgentClientDB.db) : bool * AgentClientDB.db :=
  let '(num_connections, d) := connect 1 0 (agents g) d in
  (num_connections =? AgentClientDB.get_agent_clients_db_size d, d).

(** One pair of ports per tenant. *)
Definition tenant_ports (num_tenants : Z) : list ports_t :=
  (λ i : nat, Ports (u16 (BASE_TCP_PORT + Z.of_nat i)) (u16 (BASE_UDP_PORT + Z.of_nat i)))
    <$> seq 0 (Z.to_nat num_tenants).
(** [main] after the file has been parsed. *)
Definition deploy (gcm_ip : string) (agent_ips : list string) (num_tenants : Z)
    (sys : nat → Server.sys_results * Server.sys_results) :
    outcome (GlobalControlManager * AgentClientDB.db * Mgr) :=
  let ports := tenant_ports num_tenants in
  match GlobalControlManager_of gcm_ip GCM_PORT agent_ips ports with
  | Fail f => Fail f
  | Ok g =>
      match mfor (seq 0 (length ports)) (λ i, create_manager (sys i) ;; mret tt) g with
      | (Fail f, _) => Fail f
      | (Ok _, g) =>
          let '(connected, d) := init_agent_connections g (AgentClientDB.get_agent_client_db_instance None).1 in
          if negb connected then Fail (Exit 1)
          else match run g with Ok m => Ok (g, d, m) | Fail f => Fail f end
      end
  end.

(** [main]: [argc], the content of the file named by [argv[1]], and what the
    integers of the JSON object hold before they are set. *)
Definition main {J : WebJson} (argc : Z) (content : option string) (garbage : Z * Z)
    (sys : nat → Server.sys_results * Server.sys_results) :
    outcome (GlobalControlManager * AgentClientDB.db * Mgr) :=
  if argc <? 2 then Fail (Exit 1) else
  match JSONFacade.parseFile content (JSONFacade.json_of garbage.1 garbage.2 ∅) with
  | (Fail f, _) => Fail f
  | (Ok status, jsonFacade) =>
      if negb (status =? 0) then Fail (Exit 1)
      else deploy (JSONFacade.getGCMIP jsonFacade) (JSONFacade.getAgentIPs jsonFacade)
             (JSONFacade.getNumTenants jsonFacade) sys
  end.

(** The state in which a started manager serves its first request. *)
Definition start_world (m : Mgr) (d : AgentClientDB.db) : World :=
  mkWorld (ElasticContainer_of (manager_id m)) ∅ d 0 0 [].

(** ** Creating the managers *)

(** System calls that succeed. *)
Definition calls_ok (r : Server.sys_results * Server.sys_results) : Prop :=
  (0 < Server.socket_fd r.1 ∧ Server.setsockopt_rc r.1 = 0 ∧ 0 ≤ Server.bind_rc r.1 ∧ 0 ≤ Server.listen_rc r.1) ∧
  (0 < Server.socket_fd r.2 ∧ Server.setsockopt_rc r.2 = 0 ∧ 0 ≤ Server.bind_rc r.2).
(** The manager of tenant [i]. *)
Definition nth_manager (g : GlobalControlManager) (sys : nat → Server.sys_results * Server.sys_results)
    (i : nat) (p : ports_t) : Mgr :=
  mkMgr (Z.of_nat i + 1) (gcm_ip g) p (agents g) (Manager.grpc_port (Z.of_nat i + 1))
    (Server.Sock (Server.socket_fd (sys i).1) (Server.socket_fd (sys i).2) 2 0).

Lemma Manager_of_ok id ip p ags r :
  calls_ok r →
  Manager_of id ip p ags r =
  Ok (mkMgr id ip p ags (Manager.grpc_port id)
    (Server.Sock (Server.socket_fd r.1) (Server.socket_fd r.2) 2 0)).
Proof.
  intros ((? & Ho & ? & ?) & (? & Ho' & ?)). unfold Manager_of, Server.initialize_tcp, Server.initialize_udp,
    mbind, M_bind, modify, stop, Server.Server_of; simpl.
  rewrite Ho, Ho'; simpl. zcase; try lia; simpl. reflexivity.
Qed.

(** After [k] managers have been created, the table holds exactly them. *)
Definition created (g0 : GlobalControlManager) (sys : nat → Server.sys_results * Server.sys_results) (k : nat)
    (g : GlobalControlManager) : Prop :=
  gcm_ip g = gcm_ip g0 ∧ agents g = agents g0 ∧ controller_ports g = controller_ports g0 ∧
  manager_counts g = Z.of_nat k + 1 ∧
  ∀ id m, managers g !! id = Some m ↔
    ∃ i p, (i < k)%nat ∧ controller_ports g0 !! i = Some p ∧ id = Z.of_nat i + 1 ∧ m = nth_manager g0 sys i p.

Lemma create_manager_created g0 sys k g :
  created g0 sys k g → (k < length (controller_ports g0))%nat →
  Z.of_nat (length (controller_ports g0)) < 2147483647 → calls_ok (sys k) →
  wp (create_manager (sys k)) (λ r g', r = Z.of_nat k + 1 ∧ created g0 sys (S k) g') never g.
Proof.
  intros (Hip & Hag & Hcp & Hn & Hms) Hk Hlen Hok. unfold wp, create_manager. rewrite Hn.
  assert (managers g !! (Z.of_nat k + 1) = None) as ->.
  { destruct (managers g !! _) eqn:E; [|done]. apply Hms in E as (i & ? & ? & ? & ? & ?). lia. }
  destruct (lookup_lt_is_Some_2 _ _ Hk) as [p Hp].
  replace (Z.to_nat (Z.of_nat k + 1 - 1)) with k by lia. rewrite Hcp, Hp, Manager_of_ok by done.
  unfold get_server_id; simpl. split; [rewrite u32_small; wrap_lia|].
  split_and!; simpl; [done..|wrap_lia|].
  intros id m. rewrite lookup_insert_Some, Hms, Hip, Hag. split.
  - intros [[<- <-]|(? & i & p' & ? & ? & -> & ->)].
    + exists k, p. split_and!; try done. lia.
    + exists i, p'. split_and!; try done. lia.
  - intros (i & p' & Hi & Hp' & -> & ->). destruct (decide (i = k)) as [->|Hne].
    + left. rewrite Hp in Hp'. injection Hp' as ->. done.
    + right. split; [lia|]. exists i, p'. split_and!; try done. lia.
Qed.

Lemma create_all g sys :
  managers g = ∅ → manager_counts g = 1 → Z.of_nat (length (controller_ports g)) < 2147483647 →
  (∀ i, (i < length (controller_ports g))%nat → calls_ok (sys i)) →
  ∃ g', mfor (seq 0 (length (controller_ports g))) (λ i, create_manager (sys i) ;; mret tt) g = (Ok tt, g') ∧
    created g sys (length (controller_ports g)) g'.
Proof.
  intros Hms Hn Hlen Hok. set (n := length (controller_ports g)) in *.
  assert (Hwp : wp (mfor (seq 0 n) (λ i, create_manager (sys i) ;; mret tt)) (λ _, created g sys n) never g).
  { eapply wp_mono; [apply (wp_mfor _
      (λ l g', ∃ k, l = seq k (n - k) ∧ (k ≤ n)%nat ∧ created g sys k g'))| |done].
    - exists 0%nat. split_and!; [f_equal; lia|lia|]. split_and!; try done.
      intros id m. rewrite Hms, lookup_empty. split; [done|]. intros (? & ? & ? & _). lia.
    - intros i l' g' _ (k & Hl & Hk & Hc).
      destruct (n - k)%nat as [|r] eqn:Hr; simpl in Hl; [done|]. injection Hl as -> ->.
      rewrite wp_bind. eapply wp_mono; [apply create_manager_created; [done|unfold n in *; lia|done|apply Hok; lia]| |done].
      intros _ g'' [_ Hc']. rewrite wp_ret. exists (S k). split_and!; [f_equal; lia|lia|done].
    - intros _ g' (k & Hl & Hk & Hc). destruct (n - k)%nat eqn:E; [|done]. by replace n with k by lia. }
  apply wp_never_inv in Hwp as ([] & g' & ? & ?). by exists g'.
Qed.

(** ** Connecting to the agents *)
Lemma connect_spec ags next n d :
  (connect next n ags d).1 = u32 (n + Z.of_nat (length ags)) ∨ ags = [] ∧ (connect next n ags d).1 = n.
Proof.
  revert next n d. induction ags as [|ag ags IH]; intros next n d; simpl; [by right|]. left.
  destruct (IH (Pos.succ next) (u32 (n + 1)) (AgentClientDB.add_agent_client (AgentClient.mkAgentClient next ag) d))
    as [-> |[-> ->]]; unfold u32; [rewrite Zplus_mod_idemp_l|]; f_equal; simpl; lia.
Qed.
(** One client per address: the table grows by the number of new addresses. *)
Lemma connect_size ags next n d :
  (size (connect next n ags d).2 ≤ size d + length ags)%nat ∧
  (size (connect next n ags d).2 = size d + length ags ↔
    NoDup (Agent.get_ip <$> ags) ∧ ∀ ag, ag ∈ ags → d !! Agent.get_ip ag = None)%nat.
Proof.
  revert next n d. induction ags as [|ag ags IH]; intros next n d; simpl.
  { split; [lia|]. split; [|lia]. split; [constructor|by intros ? ?%not_elem_of_nil]. }
  set (ac := AgentClient.mkAgentClient next ag).
  destruct (IH (Pos.succ next) (u32 (n + 1)) (AgentClientDB.add_agent_client ac d)) as [Hle Hiff].
  assert (Hd : ∀ a, AgentClientDB.add_agent_client ac d !! a = None ↔ a ≠ Agent.get_ip ag ∧ d !! a = None).
  { intros a. rewrite <-!not_elem_of_dom, AgentClientDB.add_dom.
    change (AgentClient.get_agent_ip ac) with (Agent.get_ip ag).
    rewrite not_elem_of_union, not_elem_of_singleton. done. }
  rewrite AgentClientDB.add_size in *. change (AgentClient.get_agent_ip ac) with (Agent.get_ip ag) in *.
  rewrite NoDup_cons, list_elem_of_fmap. case_decide as Hin; split; try lia.
  - split; [lia|]. intros [_ Hnone]. destruct Hin as [? Hin]. rewrite Hnone in Hin by left. done.
  - rewrite <-eq_None_not_Some in Hin. rewrite <-Nat.add_assoc in Hiff. simpl in Hiff. rewrite Hiff. split.
    + intros [Hnd Hall]. split_and!; [|done|].
      * intros (ag' & Heq & Hag'). by apply (Hd (Agent.get_ip ag')); [apply Hall|].
      * intros ag' [->|Hag']%elem_of_cons; [done|]. by apply Hd, Hall.
    + intros [[Hni Hnd] Hall]. split; [done|]. intros ag' Hag'. apply Hd. split; [|apply Hall; by right].
      intros Heq. apply Hni. by exists ag'.
Qed.
(** The client of an agent is filed under the agent's address. *)
Lemma connect_lookup ips next n d addr :
  AgentClient.agent <$> (connect next n (Agent.Agent_of <$> ips) d).2 !! addr =
  match d !! addr with
  | Some ac => Some (AgentClient.agent ac)
  | None => if decide (addr ∈ ips) then Some (Agent.Agent_of addr) else None
  end.
Proof.
  revert next n d. induction ips as [|ip ips IH]; intros next n d.
  { simpl. by destruct (d !! addr). }
  cbn [fmap list_fmap connect]. fold (fmap Agent.Agent_of ips). rewrite IH. set (ac := AgentClient.mkAgentClient next _).
  unfold AgentClientDB.add_agent_client. change (AgentClient.get_agent_ip ac) with ip.
  destruct (decide (addr = ip)) as [->|Hne].
  - rewrite (decide_True (P := ip ∈ ip :: ips)) by left. destruct (d !! ip) eqn:E; [by rewrite E|].
    by rewrite lookup_insert_eq.
  - assert (addr ∈ ip :: ips ↔ addr ∈ ips) as Hiff by (rewrite elem_of_cons; tauto).
    assert ((if decide (addr ∈ ip :: ips) then Some (Agent.Agent_of addr) else None) =
      (if decide (addr ∈ ips) then Some (Agent.Agent_of addr) else None)) as -> by (repeat case_decide; tauto).
    destruct (d !! ip); [done|]. by rewrite lookup_insert_ne.
Qed.
Lemma init_agent_connections_iff g :
  Z.of_nat (length (agents g)) < 4294967296 →
  (init_agent_connections g ∅).1 = bool_decide (NoDup (Agent.get_ip <$> agents g)).
Proof.
  intros Hlen. unfold init_agent_connections.
  destruct (connect_size (agents g) 1 0 ∅) as [Hle Hiff].
  assert (Hn : (connect 1 0 (agents g) ∅).1 = Z.of_nat (length (agents g)))
    by (destruct (connect_spec (agents g) 1 0 ∅) as [-> |[-> ->]]; [wrap_lia|done]).
  destruct (connect 1 0 (agents g) ∅) as [c d]; simpl in *. subst c. rewrite map_size_empty in *.
  unfold AgentClientDB.get_agent_clients_db_size. rewrite u32_small by wrap_lia.
  destruct (Z.eqb_spec (Z.of_nat (length (agents g))) (Z.of_nat (size d))) as [E|E]; symmetry.
  - apply bool_decide_eq_true_2. by apply Hiff; lia.
  - apply bool_decide_eq_false_2. intros Hnd. apply E. rewrite (proj2 Hiff); [done|].
    split; [done|]. intros. apply lookup_empty.
Qed.

Lemma tenant_ports_length n : length (tenant_ports n) = Z.to_nat n.
Proof. unfold tenant_ports. by rewrite length_fmap, length_seq. Qed.
Lemma tenant_ports_lookup n i p :
  tenant_ports n !! i = Some p ↔
  (i < Z.to_nat n)%nat ∧ p = Ports (u16 (5000 + Z.of_nat i)) (u16 (6000 + Z.of_nat i)).
Proof.
  unfold tenant_ports. rewrite list_lookup_fmap_Some. setoid_rewrite lookup_seq. split.
  - intros (j & -> & [-> ?]). done.
  - intros [? ->]. exists i. done.
Qed.

Lemma run_deploy (ip : string) (agent_ips : list string) (num_tenants : Z)
    (sys : nat → Server.sys_results * Server.sys_results) (a : ip4_addr) (ips : list ip4_addr)
    (Hip : ip4_addr.from_string inet_addr ip = Some a)
    (Hips : mapM (ip4_addr.from_string inet_addr) agent_ips = Some ips)
    (Hn : 1 ≤ num_tenants < 2147483647) (Hlen : Z.of_nat (length agent_ips) < 4294967296)
    (Hsys : ∀ i : nat, calls_ok (sys i)) :
  ∃ g d, deploy ip agent_ips num_tenants sys =
      (if bool_decide (NoDup ips) then
         Ok (g, d, mkMgr 1 a (Ports 5000 6000) (agents g) 4447
           (Server.Sock (Server.socket_fd (sys 0%nat).1) (Server.socket_fd (sys 0%nat).2) 2 0))
       else Fail (Exit 1)) ∧
    Agent.get_ip <$> agents g = ips ∧
    (∀ id m, managers g !! id = Some m ↔ 1 ≤ id ≤ num_tenants ∧
       m = mkMgr id a (Ports (u16 (4999 + id)) (u16 (5999 + id))) (agents g) (Manager.grpc_port id)
         (Server.Sock (Server.socket_fd (sys (Z.to_nat (id - 1))).1)
                      (Server.socket_fd (sys (Z.to_nat (id - 1))).2) 2 0)) ∧
    (∀ addr, AgentClient.agent <$> AgentClientDB.get_agent_client_by_ip addr d =
       if decide (addr ∈ ips) then Some (Agent.Agent_of addr) else None) ∧
    (∀ m, managers g !! 1 = Some m → Inv (start_world m d) ∧ drift (start_world m d) = 0).
Proof.
  pose proof (length_mapM _ _ _ Hips) as Hlen'.
  set (g0 := mkGcm a GCM_PORT (tenant_ports num_tenants) ∅ 1 (Agent.Agent_of <$> ips)).
  assert (Hg0 : GlobalControlManager_of ip GCM_PORT agent_ips (tenant_ports num_tenants) = Ok g0).
  { unfold GlobalControlManager_of. rewrite Hip, Hips, length_fmap, <-Hlen', Nat.eqb_refl. done. }
  destruct (create_all g0 sys) as (g & Hrun & (Hgip & Hag & Hcp & Hc & Hms));
    [done|done|simpl; rewrite tenant_ports_length; lia|auto|].
  simpl in Hag, Hms, Hgip, Hrun. exists g, (init_agent_connections g ∅).2.
  assert (Hips' : Agent.get_ip <$> agents g = ips)
    by (rewrite Hag, <-list_fmap_compose; apply list_fmap_id).
  assert (Hall : ∀ id m, managers g !! id = Some m ↔ 1 ≤ id ≤ num_tenants ∧
    m = mkMgr id a (Ports (u16 (4999 + id)) (u16 (5999 + id))) (agents g) (Manager.grpc_port id)
      (Server.Sock (Server.socket_fd (sys (Z.to_nat (id - 1))).1)
                   (Server.socket_fd (sys (Z.to_nat (id - 1))).2) 2 0)).
  { intros id m. rewrite Hms. setoid_rewrite tenant_ports_lookup. rewrite tenant_ports_length, Hag. split.
    - intros (i & p & Hi & [_ ->] & -> & ->). split; [lia|]. unfold nth_manager; simpl.
      replace (4999 + (Z.of_nat i + 1)) with (5000 + Z.of_nat i) by lia.
      replace (5999 + (Z.of_nat i + 1)) with (6000 + Z.of_nat i) by lia.
      by replace (Z.to_nat (Z.of_nat i + 1 - 1)) with i by lia.
    - intros [Hid ->]. exists (Z.to_nat (id - 1)). eexists. split; [lia|]. split; [split; [lia|done]|].
      split; [lia|]. unfold nth_manager; simpl. rewrite Z2Nat.id by lia.
      replace (5000 + (id - 1)) with (4999 + id) by lia. replace (6000 + (id - 1)) with (5999 + id) by lia.
      by replace (id - 1 + 1) with id by lia. }
  split_and!; [|done|exact Hall| |].
  - unfold deploy. rewrite Hg0, Hrun. simpl fst.
    pose proof (init_agent_connections_iff g) as Hiff. rewrite Hips' in Hiff.
    destruct (init_agent_connections g ∅) as [b d]; simpl in *.
    rewrite Hiff by (rewrite Hag, length_fmap; lia). case_bool_decide; simpl; [|done].
    unfold run. by rewrite (proj2 (Hall 1 _) (conj (conj (Z.le_refl 1) (proj1 Hn)) eq_refl)).
  - intros addr. unfold init_agent_connections. rewrite Hag.
    pose proof (connect_lookup ips 1 0 ∅ addr) as Hc'. rewrite lookup_empty in Hc'.
    by destruct (connect 1 0 (Agent.Agent_of <$> ips) ∅) as [c d'].
  - intros m _. split; [|done]. split_and!; try done. by split; [apply NoDup_nil_2|].
Qed.

(** C24: started with a definition file whose text is JSON with the five members
    and well-formed addresses, and with working system calls, the process
    creates exactly one manager per tenant of the file, numbered from 1, manager
    [i] with the TCP port 4999+i and the UDP port 5999+i reduced to 16 bits and
    both sockets initialised; it files one client per address the file lists,
    under that address and for the agent at it, and runs the first manager; it
    exits with code 1 instead exactly when two agents have the same address. The
    world the manager starts in satisfies the invariant of the handlers, with no
    drift. *)
Theorem startup {J : WebJson} (argc : Z) (content : option string) (garbage : Z * Z) (v : value)
    (name ip : string) (agent_ips : list string) (num_tenants num_containers : Z)
    (sys : nat → Server.sys_results * Server.sys_results) (a : ip4_addr) (ips : list ip4_addr)
    (Hargc : 2 ≤ argc) (Hparse : parse (default "" content) = Some v) (Hnull : is_null v = false)
    (Hdef : JSONFacade.definition_of v = Some (name, agent_ips, ip, num_tenants, num_containers))
    (Hip : ip4_addr.from_string inet_addr ip = Some a)
    (Hips : mapM (ip4_addr.from_string inet_addr) agent_ips = Some ips)
    (Hn : 1 ≤ num_tenants < 2147483647) (Hlen : Z.of_nat (length agent_ips) < 4294967296)
    (Hsys : ∀ i : nat, calls_ok (sys i)) :
  ∃ g d, main argc content garbage sys =
      (if bool_decide (NoDup ips) then
         Ok (g, d, mkMgr 1 a (Ports 5000 6000) (agents g) 4447
           (Server.Sock (Server.socket_fd (sys 0%nat).1) (Server.socket_fd (sys 0%nat).2) 2 0))
       else Fail (Exit 1)) ∧
    Agent.get_ip <$> agents g = ips ∧
    (∀ id m, managers g !! id = Some m ↔ 1 ≤ id ≤ num_tenants ∧
       m = mkMgr id a (Ports (u16 (4999 + id)) (u16 (5999 + id))) (agents g) (Manager.grpc_port id)
         (Server.Sock (Server.socket_fd (sys (Z.to_nat (id - 1))).1)
                      (Server.socket_fd (sys (Z.to_nat (id - 1))).2) 2 0)) ∧
    (∀ addr, AgentClient.agent <$> AgentClientDB.get_agent_client_by_ip addr d =
       if decide (addr ∈ ips) then Some (Agent.Agent_of addr) else None) ∧
    (∀ m, managers g !! 1 = Some m → Inv (start_world m d) ∧ drift (start_world m d) = 0).
Proof.
  destruct (JSONFacade.run_parseFile content (JSONFacade.json_of garbage.1 garbage.2 ∅)) as (r & j & Hrun & _ & Hread).
  unfold JSONFacade.file_read in Hread. rewrite Hparse, Hnull, Hdef in Hread. destruct Hread as [-> ->].
  unfold main. destruct (Z.ltb_spec argc 2); [lia|]. rewrite Hrun. by apply run_deploy.
Qed.

(** The TCP ports the process listens on for tenants [0 .. n-1]: the servers'
    and the deployment services'. *)
Definition listening (num_tenants : Z) : list Z :=
  (tcp <$> tenant_ports num_tenants) ++
  ((λ i : nat, Manager.grpc_port (Z.of_nat i + 1)) <$> seq 0 (Z.to_nat num_tenants)).

(** Up to 553 tenants no two services of the process share a TCP port,
    and no two a UDP port; with one more tenant the deployment service of the
    last manager has the port of the first manager's server. *)
Theorem ports_distinct (num_tenants : Z) (Hn : 0 ≤ num_tenants ≤ 59536) :
  NoDup (udp <$> tenant_ports num_tenants) ∧ (NoDup (listening num_tenants) ↔ num_tenants ≤ 553).
Proof.
  assert (Hmap : ∀ f : nat → Z, (∀ i j, (i < Z.to_nat num_tenants)%nat → (j < Z.to_nat num_tenants)%nat →
    f i = f j → i = j) → NoDup (f <$> seq 0 (Z.to_nat num_tenants))).
  { intros f Hf. apply NoDup_fmap_2_strong; [|apply NoDup_seq].
    intros i j Hi%elem_of_seq Hj%elem_of_seq. apply Hf; lia. }
  unfold listening, tenant_ports. rewrite <-!list_fmap_compose. split.
  { apply Hmap. intros i j ? ?; simpl. unfold BASE_UDP_PORT. wrap_lia. }
  rewrite NoDup_app. split.
  - intros (_ & Hd & _). apply Z.nlt_ge. intros Hlt. apply (Hd 5000).
    + apply list_elem_of_fmap. exists 0%nat. split; [done|]. apply elem_of_seq. lia.
    + apply list_elem_of_fmap. exists 553%nat. split; [by vm_compute|]. apply elem_of_seq. lia.
  - intros Hle. split_and!.
    + apply Hmap. intros i j ? ?; simpl. unfold BASE_TCP_PORT. wrap_lia.
    + intros x (i & -> & Hi%elem_of_seq)%list_elem_of_fmap (j & Hj & Hj'%elem_of_seq)%list_elem_of_fmap.
      unfold compose, Manager.grpc_port, BASE_GRPC_PORT, BASE_TCP_PORT in Hj. simpl in Hj. wrap_lia.
    + apply Hmap. intros i j ? ?; simpl. unfold Manager.grpc_port, BASE_GRPC_PORT. wrap_lia.
Qed.

(** A controller made for plain ports cannot create its first manager: the ports
    are looked up in the empty list. *)
Theorem plain_ports_unused ip_addr port ips ports g kept r :
  GlobalControlManager_of_ports ip_addr port ips ports = Ok (g, kept) → (create_manager r g).1 = Fail Undef.
Proof.
  unfold GlobalControlManager_of_ports, GlobalControlManager_of.
  destruct (ip4_addr.from_string _ _) as [ip|]; [|done]. destruct (mapM _ _) as [l|]; [|done].
  destruct (negb _); [done|]. by intros [= <- <-].
Qed.

End Startup.

(** ** Instances *)
Definition good_calls : Server.sys_results * Server.sys_results := (Server.SysR 3 0 0 0, Server.SysR 4 0 0 0).
Definition some_addr (s : string) : Z := Z.of_nat (String.length s).
(** Two agents and two tenants. *)
Import JsonText (JArr, JNum, JObj, JStr, chars, text_json).
Definition definition2 : JsonText.json :=
  JObj [(chars "name", JStr (chars "app"));
    (chars "agentIPs", JArr [JStr (chars "10.0.0.2"); JStr (chars "10.0.0.33")]);
    (chars "gcmIP", JStr (chars "10.0.0.1")); (chars "tenants", JNum 2); (chars "num_containers", JNum 3)].
Lemma startup_witness :
  ∃ g d, main (J := text_json) some_addr 2 (Some (JsonText.text definition2)) (0, 0) (λ _, good_calls) =
    Ok (g, d, mkMgr 1 (Ip4 8) (Ports 5000 6000) (agents g) 4447 (Server.Sock 3 4 2 0)).
Proof.
  destruct (startup (J := text_json) some_addr 2 (Some (JsonText.text definition2)) (0, 0) definition2
    "app" "10.0.0.1" ["10.0.0.2"; "10.0.0.33"] 2 3 (λ _, good_calls) (Ip4 8) [Ip4 8; Ip4 9])
    as (g & d & H & _); [lia|apply JsonText.parse_text_print|reflexivity|by vm_compute|reflexivity|reflexivity|lia|simpl; lia| |].
  - intros _. unfold calls_ok; simpl. lia.
  - exists g, d. exact H.
Defined.
Lemma ports_distinct_witness : NoDup (listening 3).
Proof. destruct (ports_distinct 3) as [_ H]; [lia|]. apply H. lia. Defined.

End Gcm.
