(* ===== verification/Teardown.v ===== *)
(** * The end of the process ([src/main.cpp], 83-86; the destructors)

    What would happen if the threads a manager waits for ended: the local thread
    objects of [Manager::start] are destroyed, then [main] deletes the global
    control manager, which deletes the agents and the managers; a manager deletes
    its elastic container ([~ECAPI]), which deletes the queues of its table
    ([~ElasticContainer]). [_ec] is not initialised by the constructors: it is a
    pointer only in a manager that was started. *)
From S2P Require Import Prelude OmNet Float64 Window LocalStats SubContainer Agents CpuG MemG.
From S2P Require Import ElasticContainer World Types ECAPI Demo ManagerCpu ManagerMem Manager Server Gcm.
Import SubContainer ElasticContainer.

Module Teardown.

(** ** The elastic container of a manager *)
Inductive ec_ptr := Uninit | Null | At (w : World).
(** [ECAPI()] and [ECAPI(int)]; then [create_ec]. *)
Definition ECAPI_of : ec_ptr := Uninit.
Definition create_ec (ecapi_id : Z) (d : AgentClientDB.db) (_ec : ec_ptr) : ec_ptr :=
  At (mkWorld (ElasticContainer_of ecapi_id) ∅ d 0 0 []).
Definition get_elastic_container (_ec : ec_ptr) : outcome ElasticContainer :=
  match _ec with Uninit => Fail Undef | Null => Fail (Exit 1) | At w => Ok (w_ec w) end.

(** [~ElasticContainer]: the queues go, the containers in them stay on the heap. *)
Definition destroy_ec (w : World) : World := upd_ec (with_subcontainers ∅ (w_ec w)) w.
(** [~ECAPI]: deleting a null pointer does nothing. *)
Definition destroy_ecapi (_ec : ec_ptr) : outcome (option World) :=
  match _ec with Uninit => Fail Undef | Null => Ok None | At w => Ok (Some (destroy_ec w)) end.

(** ** The global control manager *)

(** The managers with their [_ec]; the addresses of the agent objects. *)
Record objects := Objs { o_agents : gset positive; o_managers : gmap Z ec_ptr }.
(** What [main] has made when [run] returns: only manager 1 was started. *)
Definition objects_of (g : Gcm.GlobalControlManager) (addrs : list positive) (w : World) : objects :=
  Objs (list_to_set addrs) (map_imap (λ id _, Some (if id =? 1 then At w else Uninit)) (Gcm.managers g)).

(** [~GlobalControlManager]; the containers that remain on the heap. *)
Definition destroy_managers (ms : list (Z * ec_ptr)) : outcome (list loc) :=
  foldr (λ '(_, p) acc,
    match destroy_ecapi p, acc with
    | Fail f, _ => Fail f
    | _, Fail f => Fail f
    | Ok None, Ok ls => Ok ls
    | Ok (Some w), Ok ls => Ok ((map_to_list (w_heap w)).*1 ++ ls)
    end) (Ok []) ms.
Definition destroy_gcm (order : list (Z * ec_ptr)) (o : objects) : outcome (list loc * objects) :=
  match destroy_managers order with
  | Fail f => Fail f
  | Ok leaked => Ok (leaked, Objs ∅ ∅)
  end.

(** ** Threads *)

(** [join_grpc_threads]: [ended] says which completion threads have ended. *)
Definition join_grpc_threads {A} (ended : AgentClient.AgentClient → bool) (db_map : list (A * AgentClient.AgentClient)) :
    outcome unit :=
  if forallb (λ '(_, client), ended client) db_map then Ok tt else Fail Blocked.

(** The thread objects of [Manager::start], and whether they are still joinable
    when the four joins have returned; destroying one that is calls
    [std::terminate], as an exception that nobody catches does. *)
Inductive local_thread := event_handler_tcp | event_handler_udp | grpc_handler | idle_pod_handler | application.
Definition joined (t : local_thread) : bool := match t with idle_pod_handler => false | _ => true end.
Definition leave_start : outcome unit :=
  if forallb joined [application; idle_pod_handler; grpc_handler; event_handler_udp; event_handler_tcp]
  then Ok tt else Fail Throw.
(** The rest of [main] once the threads of manager 1 have ended. *)
Definition finish_main (order : list (Z * ec_ptr)) (o : objects) : outcome (Z * list loc) :=
  match leave_start with
  | Fail f => Fail f
  | Ok _ => match destroy_gcm order o with Ok (leaked, _) => Ok (0, leaked) | Fail f => Fail f end
  end.

(** ** Claims *)

Lemma destroy_uninit ms id : (id, Uninit) ∈ ms → destroy_managers ms = Fail Undef.
Proof.
  induction ms as [|[id' p] ms IH]; [by intros ?%elem_of_nil|]. intros [[= -> <-]|Hin]%elem_of_cons; [done|].
  simpl. rewrite (IH Hin). by destruct p.
Qed.
Lemma managers_lookup g addrs w id :
  o_managers (objects_of g addrs w) !! id = (λ _, if id =? 1 then At w else Uninit) <$> Gcm.managers g !! id.
Proof. simpl. rewrite map_lookup_imap. by destruct (Gcm.managers g !! id). Qed.

(** Deleting the global control manager of more than one tenant deletes an
    uninitialised pointer; with one tenant it returns, and every container that
    was ever registered stays allocated. *)
Theorem destroying_gcm (g : Gcm.GlobalControlManager) (addrs : list positive) (w : World) (order : list (Z * ec_ptr))
    (Horder : order ≡ₚ map_to_list (o_managers (objects_of g addrs w))) (H1 : is_Some (Gcm.managers g !! 1)) :
  destroy_gcm order (objects_of g addrs w) =
  if bool_decide (dom (Gcm.managers g) = {[1]}) then Ok ((map_to_list (w_heap w)).*1, Objs ∅ ∅) else Fail Undef.
Proof.
  unfold destroy_gcm. case_bool_decide as Hdom.
  - assert (Hm : o_managers (objects_of g addrs w) = {[1 := At w]}).
    { apply map_eq. intros id. rewrite managers_lookup. destruct (decide (id = 1)) as [->|Hne].
      - destruct H1 as [m ->]. by rewrite lookup_singleton_eq.
      - rewrite lookup_singleton_ne by done. rewrite (proj1 (not_elem_of_dom _ _)); [done|]. rewrite Hdom. set_solver. }
    rewrite Hm, map_to_list_singleton in Horder. apply Permutation_singleton_r in Horder as ->. simpl. by rewrite app_nil_r.
  - assert (∃ id, id ≠ 1 ∧ is_Some (Gcm.managers g !! id)) as (id & Hne & Hid).
    { destruct (set_choose_or_empty (dom (Gcm.managers g) ∖ {[1]})) as [[id Hid]|Hnone].
      - exists id. split; [set_solver|]. apply elem_of_dom. set_solver.
      - destruct Hdom. apply elem_of_dom in H1. apply set_eq. intros x. clear - Hnone H1. rewrite elem_of_equiv_empty in Hnone.
        specialize (Hnone x). rewrite elem_of_difference, elem_of_singleton in Hnone. rewrite elem_of_singleton.
        destruct (decide (x = 1)) as [->|]; [done|]. tauto. }
    rewrite (destroy_uninit order id); [done|]. rewrite Horder. apply elem_of_map_to_list. rewrite managers_lookup.
    destruct Hid as [m ->]. simpl. by rewrite (proj2 (Z.eqb_neq _ _)).
Qed.

(** The process does not get that far: the thread of the idle pass is not joined. *)
Theorem main_never_returns (order : list (Z * ec_ptr)) (o : objects) : finish_main order o = Fail Throw.
Proof. done. Qed.

End Teardown.
