(* ===== verification/Drivers.v ===== *)
(** * The manual drivers ([src/tests/])

    Small clients of the controller: [run_test] and [run_continuous] send one
    message over TCP and print the answer, [grpc_test] reports a pod and
    [grpc_test_async] sends four quota updates to an agent. Each is composed with
    the side of the controller (or with gRPC's completion queue) it talks to.
    [test_deployment.cpp] is not part of the build and does not compile. *)
From stdpp Require Import pretty.
From S2P Require Import Prelude OmNet Float64 Window LocalStats SubContainer Agents AgentAsync CpuG MemG.
From S2P Require Import ElasticContainer World Types ECAPI Demo ManagerCpu ManagerMem Manager Server Deploy Gcm.
Import SubContainer ElasticContainer ECAPI.

Module Drivers.

(** ** One message over TCP *)

(** What the system calls return: [socket], [inet_pton], [connect]. *)
Record client_sys := ClientSys { socket_rc : Z; pton_rc : Z; connect_rc : Z }.
Definition driver_port : Z := 4444.

(** The body of both programs: the lines printed and how [main] ends. [answer] is
    what the first [read] delivers, nothing if the peer closes the connection;
    [None] if the peer neither answers nor closes. *)
Definition talk (msg_req : msg_t) (sys : client_sys) (answer : option (list Z)) : list string * outcome Z :=
  let hello := ("msg_req: " +:+ msg_print msg_req)%string in
  if socket_rc sys <? 0 then ([hello; "Socket creation error"], Ok (-1)) else
  if pton_rc sys <=? 0 then ([hello; "Invalid address/ Address not supported"], Ok (-1)) else
  if connect_rc sys <? 0 then ([hello; "Connection Failed"], Ok (-1)) else
  match answer with
  | None => ([hello], Fail Blocked)
  | Some bytes =>
      let msg_res := msg_of_bytes (Server.overlay bytes (replicate HANDLE_REQ_BUFF 0)) in
      ([hello; msg_print msg_res], Ok 0)
  end.

(** The bytes sent: the object is zeroed when it is made, padding included. *)
Definition sent (msg_req : msg_t) : list Z := msg_to_bytes 0 0 msg_req.
(** [from_string("127.0.0.1")], by the documented result of [inet_addr]. *)
Definition loopback : ip4_addr := Ip4 0x0100007f.
Definition run_test_req : msg_t := Msg loopback 23 0 10000000 2 14 0 0.
Definition run_continuous_req : msg_t := Msg loopback 23 2 10000000 1 0 0 0.
Definition run_test : client_sys → option (list Z) → list string * outcome Z := talk run_test_req.
Definition run_continuous : client_sys → option (list Z) → list string * outcome Z := talk run_continuous_req.

Section Controller.
Context {ENV : Env} {ORDER : HashOrder}.

(** The controller serves the connection of a client that sends [m] and waits. *)
Definition serves (ip fd now garbage : Z) (m : msg_t) : M World (list msg_t) :=
  Server.handle_client_reqs_tcp ip fd [Server.In now (sent m) garbage true].
(** The request as the handler sees it, and the reply before it is filled in. *)
Definition arrived (ip : Z) (m : msg_t) : msg_t := set_ip_from_net ip m.

Lemma arrived_wf ip m : msg_wf m → is_u32 ip → msg_wf (arrived ip m).
Proof. intros (?&?&?&?&?&?&?&?) ?. by split_and!. Qed.
Lemma sent_read ip m : msg_wf m → is_u32 ip →
  msg_of_bytes (Server.poke_ip ip (Server.overlay (sent m) (replicate HANDLE_REQ_BUFF 0))) = arrived ip m.
Proof.
  intros Hm Hip. destruct (msg_bytes 0 0 m Hm) as [_ Hlen]. unfold Server.poke_ip, Server.overlay, sent.
  rewrite Hlen, (drop_ge (replicate _ _)), app_nil_r by done. rewrite length_le_store.
  unfold msg_to_bytes at 1. rewrite drop_app_length' by (by rewrite length_le_store).
  by destruct (msg_bytes 0 0 (arrived ip m) (arrived_wf _ _ Hm Hip)) as [H _].
Qed.
Lemma serves_step ip fd now garbage m w : msg_wf m → is_u32 ip →
  serves ip fd now garbage m w =
  match Manager.handle_req now (arrived ip m) (msg_copy garbage (arrived ip m)) ip fd w with
  | (Ok (ret, res, _), w') => (Ok (if Server.tcp_writes (u64 ret) res then [res] else []), w')
  | (Fail f, w') => (Fail f, w')
  end.
Proof.
  intros Hm Hip. unfold serves, Server.handle_client_reqs_tcp. simpl. unfold Server.tcp_step. simpl Server.in_bytes.
  rewrite sent_read by done. unfold mbind, M_bind. simpl.
  destruct (Manager.handle_req _ _ _ _ _ w) as [[[[ret res] x]|f] w']; [|done].
  by destruct (Server.tcp_writes (u64 ret) res).
Qed.

(** The reply a client prints. *)
Lemma talk_prints req sys p1 p2 r : msg_wf r → 0 ≤ socket_rc sys → 0 < pton_rc sys → 0 ≤ connect_rc sys →
  talk req sys (Some (msg_to_bytes p1 p2 r)) = ([("msg_req: " +:+ msg_print req)%string; msg_print r], Ok 0).
Proof.
  intros Hr ? ? ?. unfold talk. rewrite !(proj2 (Z.ltb_ge _ _)), (proj2 (Z.leb_gt _ _)) by done.
  destruct (msg_bytes p1 p2 r Hr) as [Hb Hlen]. unfold Server.overlay.
  by rewrite Hlen, (drop_ge (replicate _ _)), app_nil_r, Hb by done.
Qed.

(** C11: a client that registers over a new connection from a node with an agent,
    with system calls that succeed, where no null client is filed for its id and
    a quota call to its client is read in time, gets exactly one answer and
    prints it: its own message with the address it connected from and the request
    counter one higher. The container is then the newest of its id with the quota
    the pool could give, it is served by that client, and the books stay right. *)
Theorem client_registers (ip fd now garbage p1 p2 : Z) (m : msg_t) (sys : client_sys) (w : World)
    (ac ac' : AgentClient.AgentClient)
    (HI : Inv w) (Hf : fits (pool w)) (Hm : msg_wf m) (Hty : req_type m = REQ_INIT) (Hip : is_u32 ip) (Hg : is_i64 garbage)
    (Hac : AgentClientDB.get_agent_client_by_ip (ip4_addr.from_net ip) (w_acdb w) = Some ac)
    (Hcl : Manager.client_of (Manager.new_id m ip) ac w = Some ac') (Ht : timely (AgentClient.get_agent_ip ac'))
    (Hsys : 0 ≤ socket_rc sys ∧ 0 < pton_rc sys ∧ 0 ≤ connect_rc sys) :
  ∃ r w' s, serves ip fd now garbage m w = (Ok [r], w') ∧
    talk m sys (Some (msg_to_bytes p1 p2 r)) =
      ([("msg_req: " +:+ msg_print m)%string;
        msg_print (with_request (u32 (request m + 1)) (set_ip_from_net ip m))], Ok 0) ∧
    Inv w' ∧ drift w' = drift w ∧
    get_sc_for_update_back (Manager.new_id m ip) (w_ec w') = Ok (fresh_sc w) ∧
    w_heap w' !! fresh_sc w = Some s ∧ get_quota s = granted (pool w) (rsrc_amnt m) ∧
    served w' s ac'.
Proof.
  set (req := arrived ip m). pose proof (arrived_wf ip m Hm Hip) as Hreq. fold req in Hreq.
  set (res := msg_copy garbage req).
  destruct (Manager.enrolled_fields now req ip fd w ac ac') as (_ & Hnew & _ & Hsv); [done..|].
  destruct (Manager.enrolled_inv now req ip fd w ac ac') as [HI2 Hd2]; [done..|].
  pose proof (Manager.wp_add_cgroup now req res ip fd w ac ac' HI Hf Hreq Hac Hcl Ht) as Hwp. cbv zeta in Hwp.
  set (w2 := Manager.enrolled now req ip fd ac w) in *.
  apply wp_never_inv in Hwp as (a & w' & Hrun & -> & Hw').
  set (r := with_request (u32 (request res + 1)) res) in *. exists r, w', (set_sc_inserted true (Manager.new_sc_of now req ip fd w)).
  assert (Hsame : Inv w' ∧ drift w' = drift w2 ∧ w_ec w' = w_ec w2 ∧ w_heap w' = w_heap w2)
    by (rewrite Hw'; by destruct (_ <=? _)).
  destruct Hsame as (HI' & Hd' & Hec & ->). unfold served. rewrite Hec.
  split_and!; [| |done|congruence|exact Hnew|apply upd_sc_lookup|done|apply Hsv..].
  - rewrite serves_step by done. fold req res. unfold Manager.handle_req.
    change (req_type req) with (req_type m). rewrite Hty. simpl. unfold mbind, M_bind. by rewrite Hrun.
  - destruct Hsys as (? & ? & ?). assert (Hr : msg_wf r).
    { destruct Hreq as (?&?&?&?&?&?&?&?). split_and!; try done. apply u32_is_u32. }
    rewrite talk_prints by done. done.
Qed.

(** A usage report of a container the controller does not know ends the
    controller, and one of a container it knows is never answered: the program
    that sends it waits for ever. *)
Theorem client_report_unanswered (ip fd now garbage : Z) (m : msg_t) (sys : client_sys) (w : World)
    (Hm : msg_wf m) (Hty : req_type m = REQ_CPU) (Hip : is_u32 ip) :
  (subcontainers (w_ec w) !! key_of (Manager.new_id m ip) = None → serves ip fd now garbage m w = (Fail (Exit 1), w)) ∧
  match serves ip fd now garbage m w with (Ok rs, _) => rs = [] | _ => True end.
Proof.
  rewrite serves_step by done. assert (Ht : req_type (arrived ip m) = REQ_CPU) by done. split.
  - intros Hnone. unfold Manager.handle_req. rewrite Ht. simpl. unfold mbind, M_bind.
    by rewrite Server.report_unknown.
  - pose proof (Server.replies_by_type now (arrived ip m) (msg_copy garbage (arrived ip m)) ip fd w) as Hr.
    destruct (Manager.handle_req _ _ _ _ _ w) as [[[[ret res] x]|f] w']; [|done].
    destruct Hr as [-> _]. rewrite bool_decide_false; [done|]. rewrite Ht. by intros [|].
Qed.

End Controller.

(** Nobody listens where the two programs connect to, unless there are so many
    tenants that port numbers wrap around. *)
Theorem driver_port_unserved (num_tenants : Z) (p : ports_t) (Hn : num_tenants ≤ 60000)
    (Hp : p ∈ Gcm.tenant_ports num_tenants) : tcp p ≠ driver_port.
Proof.
  unfold Gcm.tenant_ports in Hp. apply list_elem_of_fmap in Hp as (i & -> & Hi%elem_of_seq).
  unfold driver_port, BASE_TCP_PORT. simpl tcp. wrap_lia.
Qed.

(** ** Reporting a pod *)

(** What the stub returns: the reply, or the error of the status. *)
Inductive rpc_result := Replied (r : Deploy.PodSpecReply) | RpcError (message : string) (code : Z) (details : string).
Definition grpc_test_req : Deploy.ExportPodSpec := Deploy.PodSpec "this-be-docker-id" 123 "123.123.12.1".
Definition grpc_test (status : rpc_result) : list string :=
  match status with
  | Replied rxMsg =>
      [("rx msg: " +:+ Deploy.pr_docker_id rxMsg +:+ ", " +:+ pretty (Deploy.pr_cgroup_id rxMsg) +:+ ", " +:+
        Deploy.pr_node_ip rxMsg +:+ ", " +:+ Deploy.pr_thanks rxMsg)%string]
  | RpcError message code details =>
      [("status: " +:+ message)%string; ("error code: " +:+ pretty code)%string; ("details: " +:+ details)%string]
  end.

(** A pod whose container has not registered is filed, and the call then waits
    for the registration: the program that reports it is not answered. *)
Theorem report_before_registration (inet_addr : string → Z) (pod : Deploy.ExportPodSpec) (d : Deploy.Service) (c : ContainerId)
    (Hid : Deploy.pod_id inet_addr pod = Some c)
    (Hnew : Deploy.dockerToSubContainer d !! Deploy.pod_docker_id pod = None)
    (Hag : sc_ac_map (w_ec (Deploy.d_w d)) !! key_of c = None) :
  ∃ d', Deploy.ReportPodSpec inet_addr pod d = (Fail Blocked, d') ∧
    Deploy.getScIdFromDockerId (Deploy.pod_docker_id pod) d' = c ∧ Deploy.d_w d' = Deploy.d_w d.
Proof.
  assert (Hpp : Deploy.d_w (Deploy.push_pod c (Deploy.pod_docker_id pod) d) = Deploy.d_w d ∧
    Deploy.dockerToSubContainer (Deploy.push_pod c (Deploy.pod_docker_id pod) d) = Deploy.dockerToSubContainer d)
    by (unfold Deploy.push_pod; by destruct (Deploy.deployedPods d !! _) as [[? ?]|]).
  destruct Hpp as [Hpw Hpd]. unfold Deploy.ReportPodSpec, Deploy.insertPodSpec, Deploy.get_pod_id. rewrite Hid.
  unfold mbind, M_bind, mret, M_ret, modify, gets. rewrite Hpd, Hnew. simpl.
  unfold Deploy.on_w, Deploy.scIdToDockerIdMatcherThread, mbind, M_bind, ec_get, gets. simpl. rewrite Hpw, Hag. simpl.
  eexists. split; [done|]. split; [|done]. unfold Deploy.getScIdFromDockerId. simpl. by rewrite lookup_insert_eq.
Qed.

(** ** Four quota updates *)

Import AgentAsync.
(** [AsyncCompleteRpc]: what the completion thread prints for a call. *)
Definition greeter_log (call : Call ContainerQuotaReply) : list line :=
  let r := reply call in [Printed (p_cgroupId r) (p_updateQuota r) (p_errorCode r) (p_sequenceNum r)].
Definition AsyncCompleteRpc : M (State ContainerQuotaReply) unit := reap greeter_log.
Definition shown (l : line) : string :=
  match l with
  | Printed cg q err seq =>
      ("rx msg: " +:+ pretty cg +:+ ", " +:+ pretty q +:+ ", " +:+ pretty err +:+ ", " +:+ pretty seq)%string
  | _ => "RPC failed"
  end.
(** [updateContainerQuota(123, 100000001, "incr", 4)] starts a call and does not
    look at it again. *)
Definition updateContainerQuota (seq_num : Z) : State ContainerQuotaReply → State ContainerQuotaReply :=
  start_call empty_quota (i32 seq_num).
(** The loop of [main] has [n] calls to make; gRPC and the completion thread work
    at the same time. After the loop [main] joins the thread, which ends when the
    queue has been shut down. *)
Inductive greeter_step : nat * State ContainerQuotaReply → nat * State ContainerQuotaReply → Prop :=
| greeter_call n st : greeter_step (S n, st) (n, updateContainerQuota 4 st)
| greeter_finish n t rep code st : t ∈ inflight st → greeter_step (n, st) (n, finish_call t rep code st)
| greeter_reap n st st' : AsyncCompleteRpc st = (Ok tt, st') → greeter_step (n, st) (n, st').
Definition greeter_runs : nat * State ContainerQuotaReply → Prop := rtc greeter_step (4%nat, initial).

Lemma greeter_reachable x : greeter_runs x → reachable empty_quota greeter_log x.2 ∧ Z.of_nat x.1 + Z.pos (next x.2) = 5.
Proof.
  unfold greeter_runs. revert x. apply rtc_ind_r; [split; [apply rtc_refl|done]|].
  intros x y _ Hstep [IH Hn]. destruct Hstep as [n st|n t rep code st Ht|n st st' Hr]; simpl in *.
  - split; [eapply rtc_r; [exact IH|apply step_start]|lia].
  - split; [eapply rtc_r; [exact IH|by apply step_finish]|done].
  - split; [eapply rtc_r; [exact IH|by apply step_reap]|]. unfold AsyncCompleteRpc, reap in Hr.
    destruct (cq st); [done|]. destruct (live st !! _); [|done]. by injection Hr as <-.
Qed.
(** The completion thread never touches a deleted call, every call that has come
    back is deleted once, and when all four have, the thread waits for a fifth:
    the program does not end. *)
Theorem greeter_never_ends (n : nat) (st : State ContainerQuotaReply) (H : greeter_runs (n, st)) :
  (cq st ≠ [] → ∃ st', AsyncCompleteRpc st = (Ok tt, st')) ∧
  (n = 0%nat → inflight st = ∅ → cq st = [] → live st = ∅ ∧ freed st = 4 ∧ AsyncCompleteRpc st = (Fail Blocked, st)).
Proof.
  destruct (greeter_reachable _ H) as [Hr Hn]. simpl in *. destruct (reachable_inv _ _ _ Hr) as [HI _]. split.
  - intros Hne. destruct (reap_spec empty_quota greeter_log st HI Hne) as (t & q & c & _ & _ & Hst). by eexists.
  - intros -> Hi Hq. pose proof HI as (Hdom & _ & _ & _ & _ & _ & Hcount & _).
    assert (Hl : live st = ∅) by (apply dom_empty_inv_L; rewrite Hdom, Hi, Hq; set_solver).
    rewrite Hl in Hcount. split_and!; [done|rewrite map_size_empty in Hcount; lia|]. unfold AsyncCompleteRpc, reap. by rewrite Hq.
Qed.

(** ** Instances *)

(** A controller with an agent on the node of the driver, two cores free. *)
Definition local_agent : AgentClient.AgentClient := AgentClient.mkAgentClient 2 (Agent.Agent_of loopback).
Definition local : World :=
  mkWorld (w_ec Manager.w0) (w_heap Manager.w0) {[ loopback := local_agent ]} 5 0 [].
Lemma client_registers_witness :
  ∃ r w', serves (ENV := Demo.willing) (ORDER := Demo.listed) 0x0100007f 4 2000000000 0 run_continuous_req local = (Ok [r], w') ∧
    run_continuous (ClientSys 3 1 0) (Some (msg_to_bytes 0 0 r)) =
      (["msg_req: msg_t: 127.0.0.1,23,2,10000000,1,0,0"; "msg_t: 127.0.0.1,23,2,10000000,2,0,0"], Ok 0).
Proof.
  destruct (client_registers (ENV := Demo.willing) (ORDER := Demo.listed) 0x0100007f 4 2000000000 0 0 0 run_continuous_req
    (ClientSys 3 1 0) local local_agent local_agent) as (r & w' & s & H1 & H2 & _).
  - apply (Demo.world_inv 200000000); Manager.concrete.
  - by vm_compute.
  - unfold msg_wf; simpl; split_and!; wrap_lia.
  - done.
  - wrap_lia.
  - wrap_lia.
  - done.
  - by vm_compute.
  - intros tr rq. by exists 0.
  - simpl. lia.
  - exists r, w'. split; [exact H1|exact H2].
Defined.

End Drivers.
