(* ===== verification/System.v ===== *)
(** * The system: sequences of requests

    Two theorems about whole runs. First, whatever the agents and cAdvisor
    answer, the operations on memory and the reports of pods leave the CPU side
    alone: quotas, windows, the runtime pool, the container table. Second, the
    invariant of the handlers holds in every state that is reached from start-up
    by requests in any order, and the drift is bounded by the number of usage
    reports. *)
From S2P Require Import Prelude OmNet Float64 Window LocalStats SubContainer Agents CpuG MemG.
From S2P Require Import ElasticContainer World Types ECAPI Demo ManagerCpu CpuTheorems ManagerMem Manager.
From S2P Require Import Deploy.
Import SubContainer ElasticContainer ECAPI ManagerCpu ManagerMem.

(** ** Computations that keep a relation

    [keeps R m]: from every state, however [m] ends, the state before and the
    state after are related. For a preorder the rule for sequences is plain. *)
Definition keeps {S A} (R : S → S → Prop) (m : M S A) : Prop := ∀ s, R s (m s).2.

Section Keeps.
Context {S : Type} (R : S → S → Prop) `{!PreOrder R}.

Lemma keeps_ret {A} (a : A) : keeps R (mret a : M S A).
Proof. intros s. reflexivity. Qed.
Lemma keeps_gets {A} (f : S → A) : keeps R (gets f).
Proof. intros s. reflexivity. Qed.
Lemma keeps_stop {A} f : keeps R (stop f : M S A).
Proof. intros s. reflexivity. Qed.
Lemma keeps_modify f : (∀ s, R s (f s)) → keeps R (modify f).
Proof. intros H s. apply H. Qed.
Lemma keeps_bind {A B} (m : M S A) (k : A → M S B) : keeps R m → (∀ a, keeps R (k a)) → keeps R (m ≫= k).
Proof.
  intros Hm Hk s. specialize (Hm s). unfold mbind, M_bind. destruct (m s) as [[a|f] s']; [|done].
  etransitivity; [exact Hm|]. apply Hk.
Qed.
Lemma keeps_when b m : keeps R m → keeps R (when b m).
Proof. intros H. unfold when. destruct b; [done|]. apply keeps_ret. Qed.
Lemma keeps_mfold {A B} (f : B → A → M S B) b l : (∀ b a, keeps R (f b a)) → keeps R (mfold f b l).
Proof.
  intros Hf. revert b. induction l as [|a l IH]; intros b; simpl; [apply keeps_ret|].
  apply keeps_bind; [apply Hf|done].
Qed.
End Keeps.

Create HintDb keeps.
#[export] Hint Resolve keeps_ret keeps_gets keeps_stop keeps_when keeps_mfold : keeps.

Module System.

(** ** What the memory side leaves alone *)

(** What the CPU side sees of a container. *)
Definition view (s : SubContainer) : key * cpu_l.cpu * bool := (key_of (c_id s), cpu s, inserted s).

Record cpu_untouched (w w' : World) : Prop := {
  cu_subcontainers : subcontainers (w_ec w') = subcontainers (w_ec w);
  cu_pool : pool w' = pool w;
  cu_share : fair_cpu_share (w_ec w') = fair_cpu_share (w_ec w);
  cu_acdb : w_acdb w' = w_acdb w;
  cu_seq : syscall_sequence_number w' = syscall_sequence_number w;
  cu_leak : cpuleak w' = cpuleak w;
  cu_wf : wf (w_ec w) → wf (w_ec w');
  cu_view : view <$> w_heap w' = view <$> w_heap w;
}.
#[global] Instance cpu_untouched_preorder : PreOrder cpu_untouched.
Proof.
  split; [by constructor|]. intros w1 w2 w3 [] []. constructor; try congruence. auto.
Qed.

Lemma cu_lookup w w' p s' :
  cpu_untouched w w' → w_heap w' !! p = Some s' → ∃ s, w_heap w !! p = Some s ∧ view s' = view s.
Proof.
  intros [] Hs. assert (E : (view <$> w_heap w') !! p = Some (view s')) by (by rewrite lookup_fmap, Hs).
  rewrite cu_view0, lookup_fmap in E. destruct (w_heap w !! p) as [s|]; [|done]. exists s. simpl in E. split; congruence.
Qed.
Lemma cu_quota w w' p : cpu_untouched w w' → quota_at (w_heap w') p = quota_at (w_heap w) p.
Proof.
  intros []. unfold quota_at, get_quota. assert (E : (view <$> w_heap w') !! p = (view <$> w_heap w) !! p) by congruence.
  rewrite !lookup_fmap in E. destruct (w_heap w' !! p) as [s'|], (w_heap w !! p) as [s|]; try done.
  simpl in E. assert (cpu s' = cpu s) as -> by (unfold view in E; congruence). done.
Qed.

(** The invariant and the drift only depend on the CPU side. *)
Lemma cu_inv w w' : cpu_untouched w w' → Inv w → Inv w' ∧ drift w' = drift w.
Proof.
  intros Hu (Hwf & [Hnd Hok] & Hb). pose proof Hu as []. split.
  - split_and!; [auto| |by rewrite cu_pool0]. split; [by rewrite cu_subcontainers0|].
    intros k id q p Hk Hp. rewrite cu_subcontainers0 in Hk. destruct (Hok k id q p Hk Hp) as (s & Hs & Hkey & Hw).
    assert (E : (view <$> w_heap w') !! p = Some (view s)) by (by rewrite cu_view0, lookup_fmap, Hs).
    rewrite lookup_fmap in E. destruct (w_heap w' !! p) as [s'|]; [|done]. exists s'.
    assert (key_of (c_id s') = key_of (c_id s) ∧ cpu s' = cpu s) as [-> ->]
      by (unfold view in E; simpl in E; split; congruence). done.
  - unfold drift, quotas. rewrite cu_pool0, cu_subcontainers0. f_equal. apply zsum_ext.
    intros p _. by apply cu_quota.
Qed.

(** *** The steps of the memory side *)
Lemma keeps_sc_get {A} p (f : SubContainer → A) : keeps cpu_untouched (sc_get p f).
Proof. intros w. unfold sc_get, load, mbind, M_bind. by destruct (w_heap w !! p). Qed.
Lemma keeps_ec_get {A} (f : ElasticContainer → A) : keeps cpu_untouched (ec_get f).
Proof. intros w. reflexivity. Qed.
Lemma keeps_ec_find {A} (f : ElasticContainer → outcome A) : keeps cpu_untouched (ec_find f).
Proof. intros w. reflexivity. Qed.
Lemma keeps_defined {A} (o : option A) : keeps cpu_untouched (defined o).
Proof. destruct o; intros w; reflexivity. Qed.
Lemma keeps_rpc {A} (m : M (list event) A) : keeps cpu_untouched (rpc m).
Proof. intros w. unfold rpc. by destruct (m (w_trace w)). Qed.
Lemma keeps_async {A} (m : M World A) : keeps cpu_untouched m → keeps cpu_untouched (async m).
Proof. intros H w. specialize (H w). unfold async. by destruct (m w) as [[?|[]] w']. Qed.
Lemma keeps_future {A} (o : outcome A) : keeps cpu_untouched (future_get o).
Proof. intros w. reflexivity. Qed.
Lemma keeps_sc_do p f : (∀ s, view (f s) = view s) → keeps cpu_untouched (sc_do p f).
Proof.
  intros Hf w. unfold sc_do, load, mbind, M_bind, modify. destruct (w_heap w !! p) as [s|] eqn:E; [|done].
  constructor; try done. simpl. rewrite fmap_insert, Hf. apply insert_id. by rewrite lookup_fmap, E.
Qed.
Lemma keeps_on_mem f : (∀ m, mem_g.wf m → mem_g.wf (f m)) → keeps cpu_untouched (ec_do (on_mem f)).
Proof. intros Hf w. constructor; try done. intros (? & ? & ? & ?). split_and!; try done. by apply Hf. Qed.
Lemma keeps_agent id : keeps cpu_untouched (ec_run (get_corres_agent_client id)).
Proof.
  intros w. unfold ec_run, get_corres_agent_client.
  destruct (sc_ac_map (w_ec w) !! key_of id) as [[i a]|]; simpl; [by destruct w|].
  constructor; try done. intros (? & H2 & ? & ?). split_and!; try done; simpl.
  intros k i a. rewrite lookup_insert. case_decide; [|by apply H2]. by intros [= <- _].
Qed.

Lemma keeps_incr_unalloc z : keeps cpu_untouched (ec_do (incr_unalloc_memory_in_pages z)).
Proof. apply keeps_on_mem. intros m (?&?&?&?). split_and!; try done. apply i64_is_i64. Qed.
Lemma keeps_incr_alloc z : keeps cpu_untouched (ec_do (incr_alloc_memory_in_pages z)).
Proof. apply keeps_on_mem. intros m (?&?&?&?). split_and!; try done. apply i64_is_i64. Qed.
Lemma keeps_decr_unalloc z : keeps cpu_untouched (ec_do (decr_unalloc_memory_in_pages z)).
Proof. apply keeps_on_mem. intros m (?&?&?&?). split_and!; try done; simpl; zcase; wrap_lia. Qed.
Lemma keeps_decr_alloc z : keeps cpu_untouched (ec_do (decr_alloc_memory_in_pages z)).
Proof. apply keeps_on_mem. intros m (?&?&?&?). split_and!; try done; simpl; zcase; wrap_lia. Qed.
Lemma keeps_set_limit p z : keeps cpu_untouched (sc_do p (set_mem_limit_in_pages z)).
Proof. by apply keeps_sc_do. Qed.
Lemma keeps_set_docker p d : keeps cpu_untouched (sc_do p (set_docker_id d)).
Proof. by apply keeps_sc_do. Qed.
#[local] Hint Resolve keeps_sc_get keeps_ec_get keeps_ec_find keeps_defined keeps_rpc keeps_async keeps_future keeps_agent
  keeps_incr_unalloc keeps_incr_alloc keeps_decr_unalloc keeps_decr_alloc keeps_set_limit keeps_set_docker : keeps.

(** Walks through a handler. *)
Ltac keeps_walk :=
  repeat first
    [ solve [auto with keeps typeclass_instances]
    | apply keeps_bind; [apply _| |intros]
    | apply keeps_when; [apply _|]
    | match goal with
      | |- keeps _ (if ?b then _ else _) => destruct b
      | |- keeps _ (match ?p with _ => _ end) => destruct p
      end ].

Section Memory.
Context {ENV : Env} {ORDER : HashOrder}.

Lemma keeps_reclaim id sc : keeps cpu_untouched (reclaim id sc).
Proof.
  unfold reclaim, sc_get_memory_usage_in_bytes_cadvisor, get_sc_memory_usage_in_bytes,
    sc_resize_memory_limit_in_pages, agent_or_exit, sc_set_memory_limit_in_pages. keeps_walk.
Qed.
#[local] Hint Resolve keeps_reclaim : keeps.
Lemma keeps_reclaim_loop skip r l : keeps cpu_untouched (mfold (reclaim_entry skip) r l).
Proof. apply keeps_mfold; [apply _|]. intros b [k [id q]]. unfold reclaim_entry. keeps_walk. Qed.
Lemma keeps_handle_reclaim fd : keeps cpu_untouched (handle_reclaim_memory fd).
Proof.
  unfold handle_reclaim_memory. apply keeps_bind; [apply _|auto with keeps|intros m].
  apply keeps_bind; [apply _|apply keeps_mfold; [apply _|]|intros fs; apply keeps_mfold; [apply _|]].
  - intros b kv. unfold launch_reclaim. keeps_walk.
  - intros r o. unfold collect. keeps_walk.
Qed.
#[local] Hint Resolve keeps_reclaim_loop keeps_handle_reclaim : keeps.
Lemma keeps_mem_req req res fd : keeps cpu_untouched (handle_mem_req req res fd).
Proof.
  unfold handle_mem_req, grant_mem, ec_update_reclaim_memory_in_pages,
    ec_update_alloc_memory_in_pages. keeps_walk.
Qed.
Lemma keeps_new_pod sc fd : keeps cpu_untouched (determine_mem_limit_for_new_pod sc fd).
Proof.
  unfold determine_mem_limit_for_new_pod, sc_get_memory_limit_in_bytes_cadvisor,
    get_sc_memory_limit_in_bytes, ec_update_reclaim_memory_in_pages, ec_update_alloc_memory_in_pages,
    sc_resize_memory_limit_in_pages, agent_or_exit. keeps_walk.
Qed.
Lemma keeps_run n : keeps cpu_untouched (run n).
Proof. unfold run, ec_update_reclaim_memory_in_pages. keeps_walk. Qed.
Lemma keeps_matcher id d : keeps cpu_untouched (Deploy.scIdToDockerIdMatcherThread id d).
Proof. unfold Deploy.scIdToDockerIdMatcherThread. keeps_walk. Qed.

(** The same for computations on the deployment service. *)
Definition service_untouched (d d' : Deploy.Service) : Prop := cpu_untouched (Deploy.d_w d) (Deploy.d_w d').
#[global] Instance service_untouched_preorder : PreOrder service_untouched.
Proof. split; [intros d; unfold service_untouched; reflexivity|]. intros d1 d2 d3 H1 H2. unfold service_untouched. by etransitivity. Qed.
Lemma keeps_on_w {A} (m : M World A) : keeps cpu_untouched m → keeps service_untouched (Deploy.on_w m).
Proof. intros H d. specialize (H (Deploy.d_w d)). unfold Deploy.on_w. by destruct (m (Deploy.d_w d)). Qed.
Lemma keeps_pod_spec inet_addr pod : keeps service_untouched (Deploy.ReportPodSpec inet_addr pod).
Proof.
  unfold Deploy.ReportPodSpec, Deploy.insertPodSpec, Deploy.get_pod_id.
  assert (∀ f, (∀ d, Deploy.d_w (f d) = Deploy.d_w d) → keeps service_untouched (modify f)) as Hmod
    by (intros f Hf d; unfold service_untouched; simpl; rewrite Hf; reflexivity).
  keeps_walk; [|apply keeps_on_w, keeps_matcher].
  apply Hmod. intros d. unfold Deploy.push_pod. by destruct (Deploy.deployedPods d !! _) as [[? ?]|].
Qed.

(** C9: no operation of the memory side touches the CPU side, in any
    state and whatever the agents and cAdvisor answer, also when it does not
    return: after a memory request, the memory limit of a new pod, a round of
    the periodic reclaim or the report of a pod, the runtime pool, every
    container's quota, statistics and place in the table are what they were; so
    the invariant survives and the drift is unchanged. *)
Theorem memory_leaves_cpu_books (w : World) (req res : msg_t) (fd n : Z) (sc : loc)
    (inet_addr : string → Z) (pod : Deploy.ExportPodSpec) (d : Deploy.Service) :
  let undisturbed w w' := cpu_untouched w w' ∧ (Inv w → Inv w' ∧ drift w' = drift w) in
  undisturbed w (handle_mem_req req res fd w).2 ∧
  undisturbed w (determine_mem_limit_for_new_pod sc fd w).2 ∧
  undisturbed w (run n w).2 ∧
  undisturbed (Deploy.d_w d) (Deploy.d_w (Deploy.ReportPodSpec inet_addr pod d).2).
Proof.
  assert (H : ∀ w w', cpu_untouched w w' → cpu_untouched w w' ∧ (Inv w → Inv w' ∧ drift w' = drift w))
    by (intros; split; [done|]; by apply cu_inv).
  split; [|split; [|split]]; apply H;
    [apply keeps_mem_req|apply keeps_new_pod|apply keeps_run|apply keeps_pod_spec].
Qed.
End Memory.

(** ** Runs *)
Section Runs.
Context {ENV : Env} {ORDER : HashOrder} (inet_addr : string → Z).
Import Deploy.

(** [reach d0 n d]: requests, one after the other, lead from [d0] to [d], [n] of
    them usage reports that agree with the recorded quota. A request whose
    theorem has assumptions is only taken where they hold, given the
    invariant; the requests of the memory side are taken always. *)
Inductive reach (d0 : Service) : nat → Service → Prop :=
| reach_start : reach d0 0 d0
| reach_mem n d req res fd :
    reach d0 n d → reach d0 n (with_w (handle_mem_req req res fd (d_w d)).2 d)
| reach_new_pod n d sc fd :
    reach d0 n d → reach d0 n (with_w (determine_mem_limit_for_new_pod sc fd (d_w d)).2 d)
| reach_reclaim n d k :
    reach d0 n d → reach d0 n (with_w (ManagerMem.run k (d_w d)).2 d)
| reach_pod n d pod :
    reach d0 n d → reach d0 n (ReportPodSpec inet_addr pod d).2
| reach_app n d spec :
    reach d0 n d → cpu_g.alloc_rt (pool (d_w d)) = cpu_g.overrun (pool (d_w d)) →
    reach d0 n (ReportAppSpec spec d).2
| reach_register n d now req res ip fd ac ac' :
    reach d0 n d → fits (pool (d_w d)) → msg_wf req →
    AgentClientDB.get_agent_client_by_ip (ip4_addr.from_net ip) (w_acdb (d_w d)) = Some ac →
    Manager.client_of (Manager.new_id req ip) ac (d_w d) = Some ac' → timely (AgentClient.get_agent_ip ac') →
    reach d0 n (with_w (Manager.handle_add_cgroup_to_ec now req res ip fd (d_w d)).2 d)
| reach_report n d now req res sc s ac rt thr :
    reach d0 n d → (Inv (d_w d) → report_hyps req (d_w d) sc s ac rt thr) →
    reach d0 (S n) (with_w (handle_cpu_usage_report now req res (d_w d)).2 d)
| reach_mismatch n d now req res sc s ac :
    reach d0 n d → (Inv (d_w d) → CpuTheorems.mismatch_hyps req (d_w d) sc s ac) →
    reach d0 n (with_w (handle_cpu_usage_report now req res (d_w d)).2 d)
| reach_resync n d now req res sc s ac rt thr :
    reach d0 n d → (Inv (d_w d) → CpuTheorems.resync_hyps req (d_w d) sc s ac rt thr) →
    reach d0 n (with_w (handle_cpu_usage_report now req res (d_w d)).2 d)
| reach_idle n d now seq :
    reach d0 n d → (Inv (d_w d) → CpuTheorems.idle_hyps (d_w d)) →
    reach d0 n (with_w (check_for_idle_containers now seq (d_w d)).2 d)
| reach_delete n d dock sc_id k p q s :
    reach d0 n d → (Inv (d_w d) → delete_hyps dock d sc_id k p q s) →
    reach d0 n (DeletePod dock d).2.

(** Steps that keep the drift. *)
Definition steady (w w' : World) : Prop := Inv w → Inv w' ∧ drift w' = drift w.

Lemma register_steady now req res ip fd ac ac' w :
  fits (pool w) → msg_wf req →
  AgentClientDB.get_agent_client_by_ip (ip4_addr.from_net ip) (w_acdb w) = Some ac →
  Manager.client_of (Manager.new_id req ip) ac w = Some ac' → timely (AgentClient.get_agent_ip ac') →
  steady w (Manager.handle_add_cgroup_to_ec now req res ip fd w).2.
Proof.
  intros Hf Hmsg Hac Hcl Ht HI. destruct (Manager.enrolled_inv now req ip fd w ac ac') as [HI2 Hd2]; [done..|].
  pose proof (Manager.wp_add_cgroup now req res ip fd w ac ac' HI Hf Hmsg Hac Hcl Ht) as Hwp.
  apply wp_never_inv in Hwp as (a & w' & -> & _ & ->). by destruct (_ <=? _).
Qed.
Lemma idle_steady now seq w :
  (Inv w → CpuTheorems.idle_hyps w) → steady w (check_for_idle_containers now seq w).2.
Proof.
  intros H HI. pose proof (CpuTheorems.wp_idle_pass now seq w (H HI)) as Hwp.
  by apply wp_never_inv in Hwp as (a & w' & -> & (? & _ & ? & _) & _).
Qed.
Lemma mismatch_steady now req res w sc s ac :
  (Inv w → CpuTheorems.mismatch_hyps req w sc s ac) → steady w (handle_cpu_usage_report now req res w).2.
Proof.
  intros H HI. specialize (H HI). pose proof (CpuTheorems.wp_mismatch now req res w sc s ac H) as Hwp.
  apply wp_never_inv in Hwp as (a & w' & -> & _ & s' & -> & Hacc & Hwf & _).
  by apply (CpuTheorems.recorded_inv w sc s s' ac); [apply H| |].
Qed.
Lemma resync_steady now req res w sc s ac rt thr :
  (Inv w → CpuTheorems.resync_hyps req w sc s ac rt thr) → steady w (handle_cpu_usage_report now req res w).2.
Proof.
  intros H HI. destruct (CpuTheorems.resync_spec now req res w sc s ac rt thr (H HI)) as (w' & -> & ? & ? & _). done.
Qed.
Lemma report_nearly_steady now req res w sc s ac rt thr :
  (Inv w → report_hyps req w sc s ac rt thr) → Inv w →
  let w' := (handle_cpu_usage_report now req res w).2 in Inv w' ∧ Z.abs (drift w' - drift w) ≤ 999.
Proof.
  intros H HI. specialize (H HI). destruct (report_spec now req res w sc s ac rt thr H)
    as (w' & -> & HI' & _ & _ & Hd & _). split; [done|]. pose proof (rh_match _ _ _ _ _ _ _ H) as Hm.
  simpl. destruct Hd as [-> | ->]; [lia|]. Z.div_mod_to_equations. lia.
Qed.

(** C1: from a state in which the books are right, as they are after
    start-up, every run of requests keeps them right: after any number of
    application and pod reports, registrations, usage reports (agreeing,
    disagreeing or resynchronising), idle passes, removals, memory requests and
    reclaims in any order the pool balances, every queued container is alive and
    filed under its id, and the allocation differs from the sum of the quotas by
    less than a microsecond per usage report. *)
Theorem reachable_books (d0 d : Service) (n : nat)
    (H0 : Inv (d_w d0)) (Hd0 : drift (d_w d0) = 0) (Hreach : reach d0 n d) :
  Inv (d_w d) ∧ Z.abs (drift (d_w d)) ≤ 999 * Z.of_nat n.
Proof.
  assert (Hst : ∀ w w' (k : nat), Inv w ∧ Z.abs (drift w) ≤ 999 * Z.of_nat k → steady w w' →
    Inv w' ∧ Z.abs (drift w') ≤ 999 * Z.of_nat k).
  { intros w w' k [HI Hdr] Hs. by destruct (Hs HI) as [? ->]. }
  induction Hreach; [split; [done|]; lia|..];
    try (eapply Hst; [exact IHHreach|]; intros HI).
  - by apply cu_inv; [apply keeps_mem_req|].
  - by apply cu_inv; [apply keeps_new_pod|].
  - by apply cu_inv; [apply keeps_run|].
  - by apply cu_inv; [apply keeps_pod_spec|].
  - rewrite app_spec_eq. by apply limits_set_inv.
  - by eapply register_steady.
  - destruct IHHreach as [HI Hdr].
    destruct (report_nearly_steady now req res (d_w d) sc s ac rt thr H HI) as [HI' Hd']. split; [done|].
    simpl in *. lia.
  - by eapply mismatch_steady.
  - by eapply resync_steady.
  - by apply idle_steady.
  - destruct (removed_inv _ _ _ _ _ _ _ (H HI)) as (? & ? & _). done.
Qed.
End Runs.

(** ** Instances *)
Definition d0 : Deploy.Service := Deploy.mkService CpuTheorems.w0 ∅ ∅.
(** A usage report and then a memory request of the demo container. *)
Definition d1 : Deploy.Service :=
  Deploy.with_w (handle_cpu_usage_report (ENV := Demo.willing) 1500000000 CpuTheorems.req0 CpuTheorems.req0
    (Deploy.d_w d0)).2 d0.
Definition d2 : Deploy.Service :=
  Deploy.with_w (handle_mem_req (ENV := Demo.willing) (ORDER := Demo.listed) CpuTheorems.req0 CpuTheorems.req0 3
    (Deploy.d_w d1)).2 d1.
Lemma reachable_books_witness : Inv (Deploy.d_w d2) ∧ Z.abs (drift (Deploy.d_w d2)) ≤ 999.
Proof.
  apply (reachable_books (ENV := Demo.willing) (ORDER := Demo.listed) (λ _, 0) d0 d2 1).
  - apply (rh_ready _ _ _ _ _ _ _ CpuTheorems.report_hyps0).
  - by vm_compute.
  - unfold d2. apply (reach_mem (ENV := Demo.willing) (ORDER := Demo.listed) (λ _, 0) d0 1 d1).
    unfold d1. apply (reach_report (ENV := Demo.willing) (ORDER := Demo.listed) (λ _, 0) d0 0 d0 1500000000
      CpuTheorems.req0 CpuTheorems.req0 1 (Demo.sc 200000000) Demo.agent 100000000 (SpecFloat.S754_zero false)).
    + constructor.
    + intros _. exact CpuTheorems.report_hyps0.
Defined.

End System.
