(* ===== verification/Conc.v ===== *)
(** * Threads: programs of atomic accesses, and the machine that interleaves them

    The controller is one process with many threads: one per connection, the
    UDP thread, the threads of the gRPC server, the idle pass, the periodic
    reclaim, a thread per new pod and a [std::async] task per container that is
    asked for memory. Most shared variables have a mutex of their own that is
    held for one access; [memlock], [cv_mtx] and the locks of the deployment
    service are held longer.

    A thread is a tree of accesses ([prog]); the handlers are written in the
    continuation monad over such trees ([C]), access by access in the order of
    the source, and a schedule picks the thread that makes the next access. An
    access to a variable without a lock ([cpuleak], [syscall_sequence_number],
    the hash tables, the windows) is taken to be atomic too: torn reads and
    reordered writes, which a data race also allows, are not modelled; loops over
    a hash table that others change are ([ConcApi.walk]): an iterator whose entry
    is erased, or whose table is rehashed by an insertion, is undefined to use.
    Arguments that only go to the log are not read.

    [c_up] says whether [_ec] has been created; an access through the
    uninitialised pointer is undefined. A thread that cannot go on (a taken
    mutex, an unset flag, an unfinished future) stays where it is. An exception
    that leaves a [std::thread] ends the process; one that leaves a
    [std::async] task is kept for [get()], and one that leaves an RPC handler is
    answered by gRPC with an error status. *)
From S2P Require Import Prelude OmNet Float64 Window LocalStats SubContainer Agents CpuG MemG.
From S2P Require Import ElasticContainer World Types ECAPI Deploy.
Import SubContainer ElasticContainer.

Module Conc.
Import Deploy.

(** The mutexes held for more than one access: [Manager::memlock], [cv_mtx] and
    [cv_mtx_dock] of [ECAPI], and those of the deployment service ([sc_lock] is
    [ECAPI::sc_map_lock]). *)
Inductive mutex := memlock | cv_mtx | cv_mtx_dock | sc_lock | dep_pod_lock | dockId_sc_lock.
#[global] Instance mutex_eq_dec : EqDecision mutex.
Proof. solve_decision. Defined.
(** The order in which mutexes are taken when more than one is held. *)
Definition rank (l : mutex) : nat :=
  match l with
  | memlock => 0 | cv_mtx => 1 | cv_mtx_dock => 2 | sc_lock => 3 | dep_pod_lock => 4 | dockId_sc_lock => 5
  end.
#[global] Instance rank_inj : Inj (=) (=) rank.
Proof. by intros [] []. Qed.
#[global] Instance mutex_countable : Countable mutex.
Proof.
  refine (inj_countable' rank (λ n, match n with
    | 0 => memlock | 1 => cv_mtx | 2 => cv_mtx_dock | 3 => sc_lock | 4 => dep_pod_lock | _ => dockId_sc_lock
    end)%nat _). by intros [].
Defined.

(** The updates of the two pools. [Drain seen] is [ec_set_unallocated_rt(0)] by a
    caller that read [seen] before, [Repair] the [ec_incr_unallocated_rt] that
    corrects a leak: the two differ from the plain calls only in what the books
    of [ConcLedger] make of them. *)
Inductive counter_op := Cpu (o : cpu_g.op) | Mem (o : mem_g.op) | Drain (seen : Z) | Repair (leak : Z).
Definition counted (o : counter_op) : ElasticContainer → ElasticContainer :=
  match o with
  | Cpu o => on_cpu (cpu_g.run o)
  | Mem o => on_mem (mem_g.run o)
  | Drain _ => set_unallocated_rt 0
  | Repair z => incr_unallocated_rt z
  end.

(** [Step true m] is an access through [_ec]. [Async true] starts a thread whose
    exception is kept (a task, an RPC), [Async false] a [std::thread]; [Join]
    waits for a thread and takes over its value or its exception. *)
Inductive prog :=
| Return (v : Z)
| Step {B : Type} (ec : bool) (m : M Service B) (k : B → prog)
| Count (o : counter_op) (k : prog)
| Lock (l : mutex) (k : prog)
| Unlock (l : mutex) (k : prog)
| Wait (pred : Service → bool) (k : prog)
| Notify (k : prog)
| Create (e : ElasticContainer) (k : prog)
| Async (catches : bool) (task : prog) (k : nat → prog)
| Join (t : nat) (k : Z → prog).

(** ** The monad of handlers *)

Definition C (A : Type) : Type := (A → prog) → prog.
#[global] Instance C_ret : MRet C := λ A a κ, κ a.
#[global] Instance C_bind : MBind C := λ A B k c κ, c (λ a, k a κ).

Definition svc {A} (m : M Service A) : C A := Step false m.
Definition own {A} (m : M World A) : C A := Step false (on_w m).
Definition via_ec {A} (m : M World A) : C A := Step true (on_w m).
Definition count (o : counter_op) : C unit := λ κ, Count o (κ tt).
Definition lock (l : mutex) : C unit := λ κ, Lock l (κ tt).
Definition unlock (l : mutex) : C unit := λ κ, Unlock l (κ tt).
Definition wait (pred : Service → bool) : C unit := λ κ, Wait pred (κ tt).
Definition notify_one : C unit := λ κ, Notify (κ tt).
Definition async (catches : bool) (task : C Z) : C nat := Async catches (task Return).
Definition join (t : nat) : C Z := Join t.
(** A thread whose result nobody takes. *)
Definition spawn (task : C unit) : C nat := async false (λ κ, task (λ _, κ 0)).
Definition cwhen (b : bool) (c : C unit) : C unit := if b then c else mret tt.
Definition fails {A} (f : failure) : C A := own (stop f).
Definition cdefined {A} (o : option A) : C A := match o with Some a => mret a | None => fails Undef end.
Fixpoint cfold {A B} (f : B → A → C B) (b : B) (l : list A) : C B :=
  match l with
  | [] => mret b
  | a :: l => b' ← f b a; cfold f b' l
  end.

(** ** The machine *)

Record CState := mkC {
  c_svc : Service;
  c_up : bool;
  c_locks : gmap mutex nat;    (* the thread that holds a mutex *)
  c_asleep : list nat;         (* the threads asleep in [cv.wait] *)
}.
Definition with_svc (d : Service) (s : CState) : CState := mkC d (c_up s) (c_locks s) (c_asleep s).
Definition with_locks (l : gmap mutex nat) (s : CState) : CState := mkC (c_svc s) (c_up s) l (c_asleep s).
Definition with_asleep (l : list nat) (s : CState) : CState := mkC (c_svc s) (c_up s) (c_locks s) l.
Definition c_w (s : CState) : World := d_w (c_svc s).
Definition on_ec (f : ElasticContainer → ElasticContainer) (s : CState) : CState :=
  with_svc (with_w (upd_ec (f (w_ec (c_w s))) (c_w s)) (c_svc s)) s.

Inductive body := Running (p : prog) | Finished (o : outcome Z).
Record thread := Thr { catches : bool; t_body : body }.
(** [c_dead]: how the process ended. [c_repaired]: the leak corrections so far. *)
Record config := Cfg { threads : list thread; c_st : CState; c_dead : option failure; c_repaired : Z }.

Definition set_body (t : nat) (th : thread) (b : body) (c : config) : config :=
  Cfg (<[t := Thr (catches th) b]> (threads c)) (c_st c) (c_dead c) (c_repaired c).
Definition set_st (s : CState) (c : config) : config := Cfg (threads c) s (c_dead c) (c_repaired c).
Definition die (f : failure) (c : config) : config := Cfg (threads c) (c_st c) (Some f) (c_repaired c).
Definition add_thread (th : thread) (c : config) : config :=
  Cfg (threads c ++ [th]) (c_st c) (c_dead c) (c_repaired c).
Definition repair (z : Z) (c : config) : config := Cfg (threads c) (c_st c) (c_dead c) (c_repaired c + z).

(** Thread [t] stops with [f] in state [c]. *)
Definition fail_thread (t : nat) (th : thread) (f : failure) (c : config) : config :=
  match f with
  | Blocked => c
  | Throw => if catches th then set_body t th (Finished (Fail Throw)) c else die Throw c
  | _ => die f c
  end.

(** The mutex is free, or it is not. *)
Definition acquire (l : mutex) (t : nat) (s : CState) : option CState :=
  match c_locks s !! l with None => Some (with_locks (<[l := t]> (c_locks s)) s) | Some _ => None end.
(** [cv.wait(lk, pred)] of a thread that holds [cv_mtx], or that was woken and
    has to take it again: with a false predicate it releases the mutex and
    falls asleep. [true]: it goes on. *)
Definition wait_cv (pred : Service → bool) (t : nat) (s : CState) : option (bool * CState) :=
  if bool_decide (t ∈ c_asleep s) then None else
  match c_locks s !! cv_mtx with
  | Some u =>
      if (u =? t)%nat then
        if pred (c_svc s) then Some (true, s)
        else Some (false, with_asleep (c_asleep s ++ [t]) (with_locks (delete cv_mtx (c_locks s)) s))
      else None
  | None =>
      if pred (c_svc s) then Some (true, with_locks (<[cv_mtx := t]> (c_locks s)) s)
      else Some (false, with_asleep (c_asleep s ++ [t]) s)
  end.
(** [cv.notify_one()] wakes one sleeper, whichever: [pick] says which. *)
Definition wake_one (pick : nat) (s : CState) : CState :=
  let i := (pick mod length (c_asleep s))%nat in
  with_asleep (take i (c_asleep s) ++ drop (S i) (c_asleep s)) s.

(** One access of thread [t], which is [th] with the program [p] to go. *)
Definition exec_thread (t pick : nat) (th : thread) (p : prog) (c : config) : option config :=
  let s := c_st c in
  match p with
  | Return v => Some (set_body t th (Finished (Ok v)) c)
  | Step ec m k =>
      if ec && negb (c_up s) then Some (die Undef c) else
      match m (c_svc s) with
      | (Ok b, d) => Some (set_body t th (Running (k b)) (set_st (with_svc d s) c))
      | (Fail f, d) => Some (fail_thread t th f (set_st (with_svc d s) c))
      end
  | Count o k =>
      if negb (c_up s) then Some (die Undef c) else
      let c := set_body t th (Running k) (set_st (on_ec (counted o) s) c) in
      Some match o with Repair z => repair (i64 z) c | _ => c end
  | Lock l k =>
      match acquire l t s with Some s => Some (set_body t th (Running k) (set_st s c)) | None => None end
  | Unlock l k =>
      if bool_decide (c_locks s !! l = Some t)
      then Some (set_body t th (Running k) (set_st (with_locks (delete l (c_locks s)) s) c))
      else Some (die Undef c)
  | Wait pred k =>
      match wait_cv pred t s with
      | Some (true, s) => Some (set_body t th (Running k) (set_st s c))
      | Some (false, s) => Some (set_st s c)
      | None => None
      end
  | Notify k => Some (set_body t th (Running k) (set_st (wake_one pick s) c))
  | Create e k =>
      let d := with_w (upd_ec e (c_w s)) (c_svc s) in
      Some (set_body t th (Running k) (set_st (mkC d true (c_locks s) (c_asleep s)) c))
  | Async b task k =>
      Some (add_thread (Thr b (Running task)) (set_body t th (Running (k (length (threads c)))) c))
  | Join u k =>
      match threads c !! u with
      | Some (Thr _ (Finished (Ok v))) => Some (set_body t th (Running (k v)) c)
      | Some (Thr _ (Finished (Fail f))) => Some (fail_thread t th f c)
      | _ => None
      end
  end.

(** A schedule is a list of moves: a thread makes an access, or a sleeper wakes
    without being notified, which [std::condition_variable] allows. *)
Inductive move := Run (t pick : nat) | Spurious (t : nat).
Definition exec (mv : move) (c : config) : option config :=
  match c_dead c with
  | Some _ => None
  | None =>
      match mv with
      | Run t pick =>
          match threads c !! t with
          | Some (Thr b (Running p)) => exec_thread t pick (Thr b (Running p)) p c
          | _ => None
          end
      | Spurious t =>
          if bool_decide (t ∈ c_asleep (c_st c))
          then Some (set_st (with_asleep (list_difference (c_asleep (c_st c)) [t]) (c_st c)) c) else None
      end
  end.
Fixpoint exec_all (mvs : list move) (c : config) : option config :=
  match mvs with
  | [] => Some c
  | mv :: mvs => c' ← exec mv c; exec_all mvs c'
  end.
Definition cstep (c c' : config) : Prop := ∃ mv, exec mv c = Some c'.

Lemma exec_all_rtc mvs c c' : exec_all mvs c = Some c' → rtc cstep c c'.
Proof.
  revert c. induction mvs as [|mv mvs IH]; intros c; simpl; [by intros [= ->]|].
  destruct (exec mv c) as [c1|] eqn:E; [|done]. intros H. eapply rtc_l; [by exists mv|by apply IH].
Qed.

End Conc.
