(* ===== verification/ConcApi.v ===== *)
(** * The API of a manager, access by access ([src/ECAPI.{h,cpp}])

    The forwarders of [ECAPI.h] are one access each; the operations of
    [ECAPI.cpp] are the sequences of accesses the source makes, every call
    evaluated where it is written. [sc->f()] through a pointer is one access to
    the object. *)
From S2P Require Import Prelude OmNet Float64 Window LocalStats SubContainer Agents CpuG MemG.
From S2P Require Import ElasticContainer World Types Json CAdvisor ECAPI Deploy Conc.
Import SubContainer ElasticContainer Conc.

Module ConcApi.

(** ** Containers through a pointer *)
Definition sc_read {A} (sc : loc) (f : SubContainer → A) : C A := own (sc_get sc f).
Definition sc_write (sc : loc) (f : SubContainer → SubContainer) : C unit := own (sc_do sc f).
(** [sc->incr_quota_mismatch_counter()]: read and increment under one lock. *)
Definition sc_incr_mismatch (sc : loc) : C Z :=
  own (n ← sc_get sc (fst ∘ incr_quota_mismatch_counter);
       sc_do sc (snd ∘ incr_quota_mismatch_counter) ;; mret n).

(** ** Reading ([ECAPI.h], 41-78) *)
Definition get_ec_id : C Z := via_ec (ec_get get_ec_id).
Definition ec_get_subcontainers : C (gmap key (ContainerId * list loc)) := via_ec (ec_get subcontainers).
Definition ec_get_num_subcontainers : C Z := via_ec (ec_get get_num_subcontainers).
Definition get_subcontainer_agents : C (gmap key (ContainerId * option AgentClient.AgentClient)) :=
  via_ec (ec_get sc_ac_map).
Definition get_subcontainer_front (id : ContainerId) : C loc := via_ec (ec_find (get_subcontainer_front id)).
Definition ec_get_sc_for_update (id : ContainerId) : C loc := via_ec (ec_find (get_sc_for_update_back id)).
Definition ec_get_cpu_unallocated_rt : C Z := via_ec (ec_get get_cpu_unallocated_rt).
Definition ec_get_cpu_slice : C Z := via_ec (ec_get get_cpu_slice).
Definition ec_get_fair_cpu_share : C Z := via_ec (ec_get get_fair_cpu_share).
Definition ec_get_overrun : C Z := via_ec (ec_get get_overrun).
Definition ec_get_total_cpu : C Z := via_ec (ec_get get_total_cpu).
Definition ec_get_alloc_rt : C Z := via_ec (ec_get get_alloc_rt).
Definition ec_get_unalloc_memory_in_pages : C Z := via_ec (ec_get get_unallocated_memory_in_pages).
Definition ec_get_alloc_memory_in_pages : C Z := via_ec (ec_get get_allocated_memory_in_pages).
Definition ec_get_memory_slice : C Z := via_ec (ec_get get_memory_slice).
Definition ec_get_mem_limit_in_pages : C Z := via_ec (ec_get get_mem_limit_in_pages).

(** ** Writing ([ECAPI.h], 98-128) *)
Definition ec_resize_slice (_slice_size : Z) : C unit := count (Cpu (cpu_g.SetSlice _slice_size)).
Definition ec_incr_unallocated_rt (_incr : Z) : C unit := count (Cpu (cpu_g.IncrUnalloc _incr)).
Definition ec_decr_unallocated_rt (_decr : Z) : C unit := count (Cpu (cpu_g.DecrUnalloc _decr)).
Definition ec_incr_total_cpu (_incr : Z) : C unit := count (Cpu (cpu_g.IncrTotal _incr)).
Definition ec_decr_total_cpu (_decr : Z) : C unit := count (Cpu (cpu_g.DecrTotal _decr)).
Definition ec_incr_overrun (_incr : Z) : C unit := count (Cpu (cpu_g.IncrOverrun _incr)).
Definition ec_decr_overrun (_decr : Z) : C unit := count (Cpu (cpu_g.DecrOverrun _decr)).
Definition ec_set_overrun (_val : Z) : C unit := count (Cpu (cpu_g.SetOverrun _val)).
Definition ec_set_unallocated_rt (_val : Z) : C unit := count (Cpu (cpu_g.SetUnalloc _val)).
Definition ec_incr_alloc_rt (_incr : Z) : C unit := count (Cpu (cpu_g.IncrAlloc _incr)).
Definition ec_decr_alloc_rt (_decr : Z) : C unit := count (Cpu (cpu_g.DecrAlloc _decr)).
Definition ec_set_memory_limit_in_pages (_max_mem : Z) : C unit := via_ec (ec_do (set_memory_limit_in_pages _max_mem)).
Definition ec_incr_memory_limit_in_pages (_incr : Z) : C unit := count (Mem (mem_g.IncrLimit _incr)).
Definition ec_decr_memory_limit_in_pages (_decr : Z) : C unit := count (Mem (mem_g.DecrLimit _decr)).
(** Returns the pool it has just set. *)
Definition ec_set_unalloc_memory_in_pages (mem : Z) : C Z :=
  via_ec (ec_do (set_unalloc_memory_in_pages mem) ;; ec_get get_unallocated_memory_in_pages).
Definition ec_decr_unalloc_memory_in_pages (mem_to_reduce : Z) : C unit := count (Mem (mem_g.DecrUnalloc mem_to_reduce)).
Definition ec_incr_unalloc_memory_in_pages (mem_to_incr : Z) : C unit := count (Mem (mem_g.IncrUnalloc mem_to_incr)).
Definition ec_set_alloc_memory_in_pages (mem : Z) : C unit := via_ec (ec_do (set_alloc_memory_in_pages mem)).
Definition ec_incr_alloc_memory_in_pages (_incr : Z) : C unit := count (Mem (mem_g.IncrAlloc (i64 _incr))).
Definition ec_decr_alloc_memory_in_pages (_decr : Z) : C unit := count (Mem (mem_g.DecrAlloc (i64 _decr))).

(** ** [ECAPI.cpp] *)
Definition ec_update_alloc_memory_in_pages (mem : Z) : C unit :=
  ec_decr_unalloc_memory_in_pages mem ;; ec_incr_alloc_memory_in_pages mem.
Definition ec_update_reclaim_memory_in_pages (mem : Z) : C unit :=
  ec_incr_unalloc_memory_in_pages mem ;; ec_decr_alloc_memory_in_pages mem.

(** [_ec->get_corres_agent_client(id)], alone and with the test for null. *)
Definition agent_client (id : ContainerId) : C (option AgentClient.AgentClient) :=
  via_ec (ec_run (get_corres_agent_client id)).
Definition agent_or_exit (id : ContainerId) : C AgentClient.AgentClient :=
  agent ← agent_client id;
  match agent with Some ac => mret ac | None => fails (Exit 1) end.

Section Calls.
Context {ENV : Env}.

Definition set_sc_quota_syscall (sc : loc) (_quota seq_number : Z) : C Z :=
  old ← sc_read sc get_quota;
  let diff_quota := i64 (i64 _quota - i64 old) in
  let change : string := if diff_quota <? 0 then "decr" else "incr" in
  own (ins ← sc_get sc sc_inserted; if (ins : bool) then mret tt else stop Blocked) ;;
  c ← sc_read sc get_c_id;
  agent ← agent_or_exit c;
  c ← sc_read sc get_c_id;
  own (rpc (AgentClient.updateContainerQuota agent (SubContainer.cgroup_id c) _quota change seq_number)).

Definition sc_resize_memory_limit_in_pages (container_id : ContainerId) (new_mem_limit : Z) : C Z :=
  agent ← agent_or_exit container_id;
  own (rpc (AgentClient.resizeMemoryLimitPages agent (SubContainer.cgroup_id container_id) new_mem_limit)).

(** [ElasticContainer::get_sc_memory_limit_in_bytes] and [..._usage_in_bytes]. *)
Definition sc_get_memory_limit_in_bytes_cadvisor (sc_id : ContainerId) : C Z :=
  ac ← agent_client sc_id;
  match ac with
  | None => mret 0
  | Some ac =>
      if bool_decide (docker_id sc_id = "") then mret 0 else
      own (rpc (CAdvisor.getContMemLimit (ip4_addr.to_string (AgentClient.get_agent_ip ac)) (docker_id sc_id)))
  end.
Definition sc_get_memory_usage_in_bytes_cadvisor (sc_id : ContainerId) (dock_id : string) : C Z :=
  ac ← agent_client sc_id;
  match ac with
  | None => mret 0
  | Some ac =>
      if bool_decide (dock_id = "") then mret 0 else
      own (rpc (CAdvisor.getContMemUsage (ip4_addr.to_string (AgentClient.get_agent_ip ac)) dock_id))
  end.

Definition sc_set_memory_limit_in_pages (sc_id : ContainerId) (new_mem_limit : Z) : C unit :=
  sc ← ec_get_sc_for_update sc_id;
  sc_write sc (set_mem_limit_in_pages new_mem_limit).

(** The free runtime is read again at every test; between two of them another
    thread may have changed it. *)
Definition determine_quota_for_new_pod (req_quota : Z) : C (Z * Z) :=
  u ← ec_get_cpu_unallocated_rt;
  if req_quota <=? u then
    ec_decr_unallocated_rt req_quota ;; ec_incr_alloc_rt req_quota ;; mret (0, req_quota)
  else
  u ← ec_get_cpu_unallocated_rt;
  if u =? 0 then
    quota ← ec_get_cpu_slice;
    ec_incr_overrun quota ;; ec_incr_alloc_rt quota ;; mret (1, quota)
  else
  u ← ec_get_cpu_unallocated_rt;
  if u <? req_quota then
    quota ← ec_get_cpu_unallocated_rt;
    count (Drain quota) ;; ec_incr_alloc_rt quota ;; mret (1, quota)
  else mret (0, req_quota).

(** [_ec->create_new_sc] and [_ec->insert_sc], without a lock. *)
Definition create_new_sc (now cgroup_id host_ip sockfd quota nr_throttled : Z) : C loc :=
  own (ECAPI.create_new_sc now cgroup_id host_ip sockfd quota nr_throttled).
Definition insert_sc (sc : loc) : C Z :=
  c ← sc_read sc get_c_id;
  via_ec (ec_do (insert_sc c sc)) ;;
  mret ALLOC_INIT.
Definition update_fair_cpu_share : C unit := via_ec (ec_do update_fair_cpu_share).

End Calls.

(** ** Loops over the table

    [for (auto &[id, sc] : table)] walks over the live table, without a lock. Going
    on from the entry [cur] uses its iterator, which is invalid when the entry has
    been erased or the table rehashed; keys that are not in the table are passed
    over, and so are entries that were erased before the walk came to them. (An
    entry that was erased and registered again under the same key counts as the
    same one.) *)
Section Walk.
Context {ORDER : HashOrder}.

Definition erased (cur : option key) (m : gmap key (ContainerId * list loc)) : bool :=
  match cur with Some k => negb (bool_decide (is_Some (m !! k))) | None => false end.
Definition advance (m : gmap key (ContainerId * list loc)) (cur : option key) : M World (gmap key (ContainerId * list loc)) :=
  m' ← ec_get subcontainers;
  if rehashed m m' || erased cur m' then stop Undef else mret m'.
Fixpoint walk_on {B} (f : B → key * ContainerId → C B) (m : gmap key (ContainerId * list loc)) (cur : option key)
    (b : B) (l : list key) : C B :=
  match l with
  | [] => own (advance m cur) ;; mret b
  | k :: l =>
      m' ← own (advance m cur);
      match m' !! k with
      | None => walk_on f m cur b l
      | Some e => b' ← f b (k, e.1); walk_on f m (Some k) b' l
      end
  end.
Definition walk {B} (f : B → key * ContainerId → C B) (b : B) : C B :=
  m ← ec_get_subcontainers;
  walk_on f m None b (order m).
End Walk.
End ConcApi.
