(* ===== verification/ConcCpu.v ===== *)
(** * Usage reports and idle passes, access by access ([src/Manager.cpp], 41-301)

    The same two handlers as [ManagerCpu], with every access of the source where
    it stands: conditions read the pools again in every test, a compound
    assignment is a read and a write, [sc->back()] is evaluated at every use.
    Reports are handled without a common lock ([cpulock] is commented out). *)
From S2P Require Import Prelude OmNet Float64 Window LocalStats SubContainer Agents CpuG MemG.
From S2P Require Import ElasticContainer World Types ECAPI ManagerCpu Deploy Conc ConcApi.
Import SubContainer ElasticContainer Conc ConcApi.

Module ConcCpu.
Section Report.
Context {ENV : Env}.

(** *** The stages of a report *)

(** Lines 88-111. *)
Definition report_seen (now : Z) (req : msg_t) (sc : loc) : C bool :=
  idle_flag ← sc_read sc (check_if_idle now);
  sc_write sc (update_last_seen_ts now) ;;
  sc_write sc incr_cpustat_seq_num ;;
  mret idle_flag.
Definition report_number (req : msg_t) (sc : loc) : C unit :=
  n ← sc_read sc get_seq_num;
  cwhen (negb (n =? cpustat_seq_num req)) (sc_write sc (set_cpustat_seq_num (cpustat_seq_num req))).

(** Lines 113-135. *)
Definition report_resync (rx_quota : Z) (sc : loc) : C unit :=
  q ← sc_read sc get_quota;
  if rx_quota <? q then
    q ← sc_read sc get_quota;
    let diff := u64 (q - rx_quota) in
    sc_write sc (set_quota rx_quota) ;;
    sc_write sc flush ;;
    ec_decr_alloc_rt diff ;;
    ec_incr_unallocated_rt diff
  else
    q ← sc_read sc get_quota;
    let diff := u64 (rx_quota - q) in
    ec_decr_unallocated_rt diff ;;
    sc_write sc (set_quota rx_quota) ;;
    sc_write sc flush ;;
    ec_incr_alloc_rt diff.
Definition report_mismatch (rx_quota : Z) (sc : loc) : C bool :=
  q ← sc_read sc get_quota;
  if negb (rx_quota / 1000 =? q / 1000) then
    n ← sc_incr_mismatch sc;
    if 2 <? n then
      report_resync rx_quota sc ;;
      sc_write sc reset_quota_mismatch_counter ;;
      mret true
    else mret false
  else mret true.

(** Lines 137-144: three counters, each read under its own lock, and an
    unprotected accumulator. *)
Definition get_cpuleak : C Z := own (gets cpuleak).
Definition set_cpuleak (z : Z) : C unit := own (modify (upd_cpuleak z)).
Definition report_leak : C unit :=
  alloc ← ec_get_alloc_rt;
  unalloc ← ec_get_cpu_unallocated_rt;
  let total_rt_in_sys := u64 (alloc + unalloc) in
  total ← ec_get_total_cpu;
  leak ← get_cpuleak;
  set_cpuleak (i64 (leak + i64 (i64 total - i64 total_rt_in_sys))) ;;
  leak ← get_cpuleak;
  cwhen (MAX_CPU_LOSS_IN_NS <=? leak)
    (leak ← get_cpuleak; count (Repair (u64 leak)) ;; set_cpuleak 0).

(** Lines 146-147. *)
Definition report_stats (req : msg_t) (sc : loc) : C (Z * double) :=
  rt_mean ← own (s ← load sc; '(m, s) ← defined (insert_rt_stats (runtime_remaining req) s);
                 sc_do sc (λ _, s) ;; mret m);
  thr_mean ← own (s ← load sc; '(m, s) ← defined (insert_th_stats (request req) s);
                  sc_do sc (λ _, s) ;; mret m);
  mret (rt_mean, thr_mean).

(** *** The branches *)
Definition try_quota (sc : loc) (quota seq : Z) (on_success : C unit) : C unit :=
  ret ← set_sc_quota_syscall sc quota seq;
  if negb (i32 ret =? 0) then mret tt
  else sc_write sc (set_quota_flag true) ;; on_success.
Definition book_take (sc : loc) (amount quota : Z) : C unit :=
  ec_decr_unallocated_rt amount ;; sc_write sc (set_quota quota) ;; sc_write sc flush ;; ec_incr_alloc_rt amount.
Definition book_give (sc : loc) (amount quota : Z) : C unit :=
  ec_incr_unallocated_rt amount ;; sc_write sc (set_quota quota) ;; sc_write sc flush ;; ec_decr_alloc_rt amount.
Definition book_lend (sc : loc) (amount quota : Z) : C unit :=
  ec_incr_overrun amount ;; sc_write sc (set_quota quota) ;; sc_write sc flush ;; ec_incr_alloc_rt amount.
Definition book_repay (sc : loc) (amount quota : Z) : C unit :=
  sc_write sc flush ;; ec_decr_overrun amount ;; sc_write sc (set_quota quota) ;; ec_decr_alloc_rt amount.

(** Lines 150-167. *)
Definition branch_idle (rx_quota seq : Z) (sc : loc) : C unit :=
  unalloc ← ec_get_cpu_unallocated_rt;
  let new_quota := Z.min unalloc 100000000 in
  let extra_rt := u64 (new_quota - rx_quota) in
  cwhen (0 <? extra_rt) (try_quota sc new_quota seq (book_take sc extra_rt new_quota)).

(** Lines 168-196. *)
Definition branch_overrun (rx_quota seq : Z) (sc : loc) : C unit :=
  fair ← ec_get_fair_cpu_share;
  let amnt_share_over := u64 (rx_quota - fair) in
  overrun ← ec_get_overrun;
  fair1 ← ec_get_fair_cpu_share;
  fair2 ← ec_get_fair_cpu_share;
  let percent_over := ddiv (dsub (dbl_of_Z rx_quota) (dbl_of_Z fair1)) (dbl_of_Z fair2) in
  to_sub ← (if dlt d1 percent_over
            then slice ← ec_get_cpu_slice; cdefined (dbl_to_u64 (dmul percent_over (dbl_of_Z slice)))
            else cdefined (dbl_to_u64 (dmul percent_over (dbl_of_Z amnt_share_over))));
  slice ← ec_get_cpu_slice;
  let to_sub := if to_sub <? slice / 2 then amnt_share_over else to_sub in
  let to_sub := Z.min overrun to_sub in
  let updated_quota := u64 (rx_quota - to_sub) in
  try_quota sc updated_quota seq (book_repay sc to_sub updated_quota).

(** Lines 197-243. [lacking] is the part of the gap both halves compute. *)
Definition lacking (amnt_share_lacking rx_quota : Z) (cap : C (Z → Z)) : C Z :=
  fair1 ← ec_get_fair_cpu_share;
  fair2 ← ec_get_fair_cpu_share;
  let percent_under := ddiv (dsub (dbl_of_Z fair1) (dbl_of_Z rx_quota)) (dbl_of_Z fair2) in
  slice ← ec_get_cpu_slice;
  if slice / 2 <? amnt_share_lacking then
    f ← cap; z ← cdefined (dbl_to_u64 (dmul percent_under (dbl_of_Z amnt_share_lacking))); mret (f z)
  else mret amnt_share_lacking.
Definition branch_fair (rx_quota seq : Z) (sc : loc) : C unit :=
  fair ← ec_get_fair_cpu_share;
  let amnt_share_lacking := u64 (fair - rx_quota) in
  unalloc ← ec_get_cpu_unallocated_rt;
  if 0 <? unalloc then
    to_add ← lacking amnt_share_lacking rx_quota (u ← ec_get_cpu_unallocated_rt; mret (Z.min u));
    let updated_quota := u64 (rx_quota + to_add) in
    try_quota sc updated_quota seq (book_take sc to_add updated_quota)
  else
    overrun ← lacking amnt_share_lacking rx_quota (mret (λ z, z));
    let updated_quota := u64 (rx_quota + overrun) in
    try_quota sc updated_quota seq (book_lend sc overrun updated_quota).

(** Lines 244-260. *)
Definition branch_throttled (rx_quota : Z) (thr_mean : double) (seq : Z) (sc : loc) : C unit :=
  unalloc ← ec_get_cpu_unallocated_rt;
  slice ← ec_get_cpu_slice;
  z ← cdefined (dbl_to_u64 (dmul (dmul (dbl_of_Z 20) thr_mean) (dbl_of_Z slice)));
  let extra_rt := Z.min unalloc z in
  cwhen (0 <? extra_rt)
    (let updated_quota := u64 (rx_quota + extra_rt) in
     try_quota sc updated_quota seq (book_take sc extra_rt updated_quota)).

(** Lines 261-277 and 278-294. *)
Definition shrink_to (rx_quota new_quota seq : Z) (sc : loc) : C unit :=
  slice ← ec_get_cpu_slice;
  let new_quota := Z.max slice new_quota in
  cwhen (negb (new_quota =? rx_quota))
    (try_quota sc new_quota seq (book_give sc (u64 (rx_quota - new_quota)) new_quota)).
Definition branch_unused (rx_quota seq : Z) (sc : loc) : C unit :=
  new_quota ← cdefined (ManagerCpu.four_fifths rx_quota);
  shrink_to rx_quota new_quota seq sc.
Definition branch_slack (rx_quota seq : Z) (sc : loc) : C unit :=
  shrink_to rx_quota (u64 (rx_quota - MAX_UNUSED_RT_IN_NS)) seq sc.

(** [b && c]: the right operand is only evaluated when the left one holds. *)
Definition and_then (b : bool) (c : C bool) : C bool := if b then c else mret false.

(** Lines 150-294: the conditions in their order, each with its own reads. *)
Definition report_adjust (idle_flag : bool) (rt_mean : Z) (thr_mean : double) (req : msg_t) (seq : Z)
    (sc : loc) : C unit :=
  let rx_quota := rsrc_amnt req in
  b ← and_then idle_flag (u ← ec_get_cpu_unallocated_rt; mret (0 <? u));
  if (b : bool) then branch_idle rx_quota seq sc else
  o ← ec_get_overrun;
  b ← and_then (0 <? o) (f ← ec_get_fair_cpu_share; mret (f <? rx_quota));
  if (b : bool) then branch_overrun rx_quota seq sc else
  f ← ec_get_fair_cpu_share;
  if (rx_quota <? f) && dlt d_0p5 thr_mean then branch_fair rx_quota seq sc else
  b ← and_then (dle d_0p1 thr_mean) (u ← ec_get_cpu_unallocated_rt; mret (0 <? u));
  if (b : bool) then branch_throttled rx_quota thr_mean seq sc else
  b ← and_then (dlt d_0p2 (ManagerCpu.percent_decr req)) (s ← ec_get_cpu_slice; mret (s <=? rx_quota));
  if (b : bool) then branch_unused rx_quota seq sc else
  b ← and_then (MAX_UNUSED_RT_IN_NS <? rt_mean) (s ← ec_get_cpu_slice; mret (s <? rx_quota));
  if (b : bool) then branch_slack rx_quota seq sc else mret tt.

(** [syscall_sequence_number] is read at the start and incremented, without a
    lock, at the end. *)
Definition get_seqno : C Z := own (gets syscall_sequence_number).
Definition incr_seqno : C unit :=
  n ← get_seqno; own (modify (upd_seqno (i64 (n + 1)))).

Definition handle_cpu_usage_report (now : Z) (req res : msg_t) : C (Z * msg_t) :=
  if negb (req_type req =? REQ_CPU) then mret (ALLOC_FAILED, res) else
  sc ← ec_get_sc_for_update (ContainerId_of (Types.cgroup_id req) (client_ip req));
  idle_flag ← report_seen now req sc;
  seq ← get_seqno;
  report_number req sc ;;
  matched ← report_mismatch (rsrc_amnt req) sc;
  if negb matched then mret (ALLOC_SUCCESS, with_request 1 res) else
  report_leak ;;
  '(rt_mean, thr_mean) ← report_stats req sc;
  report_adjust idle_flag rt_mean thr_mean req (u32 seq) sc ;;
  incr_seqno ;;
  mret (ALLOC_SUCCESS, with_request 1 res).

End Report.

(** ** Idle containers ([check_for_idle_containers], 41-73)

    The loop walks over the live table; the queue of an entry is read again at
    every [sc->back()], and an entry that has been erased meanwhile is a dangling
    pointer. *)
Section Idle.
Context {ENV : Env} {ORDER : HashOrder}.

Definition min_quota : Z := 30000000.
(** [sc->back()] of the entry with key [k]. *)
Definition back (k : key) : C loc :=
  own (m ← ec_get subcontainers; defined (e ← m !! k; last e.2)).

Definition idle_one (now : Z) (seq : Z) (k : key) : C Z :=
  sc ← back k;
  idle ← sc_read sc (check_if_idle now);
  if negb idle then mret seq else
  sc ← back k;
  idle_quota ← sc_read sc get_quota;
  if idle_quota =? min_quota then mret seq else
  sc ← back k;
  ret ← set_sc_quota_syscall sc min_quota seq;
  (if negb (i32 ret =? 0) then mret tt
   else
     sc ← back k; sc_write sc (set_quota_flag true) ;;
     ec_incr_unallocated_rt (u64 (idle_quota - min_quota)) ;;
     sc ← back k; sc_write sc (set_quota min_quota) ;;
     sc ← back k; sc_write sc flush ;;
     ec_decr_alloc_rt (u64 (idle_quota - min_quota))) ;;
  mret (u32 (seq + 1)).

Definition check_for_idle_containers (now : Z) (seq : Z) : C Z :=
  walk (λ seq kv, idle_one now seq kv.1) seq.

End Idle.
End ConcCpu.
