(* ===== verification/ConcMem.v ===== *)
(** * Memory, access by access ([src/Manager.cpp], 303-424, 509-572, 588-617)

    A memory request holds [memlock] from its first look at the pool until the
    new limit is recorded, on every path; the thread of a new pod, the periodic
    reclaim and the removal of a pod move pages without it. Reclaiming starts
    one task per container and then waits for all of them. *)
From S2P Require Import Prelude OmNet Float64 Window LocalStats SubContainer Agents CpuG MemG.
From S2P Require Import ElasticContainer World Types Json CAdvisor ECAPI ManagerCpu ManagerMem Deploy Conc ConcApi ConcCpu.
Import SubContainer ElasticContainer Conc ConcApi.

Module ConcMem.
Section Mem.
Context {ENV : Env} {ORDER : HashOrder}.

Definition reclaim (containerId : ContainerId) (subContainer : loc) : C Z :=
  mem_limit_pages ← sc_read subContainer SubContainer.get_mem_limit_in_pages;
  let mem_limit_bytes := page_to_byte mem_limit_pages in
  dock_id ← sc_read subContainer get_docker_id;
  mem_usage_bytes ← sc_get_memory_usage_in_bytes_cadvisor containerId dock_id;
  if mem_usage_bytes =? u64 (u64 (-1) * PAGE_SIZE) then mret 0 else
  if SAFE_MARGIN_BYTES <? u64 (mem_limit_bytes - mem_usage_bytes) then
    let resize_target_bytes := u64 (mem_usage_bytes + SAFE_MARGIN_BYTES) in
    is_max_mem_resized ← sc_resize_memory_limit_in_pages containerId (byte_to_page resize_target_bytes);
    if is_max_mem_resized =? 0 then
      let pages_reclaimed := byte_to_page (u64 (mem_limit_bytes - resize_target_bytes)) in
      c ← sc_read subContainer get_c_id;
      sc_set_memory_limit_in_pages c (byte_to_page resize_target_bytes) ;;
      mret pages_reclaimed
    else mret 0
  else mret 0.

(** The loop that starts the tasks, and the one that collects their results. *)
Definition launch_reclaim (client_fd : Z) (futures : list nat) (kv : key * ContainerId) : C (list nat) :=
  sc ← ConcCpu.back kv.1;
  fd ← sc_read sc get_fd;
  if fd =? client_fd then mret futures
  else
    sc ← ConcCpu.back kv.1;
    reclaimed ← async true (reclaim kv.2 sc);
    mret (futures ++ [reclaimed]).
Definition collect (ret : Z) (rec : nat) : C Z := r ← join rec; mret (u64 (ret + r)).
Definition handle_reclaim_memory (client_fd : Z) : C Z :=
  futures ← walk (launch_reclaim client_fd) [];
  cfold collect 0 futures.

(** Lines 340-361: the grant, up to the release of [memlock]. *)
Definition grant_mem (req res : msg_t) (memory_available : Z) : C (Z * msg_t) :=
  slice ← ec_get_memory_slice;
  ret ← (if slice <? u64 memory_available then ec_get_memory_slice else mret (u64 memory_available));
  ec_update_alloc_memory_in_pages ret ;;
  let res := with_rsrc_amnt (u64 (rsrc_amnt req + ret)) res in
  sc ← ec_get_sc_for_update (ContainerId_of (Types.cgroup_id req) (client_ip req));
  sc_write sc (set_mem_limit_in_pages (rsrc_amnt res)) ;;
  unlock memlock ;;
  mret (ALLOC_SUCCESS, with_request 0 res).
Definition handle_mem_req (req res : msg_t) (clifd : Z) : C (Z * msg_t) :=
  if negb (req_type req =? REQ_MEM) then mret (ALLOC_MEM_FAILED, with_rsrc_amnt 0 res) else
  lock memlock ;;
  u ← ec_get_unalloc_memory_in_pages;
  let memory_available := i64 u in
  if 0 <? memory_available then grant_mem req res memory_available
  else
    reclaimed_mem ← handle_reclaim_memory clifd;
    if 0 <? reclaimed_mem then
      cwhen (memory_available <? 0)
        (ec_incr_unalloc_memory_in_pages (u64 (i64 (memory_available * -1))) ;;
         ec_decr_alloc_memory_in_pages (u64 (i64 (memory_available * -1)))) ;;
      ec_update_reclaim_memory_in_pages reclaimed_mem ;;
      u ← ec_get_unalloc_memory_in_pages;
      grant_mem req res (i64 u)
    else
      unlock memlock ;;
      mret (ALLOC_MEM_FAILED, with_rsrc_amnt 0 res).

(** The thread of a new pod; it spins until the docker id is known. *)
Definition wait_docker_id (sc : loc) : C unit :=
  own (d ← sc_get sc get_docker_id; if bool_decide (d = "") then stop Blocked else mret tt).
Definition determine_mem_limit_for_new_pod (sc : loc) (clifd : Z) : C unit :=
  wait_docker_id sc ;;
  c ← sc_read sc get_c_id;
  mem_lim_bytes ← sc_get_memory_limit_in_bytes_cadvisor c;
  let sc_mem_limit_in_pages := byte_to_page mem_lim_bytes in
  unalloc ← ec_get_unalloc_memory_in_pages;
  (if sc_mem_limit_in_pages <=? unalloc then ec_update_alloc_memory_in_pages sc_mem_limit_in_pages
   else
   unalloc ← ec_get_unalloc_memory_in_pages;
   if unalloc =? 0 then mret tt
   else
   unalloc ← ec_get_unalloc_memory_in_pages;
   if unalloc <? sc_mem_limit_in_pages then
     reclaimed_mem ← handle_reclaim_memory clifd;
     ec_update_reclaim_memory_in_pages reclaimed_mem ;;
     unalloc ← ec_get_unalloc_memory_in_pages;
     if sc_mem_limit_in_pages <=? unalloc then ec_update_alloc_memory_in_pages sc_mem_limit_in_pages
     else
       c ← sc_read sc get_c_id;
       unalloc ← ec_get_unalloc_memory_in_pages;
       is_max_mem_resized ← sc_resize_memory_limit_in_pages c unalloc;
       cwhen (is_max_mem_resized =? 0) (ec_update_alloc_memory_in_pages sc_mem_limit_in_pages)
   else mret tt) ;;
  sc_write sc (set_mem_limit_in_pages sc_mem_limit_in_pages).

(** [run]: the wait for the application, and one round of the periodic reclaim. *)
Definition run_wait (num_containers : Z) : C unit :=
  via_ec (ok ← gets (ManagerMem.run_ready num_containers); if (ok : bool) then mret tt else stop Blocked).
Definition run_round : C unit :=
  ret ← walk (λ ret kv, sc ← ConcCpu.back kv.1; r ← reclaim kv.2 sc; mret (u64 (ret + r))) 0;
  cwhen (0 <? ret) (ec_update_reclaim_memory_in_pages ret).

End Mem.
End ConcMem.
