(* ===== verification/ConcManager.v ===== *)
(** * The manager's threads ([src/Manager.cpp], [src/Server.cpp],
      [src/DeployServerGRPC/], access by access)

    Registration and dispatch, the connection and UDP threads, the three RPCs of
    the deployment service with their locks and the condition variable, and
    [Manager::start] with the order in which it starts its threads. What the
    network delivers is input: the bytes of every connection, the datagrams, the
    RPCs and the times of the idle passes; loops that never end run over these
    finite inputs. *)
From S2P Require Import Prelude OmNet Float64 Window LocalStats SubContainer Agents CpuG MemG.
From S2P Require Import ElasticContainer World Types Json CAdvisor ECAPI ManagerCpu ManagerMem Manager Server Deploy.
From S2P Require Import Conc ConcApi ConcCpu ConcMem.
Import SubContainer ElasticContainer Conc ConcApi.

Module ConcManager.
Section Threads.
Context {ENV : Env} {ORDER : HashOrder}.

(** ** Registration and dispatch *)

(** Lines 457-507 of [Manager.cpp]; the last access starts the thread that sets
    the memory limit. *)
Definition agent_of_sc (sc : loc) : C (option AgentClient.AgentClient) :=
  c ← sc_read sc get_c_id;
  own (gets (λ w, AgentClientDB.get_agent_client_by_ip (server_ip c) (w_acdb w))).
Definition handle_add_cgroup_to_ec (now : Z) (req res : msg_t) (ip fd : Z) : C (Z * msg_t) :=
  '(update_quota, quota) ← determine_quota_for_new_pod (rsrc_amnt req);
  sc ← create_new_sc now (Types.cgroup_id req) ip fd quota (request req);
  ret ← insert_sc sc;
  update_fair_cpu_share ;;
  target_agent ← agent_of_sc sc;
  match target_agent with
  | Some ac =>
      lock cv_mtx ;;
      c ← sc_read sc get_c_id;
      via_ec (ec_do (add_to_sc_ac_map c (Some ac))) ;;
      sc_write sc (set_sc_inserted true) ;;
      notify_one ;;
      unlock cv_mtx
  | None => mret tt
  end ;;
  cwhen (negb (update_quota =? 0)) (set_sc_quota_syscall sc quota 13 ;; mret tt) ;;
  spawn (ConcMem.determine_mem_limit_for_new_pod sc fd) ;;
  mret (ret, with_request (u32 (request res + 1)) res).

Definition handle_req (now : Z) (req res : msg_t) (host_ip clifd : Z) : C (Z * msg_t) :=
  if req_type req =? REQ_MEM then
    '(ret, res) ← ConcMem.handle_mem_req req res clifd; mret (i32 ret, res)
  else if req_type req =? REQ_CPU then
    '(ret, res) ← ConcCpu.handle_cpu_usage_report now req res; mret (i32 ret, res)
  else if req_type req =? REQ_INIT then
    '(ret, res) ← handle_add_cgroup_to_ec now req res host_ip clifd; mret (i32 ret, res)
  else mret (FAILED, res).

(** ** Connections ([Server.cpp], 114-164, 166-235); the replies themselves are
    the subject of [Server]. *)
Fixpoint tcp_loop (client_ip client_fd : Z) (buff_in : list Z) (ins : list Server.input) : C unit :=
  match ins with
  | [] => mret tt
  | i :: ins =>
      let buff_in := Server.poke_ip client_ip (Server.overlay (Server.in_bytes i) buff_in) in
      let req := msg_of_bytes buff_in in
      let res := msg_copy (Server.in_garbage i) req in
      '(ret, res) ← handle_req (Server.in_now i) req res
        (ip4_addr.to_uint32 (ip4_addr.from_net client_ip)) client_fd;
      if Server.tcp_writes (u64 ret) res && negb (Server.in_write_ok i) then mret tt
      else tcp_loop client_ip client_fd buff_in ins
  end.
Definition handle_client_reqs_tcp (client_ip client_fd : Z) (ins : list Server.input) : C unit :=
  tcp_loop client_ip client_fd (replicate HANDLE_REQ_BUFF 0) ins.
Definition serve_tcp (conns : list (Z * Z * list Server.input)) : C unit :=
  cfold (λ _ '(client_ip, client_fd, ins), spawn (handle_client_reqs_tcp client_ip client_fd ins) ;; mret tt) tt conns.

Definition handle_client_reqs_udp (client_ip client_fd now : Z) (datagram : option (list Z)) (garbage : Z) : C unit :=
  let bytes := match datagram with Some b => b | None => [] end in
  let req := msg_of_bytes (Server.overlay bytes (replicate HANDLE_REQ_BUFF 0)) in
  let req := set_ip_from_host (ip4_addr.to_uint32 (Types.client_ip req)) req in
  handle_req now req (msg_copy garbage req) (ip4_addr.to_uint32 (ip4_addr.from_net client_ip)) client_fd ;; mret tt.
Definition serve_udp (client_ip udp_fd : Z) (datagrams : list (Z * option (list Z) * Z)) : C unit :=
  cfold (λ _ '(now, datagram, garbage), handle_client_reqs_udp client_ip udp_fd now datagram garbage) tt datagrams.

(** ** The deployment service *)
Section Service.
Context (inet_addr : string → Z).
Import Deploy.

(** Lines 136-175 of [DeployerExportServiceImpl.cpp]: the id is parsed while
    [dep_pod_lock] is held. *)
Definition insertPodSpec (pod : ExportPodSpec) : C Z :=
  lock dep_pod_lock ;;
  sc_id ← svc (get_pod_id inet_addr pod);
  svc (modify (push_pod sc_id (pod_docker_id pod))) ;;
  unlock dep_pod_lock ;;
  lock dockId_sc_lock ;;
  r ← svc (docks ← gets dockerToSubContainer;
           match docks !! pod_docker_id pod with
           | Some _ => mret (-3)
           | None => modify (with_docks (<[pod_docker_id pod := sc_id]> docks)) ;; mret 0
           end);
  unlock dockId_sc_lock ;;
  mret r.
Definition agent_known (sc_id : ContainerId) (d : Service) : bool :=
  bool_decide (is_Some (sc_ac_map (w_ec (d_w d)) !! key_of sc_id)).
Definition scIdToDockerIdMatcherThread (sc_id : ContainerId) (dock_id : string) : C unit :=
  lock cv_mtx ;;
  wait (agent_known sc_id) ;;
  lock cv_mtx_dock ;;
  sc ← ec_get_sc_for_update sc_id;
  sc_write sc (set_docker_id dock_id) ;;
  via_ec (ec_find (get_subcontainer_back sc_id)) ;;
  unlock cv_mtx_dock ;;
  unlock cv_mtx.
Definition ReportPodSpec (pod : ExportPodSpec) : C (Status * PodSpecReply) :=
  ret ← insertPodSpec pod;
  let status := if ret =? 0 then success else fail in
  (if bool_decide (status = "thx") then
     sc_id ← svc (get_pod_id inet_addr pod); scIdToDockerIdMatcherThread sc_id (pod_docker_id pod)
   else mret tt) ;;
  mret (OK, setPodSpecReply pod status).

Definition ReportAppSpec (appSpec : ExportAppSpec) : C (Status * AppSpecReply) :=
  count (Cpu (cpu_g.SetTotal (u64 (cpu_limit appSpec * 100000)))) ;;
  t ← ec_get_total_cpu;
  count (Cpu (cpu_g.SetUnalloc t)) ;;
  let pages := u64 (u64 (mem_limit appSpec * 1024) * 1024) / 4096 in
  ec_set_memory_limit_in_pages pages ;;
  ec_set_unalloc_memory_in_pages pages ;;
  ec_set_alloc_memory_in_pages 0 ;;
  mret (OK, AppReply (app_name appSpec) (cpu_limit appSpec) (mem_limit appSpec) success).

Definition locked {A} (l : mutex) (m : M Service A) : C A :=
  lock l ;; r ← svc m; unlock l ;; mret r.
(** The table entry and, when it was not the only container of the id, the
    object; [cont] is deleted after the queue was popped. *)
Definition deleteFromSubcontainersMap (sc_id : ContainerId) : C Z :=
  lock sc_lock ;;
  r ← via_ec (ec_run (λ e, let '(r, f, e') := ec_delete_from_subcontainers_map sc_id e in ((r, f), e')));
  let '(ret, freed) := r in
  match freed with Some p => own (free_sc p) | None => mret tt end ;;
  unlock sc_lock ;;
  mret ret.
Definition DeletePod (dock_id : string) : C (Status * DeletePodReply) :=
  sc_id ← locked dockId_sc_lock (gets (getScIdFromDockerId dock_id));
  if SubContainer.cgroup_id sc_id =? 0 then mret (CANCELLED, setDeletePodReply dock_id fail) else
  sc ← get_subcontainer_front sc_id;
  sc_mem_limit ← sc_read sc SubContainer.get_mem_limit_in_pages;
  sc ← get_subcontainer_front sc_id;
  quota ← sc_read sc get_quota;
  s1 ← locked cv_mtx (on_w (deleteFromScAcMap sc_id));
  s2 ← deleteFromSubcontainersMap sc_id;
  s3 ← locked dep_pod_lock (deleteFromDeployedPodsMap sc_id);
  s4 ← locked dockId_sc_lock (deleteFromDockerIdScMap dock_id);
  update_fair_cpu_share ;;
  ec_decr_alloc_rt quota ;;
  ec_incr_unallocated_rt quota ;;
  ec_incr_unalloc_memory_in_pages sc_mem_limit ;;
  ec_decr_alloc_memory_in_pages sc_mem_limit ;;
  let ok := bool_decide (code s1 = success ∧ code s2 = success ∧ code s3 = success ∧ code s4 = success) in
  mret (OK, setDeletePodReply dock_id (if (ok : bool) then success else fail)).

(** gRPC runs every call on a thread of its own. *)
Inductive call := App (a : ExportAppSpec) | Pod (p : ExportPodSpec) | Del (dock_id : string).
Definition serve_call (c : call) : C unit :=
  match c with
  | App a => ReportAppSpec a ;; mret tt
  | Pod p => ReportPodSpec p ;; mret tt
  | Del i => DeletePod i ;; mret tt
  end.
Definition serveGrpcDeployExport (calls : list call) : C unit :=
  cfold (λ _ c, async true (λ κ, serve_call c (λ _, κ 0)) ;; mret tt) tt calls.

(** ** [Manager::start] ([Manager.cpp], 18-38) *)
Record inputs := Inputs {
  in_conns : list (Z * Z * list Server.input);
  in_udp : Z * Z * list (Z * option (list Z) * Z);
  in_calls : list call;
  in_passes : list Z;
  in_rounds : nat;
  in_containers : Z;
}.
Definition idle_thread (nows : list Z) : C unit :=
  cfold (λ seq now, ConcCpu.check_for_idle_containers now seq) 0 nows ;; mret tt.
Definition run (num_containers : Z) (rounds : nat) : C unit :=
  ConcMem.run_wait num_containers ;;
  cfold (λ _ _, ConcMem.run_round) tt (replicate rounds tt).
Definition create_ec (ecapi_id : Z) : C unit := λ κ, Create (ElasticContainer_of ecapi_id) (κ tt).
Definition start (ecapi_id : Z) (i : inputs) : C unit :=
  event_handler_thread_tcp ← spawn (serve_tcp (in_conns i));
  event_handler_thread_udp ← spawn (serve_udp (in_udp i).1.1 (in_udp i).1.2 (in_udp i).2);
  create_ec ecapi_id ;;
  grpc_handler_thread ← spawn (serveGrpcDeployExport (in_calls i));
  spawn (idle_thread (in_passes i)) ;;
  application_thread ← spawn (run (in_containers i) (in_rounds i));
  join grpc_handler_thread ;;
  join event_handler_thread_tcp ;;
  join event_handler_thread_udp ;;
  join application_thread ;; mret tt.

End Service.
End Threads.
End ConcManager.
