(* ===== verification/ConcLedger.v ===== *)
(** * The books under every schedule

    Every handler moves runtime and pages in two accesses, one to the pool and
    one to the allocation, and between the two every other thread may run. A
    program [owes] what it has still to book; the sum of the balance and of what
    all threads owe does not change, whatever the schedule, as long as every
    single update is [exact]: a decrement is covered by its counter and a
    drained pool still holds what was read. So when all threads are done the
    books are as at the start, plus the corrections of supposed leaks: the races
    of [ConcRaces] are the only ways in which runtime or pages appear or get
    lost. *)
From S2P Require Import Prelude OmNet Float64 Window LocalStats SubContainer Agents CpuG MemG.
From S2P Require Import ElasticContainer World Types Json CAdvisor ECAPI ManagerCpu ManagerMem Manager Server Deploy System.
From S2P Require Import Conc ConcApi ConcCpu ConcMem ConcManager.
Import SubContainer ElasticContainer Conc ConcApi.

Module ConcLedger.
Import Deploy.

(** ** The two ledgers *)
Inductive ledger := CpuBooks | MemBooks.

(** Runtime beyond what exists and was lent, and pages in the two pools. *)
Definition balance (L : ledger) (e : ElasticContainer) : Z :=
  match L with CpuBooks => cpu_g.imbalance (_cpu e) | MemBooks => mem_g.tracked (_mem e) end.
(** What an update is meant to add to the balance; arguments are read as signed
    numbers, as the code that passes a wrapped difference means them. *)
Definition nominal (L : ledger) (o : counter_op) : Z :=
  match L, o with
  | CpuBooks, Cpu (cpu_g.IncrUnalloc z) | CpuBooks, Cpu (cpu_g.IncrAlloc z) | CpuBooks, Cpu (cpu_g.DecrOverrun z) => i64 z
  | CpuBooks, Cpu (cpu_g.DecrUnalloc z) | CpuBooks, Cpu (cpu_g.DecrAlloc z) | CpuBooks, Cpu (cpu_g.IncrOverrun z) => - i64 z
  | CpuBooks, Drain z => - i64 z
  | MemBooks, Mem (mem_g.IncrUnalloc z) | MemBooks, Mem (mem_g.IncrAlloc z) => i64 z
  | MemBooks, Mem (mem_g.DecrUnalloc z) | MemBooks, Mem (mem_g.DecrAlloc z) => - i64 z
  | _, _ => 0
  end.
(** A leak correction adds to the runtime without anybody giving it up. *)
Definition credit (L : ledger) (z : Z) : Z := match L with CpuBooks => z | MemBooks => 0 end.
Definition repaired_by (o : counter_op) : Z := match o with Repair z => i64 z | _ => 0 end.
(** Amounts and counters below 2^60, where the mixed arithmetic is exact. *)
Definition modest (z : Z) : bool := (-1152921504606846976 <? z) && (z <? 1152921504606846976).
Definition modest_pools (e : ElasticContainer) : bool :=
  modest (cpu_g.unallocated_rt (_cpu e)) && modest (cpu_g.alloc_rt (_cpu e)) && modest (cpu_g.overrun (_cpu e)) &&
  modest (mem_g.unallocated_memory_in_pages (_mem e)) && modest (mem_g.allocated_memory_in_pages (_mem e)).
(** The counter an update writes can take it: it does not fall below zero, and a
    pool that is drained holds what its caller read. Nothing that overwrites a
    counter is covered. *)
Definition covered (o : counter_op) (e : ElasticContainer) : bool :=
  let c := _cpu e in
  let m := _mem e in
  modest_pools e &&
  match o with
  | Cpu (cpu_g.IncrUnalloc z) | Repair z => modest (i64 z) && (0 <=? cpu_g.unallocated_rt c + i64 z)
  | Cpu (cpu_g.DecrUnalloc z) => modest (i64 z) && (0 <=? cpu_g.unallocated_rt c - i64 z)
  | Cpu (cpu_g.IncrAlloc z) => modest (i64 z) && (0 <=? cpu_g.alloc_rt c + i64 z)
  | Cpu (cpu_g.DecrAlloc z) => modest (i64 z) && (0 <=? cpu_g.alloc_rt c - i64 z)
  | Cpu (cpu_g.IncrOverrun z) => modest (i64 z) && (0 <=? cpu_g.overrun c + i64 z)
  | Cpu (cpu_g.DecrOverrun z) => modest (i64 z) && (0 <=? cpu_g.overrun c - i64 z)
  | Drain z => cpu_g.unallocated_rt c =? z
  | Mem (mem_g.IncrUnalloc z) => modest (i64 z)
  | Mem (mem_g.IncrAlloc z) => modest (i64 z)
  | Mem (mem_g.DecrUnalloc z) => modest (i64 z) && (0 <=? mem_g.unallocated_memory_in_pages m - i64 z)
  | Mem (mem_g.DecrAlloc z) => modest (i64 z) && (0 <=? mem_g.allocated_memory_in_pages m - i64 z)
  | Cpu (cpu_g.SetSlice _) | Mem (mem_g.SetSlice _) | Mem (mem_g.SetLimit _)
  | Mem (mem_g.IncrLimit _) | Mem (mem_g.DecrLimit _) => true
  | _ => false
  end.

Lemma sat_sub_signed a d :
  -1152921504606846976 < a < 1152921504606846976 → -1152921504606846976 < i64 d < 1152921504606846976 →
  0 ≤ a - i64 d → cpu_g.sat_sub a d = a - i64 d.
Proof. intros. unfold cpu_g.sat_sub. zcase; wrap_lia. Qed.
Lemma u64_signed a d :
  -1152921504606846976 < a < 1152921504606846976 → -1152921504606846976 < i64 d < 1152921504606846976 →
  0 ≤ a + i64 d → u64 (a + d) = a + i64 d.
Proof. wrap_lia. Qed.
Lemma i64_signed a d :
  -1152921504606846976 < a < 1152921504606846976 → -1152921504606846976 < i64 d < 1152921504606846976 →
  i64 (a + d) = a + i64 d.
Proof. wrap_lia. Qed.
Lemma i64_signed_sub a d :
  -1152921504606846976 < a < 1152921504606846976 → -1152921504606846976 < i64 d < 1152921504606846976 →
  i64 (a - d) = a - i64 d.
Proof. wrap_lia. Qed.
Lemma modest_spec z : modest z = true ↔ -1152921504606846976 < z < 1152921504606846976.
Proof. unfold modest. rewrite andb_true_iff, !Z.ltb_lt. done. Qed.

(** A covered update changes both balances by what it is meant to. *)
Lemma covered_balance L o e :
  covered o e = true → balance L (counted o e) = balance L e + nominal L o + credit L (repaired_by o).
Proof.
  unfold covered, modest_pools. rewrite !andb_true_iff, !modest_spec. intros [((((Hu & Ha) & Ho) & Hmu) & Hma) H].
  destruct L, o as [o|o|z|z]; simpl; try lia; try destruct o; simpl in *; try done;
    rewrite ?andb_true_iff, ?modest_spec, ?Z.leb_le, ?Z.eqb_eq in H;
    unfold cpu_g.imbalance, mem_g.tracked; simpl;
    rewrite ?cpu_g.decr_unallocated_rt_eq, ?cpu_g.decr_overrun_eq, ?cpu_g.decr_alloc_rt_eq; simpl.
  all: try (unfold mem_g.decr_memory_limit_in_pages; destruct (_ <? _); simpl; lia).
  all: try (rewrite ?sat_sub_signed, ?u64_signed, ?i64_signed, ?i64_signed_sub, ?(i64_small (cpu_g.unallocated_rt _))
    by wrap_lia; lia).
  all: try (rewrite i64_signed_sub by lia; zcase; lia).
  all: subst; rewrite i64_small by wrap_lia; lia.
Qed.

(** ** What a program has still to book *)

(** Accesses that leave the pools alone. *)
Definition same_pools (d d' : Service) : Prop :=
  _cpu (w_ec (d_w d')) = _cpu (w_ec (d_w d)) ∧ _mem (w_ec (d_w d')) = _mem (w_ec (d_w d)).
#[global] Instance same_pools_preorder : PreOrder same_pools.
Proof. split; [done|]. intros d1 d2 d3 [? ?] [? ?]. split; congruence. Qed.

(** [owes L d p]: on every path to its end, whatever the accesses return, [p]
    adds up to [d] in ledger [L], and what it starts adds up to nothing. *)
Fixpoint owes (L : ledger) (d : Z) (p : prog) : Prop :=
  match p with
  | Return _ => d = 0
  | Step _ m k => keeps same_pools m ∧ ∀ b, owes L d (k b)
  | Count o k => owes L (d - nominal L o) k
  | Lock _ k | Unlock _ k | Wait _ k | Notify k => owes L d k
  | Create _ _ => False
  | Async _ task k => owes L 0 task ∧ ∀ t, owes L d (k t)
  | Join _ k => ∀ v, owes L d (k v)
  end.
Definition thread_owes (L : ledger) (th : thread) (d : Z) : Prop :=
  match t_body th with
  | Running p => owes L d p
  | Finished (Ok _) => d = 0
  | Finished (Fail _) => True
  end.

(** The update a move makes, if it makes one, is covered. *)
Definition next_count (mv : move) (c : config) : option counter_op :=
  match mv with
  | Run t _ => match threads c !! t with Some (Thr _ (Running (Count o _))) => Some o | _ => None end
  | Spurious _ => None
  end.
Definition covered_move (mv : move) (c : config) : bool :=
  match next_count mv c with Some o => covered o (w_ec (c_w (c_st c))) | None => true end.
Definition covered_step (c c' : config) : Prop := ∃ mv, exec mv c = Some c' ∧ covered_move mv c = true.

Definition sum (ds : list Z) : Z := zsum (λ d, d) ds.
(** Balance and debts add up to [b] and the corrections. *)
Definition kept (L : ledger) (b : Z) (c : config) : Prop :=
  ∃ ds, Forall2 (thread_owes L) (threads c) ds ∧
    balance L (w_ec (c_w (c_st c))) + sum ds = b + credit L (c_repaired c).

Lemma owed_insert ds t d d' : ds !! t = Some d → sum (<[t := d']> ds) = sum ds - d + d'.
Proof.
  revert t. unfold sum. induction ds as [|x ds IH]; intros [|t]; simpl; try done; [intros [= ->]; lia|].
  intros H. rewrite (IH _ H). lia.
Qed.

(** A move of thread [t] that changes its debt from [d] to [d'] and the balance
    by the difference. *)
Lemma kept_body L b c c' t th bd ds d d' :
  Forall2 (thread_owes L) (threads c) ds → balance L (w_ec (c_w (c_st c))) + sum ds = b + credit L (c_repaired c) →
  threads c !! t = Some th → ds !! t = Some d → thread_owes L (Thr (catches th) bd) d' →
  threads c' = <[t := Thr (catches th) bd]> (threads c) →
  balance L (w_ec (c_w (c_st c'))) - credit L (c_repaired c') =
    balance L (w_ec (c_w (c_st c))) - credit L (c_repaired c) + d - d' →
  kept L b c'.
Proof.
  intros HF Hsum Ht Hd Hth E Hb. exists (<[t := d']> ds). rewrite E. split.
  - by apply Forall2_insert.
  - rewrite (owed_insert _ _ _ _ Hd). lia.
Qed.

(** A state change that leaves threads, pools and corrections alone. *)
Lemma kept_same L b c c' :
  kept L b c → threads c' = threads c → c_repaired c' = c_repaired c →
  same_pools (c_svc (c_st c)) (c_svc (c_st c')) → kept L b c'.
Proof.
  intros (ds & HF & Hs) Et Er [Ec Em]. exists ds. rewrite Et, Er. split; [done|].
  replace (balance L (w_ec (c_w (c_st c')))) with (balance L (w_ec (c_w (c_st c)))); [done|].
  unfold balance, c_w. by rewrite Ec, Em.
Qed.
Lemma same_pools_balance L d d' : same_pools d d' → balance L (w_ec (d_w d')) = balance L (w_ec (d_w d)).
Proof. intros [Ec Em]. unfold balance. by rewrite Ec, Em. Qed.

Section Preservation.
Variables (L : ledger) (b : Z) (c : config) (t pick : nat) (cat : bool) (p : prog) (ds : list Z) (d : Z).
Hypotheses (HF : Forall2 (thread_owes L) (threads c) ds)
  (Hsum : balance L (w_ec (c_w (c_st c))) + sum ds = b + credit L (c_repaired c))
  (Ht : threads c !! t = Some (Thr cat (Running p))) (Hd : ds !! t = Some d) (Ho : owes L d p).

Lemma kept_here : kept L b c.
Proof. by exists ds. Qed.

(** Thread [t] goes on with [p'], which owes [d'], in state [s']. *)
Lemma kept_go bd d' s' :
  thread_owes L (Thr cat bd) d' →
  balance L (w_ec (c_w s')) = balance L (w_ec (c_w (c_st c))) + d - d' →
  kept L b (set_body t (Thr cat (Running p)) bd (set_st s' c)).
Proof. intros Hth Hb. eapply kept_body; eauto. simpl. lia. Qed.

(** Thread [t] stops after an access that leaves the pools alone. *)
Lemma kept_fail f s' :
  same_pools (c_svc (c_st c)) (c_svc s') →
  kept L b (fail_thread t (Thr cat (Running p)) f (set_st s' c)).
Proof.
  intros Hp. pose proof (same_pools_balance L _ _ Hp) as Hb.
  assert (kept L b (set_st s' c)) by (eapply kept_same; eauto using kept_here).
  assert (kept L b (set_body t (Thr cat (Running p)) (Finished (Fail Throw)) (set_st s' c))).
  { apply (kept_go _ d); [done|]. unfold c_w. lia. }
  destruct f; simpl; try done; try by (apply (kept_same L b c); [apply kept_here|..]).
  case_match; [done|]. apply (kept_same L b c); [apply kept_here|done..].
Qed.

End Preservation.

Lemma set_st_id c : set_st (c_st c) c = c.
Proof. by destruct c. Qed.

Lemma kept_exec L b c t pick cat p c' :
  kept L b c → threads c !! t = Some (Thr cat (Running p)) →
  exec_thread t pick (Thr cat (Running p)) p c = Some c' →
  (∀ o k, p = Count o k → covered o (w_ec (c_w (c_st c))) = true) → kept L b c'.
Proof.
  intros Hk Ht E Hcov. pose proof Hk as (ds & HF & Hsum).
  destruct (Forall2_lookup_l _ _ _ _ _ HF Ht) as (d & Hd & Ho).
  pose proof (kept_go L b c t cat p ds d HF Hsum Ht Hd) as Hgo.
  pose proof (kept_fail L b c t cat p ds d HF Hsum Ht Hd) as Hfail.
  assert (Hdie : ∀ f, kept L b (die f c)) by (intros f; by eapply kept_same).
  assert (Hstay : ∀ bd d', thread_owes L (Thr cat bd) d' → d' = d → kept L b (set_body t (Thr cat (Running p)) bd c)).
  { intros bd d' Hth ->. rewrite <-(set_st_id c) at 1. by apply (Hgo _ d); [|lia]. }
  unfold exec_thread in E. destruct p as [v|B ec m k|o k|l k|l k|pred k|k|e k|cat' task k|u k]; unfold thread_owes in Ho; simpl in Ho.
  - injection E as <-. subst d. by apply (Hstay _ 0).
  - destruct (ec && _); [by injection E as <-|]. destruct Ho as [Hm Hok]. specialize (Hm (c_svc (c_st c))).
    destruct (m (c_svc (c_st c))) as [[x|f] d']; injection E as <-; [|by apply Hfail].
    apply (Hgo _ d); [apply Hok|]. pose proof (same_pools_balance L _ _ Hm). unfold c_w; simpl in *. lia.
  - destruct (negb _); [by injection E as <-|]. pose proof (covered_balance L o _ (Hcov _ _ eq_refl)) as Hb.
    injection E as <-. set (s' := on_ec (counted o) (c_st c)).
    assert (Hs' : w_ec (c_w s') = counted o (w_ec (c_w (c_st c)))) by done.
    eapply (kept_body L b c _ t _ (Running k) ds d (d - nominal L o)); eauto; [by destruct o|].
    destruct o; simpl in Hb |- *; unfold c_w in *; simpl in *; rewrite Hb; destruct L; simpl; lia.
  - destruct (acquire l t (c_st c)) as [s'|] eqn:El; [|done]. injection E as <-. apply (Hgo _ d); [done|].
    unfold acquire in El. destruct (c_locks _ !! l); [done|]. injection El as <-. unfold c_w; simpl. lia.
  - case_bool_decide; injection E as <-; [|done]. apply (Hgo _ d); [done|]. unfold c_w; simpl. lia.
  - destruct (wait_cv pred t (c_st c)) as [[[] s']|] eqn:Ew; [| |done]; injection E as <-;
      (assert (c_svc s' = c_svc (c_st c)) as Hsv; [unfold wait_cv in Ew; repeat case_match; by simplify_eq|]).
    + apply (Hgo _ d); [done|]. unfold c_w. rewrite Hsv. lia.
    + eapply kept_same; eauto. simpl. by rewrite Hsv.
  - injection E as <-. apply (Hgo _ d); [done|]. unfold c_w; simpl. lia.
  - done.
  - injection E as <-. destruct Ho as [H0 Hk']. destruct (Hstay (Running (k (length (threads c)))) d) as (ds' & HF' & Hs').
    { apply Hk'. } { done. }
    exists (ds' ++ [0]). split; [by apply Forall2_app; [|constructor; [|constructor]]|].
    unfold sum in *. rewrite zsum_app. simpl in *. lia.
  - destruct (threads c !! u) as [[cu [q|[v|f]]]|]; try done; injection E as <-.
    + apply (Hstay _ d); [apply Ho|done].
    + rewrite <-(set_st_id c). by apply Hfail.
Qed.

Lemma kept_step L b c c' : covered_step c c' → kept L b c → kept L b c'.
Proof.
  intros (mv & E & Hcov) Hk. unfold exec in E. destruct (c_dead c); [done|]. destruct mv as [t pick|t].
  - destruct (threads c !! t) as [[cat [p|o]]|] eqn:Ht; try done.
    eapply kept_exec; eauto. intros o k ->. unfold covered_move, next_count in Hcov. by rewrite Ht in Hcov.
  - case_bool_decide; [|done]. injection E as <-. by eapply kept_same.
Qed.
Lemma kept_rtc L b c c' : rtc covered_step c c' → kept L b c → kept L b c'.
Proof. induction 1; eauto using kept_step. Qed.

(** ** The handlers owe nothing *)

Definition same_wpools (w w' : World) : Prop := _cpu (w_ec w') = _cpu (w_ec w) ∧ _mem (w_ec w') = _mem (w_ec w).
#[global] Instance same_wpools_preorder : PreOrder same_wpools.
Proof. split; [done|]. intros w1 w2 w3 [? ?] [? ?]. split; congruence. Qed.

Lemma books_on_w {A} (m : M World A) : keeps same_wpools m → keeps same_pools (on_w m).
Proof. intros H d. specialize (H (d_w d)). unfold on_w. by destruct (m (d_w d)) as [o w]. Qed.
Lemma keeps_load p : keeps same_wpools (load p).
Proof. intros w. unfold load. by destruct (w_heap w !! p). Qed.
Lemma books_sc_do p f : keeps same_wpools (sc_do p f).
Proof. apply keeps_bind; [apply _|apply keeps_load|]. intros s w. done. Qed.
Lemma books_sc_get {A} p (f : SubContainer → A) : keeps same_wpools (sc_get p f).
Proof. apply keeps_bind; [apply _|apply keeps_load|]. intros s w. done. Qed.
Lemma books_ec_get {A} (f : ElasticContainer → A) : keeps same_wpools (ec_get f).
Proof. done. Qed.
Lemma books_ec_find {A} (f : ElasticContainer → outcome A) : keeps same_wpools (ec_find f).
Proof. done. Qed.
Lemma books_defined {A} (o : option A) : keeps same_wpools (defined o).
Proof. by destruct o. Qed.
Lemma books_rpc {A} (m : M (list event) A) : keeps same_wpools (rpc m).
Proof. intros w. unfold rpc. by destruct (m (w_trace w)). Qed.
Lemma keeps_ec_do f : (∀ e, _cpu (f e) = _cpu e ∧ _mem (f e) = _mem e) → keeps same_wpools (ec_do f).
Proof. intros H w. apply H. Qed.
Lemma keeps_ec_run {A} (f : ElasticContainer → A * ElasticContainer) :
  (∀ e, _cpu (f e).2 = _cpu e ∧ _mem (f e).2 = _mem e) → keeps same_wpools (ec_run f).
Proof. intros H w. specialize (H (w_ec w)). unfold ec_run. by destruct (f (w_ec w)). Qed.
Lemma keeps_agent_client id : keeps same_wpools (ec_run (get_corres_agent_client id)).
Proof. apply keeps_ec_run. intros e. unfold get_corres_agent_client. by destruct (sc_ac_map e !! _) as [[? ?]|]. Qed.
Lemma keeps_free_sc p : keeps same_wpools (free_sc p).
Proof. apply keeps_bind; [apply _|apply keeps_load|]. intros s w. done. Qed.

(** [net L x c]: [c] adds up to [x] before it goes on. *)
Definition net (L : ledger) (x : Z) {A} (c : C A) : Prop := ∀ κ d, (∀ a, owes L (d - x) (κ a)) → owes L d (c κ).

Section Net.
Context (L : ledger).

Lemma net_ret {A} (a : A) : net L 0 (mret a).
Proof. intros κ d H. specialize (H a). by rewrite Z.sub_0_r in H. Qed.
Lemma net_bind {A B} x y z (c : C A) (k : A → C B) :
  net L x c → (∀ a, net L y (k a)) → z = x + y → net L z (c ≫= k).
Proof.
  intros Hc Hk -> κ d H. apply Hc. intros a. apply Hk. intros b. specialize (H b).
  by replace (d - x - y) with (d - (x + y)) by lia.
Qed.
(** Nothing before the rest, and a booking that the rest settles. *)
Lemma net_next {A B} x (c : C A) (k : A → C B) : net L 0 c → (∀ a, net L x (k a)) → net L x (c ≫= k).
Proof. intros. by eapply net_bind. Qed.
Lemma net_count o : net L (nominal L o) (count o).
Proof. intros κ d H. apply (H tt). Qed.
Lemma net_booked {A} x o (k : unit → C A) : net L (x - nominal L o) (k tt) → net L x (count o ≫= k).
Proof. intros H. eapply net_bind; [apply net_count|intros []; exact H|lia]. Qed.
Lemma net_step {A} ec (m : M Service A) : keeps same_pools m → net L 0 (Step ec m : C A).
Proof. intros Hm κ d H. split; [done|]. intros b. specialize (H b). by rewrite Z.sub_0_r in H. Qed.
Lemma net_plain (f : prog → prog) : (∀ d p, owes L d p → owes L d (f p)) → net L 0 ((λ κ, f (κ tt)) : C unit).
Proof. intros Hf κ d H. apply Hf. specialize (H tt). by rewrite Z.sub_0_r in H. Qed.
Lemma net_async b (task : C Z) : net L 0 task → net L 0 (async b task).
Proof.
  intros Ht κ d H. split; [by apply Ht|]. intros t. specialize (H t). by rewrite Z.sub_0_r in H.
Qed.
Lemma net_task {A} (c : C A) (z : Z) : net L 0 c → net L 0 ((λ κ, c (λ _, κ z)) : C Z).
Proof. intros Hc κ d H. apply Hc. intros _. apply (H z). Qed.
Lemma net_join t : net L 0 (join t).
Proof. intros κ d H v. specialize (H v). by rewrite Z.sub_0_r in H. Qed.
Lemma net_cwhen b c : net L 0 c → net L 0 (cwhen b c).
Proof. intros. destruct b; [done|apply net_ret]. Qed.
Lemma net_cfold {A B} (f : B → A → C B) b l : (∀ b a, net L 0 (f b a)) → net L 0 (cfold f b l).
Proof.
  intros Hf. revert b. induction l as [|a l IH]; intros b; simpl; [apply net_ret|]. apply net_next; [apply Hf|done].
Qed.
End Net.

Lemma i64_i64 z : i64 (i64 z) = i64 z.
Proof. apply i64_small, i64_is_i64. Qed.
Lemma net_last L x o : x = nominal L o → net L x (count o).
Proof. intros ->. apply net_count. Qed.
Lemma net_done {A} L x (a : A) : x = 0 → net L x (mret a).
Proof. intros ->. apply net_ret. Qed.
Lemma net_zero {A} L x (c : C A) : x = 0 → net L 0 c → net L x c.
Proof. by intros ->. Qed.
Lemma net_own {A} L (m : M World A) : keeps same_wpools m → net L 0 (own m).
Proof. intros. by apply net_step, books_on_w. Qed.
Lemma net_via_ec {A} L (m : M World A) : keeps same_wpools m → net L 0 (via_ec m).
Proof. intros. by apply net_step, books_on_w. Qed.

(** [keeping] proves that an access leaves the pools alone; [netting] follows a
    handler to the places where it books and checks that the bookings of every
    path cancel. *)
Ltac keeping :=
  repeat first
    [ apply keeps_load | apply books_sc_do | apply books_sc_get | apply books_ec_get | apply books_ec_find
    | apply books_defined | apply books_rpc | apply keeps_agent_client | apply keeps_free_sc
    | apply keeps_ret; [apply _] | apply keeps_gets; [apply _] | apply keeps_stop; [apply _]
    | apply keeps_bind; [apply _| |intros] | apply keeps_modify; intros; split; reflexivity
    | match goal with |- keeps _ (match ?x with _ => _ end) => destruct x end ].
Ltac books := unfold nominal in *; simpl; repeat case_match; rewrite ?i64_i64; lia.
Ltac forwards :=
  unfold ec_get_cpu_unallocated_rt, ec_get_cpu_slice, ec_get_fair_cpu_share, ec_get_overrun, ec_get_total_cpu,
    ec_get_alloc_rt, ec_get_unalloc_memory_in_pages, ec_get_memory_slice, ec_get_subcontainers, ec_get_sc_for_update,
    ec_incr_unallocated_rt, ec_decr_unallocated_rt, ec_incr_overrun, ec_decr_overrun, ec_incr_alloc_rt,
    ec_decr_alloc_rt, ec_update_alloc_memory_in_pages, ec_update_reclaim_memory_in_pages,
    ec_decr_unalloc_memory_in_pages, ec_incr_unalloc_memory_in_pages, ec_incr_alloc_memory_in_pages,
    ec_decr_alloc_memory_in_pages.
Ltac netting :=
  forwards; repeat first
    [ solve [auto with net]
    | match goal with
      | |- net _ _ (count _ ≫= _) => apply net_booked
      | |- net _ _ (_ ≫= _) => apply net_next; [|intros]
      | |- net _ _ (count _) => apply net_last; solve [books]
      | |- net _ _ (mret _) => apply net_done; solve [books]
      | |- net _ _ (own _) => apply net_zero; [solve [books]|apply net_own; solve [keeping]]
      | |- net _ _ (via_ec _) => apply net_zero; [solve [books]|apply net_via_ec; solve [keeping]]
      | |- net _ _ (cwhen _ _) => apply net_cwhen
      | |- net _ _ (async _ _) => apply net_async
      | |- net _ _ (join _) => apply net_join
      | |- net _ _ (cfold _ _ _) => apply net_cfold; intros
      | |- net _ _ (match ?x with _ => _ end) => destruct x
      end ].

Create HintDb net.
Section Handlers.
Context {ENV : Env} {ORDER : HashOrder} (L : ledger).

Lemma net_lock l : net L 0 (lock l). Proof. by apply (net_plain L (Lock l)). Qed.
Lemma net_unlock l : net L 0 (unlock l). Proof. by apply (net_plain L (Unlock l)). Qed.
Lemma net_wait pred : net L 0 (wait pred). Proof. by apply (net_plain L (Wait pred)). Qed.
Lemma net_notify : net L 0 notify_one. Proof. by apply (net_plain L Notify). Qed.
#[local] Hint Resolve net_lock net_unlock net_wait net_notify : net.

Lemma net_sc_read {A} sc (f : SubContainer → A) : net L 0 (sc_read sc f).
Proof. unfold sc_read. netting. Qed.
Lemma net_sc_write sc f : net L 0 (sc_write sc f).
Proof. unfold sc_write. netting. Qed.
Lemma net_cdefined {A} (o : option A) : net L 0 (cdefined o).
Proof. unfold cdefined, fails. netting. Qed.
Lemma net_agent_client id : net L 0 (agent_client id).
Proof. unfold agent_client. netting. Qed.
#[local] Hint Resolve net_sc_read net_sc_write net_cdefined net_agent_client : net.

Lemma net_set_sc_quota_syscall sc q n : net L 0 (set_sc_quota_syscall sc q n).
Proof. unfold set_sc_quota_syscall, agent_or_exit, fails. netting. Qed.
Lemma net_sc_resize id n : net L 0 (sc_resize_memory_limit_in_pages id n).
Proof. unfold sc_resize_memory_limit_in_pages, agent_or_exit, fails. netting. Qed.
Lemma net_limit_cadvisor id : net L 0 (sc_get_memory_limit_in_bytes_cadvisor id).
Proof. unfold sc_get_memory_limit_in_bytes_cadvisor. netting. Qed.
Lemma net_usage_cadvisor id i : net L 0 (sc_get_memory_usage_in_bytes_cadvisor id i).
Proof. unfold sc_get_memory_usage_in_bytes_cadvisor. netting. Qed.
#[local] Hint Resolve net_set_sc_quota_syscall net_sc_resize net_limit_cadvisor net_usage_cadvisor : net.

Lemma net_report_resync rx sc : net L 0 (ConcCpu.report_resync rx sc).
Proof. unfold ConcCpu.report_resync. netting. Qed.
Lemma net_report_leak : net L 0 ConcCpu.report_leak.
Proof. unfold ConcCpu.report_leak, ConcCpu.get_cpuleak, ConcCpu.set_cpuleak. netting. Qed.
Lemma net_book_take sc a q : net L 0 (ConcCpu.book_take sc a q).
Proof. unfold ConcCpu.book_take. netting. Qed.
Lemma net_book_give sc a q : net L 0 (ConcCpu.book_give sc a q).
Proof. unfold ConcCpu.book_give. netting. Qed.
Lemma net_book_lend sc a q : net L 0 (ConcCpu.book_lend sc a q).
Proof. unfold ConcCpu.book_lend. netting. Qed.
Lemma net_book_repay sc a q : net L 0 (ConcCpu.book_repay sc a q).
Proof. unfold ConcCpu.book_repay. netting. Qed.
#[local] Hint Resolve net_report_resync net_report_leak net_book_take net_book_give net_book_lend net_book_repay : net.

Lemma net_try_quota sc q n c : net L 0 c → net L 0 (ConcCpu.try_quota sc q n c).
Proof. intros. unfold ConcCpu.try_quota. netting. Qed.
#[local] Hint Resolve net_try_quota : net.
Lemma net_adjust b m th req n sc : net L 0 (ConcCpu.report_adjust b m th req n sc).
Proof.
  unfold ConcCpu.report_adjust, ConcCpu.and_then, ConcCpu.branch_idle, ConcCpu.branch_overrun, ConcCpu.branch_fair,
    ConcCpu.lacking, ConcCpu.branch_throttled, ConcCpu.branch_unused, ConcCpu.branch_slack, ConcCpu.shrink_to.
  netting.
Qed.
#[local] Hint Resolve net_adjust : net.
Lemma net_report now req res : net L 0 (ConcCpu.handle_cpu_usage_report now req res).
Proof.
  unfold ConcCpu.handle_cpu_usage_report, ConcCpu.report_seen, ConcCpu.report_number, ConcCpu.report_mismatch,
    sc_incr_mismatch, ConcCpu.report_stats, ConcCpu.incr_seqno, ConcCpu.get_seqno.
  netting.
Qed.

Lemma net_back k : net L 0 (ConcCpu.back k).
Proof. unfold ConcCpu.back. netting. Qed.
#[local] Hint Resolve net_report net_back : net.
Lemma net_walk {B} (f : B → key * ContainerId → C B) b : (∀ b kv, net L 0 (f b kv)) → net L 0 (walk f b).
Proof.
  intros Hf. assert (Hon : ∀ m l cur b, net L 0 (walk_on f m cur b l)).
  { intros m l. induction l as [|k l IH]; intros cur b'; cbn [walk_on]; unfold advance; netting. }
  unfold walk. netting.
Qed.
Lemma net_idle_pass now seq : net L 0 (ConcCpu.check_for_idle_containers now seq).
Proof. unfold ConcCpu.check_for_idle_containers. apply net_walk. intros. unfold ConcCpu.idle_one. netting. Qed.

Lemma net_reclaim id sc : net L 0 (ConcMem.reclaim id sc).
Proof. unfold ConcMem.reclaim, sc_set_memory_limit_in_pages. netting. Qed.
#[local] Hint Resolve net_reclaim net_idle_pass : net.
Lemma net_handle_reclaim fd : net L 0 (ConcMem.handle_reclaim_memory fd).
Proof.
  unfold ConcMem.handle_reclaim_memory, ConcMem.launch_reclaim, ConcMem.collect.
  apply net_next; [apply net_walk; intros|intros]; netting.
Qed.
#[local] Hint Resolve net_handle_reclaim : net.
Lemma net_mem_req req res fd : net L 0 (ConcMem.handle_mem_req req res fd).
Proof. unfold ConcMem.handle_mem_req, ConcMem.grant_mem. netting. Qed.
Lemma net_new_pod_limit sc fd : net L 0 (ConcMem.determine_mem_limit_for_new_pod sc fd).
Proof. unfold ConcMem.determine_mem_limit_for_new_pod, ConcMem.wait_docker_id. netting. Qed.
Lemma net_run n rounds : net L 0 (ConcManager.run n rounds).
Proof.
  unfold ConcManager.run, ConcMem.run_wait, ConcMem.run_round. netting.
  apply net_walk. intros. netting.
Qed.
#[local] Hint Resolve net_mem_req net_new_pod_limit : net.

Lemma net_spawn c : net L 0 c → net L 0 (spawn c).
Proof. intros. by apply net_async, net_task. Qed.
Lemma net_determine_quota q : net L 0 (determine_quota_for_new_pod q).
Proof. unfold determine_quota_for_new_pod. netting. Qed.
Lemma net_create now cg ip fd q n : net L 0 (create_new_sc now cg ip fd q n).
Proof. apply net_own. by intros w. Qed.
Lemma net_insert sc : net L 0 (insert_sc sc).
Proof.
  unfold insert_sc. netting. apply net_via_ec, keeps_ec_do. intros e. unfold ElasticContainer.insert_sc.
  by destruct (subcontainers e !! _) as [[? ?]|].
Qed.
Lemma net_fair : net L 0 update_fair_cpu_share.
Proof.
  apply net_via_ec, keeps_ec_do. intros e. unfold ElasticContainer.update_fair_cpu_share. by destruct (_ =? _)%nat.
Qed.
Lemma net_add_agent c ac : net L 0 (via_ec (ec_do (add_to_sc_ac_map c ac))).
Proof. apply net_via_ec, keeps_ec_do. intros e. unfold add_to_sc_ac_map. by destruct (sc_ac_map e !! _). Qed.
#[local] Hint Resolve net_spawn net_determine_quota net_create net_insert net_fair net_add_agent : net.
Lemma net_add_cgroup now req res ip fd : net L 0 (ConcManager.handle_add_cgroup_to_ec now req res ip fd).
Proof. unfold ConcManager.handle_add_cgroup_to_ec, ConcManager.agent_of_sc. netting. Qed.
#[local] Hint Resolve net_add_cgroup : net.
Lemma net_handle_req now req res ip fd : net L 0 (ConcManager.handle_req now req res ip fd).
Proof. unfold ConcManager.handle_req. netting. Qed.
#[local] Hint Resolve net_handle_req : net.
Lemma net_tcp ip fd buff ins : net L 0 (ConcManager.tcp_loop ip fd buff ins).
Proof. revert buff. induction ins as [|i ins IH]; intros buff; simpl; netting. Qed.
Lemma net_udp ip fd ins : net L 0 (ConcManager.serve_udp ip fd ins).
Proof. unfold ConcManager.serve_udp, ConcManager.handle_client_reqs_udp. netting. Qed.

Lemma net_svc {A} (m : M Service A) : keeps same_pools m → net L 0 (svc m).
Proof. apply net_step. Qed.
Lemma net_locked {A} l (m : M Service A) : keeps same_pools m → net L 0 (ConcManager.locked l m).
Proof. intros. unfold ConcManager.locked. apply net_next; [auto with net|]. intros _. apply net_next; [by apply net_svc|]. intros. netting. Qed.
Lemma net_pod ina pod : net L 0 (ConcManager.ReportPodSpec ina pod).
Proof.
  unfold ConcManager.ReportPodSpec, ConcManager.insertPodSpec, ConcManager.scIdToDockerIdMatcherThread. netting.
  all: apply net_svc; intros d.
  all: try by (unfold get_pod_id; destruct (pod_id ina pod)).
  all: try by (unfold mbind, M_bind, gets; simpl; destruct (dockerToSubContainer d !! _)).
  unfold push_pod, modify; simpl. by destruct (deployedPods d !! _) as [[? ?]|].
Qed.
Lemma net_delete i : net L 0 (ConcManager.DeletePod i).
Proof.
  unfold ConcManager.DeletePod, ConcManager.deleteFromSubcontainersMap, get_subcontainer_front. netting.
  all: try (apply net_locked; intros d).
  - done.
  - unfold on_w, deleteFromScAcMap, mbind, M_bind, ec_get, gets; simpl. by destruct (sc_ac_map _ !! _).
  - apply net_via_ec, keeps_ec_run. intros e. unfold ec_delete_from_subcontainers_map.
    destruct (subcontainers e !! _) as [[? ?]|]; [|done]. by destruct (1 <? length _)%nat.
  - unfold deleteFromDeployedPodsMap, mbind, M_bind, gets; simpl. by destruct (deployedPods d !! _).
  - unfold deleteFromDockerIdScMap, mbind, M_bind, gets; simpl. by destruct (dockerToSubContainer d !! _).
Qed.

End Handlers.

(** ** Claims *)
Section Claims.
Context {ENV : Env} {ORDER : HashOrder} (inet_addr : string → Z).

(** The threads of a running manager: connections, the UDP thread, reports and
    removals of pods, the idle pass, the periodic reclaim, the thread of a new
    pod and a reclaim task. *)
Inductive worker : prog → Prop :=
| w_tcp ip fd ins κ : (∀ a, ∃ v, κ a = Return v) → worker (ConcManager.handle_client_reqs_tcp ip fd ins κ)
| w_udp ip fd ins κ : (∀ a, ∃ v, κ a = Return v) → worker (ConcManager.serve_udp ip fd ins κ)
| w_pod pod κ : (∀ a, ∃ v, κ a = Return v) → worker (ConcManager.serve_call inet_addr (ConcManager.Pod pod) κ)
| w_del i κ : (∀ a, ∃ v, κ a = Return v) → worker (ConcManager.serve_call inet_addr (ConcManager.Del i) κ)
| w_idle nows κ : (∀ a, ∃ v, κ a = Return v) → worker (ConcManager.idle_thread nows κ)
| w_run n rounds κ : (∀ a, ∃ v, κ a = Return v) → worker (ConcManager.run n rounds κ)
| w_new_pod sc fd κ : (∀ a, ∃ v, κ a = Return v) → worker (ConcMem.determine_mem_limit_for_new_pod sc fd κ)
| w_reclaim id sc κ : (∀ a, ∃ v, κ a = Return v) → worker (ConcMem.reclaim id sc κ).
Definition at_work (c : config) : Prop := Forall (λ th, ∃ p, t_body th = Running p ∧ worker p) (threads c).
Definition all_returned (c : config) : Prop := Forall (λ th, ∃ v, t_body th = Finished (Ok v)) (threads c).

Lemma worker_owes L p : worker p → owes L 0 p.
Proof.
  intros H. destruct H as [? ? ? κ Hκ|? ? ? κ Hκ|? κ Hκ|? κ Hκ|? κ Hκ|? ? κ Hκ|? ? κ Hκ|? ? κ Hκ];
    (assert (Hk : ∀ a, owes L (0 - 0) (κ a)) by (intros a; by destruct (Hκ a) as [v ->])); revert κ Hκ Hk; intros κ _;
    match goal with |- _ → owes L 0 (?c κ) => enough (Hn : net L 0 c) by (intros Hk; exact (Hn κ 0 Hk)) end.
  - apply net_tcp.
  - apply net_udp.
  - apply net_next; [apply net_pod|]. intros. apply net_ret.
  - apply net_next; [apply net_delete|]. intros. apply net_ret.
  - apply net_next; [apply net_cfold; intros; apply net_idle_pass|]. intros. apply net_ret.
  - apply net_run.
  - apply net_new_pod_limit.
  - apply net_reclaim.
Qed.

(** Balance and debts at any moment of a run. *)
Lemma books_kept L c c' :
  at_work c → rtc covered_step c c' → kept L (balance L (w_ec (c_w (c_st c))) - credit L (c_repaired c)) c'.
Proof.
  intros Hw Hrun. eapply kept_rtc; [done|]. exists (replicate (length (threads c)) 0). split.
  - induction Hw as [|th ths (p & Hp & Hwp) _ IH]; simpl; constructor; [|done].
    unfold thread_owes. rewrite Hp. by apply worker_owes.
  - assert (∀ n, sum (replicate n 0) = 0) as -> by (induction n; unfold sum in *; simpl; lia). lia.
Qed.

(** C4: under every schedule of any number of connections, pod reports, removals,
    idle passes, reclaims and new pods, and of all the threads they start, in
    which every update of a counter is covered, the books at the end, when all
    threads have returned, are the books at the start: no page has appeared or
    got lost, and runtime only by the corrections of supposed leaks, by exactly
    what was corrected. An update is covered when counters and amounts are below
    2^60, the counter does not fall below zero, and, for a registration that sets
    the free runtime to 0 because it takes all of it, the pool still holds exactly
    what that registration has read. The last condition is not automatic: runtime
    returned between the two accesses is lost
    ([ConcRaces.registration_drops_returned_runtime]). *)
Theorem every_schedule_conserves (c c' : config) (Hstart : at_work c)
    (Hrun : rtc covered_step c c') (Hend : all_returned c') :
  cpu_g.imbalance (pool (c_w (c_st c'))) - cpu_g.imbalance (pool (c_w (c_st c))) = c_repaired c' - c_repaired c ∧
  mem_g.tracked (_mem (w_ec (c_w (c_st c')))) = mem_g.tracked (_mem (w_ec (c_w (c_st c)))).
Proof.
  assert (Hb : ∀ L, balance L (w_ec (c_w (c_st c'))) =
    balance L (w_ec (c_w (c_st c))) + credit L (c_repaired c') - credit L (c_repaired c)).
  { intros L. destruct (books_kept L c c' Hstart Hrun) as (ds & HF & Hsum).
    assert (sum ds = 0); [|lia]. clear Hsum. unfold all_returned in Hend. revert Hend.
    induction HF as [|th d ths ds Hth _ IH]; intros Hend; [done|].
    apply Forall_cons in Hend as [(v & Hv) Hend]. unfold thread_owes in Hth. rewrite Hv in Hth.
    unfold sum in *. simpl. rewrite IH; [lia|done]. }
  pose proof (Hb CpuBooks) as Hc. pose proof (Hb MemBooks) as Hm. unfold pool. simpl in *. lia.
Qed.

End Claims.
End ConcLedger.
