(* ===== verification/ConcLocks.v ===== *)
(** * Locks under every schedule

    Every handler releases what it takes, in the reverse order, and takes a
    second mutex only in the order of [rank]; only [cv.wait] gives one up in
    between. So under every schedule a mutex is released by the thread that
    holds it, a thread that has returned holds none, and threads never wait for
    each other in a circle. All critical sections but those of [memlock] are
    short: a budget of accesses bounds them, and inside one a thread waits for
    nothing but [cv_mtx_dock]. *)
From S2P Require Import Prelude OmNet Float64 Window LocalStats SubContainer Agents CpuG MemG.
From S2P Require Import ElasticContainer World Types Json CAdvisor ECAPI ManagerCpu ManagerMem Manager Server Deploy.
From S2P Require Import Conc ConcApi ConcCpu ConcMem ConcManager.
From Stdlib Require Import Sorted.
Import SubContainer ElasticContainer Conc ConcApi.

Module ConcLocks.
Import Deploy.

(** [memlock] is held while agents are asked and tasks are awaited; the other
    mutexes only for a few accesses. *)
Definition short (H : list mutex) : bool := existsb (λ l, negb (bool_decide (l = memlock))) H.
(** The longest short section, that of the matching thread, has seven accesses
    after the one that takes the mutex. *)
Definition longest : nat := 7.
(** An access inside a short section does not wait; it throws only where
    [dep_pod_lock] alone is held. *)
Definition prompt {A} (H : list mutex) (m : M Service A) : Prop :=
  ∀ d, match (m d).1 with Fail Blocked => False | Fail Throw => H = [dep_pod_lock] | _ => True end.
Definition may_move (n : nat) (H : list mutex) : Prop := short H = true → n ≠ 0%nat.

(** [holding n H p]: [p] starts with the mutexes [H], the last one first, ends
    without any, and obeys the order on the way; while it holds a short mutex it
    makes at most [n] accesses, waits for nothing but [cv_mtx_dock] and starts
    and awaits no thread. *)
Fixpoint holding (n : nat) (H : list mutex) (p : prog) : Prop :=
  match p with
  | Return _ => H = []
  | Step _ m k => may_move n H ∧ (short H = true → prompt H m) ∧ ∀ b, holding (pred n) H (k b)
  | Count _ k | Notify k | Create _ k => may_move n H ∧ holding (pred n) H k
  | Lock l k =>
      may_move n H ∧ Forall (λ m, rank m < rank l)%nat H ∧ (short H = true → l = cv_mtx_dock) ∧
      holding (if short H then pred n else longest) (l :: H) k
  | Unlock l k => may_move n H ∧ ∃ H', H = l :: H' ∧ holding (pred n) H' k
  | Wait _ k => may_move n H ∧ H = [cv_mtx] ∧ holding (pred n) H k
  | Async _ task k => short H = false ∧ holding 0 [] task ∧ ∀ t, holding (pred n) H (k t)
  | Join _ k => short H = false ∧ ∀ v, holding (pred n) H (k v)
  end.

(** Inside a short section accesses are left. *)
Lemma holding_left n H p : holding n H p → short H = true → n ≠ 0%nat.
Proof.
  destruct p; simpl; intros Hp Hs; first [by subst | by apply (proj1 Hp) | by rewrite (proj1 Hp) in Hs].
Qed.
(** Outside short sections the number does not matter; inside, more is fine. *)
Lemma holding_free p : ∀ n n' H, short H = false → holding n H p → holding n' H p.
Proof.
  assert (Hm : ∀ n H, short H = false → may_move n H) by (intros n H E; unfold may_move; by rewrite E).
  induction p as [v|B ec m k IH|o k IH|l k IH|l k IH|pred k IH|k IH|e k IH|cat task IHt k IH|u k IH];
    intros n n' H E; simpl; rewrite ?E.
  - done.
  - intros (_ & _ & Hk). split_and!; [by apply Hm|done|]. intros b. by eapply IH.
  - intros [_ Hk]. split; [by apply Hm|by eapply IH].
  - intros (_ & Hr & _ & Hk). split_and!; [by apply Hm|done|done|done].
  - intros (_ & H' & -> & Hk). split; [by apply Hm|]. exists H'. split; [done|]. eapply IH; [|done].
    simpl in E. by destruct (negb _).
  - intros (_ & -> & _). done.
  - intros [_ Hk]. split; [by apply Hm|by eapply IH].
  - intros [_ Hk]. split; [by apply Hm|by eapply IH].
  - intros (_ & Ht & Hk). split_and!; [done|done|]. intros t. by eapply IH.
  - intros (_ & Hk). split; [done|]. intros v. by eapply IH.
Qed.

(** What a thread holds, and the accesses it may still make inside the short
    section it is in; one that sleeps in [cv.wait], or has been woken and not run
    since, does not hold [cv_mtx]. *)
Definition thread_holds (th : thread) (g : nat * list mutex) : Prop :=
  (g.1 ≤ longest)%nat ∧
  match t_body th with
  | Running p => holding g.1 g.2 p ∨ ∃ pred k, p = Wait pred k ∧ g.2 = [] ∧ holding g.1 [cv_mtx] k
  | Finished (Ok _) => g.2 = []
  | Finished (Fail _) => short g.2 = true → g.2 = [dep_pod_lock]
  end.
Definition ordered (H : list mutex) : Prop := StronglySorted (λ a b, rank b < rank a)%nat H.
(** The table of locks is what the threads hold. *)
Record locks_with (Gs : list (nat * list mutex)) (c : config) : Prop := {
  lw_threads : Forall2 thread_holds (threads c) Gs;
  lw_ordered : Forall (λ g, ordered g.2) Gs;
  lw_table : ∀ l t, c_locks (c_st c) !! l = Some t ↔ ∃ g, Gs !! t = Some g ∧ l ∈ g.2;
  lw_asleep : ∀ t, t ∈ c_asleep (c_st c) →
    ∃ cat pred k n, threads c !! t = Some (Thr cat (Running (Wait pred k))) ∧ Gs !! t = Some (n, []);
}.
Definition locks_ok (c : config) : Prop := ∃ Gs, locks_with Gs c.

Lemma ordered_cons l H : Forall (λ m, rank m < rank l)%nat H → ordered H → ordered (l :: H).
Proof. intros. by constructor. Qed.
Lemma ordered_tail l H : ordered (l :: H) → ordered H ∧ l ∉ H.
Proof.
  intros Ho. inversion Ho as [|? ? Hs Hf]; subst. split; [done|]. intros Hin.
  rewrite Forall_forall in Hf. specialize (Hf l Hin). lia.
Qed.

(** Thread [t] gets body [bd] and the mutexes of [g'], the table changes with it. *)
Lemma locks_body c c' Gs t th bd g g' :
  locks_with Gs c → threads c !! t = Some th → Gs !! t = Some g →
  threads c' = <[t := Thr (catches th) bd]> (threads c) →
  thread_holds (Thr (catches th) bd) g' → ordered g'.2 →
  (∀ l u, c_locks (c_st c') !! l = Some u ↔ ∃ g0, <[t := g']> Gs !! u = Some g0 ∧ l ∈ g0.2) →
  (∀ u, u ∈ c_asleep (c_st c') → u ≠ t ∧ u ∈ c_asleep (c_st c)) →
  locks_with (<[t := g']> Gs) c'.
Proof.
  intros [HF HO Hl Hs] Ht HG Et Hth Ho Hl' Hs'. constructor; [rewrite Et; by apply Forall2_insert|by apply Forall_insert|done|].
  intros u [Hne (cat & pred & k & n & Hu & Hg)%Hs]%Hs'. exists cat, pred, k, n. rewrite Et, !list_lookup_insert_ne by done. done.
Qed.

(** The table when thread [t] with [H] takes [l], releases [l], or neither. *)
Section Table.
Variables (Gs : list (nat * list mutex)) (t : nat) (n : nat) (H : list mutex) (locks : gmap mutex nat).
Hypotheses (HG : Gs !! t = Some (n, H))
  (Hl : ∀ l u, locks !! l = Some u ↔ ∃ g, Gs !! u = Some g ∧ l ∈ g.2).

Lemma lookup_upd g' u g : <[t := g']> Gs !! u = Some g ↔ (u = t ∧ g = g') ∨ (u ≠ t ∧ Gs !! u = Some g).
Proof using HG.
  clear Hl. pose proof (lookup_lt_Some _ _ _ HG) as Hlt. destruct (decide (u = t)) as [->|Hne].
  - rewrite list_lookup_insert_eq by done. naive_solver.
  - rewrite list_lookup_insert_ne by done. naive_solver.
Qed.
Lemma table_same n' l u : locks !! l = Some u ↔ ∃ g, <[t := (n', H)]> Gs !! u = Some g ∧ l ∈ g.2.
Proof using HG Hl.
  setoid_rewrite lookup_upd. rewrite Hl. split.
  - intros (g & Hg & Hin). destruct (decide (u = t)) as [->|]; [|by exists g; auto].
    exists (n', H). split; [by left|]. by simplify_eq.
  - intros (g & [[-> ->]|[_ Hg]] & Hin); [by exists (n, H)|by exists g].
Qed.
Lemma table_take n' l0 : locks !! l0 = None → ∀ l u,
  <[l0 := t]> locks !! l = Some u ↔ ∃ g, <[t := (n', l0 :: H)]> Gs !! u = Some g ∧ l ∈ g.2.
Proof using HG Hl.
  intros Hfree l u. setoid_rewrite lookup_upd. rewrite lookup_insert_Some, Hl. split.
  - intros [[<- <-]|[Hne (g & Hg & Hin)]].
    + exists (n', l0 :: H). split; [by left|by left].
    + destruct (decide (u = t)) as [->|Hu].
      * exists (n', l0 :: H). split; [by left|]. simplify_eq. by right.
      * exists g. split; [by right|done].
  - intros (g & [[-> ->]|[Hu Hg]] & Hin).
    + apply elem_of_cons in Hin as [->|Hin]; [by left|]. right. split; [|by exists (n, H)].
      intros <-. assert (locks !! l0 = Some t) by (apply Hl; by exists (n, H)). congruence.
    + right. split; [|by exists g]. intros <-. assert (locks !! l0 = Some u) by (apply Hl; by exists g). congruence.
Qed.
Lemma table_release n' l0 H' : H = l0 :: H' → l0 ∉ H' → ∀ l u,
  delete l0 locks !! l = Some u ↔ ∃ g, <[t := (n', H')]> Gs !! u = Some g ∧ l ∈ g.2.
Proof using HG Hl.
  intros E Hn l u. setoid_rewrite lookup_upd. rewrite lookup_delete_Some, Hl. split.
  - intros [Hne (g & Hg & Hin)]. destruct (decide (u = t)) as [->|Hu].
    + exists (n', H'). split; [by left|]. assert (g = (n, l0 :: H')) as -> by congruence.
      apply elem_of_cons in Hin as [->|Hin]; done.
    + exists g. split; [by right|done].
  - intros (g & [[-> ->]|[Hu Hg]] & Hin).
    + split; [by intros ->|]. exists (n, H). split; [done|]. rewrite E. by right.
    + split; [|by exists g]. intros <-.
      assert (locks !! l0 = Some t) by (apply Hl; exists (n, H); split; [done|rewrite E; by left]).
      assert (locks !! l0 = Some u) by (apply Hl; by exists g). congruence.
Qed.
End Table.

(** ** Every move keeps the table right *)

(** After a move of [t] the others are where they were, and [t] has used up one
    of the accesses of its short section, unless the process has ended. *)
Definition moved (t : nat) (Gs Gs' : list (nat * list mutex)) (c' : config) : Prop :=
  (∀ u g, u ≠ t → Gs !! u = Some g → Gs' !! u = Some g) ∧
  (∀ n H, Gs !! t = Some (n, H) → short H = true →
     c_dead c' ≠ None ∨ ∃ n' H', Gs' !! t = Some (n', H') ∧ (n' < n)%nat).

Lemma awake c Gs t cat p :
  locks_with Gs c → threads c !! t = Some (Thr cat (Running p)) → (∀ pred k, p ≠ Wait pred k) → t ∉ c_asleep (c_st c).
Proof. intros [_ _ _ Hs] Ht Hp (? & pred & k & ? & Hu & _)%Hs. simplify_eq. by apply (Hp pred k). Qed.

Section Move.
Context (c : config) (Gs : list (nat * list mutex)) (t : nat) (cat : bool) (p : prog) (n : nat) (H : list mutex).
Hypotheses (Hok : locks_with Gs c) (Ht : threads c !! t = Some (Thr cat (Running p)))
  (HG : Gs !! t = Some (n, H)).

Lemma moved_to n' H' c' : (short H = true → (n' < n)%nat) → moved t Gs (<[t := (n', H')]> Gs) c'.
Proof using HG.
  clear Hok Ht. intros Hn. split.
  - intros u g Hu Hg. by rewrite list_lookup_insert_ne.
  - intros n0 H0 Hg Hs. simplify_eq. right. exists n', H'. split; [|auto].
    apply list_lookup_insert_eq. by eapply lookup_lt_Some.
Qed.
(** The mutexes stay the same; [t] is not asleep. *)
Lemma go_on bd s c' n' :
  (∀ pred k, p ≠ Wait pred k) → c_locks s = c_locks (c_st c) →
  (∀ u, u ∈ c_asleep s → u ∈ c_asleep (c_st c)) → c' = set_body t (Thr cat (Running p)) bd (set_st s c) →
  thread_holds (Thr cat bd) (n', H) → (short H = true → (n' < n)%nat) →
  ∃ Gs', locks_with Gs' c' ∧ moved t Gs Gs' c'.
Proof using Hok Ht HG.
  intros Hp El Hs -> Hbd Hn. exists (<[t := (n', H)]> Gs). split; [|by apply moved_to].
  eapply locks_body; eauto; simpl.
  - pose proof (lw_ordered _ _ Hok) as HO. rewrite Forall_forall in HO. apply (HO (n, H)). by eapply list_elem_of_lookup_2.
  - intros l u. rewrite El. eapply table_same; [done|]. apply Hok.
  - intros u Hu. split; [|auto]. intros ->. eapply awake; eauto.
Qed.
(** The process ends. *)
Lemma ends f s : c_locks s = c_locks (c_st c) → c_asleep s = c_asleep (c_st c) →
  ∃ Gs', locks_with Gs' (die f (set_st s c)) ∧ moved t Gs Gs' (die f (set_st s c)).
Proof using Hok.
  clear Ht HG. intros El Es. exists Gs. split; [|split; [done|by left]]. destruct Hok. constructor; try done.
  - simpl. by rewrite El.
  - simpl. by rewrite Es.
Qed.
(** The thread stops with [f]. *)
Lemma stops f s :
  (∀ pred k, p ≠ Wait pred k) → (n ≤ longest)%nat → thread_holds (Thr cat (Running p)) (n, H) →
  (f = Blocked → short H = false) → (f = Throw → short H = true → H = [dep_pod_lock]) →
  c_locks s = c_locks (c_st c) → c_asleep s = c_asleep (c_st c) →
  ∃ Gs', locks_with Gs' (fail_thread t (Thr cat (Running p)) f (set_st s c)) ∧
    moved t Gs Gs' (fail_thread t (Thr cat (Running p)) f (set_st s c)).
Proof using Hok Ht HG.
  intros Hp Hn Hth Hb Ht' El Es.
  assert (Hend : ∃ Gs', locks_with Gs' (die f (set_st s c)) ∧ moved t Gs Gs' (die f (set_st s c))) by (by apply ends).
  destruct f; try exact Hend.
  - exists Gs. split.
    + destruct Hok. constructor; try done; simpl; [by rewrite El|by rewrite Es].
    + split; [done|]. intros n0 H0 Hg Hs. simplify_eq. rewrite Hb in Hs by done. done.
  - simpl. destruct cat; [|exact Hend]. exists (<[t := (O, H)]> Gs). split.
    + eapply locks_body; eauto; simpl.
      * split; [simpl; lia|]. simpl. auto.
      * pose proof (lw_ordered _ _ Hok) as HO. rewrite Forall_forall in HO. apply (HO (n, H)). by eapply list_elem_of_lookup_2.
      * intros l u. rewrite El. eapply table_same; [done|]. apply Hok.
      * intros u. rewrite Es. intros Hu. split; [|done]. intros ->. eapply awake; eauto.
    + apply moved_to. intros Hs. destruct Hth as [_ [Hp'|(cond & k & Ep & _)]]; [|by destruct (Hp cond k)].
      pose proof (holding_left n H _ Hp' Hs). lia.
Qed.
End Move.

(** A thread that waits on the condition variable: it goes on with [cv_mtx], or it
    falls asleep without. *)
Lemma locks_wait c Gs t cat cond k b s' :
  locks_with Gs c → threads c !! t = Some (Thr cat (Running (Wait cond k))) → wait_cv cond t (c_st c) = Some (b, s') →
  let c' := if b then set_body t (Thr cat (Running (Wait cond k))) (Running k) (set_st s' c) else set_st s' c in
  ∃ Gs', locks_with Gs' c' ∧ moved t Gs Gs' c'.
Proof.
  intros Hok Ht E c'. pose proof Hok as [HF HO Hl Hs].
  destruct (Forall2_lookup_l _ _ _ _ _ HF Ht) as ([n H] & HG & [Hn Hth]). simpl in Hn, Hth.
  unfold wait_cv in E. case_bool_decide as Ha; [done|].
  assert (Hne : ∀ u, u ∈ c_asleep (c_st c) → u ≠ t) by (by intros u Hu ->).
  assert (Hi : threads c = <[t := Thr cat (Running (Wait cond k))]> (threads c)) by (by rewrite list_insert_id).
  assert (Hord : Forall (λ m, rank m < rank cv_mtx)%nat []) by constructor.
  assert (Hsleep : ∀ n', (n' ≤ longest)%nat → holding n' [cv_mtx] k → thread_holds (Thr cat (Running (Wait cond k))) (n', []))
    by (intros n' ? ?; split; [done|right; eauto]).
  destruct (c_locks (c_st c) !! cv_mtx) as [u|] eqn:El.
  - destruct (Nat.eqb_spec u t) as [->|]; [|done].
    destruct Hth as [(Hm & -> & Hk)|(? & ? & ? & -> & ?)].
    2:{ apply Hl in El as (g & Hg & Hin). simplify_eq. by apply elem_of_nil in Hin. }
    assert (Hlt : (pred n < n)%nat) by (specialize (Hm eq_refl); lia).
    destruct (cond _); injection E as <- <-.
    + exists (<[t := (pred n, [cv_mtx])]> Gs). split; [|by eapply moved_to].
      eapply locks_body; [exact Hok|exact Ht|exact HG|done|split; [simpl; lia|by left]|repeat constructor|by eapply table_same|auto].
    + exists (<[t := (pred n, [])]> Gs). split; [|by eapply moved_to]. constructor.
      * unfold c'. simpl. rewrite Hi. apply Forall2_insert; [done|]. apply Hsleep; [lia|done].
      * apply Forall_insert; [done|constructor].
      * simpl. eapply table_release; eauto. apply not_elem_of_nil.
      * simpl. intros u [Hu|Hu]%elem_of_app.
        -- destruct (Hs u Hu) as (cat' & pred' & k' & n' & Hu' & Hg). exists cat', pred', k', n'.
           rewrite list_lookup_insert_ne by (by apply not_eq_sym, Hne). done.
        -- apply list_elem_of_singleton in Hu as ->. exists cat, cond, k, (pred n). split; [done|].
           apply list_lookup_insert_eq. by eapply lookup_lt_Some.
  - destruct Hth as [(_ & -> & _)|(? & ? & [= <- <-] & -> & Hk)].
    { assert (c_locks (c_st c) !! cv_mtx = Some t); [|congruence]. apply Hl. exists (n, [cv_mtx]). split; [done|by left]. }
    destruct (cond _); injection E as <- <-.
    + exists (<[t := (n, [cv_mtx])]> Gs). split; [|by eapply moved_to].
      eapply locks_body; [exact Hok|exact Ht|exact HG|done|split; [done|by left]|repeat constructor|by eapply table_take|auto].
    + exists Gs. split; [|by split; [|intros ? ? ? ?; simplify_eq]]. constructor; try done. simpl.
      intros u [Hu|Hu]%elem_of_app; [by apply Hs|]. apply list_elem_of_singleton in Hu as ->. by exists cat, cond, k, n.
Qed.
(** A new thread holds nothing. *)
Lemma locks_add c Gs cat p : holding 0 [] p → locks_with Gs c → locks_with (Gs ++ [(O, [])]) (add_thread (Thr cat (Running p)) c).
Proof.
  intros Hp [HF HO Hl Hs]. constructor; simpl.
  - apply Forall2_app; [done|]. constructor; [|constructor]. split; [simpl; lia|by left].
  - apply Forall_app. split; [done|]. repeat constructor.
  - intros l u. rewrite Hl. split.
    + intros (g & Hg & Hin). exists g. split; [by apply lookup_app_l_Some|done].
    + intros (g & Hg & Hin). apply lookup_app_Some in Hg as [Hg|[_ Hg]]; [by exists g|].
      destruct (u - length Gs)%nat; simplify_eq/=. by apply elem_of_nil in Hin.
  - intros u (cat' & pred & k & n & Hu & Hg)%Hs. exists cat', pred, k, n. split; by apply lookup_app_l_Some.
Qed.

Lemma wake_one_sub pick s u : u ∈ c_asleep (wake_one pick s) → u ∈ c_asleep s.
Proof.
  simpl. intros [Hin|Hin]%elem_of_app.
  - apply elem_of_take in Hin as (i & Hi & _). by eapply list_elem_of_lookup_2.
  - apply list_elem_of_lookup_1 in Hin as (i & Hi). rewrite lookup_drop in Hi. by eapply list_elem_of_lookup_2.
Qed.
Lemma locks_exec c Gs t pick cat p c' :
  locks_with Gs c → threads c !! t = Some (Thr cat (Running p)) →
  exec_thread t pick (Thr cat (Running p)) p c = Some c' → ∃ Gs', locks_with Gs' c' ∧ moved t Gs Gs' c'.
Proof.
  intros Hok Ht E. pose proof Hok as [HF HO Hl Hs].
  destruct (Forall2_lookup_l _ _ _ _ _ HF Ht) as ([n H] & HG & Hth). pose proof Hth as [Hn Hp]. simpl in Hn, Hp.
  assert (Hord : ordered H) by (rewrite Forall_forall in HO; apply (HO (n, H)); by eapply list_elem_of_lookup_2).
  assert (Hst : set_st (c_st c) c = c) by (by destruct c).
  assert (Hlt : may_move n H → short H = true → (pred n < n)%nat) by (intros Hm ?; specialize (Hm ltac:(done)); lia).
  assert (Hrun : ∀ q, holding (pred n) H q → thread_holds (Thr cat (Running q)) (pred n, H))
    by (intros q ?; split; [simpl; lia|by left]).
  assert (Hdie : ∃ Gs', locks_with Gs' (die Undef c) ∧ moved t Gs Gs' (die Undef c)) by (rewrite <-Hst; by apply ends).
  destruct p as [v|B ec m k|o k|l k|l k|pred k|k|e k|cat' task k|u k]; simpl in E;
    try (destruct Hp as [Hp|(? & ? & [=] & _)]; simpl in Hp).
  - injection E as <-. subst H. by eapply (go_on c _ _ _ _ n [] Hok Ht HG (Finished (Ok v)) (c_st c) _ n); rewrite ?Hst.
  - destruct Hp as (Hm & Hq & Hk). destruct (ec && _); [by injection E as <-|].
    destruct (m (c_svc (c_st c))) as [[x|f] d] eqn:Em; injection E as <-.
    + apply (go_on c Gs t cat _ n H Hok Ht HG (Running (k x)) (with_svc d (c_st c)) _ (Nat.pred n)); [done..|auto|auto].
    + apply (stops c Gs t cat _ n H Hok Ht HG); try done.
      * intros ->. destruct (short H); [|done]. specialize (Hq eq_refl (c_svc (c_st c))). by rewrite Em in Hq.
      * intros -> Hsh. specialize (Hq Hsh (c_svc (c_st c))). by rewrite Em in Hq.
  - destruct Hp as [Hm Hk]. destruct (negb _); [by injection E as <-|]. injection E as <-.
    destruct (go_on c Gs t cat _ n H Hok Ht HG (Running k) (on_ec (counted o) (c_st c))
      (set_body t (Thr cat (Running (Count o k))) (Running k) (set_st (on_ec (counted o) (c_st c)) c)) (Nat.pred n))
      as (Gs' & [] & Hmv); [done..|auto|auto|]. exists Gs'. by destruct o.
  - unfold acquire in E. destruct (c_locks (c_st c) !! l) eqn:El; [done|]. injection E as <-.
    destruct Hp as (Hm & Hr & _ & Hk). set (n' := if short H then Nat.pred n else longest) in *.
    exists (<[t := (n', l :: H)]> Gs). split.
    + eapply locks_body; [exact Hok|exact Ht|exact HG|done| | | |].
      * split; [unfold n'; simpl; destruct (short H); lia|by left].
      * by apply ordered_cons.
      * by eapply table_take.
      * intros u Hu. split; [|done]. intros ->. by eapply awake.
    + eapply moved_to; [done|]. intros Hsh. unfold n'. rewrite Hsh. auto.
  - destruct Hp as (Hm & H' & -> & Hk). destruct (ordered_tail _ _ Hord) as [Ho' Hnin].
    rewrite bool_decide_true in E by (apply Hl; exists (n, l :: H'); split; [done|by left]). injection E as <-.
    exists (<[t := (Nat.pred n, H')]> Gs). split; [|eapply moved_to; eauto].
    eapply locks_body; [exact Hok|exact Ht|exact HG|done|split; [simpl; lia|by left]|done|by eapply table_release|].
    intros u Hu. split; [|done]. intros ->. by eapply awake.
  - destruct (wait_cv pred t (c_st c)) as [[b s']|] eqn:Ew; [|done].
    pose proof (locks_wait c Gs t cat pred k b s' Hok Ht Ew). destruct b; by injection E as <-.
  - injection E as <-. destruct Hp as [Hm Hk].
    apply (go_on c Gs t cat _ n H Hok Ht HG (Running k) (wake_one pick (c_st c)) _ (Nat.pred n)); [done|done| |done|auto|auto].
    intros u Hu. by apply (wake_one_sub pick).
  - injection E as <-. destruct Hp as [Hm Hk].
    apply (go_on c Gs t cat _ n H Hok Ht HG (Running k)
      (mkC (with_w (upd_ec e (c_w (c_st c))) (c_svc (c_st c))) true (c_locks (c_st c)) (c_asleep (c_st c))) _ (Nat.pred n));
      [done..|auto|auto].
  - injection E as <-. destruct Hp as (Hsh & Htask & Hk).
    destruct (go_on c Gs t cat _ n H Hok Ht HG (Running (k (length (threads c)))) (c_st c)
      (set_body t (Thr cat (Running (Async cat' task k))) (Running (k (length (threads c)))) c) (Nat.pred n))
      as (Gs' & Hok' & Hmv & _); [done|done|done|by rewrite Hst|auto|congruence|].
    exists (Gs' ++ [(O, [])]). split; [by apply locks_add|]. split; [|intros n0 H0 Hg0 Hs0; assert (H0 = H) as -> by congruence; congruence].
    intros u g Hu Hg. apply lookup_app_l_Some. by apply Hmv.
  - destruct Hp as [Hsh Hk]. destruct (threads c !! u) as [[cu [q|[v|f]]]|]; try done; injection E as <-.
    + apply (go_on c Gs t cat _ n H Hok Ht HG (Running (k v)) (c_st c) _ (Nat.pred n)); [done|done|done|by rewrite Hst|auto|congruence].
    + rewrite <-Hst. apply (stops c Gs t cat _ n H Hok Ht HG); try done. congruence.
Qed.

Lemma locks_move c Gs mv c' :
  locks_with Gs c → exec mv c = Some c' →
  ∃ Gs', locks_with Gs' c' ∧ match mv with Run t _ => moved t Gs Gs' c' | Spurious _ => Gs' = Gs end.
Proof.
  intros Hok E. unfold exec in E. destruct (c_dead c); [done|]. destruct mv as [t pick|t].
  - destruct (threads c !! t) as [[cat [p|o]]|] eqn:Ht; try done. by eapply locks_exec.
  - case_bool_decide; [|done]. injection E as <-. exists Gs. split; [|done]. destruct Hok as [HF HO Hl Hs].
    constructor; try done. simpl. intros u [Hu _]%list_elem_of_difference. by apply Hs.
Qed.
Lemma locks_step c c' : cstep c c' → locks_ok c → locks_ok c'.
Proof. intros (mv & E) (Gs & Hok). destruct (locks_move c Gs mv c' Hok E) as (Gs' & ? & _). by exists Gs'. Qed.
Lemma locks_rtc c c' : rtc cstep c c' → locks_ok c → locks_ok c'.
Proof. induction 1; eauto using locks_step. Qed.

(** ** The handlers *)

(** [uses n H n' H' c]: from the mutexes [H] and [n] accesses, [c] goes on with
    [H'] and [n'] accesses left; outside short sections the numbers are [0]. *)
Definition uses (n : nat) (H : list mutex) (n' : nat) (H' : list mutex) {A} (c : C A) : Prop :=
  ∀ κ, (∀ a, holding n' H' (κ a)) → holding n H (c κ).

Lemma long_may n H : short H = false → may_move n H.
Proof. intros E. unfold may_move. by rewrite E. Qed.
Lemma holding_mono p : ∀ n n' H, (n ≤ n')%nat → holding n H p → holding n' H p.
Proof.
  assert (Hm : ∀ n n' H, (n ≤ n')%nat → may_move n H → may_move n' H)
    by (intros n n' H Hle Hm Hs; specialize (Hm Hs); lia).
  induction p as [v|B ec m k IH|o k IH|l k IH|l k IH|cond k IH|k IH|e k IH|cat task IHt k IH|u k IH];
    intros n n' H Hle; simpl; assert (pred n ≤ pred n')%nat by lia.
  - done.
  - intros (? & Hq & Hk). split_and!; [by eapply Hm|done|]. intros b. by eapply IH.
  - intros [? Hk]. split; [by eapply Hm|by eapply IH].
  - intros (? & Hr & Hd & Hk). split_and!; [by eapply Hm|done|done|]. eapply IH; [|done]. destruct (short H); lia.
  - intros (? & H' & -> & Hk). split; [by eapply Hm|]. exists H'. split; [done|by eapply IH].
  - intros (? & -> & Hk). split_and!; [by eapply Hm|done|by eapply IH].
  - intros [? Hk]. split; [by eapply Hm|by eapply IH].
  - intros [? Hk]. split; [by eapply Hm|by eapply IH].
  - intros (? & Ht & Hk). split_and!; [done|done|]. intros t. by eapply IH.
  - intros (? & Hk). split; [done|]. intros v. by eapply IH.
Qed.

Section Rules.
Context {A : Type}.
Lemma uses_ret n H n' (a : A) : (n' ≤ n)%nat → uses n H n' H (mret a).
Proof. intros Hle κ Hκ. eapply holding_mono; [done|apply Hκ]. Qed.
Lemma uses_bind {B} n1 n2 n3 H1 H2 H3 (c : C A) (k : A → C B) :
  uses n1 H1 n2 H2 c → (∀ a, uses n2 H2 n3 H3 (k a)) → uses n1 H1 n3 H3 (c ≫= k).
Proof. intros Hc Hk κ Hκ. apply Hc. intros a. by apply Hk. Qed.
(** Inside a short section. *)
Lemma uses_prompt n H ec (m : M Service A) : prompt H m → uses (S n) H n H (Step ec m : C A).
Proof. intros Hm κ Hκ. by split_and!. Qed.
Lemma uses_unlock_long n H l : short H = false → uses (S n) (l :: H) 0 H (unlock l).
Proof. intros Hs κ Hκ. split; [done|]. exists H. split; [done|]. eapply holding_free; [done|apply Hκ]. Qed.
(** Outside. *)
Lemma uses_step H ec (m : M Service A) : short H = false → uses 0 H 0 H (Step ec m : C A).
Proof.
  intros Hs κ Hκ. split_and!; [by apply long_may|by rewrite Hs|]. intros b. eapply holding_free; [done|apply Hκ].
Qed.
Lemma uses_task (c : C A) (z : Z) : uses 0 [] 0 [] c → uses 0 [] 0 [] ((λ κ, c (λ _, κ z)) : C Z).
Proof. intros Hc κ Hκ. by apply Hc. Qed.
Lemma uses_cfold {B} H (f : B → A → C B) b l : (∀ b a, uses 0 H 0 H (f b a)) → uses 0 H 0 H (cfold f b l).
Proof.
  intros Hf. revert b. induction l as [|a l IH]; intros b; simpl; [intros κ Hκ; apply Hκ|].
  intros κ Hκ. apply Hf. intros b'. by apply IH.
Qed.
End Rules.
Lemma uses_walk {ORDER : HashOrder} {B} H (f : B → key * ContainerId → C B) b :
  short H = false → (∀ b kv, uses 0 H 0 H (f b kv)) → uses 0 H 0 H (walk f b).
Proof.
  intros Hs Hf. assert (Hon : ∀ m l cur b, uses 0 H 0 H (walk_on f m cur b l)).
  { intros m l. induction l as [|k l IH]; intros cur b'; simpl;
      (eapply uses_bind; [by apply uses_step|intros m']); [by apply uses_ret|].
    destruct (m' !! k); [|done]. eapply uses_bind; [apply Hf|done]. }
  eapply uses_bind; [by apply uses_step|]. intros m. apply Hon.
Qed.
Lemma uses_count H o : short H = false → uses 0 H 0 H (count o).
Proof. intros Hs κ Hκ. split; [by apply long_may|apply Hκ]. Qed.
Lemma uses_lock l : short [l] = true → uses 0 [] 7 [l] (lock l).
Proof. intros Hl κ Hκ. split_and!; [done|constructor|done|apply Hκ]. Qed.
Lemma uses_lock_mem : uses 0 [] 0 [memlock] (lock memlock).
Proof. intros κ Hκ. split_and!; [done|constructor|done|]. eapply holding_free; [done|apply Hκ]. Qed.
Lemma uses_lock_dock n : uses (S n) [cv_mtx] n [cv_mtx_dock; cv_mtx] (lock cv_mtx_dock).
Proof. intros κ Hκ. split_and!; [done|repeat constructor|done|apply Hκ]. Qed.
Lemma uses_unlock_short n H l : uses (S n) (l :: H) n H (unlock l).
Proof. intros κ Hκ. split; [done|]. exists H. split; [done|apply Hκ]. Qed.
Lemma uses_unlock_mem H : short H = false → uses 0 (memlock :: H) 0 H (unlock memlock).
Proof. intros Hs κ Hκ. split; [by apply long_may|]. exists H. split; [done|apply Hκ]. Qed.
Lemma uses_wait n cond : uses (S n) [cv_mtx] n [cv_mtx] (wait cond).
Proof. intros κ Hκ. split_and!; [done|done|apply Hκ]. Qed.
Lemma uses_notify n H : uses (S n) H n H notify_one.
Proof. intros κ Hκ. split; [done|apply Hκ]. Qed.
Lemma uses_async H b (task : C Z) : short H = false → uses 0 [] 0 [] task → uses 0 H 0 H (async b task).
Proof. intros Hs Ht κ Hκ. split_and!; [done| |done]. apply Ht. by intros a. Qed.
Lemma uses_spawn H (task : C unit) : short H = false → uses 0 [] 0 [] task → uses 0 H 0 H (spawn task).
Proof. intros. by apply uses_async, uses_task. Qed.
Lemma uses_join H t : short H = false → uses 0 H 0 H (join t).
Proof. by intros Hs κ Hκ. Qed.
Lemma uses_create H id : short H = false → uses 0 H 0 H (ConcManager.create_ec id).
Proof. intros Hs κ Hκ. split; [by apply long_may|apply Hκ]. Qed.

(** Accesses inside short sections: table operations on the shared state. *)
Ltac prompt :=
  intros ?; unfold free_sc, on_w, sc_get, sc_do, load, ec_find, ec_run, ec_do, ec_get, gets, modify, get_pod_id,
    get_sc_for_update_back, get_subcontainer_back, deleteFromScAcMap, deleteFromDeployedPodsMap, deleteFromDockerIdScMap,
    ec_delete_from_subcontainers_map, mbind, M_bind, mret, M_ret, stop; simpl;
  repeat (case_match; simplify_eq/=; simpl); done.
(** [locking] follows a handler and checks every mutex it takes and releases,
    and the accesses in between. *)
Create HintDb uses.
Ltac plain := unfold sc_read, sc_write, sc_incr_mismatch, own, via_ec, svc, fails, agent_client,
  ec_get_cpu_unallocated_rt, ec_get_cpu_slice, ec_get_fair_cpu_share, ec_get_overrun, ec_get_total_cpu,
  ec_get_alloc_rt, ec_get_unalloc_memory_in_pages, ec_get_memory_slice, ec_get_subcontainers, ec_get_sc_for_update,
  get_subcontainer_front, ec_incr_unallocated_rt, ec_decr_unallocated_rt, ec_incr_overrun, ec_decr_overrun,
  ec_incr_alloc_rt, ec_decr_alloc_rt, ec_decr_unalloc_memory_in_pages, ec_incr_unalloc_memory_in_pages,
  ec_incr_alloc_memory_in_pages, ec_decr_alloc_memory_in_pages, ec_update_alloc_memory_in_pages,
  ec_update_reclaim_memory_in_pages, ec_set_memory_limit_in_pages, ec_set_unalloc_memory_in_pages,
  ec_set_alloc_memory_in_pages, create_new_sc, insert_sc, update_fair_cpu_share, cdefined, cwhen,
  ConcCpu.back, ConcCpu.get_cpuleak, ConcCpu.set_cpuleak, ConcCpu.get_seqno, ConcMem.run_wait.
Ltac long := first [assumption|reflexivity].
Ltac locking :=
  intros; do 3 plain; repeat first
    [ solve [eauto 3 with uses]
    | match goal with
      | |- uses _ _ _ _ (lock cv_mtx_dock) => apply uses_lock_dock
      | |- uses _ _ _ _ (lock memlock) => apply uses_lock_mem
      | |- uses _ _ _ _ (lock _) => apply uses_lock; reflexivity
      | |- uses _ _ _ _ (unlock memlock) => apply uses_unlock_mem; long
      | |- uses _ (_ :: []) _ _ (unlock _) => apply uses_unlock_long; long
      | |- uses _ _ _ _ (unlock _) => apply uses_unlock_short
      | |- uses _ _ _ _ (wait _) => apply uses_wait
      | |- uses _ _ _ _ notify_one => apply uses_notify
      | |- uses _ _ _ _ (_ ≫= _) => eapply uses_bind; [|intros]
      | |- uses _ _ _ _ (cfold _ _ _) => apply uses_cfold; intros
      | |- uses _ _ _ _ (walk _ _) => apply uses_walk; [long|intros]
      | |- uses _ _ _ _ (async _ _) => apply uses_async; [long|]
      | |- uses _ _ _ _ (spawn _) => apply uses_spawn; [long|]
      | |- uses _ _ _ _ (match ?x with _ => _ end) => destruct x
      | |- uses 0 _ _ _ (Step _ _) => apply uses_step; long
      | |- uses _ _ _ _ (Step _ _) => apply uses_prompt; prompt
      | |- uses _ _ _ _ (mret _) => first [apply uses_ret; apply Nat.le_refl | apply uses_ret; lia]
      end ].
#[export] Hint Resolve uses_count uses_join uses_create : uses.


Section Handlers.
Context {ENV : Env} {ORDER : HashOrder}.

Lemma uses_quota_call H sc q n : short H = false → uses 0 H 0 H (set_sc_quota_syscall sc q n).
Proof. unfold set_sc_quota_syscall, agent_or_exit. locking. Qed.
Lemma uses_resize_call H id n : short H = false → uses 0 H 0 H (sc_resize_memory_limit_in_pages id n).
Proof. unfold sc_resize_memory_limit_in_pages, agent_or_exit. locking. Qed.
#[local] Hint Resolve uses_quota_call uses_resize_call : uses.
Lemma uses_try_quota H sc q n c : short H = false → uses 0 H 0 H c → uses 0 H 0 H (ConcCpu.try_quota sc q n c).
Proof. intros. unfold ConcCpu.try_quota. locking. Qed.
Lemma uses_book H sc a q : short H = false →
  uses 0 H 0 H (ConcCpu.book_take sc a q) ∧ uses 0 H 0 H (ConcCpu.book_give sc a q) ∧
  uses 0 H 0 H (ConcCpu.book_lend sc a q) ∧ uses 0 H 0 H (ConcCpu.book_repay sc a q).
Proof.
  unfold ConcCpu.book_take, ConcCpu.book_give, ConcCpu.book_lend, ConcCpu.book_repay. intros; split_and!; locking.
Qed.
Definition uses_take H sc a q (Hs : short H = false) := proj1 (uses_book H sc a q Hs).
Definition uses_give H sc a q (Hs : short H = false) := proj1 (proj2 (uses_book H sc a q Hs)).
Definition uses_lend H sc a q (Hs : short H = false) := proj1 (proj2 (proj2 (uses_book H sc a q Hs))).
Definition uses_repay H sc a q (Hs : short H = false) := proj2 (proj2 (proj2 (uses_book H sc a q Hs))).
#[local] Hint Resolve uses_try_quota uses_take uses_give uses_lend uses_repay : uses.
Lemma uses_adjust H b m th req n sc : short H = false → uses 0 H 0 H (ConcCpu.report_adjust b m th req n sc).
Proof.
  unfold ConcCpu.report_adjust, ConcCpu.and_then, ConcCpu.branch_idle, ConcCpu.branch_overrun, ConcCpu.branch_fair,
    ConcCpu.lacking, ConcCpu.branch_throttled, ConcCpu.branch_unused, ConcCpu.branch_slack, ConcCpu.shrink_to.
  locking.
Qed.
#[local] Hint Resolve uses_adjust : uses.
Lemma uses_report H now req res : short H = false → uses 0 H 0 H (ConcCpu.handle_cpu_usage_report now req res).
Proof.
  unfold ConcCpu.handle_cpu_usage_report, ConcCpu.report_seen, ConcCpu.report_number, ConcCpu.report_mismatch,
    ConcCpu.report_resync, ConcCpu.report_leak, ConcCpu.report_stats, ConcCpu.incr_seqno.
  locking.
Qed.
Lemma uses_idle_pass H now seq : short H = false → uses 0 H 0 H (ConcCpu.check_for_idle_containers now seq).
Proof. unfold ConcCpu.check_for_idle_containers, ConcCpu.idle_one. locking. Qed.
Lemma uses_reclaim H id sc : short H = false → uses 0 H 0 H (ConcMem.reclaim id sc).
Proof.
  unfold ConcMem.reclaim, sc_set_memory_limit_in_pages, sc_get_memory_usage_in_bytes_cadvisor. locking.
Qed.
#[local] Hint Resolve uses_report uses_idle_pass uses_reclaim : uses.
Lemma uses_handle_reclaim H fd : short H = false → uses 0 H 0 H (ConcMem.handle_reclaim_memory fd).
Proof. unfold ConcMem.handle_reclaim_memory, ConcMem.launch_reclaim, ConcMem.collect. locking. Qed.
#[local] Hint Resolve uses_handle_reclaim : uses.
Lemma uses_mem_req req res fd : uses 0 [] 0 [] (ConcMem.handle_mem_req req res fd).
Proof. unfold ConcMem.handle_mem_req, ConcMem.grant_mem. locking. Qed.
Lemma uses_new_pod H sc fd : short H = false → uses 0 H 0 H (ConcMem.determine_mem_limit_for_new_pod sc fd).
Proof.
  unfold ConcMem.determine_mem_limit_for_new_pod, ConcMem.wait_docker_id, sc_get_memory_limit_in_bytes_cadvisor. locking.
Qed.
Lemma uses_run H n rounds : short H = false → uses 0 H 0 H (ConcManager.run n rounds).
Proof. unfold ConcManager.run, ConcMem.run_round. locking. Qed.
Lemma uses_determine_quota H q : short H = false → uses 0 H 0 H (determine_quota_for_new_pod q).
Proof. unfold determine_quota_for_new_pod. locking. Qed.
#[local] Hint Resolve uses_mem_req uses_new_pod uses_run uses_determine_quota : uses.
Lemma uses_add_cgroup now req res ip fd : uses 0 [] 0 [] (ConcManager.handle_add_cgroup_to_ec now req res ip fd).
Proof. unfold ConcManager.handle_add_cgroup_to_ec, ConcManager.agent_of_sc. locking. Qed.
#[local] Hint Resolve uses_add_cgroup : uses.
Lemma uses_handle_req now req res ip fd : uses 0 [] 0 [] (ConcManager.handle_req now req res ip fd).
Proof. unfold ConcManager.handle_req. locking. Qed.
#[local] Hint Resolve uses_handle_req : uses.
Lemma uses_tcp ip fd buff ins : uses 0 [] 0 [] (ConcManager.tcp_loop ip fd buff ins).
Proof. revert buff. induction ins as [|i ins IH]; intros buff; simpl; locking. Qed.
#[local] Hint Resolve uses_tcp : uses.
Lemma uses_serve_tcp conns : uses 0 [] 0 [] (ConcManager.serve_tcp conns).
Proof. unfold ConcManager.serve_tcp, ConcManager.handle_client_reqs_tcp. locking. Qed.
Lemma uses_udp ip fd ins : uses 0 [] 0 [] (ConcManager.serve_udp ip fd ins).
Proof. unfold ConcManager.serve_udp, ConcManager.handle_client_reqs_udp. locking. Qed.
Lemma uses_call inet c : uses 0 [] 0 [] (ConcManager.serve_call inet c).
Proof.
  unfold ConcManager.serve_call, ConcManager.ReportAppSpec, ConcManager.ReportPodSpec, ConcManager.insertPodSpec,
    ConcManager.scIdToDockerIdMatcherThread, ConcManager.DeletePod, ConcManager.deleteFromSubcontainersMap,
    ConcManager.locked.
  locking.
Qed.
#[local] Hint Resolve uses_serve_tcp uses_udp uses_call uses_task : uses.
Lemma uses_start inet id i : uses 0 [] 0 [] (ConcManager.start inet id i).
Proof. unfold ConcManager.start, ConcManager.serveGrpcDeployExport, ConcManager.idle_thread. locking. Qed.
End Handlers.

(** ** Claims *)

(** The process when [Manager::start] is called for manager [id]. *)
Definition boot {ENV : Env} {ORDER : HashOrder} (inet_addr : string → Z) (d : Service) (id : Z)
    (i : ConcManager.inputs) : config :=
  Cfg [Thr false (Running (ConcManager.start inet_addr id i (λ _, Return 0)))] (mkC d false ∅ []) None 0.

Lemma boot_locks {ENV : Env} {ORDER : HashOrder} inet_addr d id i : locks_ok (boot inet_addr d id i).
Proof.
  exists [(O, [])]. constructor.
  - constructor; [|constructor]. split; [simpl; lia|]. left. by apply uses_start.
  - repeat constructor.
  - intros l t. simpl. split; [by rewrite lookup_empty|]. intros (g & Hg & Hin).
    destruct t; simplify_eq/=. by apply elem_of_nil in Hin.
  - intros t Ht. by apply elem_of_nil in Ht.
Qed.

(** Thread [t] waits for a mutex that [u] holds. *)
Definition waits_on (c : config) (t u : nat) : Prop :=
  ∃ cat l k, threads c !! t = Some (Thr cat (Running (Lock l k))) ∧ c_locks (c_st c) !! l = Some u.

Lemma thread_held c Gs t cat p :
  locks_with Gs c → threads c !! t = Some (Thr cat (Running p)) →
  (∀ pred k, p ≠ Wait pred k) → ∃ n H, Gs !! t = Some (n, H) ∧ holding n H p.
Proof.
  intros Hok Ht Hw. destruct (Forall2_lookup_l _ _ _ _ _ (lw_threads _ _ Hok) Ht) as ([n H] & HG & _ & [Hh|(pred & k & -> & _)]).
  - by exists n, H.
  - by destruct (Hw pred k).
Qed.
(** Along a chain of waiting threads the mutexes rise in the order. *)
Lemma waits_rise c t u cat l k cat' l' k' :
  locks_ok c → tc (waits_on c) t u → threads c !! t = Some (Thr cat (Running (Lock l k))) →
  threads c !! u = Some (Thr cat' (Running (Lock l' k'))) → (rank l < rank l')%nat.
Proof.
  intros (Gs & Hok) Hc. revert cat l k.
  assert (Hone : ∀ t u cat l k cat' l' k', waits_on c t u → threads c !! t = Some (Thr cat (Running (Lock l k))) →
    threads c !! u = Some (Thr cat' (Running (Lock l' k'))) → (rank l < rank l')%nat).
  { clear - Hok. intros t u cat l k cat' l' k' (cat0 & l0 & k0 & Ht & Hu) Ht' Hu'. simplify_eq.
    destruct (thread_held c Gs u _ _ Hok Hu') as (n & H & HH & (_ & Hr & _)); [done|].
    apply (lw_table _ _ Hok) in Hu as (g & Hg & Hin). simplify_eq. rewrite Forall_forall in Hr. by apply Hr. }
  induction Hc as [t u H1|t v u H1 Hc IH]; intros cat l k Ht Hu; [by eapply Hone|].
  assert (∃ catv lv kv, threads c !! v = Some (Thr catv (Running (Lock lv kv)))) as (catv & lv & kv & Hv).
  { inversion Hc as [? ? (? & ? & ? & ? & _)|? ? ? (? & ? & ? & ? & _)]; eauto. }
  pose proof (Hone _ _ _ _ _ _ _ _ H1 Ht Hv). pose proof (IH _ _ _ Hv Hu). lia.
Qed.

(** C6: in every state the manager reaches from its start, whatever arrives and
    however its threads are scheduled, a mutex is only ever released by the
    thread that holds it, a thread that has returned holds none, and no threads
    wait for each other's mutexes in a circle. *)
Theorem locks_well_used {ENV : Env} {ORDER : HashOrder} (inet_addr : string → Z) (d : Service) (id : Z)
    (i : ConcManager.inputs) (c : config) (Hrun : rtc cstep (boot inet_addr d id i) c) :
  (∀ t cat l k, threads c !! t = Some (Thr cat (Running (Unlock l k))) → c_locks (c_st c) !! l = Some t) ∧
  (∀ t cat v l, threads c !! t = Some (Thr cat (Finished (Ok v))) → c_locks (c_st c) !! l ≠ Some t) ∧
  (∀ t, ¬ tc (waits_on c) t t).
Proof.
  pose proof (locks_rtc _ _ Hrun (boot_locks _ _ _ _)) as Hok. pose proof Hok as (Gs & Hgs). split_and!.
  - intros t cat l k Ht. destruct (thread_held _ _ _ _ _ Hgs Ht) as (n & H & HH & (_ & H' & -> & _)); [done|].
    apply (lw_table _ _ Hgs). exists (n, l :: H'). split; [done|by left].
  - intros t cat v l Ht El. apply (lw_table _ _ Hgs) in El as (g & Hg & Hin).
    destruct (Forall2_lookup_l _ _ _ _ _ (lw_threads _ _ Hgs) Ht) as (g0 & Hg0 & _ & E). simpl in E.
    simplify_eq. rewrite E in Hin. by apply elem_of_nil in Hin.
  - intros t Hc. assert (∃ cat l k, threads c !! t = Some (Thr cat (Running (Lock l k)))) as (cat & l & k & Ht).
    { inversion Hc as [? ? (? & ? & ? & ? & _)|? ? ? (? & ? & ? & ? & _)]; eauto. }
    pose proof (waits_rise _ _ _ _ _ _ _ _ _ Hok Hc Ht Ht). lia.
Qed.

(** ** Short sections end *)

Lemma short_in l H : l ∈ H → l ≠ memlock → short H = true.
Proof.
  intros Hin Hl. unfold short. apply existsb_exists. exists l. split; [by apply list_elem_of_In|].
  by rewrite bool_decide_eq_false_2.
Qed.
(** The thread of a short section has failed, or can go on, or needs [cv_mtx_dock]. *)
Lemma short_goes_on c Gs t n H :
  locks_with Gs c → c_dead c = None → Gs !! t = Some (n, H) → short H = true →
  (∃ cat f, threads c !! t = Some (Thr cat (Finished (Fail f))) ∧ H = [dep_pod_lock]) ∨
  (∃ c', exec (Run t 0) c = Some c') ∨
  (∃ u, waits_on c t u ∧ c_locks (c_st c) !! cv_mtx_dock = Some u ∧ cv_mtx_dock ∉ H).
Proof.
  intros Hok Hd HG Hs. destruct (Forall2_lookup_r _ _ _ _ _ (lw_threads _ _ Hok) HG) as ([cat bd] & Ht & _ & Hth).
  simpl in Hth. destruct bd as [p|[v|f]]; [|by subst|left; eauto].
  destruct Hth as [Hp|(? & ? & _ & -> & _)]; [|done]. right. unfold exec. rewrite Hd, Ht.
  destruct p as [v|B ec m k|o k|l k|l k|cond k|k|e k|cat' task k|u k]; simpl in Hp |- *; try (left; by eauto).
  - left. destruct (_ && _); [by eauto|]. destruct (m _) as [[]]; eauto.
  - left. destruct (negb _); eauto.
  - destruct Hp as (_ & Hr & Hdk & _). rewrite (Hdk Hs) in *. unfold acquire.
    destruct (c_locks (c_st c) !! cv_mtx_dock) as [u|] eqn:El; [|by eauto]. right. exists u.
    split_and!; [by exists cat, cv_mtx_dock, k|done|]. intros Hin. rewrite Forall_forall in Hr. specialize (Hr _ Hin). lia.
  - left. case_bool_decide; eauto.
  - left. destruct Hp as (_ & -> & _). unfold wait_cv. rewrite bool_decide_eq_false_2.
    + rewrite (proj2 (lw_table _ _ Hok cv_mtx t)) by (exists (n, [cv_mtx]); split; [done|by left]).
      rewrite Nat.eqb_refl. destruct (cond _); eauto.
    + intros (? & ? & ? & ? & _ & HG')%(lw_asleep _ _ Hok). simplify_eq.
  - destruct Hp. congruence.
Qed.

Definition of_thread (t : nat) (mv : move) : bool := match mv with Run u _ => (u =? t)%nat | Spurious _ => false end.
(** A thread whose accesses are used up has left its section on the way. *)
Lemma short_ends l t mvs : ∀ c c' Gs n H,
  locks_with Gs c → Gs !! t = Some (n, H) → l ≠ memlock → exec_all mvs c = Some c' →
  (n < length (filter (of_thread t) mvs))%nat →
  ∃ mvs1 mvs2 c1, mvs = mvs1 ++ mvs2 ∧ exec_all mvs1 c = Some c1 ∧ c_locks (c_st c1) !! l ≠ Some t.
Proof.
  induction mvs as [|mv mvs IH]; intros c c' Gs n H Hok HG Hl E Hn; [simpl in Hn; lia|].
  destruct (decide (l ∈ H)) as [Hin|Hout].
  2:{ exists [], (mv :: mvs), c. split_and!; [done|done|]. intros (g & Hg & Hin)%(lw_table _ _ Hok). by simplify_eq. }
  pose proof (short_in l H Hin Hl) as Hs. simpl in E. destruct (exec mv c) as [c1|] eqn:E1; [|done]. simpl in E.
  destruct (locks_move _ _ _ _ Hok E1) as (Gs' & Hok' & Hmv).
  assert (Hgo : ∀ n' H', Gs' !! t = Some (n', H') → (n' < length (filter (of_thread t) mvs))%nat →
    ∃ mvs1 mvs2 c2, mv :: mvs = mvs1 ++ mvs2 ∧ exec_all mvs1 c = Some c2 ∧ c_locks (c_st c2) !! l ≠ Some t).
  { intros n' H' HG' Hn'. destruct (IH c1 c' Gs' n' H') as (mvs1 & mvs2 & c2 & -> & Hx & Hout); try done.
    exists (mv :: mvs1), mvs2, c2. split_and!; [done|simpl; by rewrite E1|done]. }
  destruct mv as [u pick|u]; [|subst Gs'; by eapply Hgo].
  simpl in Hn. rewrite filter_cons in Hn. simpl in Hn.
  destruct (Nat.eqb_spec u t) as [->|Hu]; [|destruct Hmv as [Hmv _]; eapply Hgo; [by eapply Hmv|done]].
  simpl in Hn. assert (Hpos : n ≠ 0%nat).
  { unfold exec in E1. destruct (c_dead c); [done|]. destruct (threads c !! t) as [[cat [p|]]|] eqn:Ht; try done.
    destruct (Forall2_lookup_l _ _ _ _ _ (lw_threads _ _ Hok) Ht) as (g & Hg & _ & [Hp|(? & ? & _ & Hnil & _)]); simplify_eq/=.
    by eapply holding_left. }
  destruct Hmv as [_ Hmv]. destruct (Hmv n H HG Hs) as [Hdead|(n' & H' & HG' & Hlt)]; [|eapply Hgo; [done|lia]].
  destruct mvs as [|mv mvs]; [simpl in Hn; lia|]. simpl in E. unfold exec in E. by destruct (c_dead c1).
Qed.

(** C7: a mutex other than [memlock] is held for a bounded time: of a thread
    that holds one, in any state the manager reaches, at most [longest] accesses
    lie before it lets go, whatever the other threads do in between. And nothing
    holds it up: it can make its next access at once, or needs only [cv_mtx_dock],
    whose holder can; the one exception is a thread that an exception ended
    inside its section of [dep_pod_lock], which then stays taken. *)
Theorem short_sections_end {ENV : Env} {ORDER : HashOrder} (inet_addr : string → Z) (d : Service) (id : Z)
    (i : ConcManager.inputs) (c : config) (l : mutex) (t : nat) (Hrun : rtc cstep (boot inet_addr d id i) c)
    (Hshort : l ≠ memlock) (Hheld : c_locks (c_st c) !! l = Some t) :
  (∀ mvs c', exec_all mvs c = Some c' → (longest < length (filter (of_thread t) mvs))%nat →
    ∃ mvs1 mvs2 c1, mvs = mvs1 ++ mvs2 ∧ exec_all mvs1 c = Some c1 ∧ c_locks (c_st c1) !! l ≠ Some t) ∧
  (c_dead c = None →
    (l = dep_pod_lock ∧ ∃ cat f, threads c !! t = Some (Thr cat (Finished (Fail f)))) ∨
    (∃ c', exec (Run t 0) c = Some c') ∨
    (∃ u c', waits_on c t u ∧ c_locks (c_st c) !! cv_mtx_dock = Some u ∧ exec (Run u 0) c = Some c')).
Proof.
  destruct (locks_rtc _ _ Hrun (boot_locks _ _ _ _)) as (Gs & Hok).
  pose proof Hheld as ([n H] & HG & Hin)%(lw_table _ _ Hok). pose proof (short_in l H Hin Hshort) as Hs. split.
  - intros mvs c' Hx Hn. destruct (Forall2_lookup_r _ _ _ _ _ (lw_threads _ _ Hok) HG) as (th & _ & Hle & _).
    eapply short_ends; eauto. simpl in Hle. lia.
  - intros Hd. destruct (short_goes_on c Gs t n H Hok Hd HG Hs) as [(cat & f & Ht & ->)|[?|(u & Hw & Hu & Hno)]]; [|by auto|].
    + left. split; [|by eauto]. by apply list_elem_of_singleton in Hin.
    + right. right. exists u. pose proof Hu as ([nu Hu'] & HGu & Hinu)%(lw_table _ _ Hok).
      destruct (short_goes_on c Gs u nu Hu' Hok Hd HGu (short_in _ _ Hinu ltac:(done)))
        as [(cat & f & Ht & ->)|[(c' & Hc')|(? & _ & _ & ?)]]; [|by exists c'|done].
      by apply list_elem_of_singleton in Hinu.
Qed.

End ConcLocks.
