(* ===== verification/ConcWaits.v ===== *)
(** * Nobody waits for a mutex in vain

    A memory request starts a task per container and awaits them all while it
    holds [memlock]. That cannot end in a deadlock: the tasks take no mutex and
    wait for no thread and no flag, only for the answer of an agent; the request
    takes no second mutex and waits for no flag; and no thread whose exception is
    kept takes [memlock]. So whoever waits for a mutex waits, over another mutex
    or a task, for a thread whose next access is possible and gets it further, or
    for the answer of an agent; but for [dep_pod_lock], which an exception may
    leave taken. *)
From S2P Require Import Prelude OmNet Float64 Window LocalStats SubContainer Agents CpuG MemG.
From S2P Require Import ElasticContainer World Types Json JSONFacade CAdvisor ECAPI ManagerCpu ManagerMem Manager Server Deploy.
From S2P Require Import Conc ConcApi ConcCpu ConcMem ConcManager ConcLocks.
Import SubContainer ElasticContainer Conc ConcApi.

Module ConcWaits.
Import Deploy ConcLocks.

(** An access that never waits for a flag or an answer, and the one that waits for
    an agent to complete a resize call. *)
Definition ready {S A} (m : M S A) : Prop := ∀ s, (m s).1 ≠ Fail Blocked.
Inductive agent_call {ENV : Env} : ∀ {A}, M Service A → Prop :=
| resize_call ac cgroup_id limit :
    agent_call (on_w (rpc (AgentClient.resizeMemoryLimitPages ac cgroup_id limit))).

Section Ready.
Context {S : Type}.
Lemma ready_ret {A} (a : A) : ready (S := S) (mret a).
Proof. done. Qed.
Lemma ready_stop {A} f : f ≠ Blocked → ready (S := S) (A := A) (stop f).
Proof. intros Hf s [= E]. done. Qed.
Lemma ready_gets {A} (f : S → A) : ready (gets f).
Proof. done. Qed.
Lemma ready_modify (f : S → S) : ready (modify f).
Proof. done. Qed.
Lemma ready_bind {A B} (m : M S A) (k : A → M S B) : ready m → (∀ a, ready (k a)) → ready (m ≫= k).
Proof.
  intros Hm Hk s. specialize (Hm s). unfold mbind, M_bind. destruct (m s) as [[a|f] s']; [apply Hk|]. simpl in *. congruence.
Qed.
End Ready.
Lemma ready_on_w {A} (m : M World A) : ready m → ready (on_w m).
Proof. intros Hm d. specialize (Hm (d_w d)). unfold on_w. by destruct (m _). Qed.
Lemma ready_rpc {A} (m : M (list event) A) : ready m → ready (rpc m).
Proof. intros Hm w. specialize (Hm (w_trace w)). unfold rpc. by destruct (m _). Qed.
Lemma ready_load p : ready (load p).
Proof. intros w. unfold load. by destruct (w_heap w !! p). Qed.
Lemma ready_ec_run {A} (f : ElasticContainer → A * ElasticContainer) : ready (ec_run f).
Proof. intros w. unfold ec_run. by destruct (f _). Qed.
Lemma ready_ec_find {A} (f : ElasticContainer → outcome A) : (∀ e, f e ≠ Fail Blocked) → ready (ec_find f).
Proof. intros Hf w. apply Hf. Qed.
Create HintDb ready.
#[export] Hint Resolve ready_ret ready_gets ready_modify ready_load ready_ec_run : ready.
(** [readying] follows an access. *)
Ltac readying :=
  unfold sc_get, sc_do, ec_get, ec_do, defined, throws in *;
  repeat first
    [ solve [eauto 2 with ready]
    | match goal with
      | |- ready (on_w _) => apply ready_on_w
      | |- ready (rpc _) => apply ready_rpc
      | |- ready (stop _) => apply ready_stop; done
      | |- ready (ec_find _) => apply ready_ec_find; intros ?; unfold get_sc_for_update_back; repeat case_match; done
      | |- ready (_ ≫= _) => apply ready_bind; [|intros ?]
      | |- ready (match ?x with _ => _ end) => destruct x eqn:?
      end ].
(** Asking a node's cAdvisor: a request that is not answered fails. *)
Lemma ready_usage {ENV : Env} ip dock : ready (CAdvisor.getContMemUsage ip dock).
Proof.
  unfold CAdvisor.getContMemUsage, CAdvisor.fetch, JSONFacade.getJSONRequest, JSONFacade.parseCAdvisorResponseStats,
    JSONFacade.first_field, JSONFacade.last_item, JSONFacade.to_uint64.
  readying. unfold JSONFacade.json_return in *. apply ready_stop. repeat case_match; congruence.
Qed.
#[export] Hint Resolve ready_usage : ready.

(** A program that touches no mutex and no other thread, and waits only for
    agents. *)
Fixpoint free {ENV : Env} (p : prog) : Prop :=
  match p with
  | Return _ => True
  | Step _ m k => (ready m ∨ agent_call m) ∧ ∀ b, free (k b)
  | Count _ k => free k
  | _ => False
  end.
(** [awaits m S b p]: [p] takes [memlock] only if [m], and while it holds [memlock]
    ([b]: it does at the start) it takes no mutex, waits for no flag and joins only
    threads of [S], or free tasks it has started itself; the tasks it starts obey
    the same rule, with [m] only if their exceptions end the process. *)
Fixpoint awaits {ENV : Env} (m : bool) (S : list nat) (b : bool) (p : prog) : Prop :=
  match p with
  | Return _ => True
  | Step _ f k => (b = true → ready f) ∧ ∀ x, awaits m S b (k x)
  | Count _ k | Notify k | Create _ k | Wait _ k => awaits m S b k
  | Lock l k => b = false ∧ (l = memlock → m = true) ∧ awaits m S (bool_decide (l = memlock)) k
  | Unlock l k => awaits m S (negb (bool_decide (l = memlock)) && b) k
  | Async cat task k =>
      awaits (negb cat) [] false task ∧
      ∃ own : bool, (own = true → free task) ∧ ∀ t, awaits m (if own then t :: S else S) b (k t)
  | Join u k => (b = true → u ∈ S) ∧ ∀ v, awaits m S b (k v)
  end.

Section Rule.
Context {ENV : Env}.

Lemma awaits_mono p : ∀ m S S' b, S ⊆ S' → awaits m S b p → awaits m S' b p.
Proof.
  induction p as [v|B ec m k IH|o k IH|l k IH|l k IH|cond k IH|k IH|e k IH|cat task IHt k IH|u k IH];
    intros m' S S' b HS; simpl.
  - done.
  - intros [Hf H]. split; [done|]. intros x. by eapply IH.
  - by apply IH.
  - intros (? & ? & H). split_and!; [done|done|by eapply IH].
  - by apply IH.
  - by apply IH.
  - by apply IH.
  - by apply IH.
  - intros (Ht & own & Hf & H). split; [done|]. exists own. split; [done|]. intros t. eapply IH; [|apply H].
    destruct own; [|done]. intros x. rewrite !elem_of_cons. naive_solver.
  - intros [Hu H]. split; [auto|]. intros v. by eapply IH.
Qed.

(** ** The handlers *)

Definition calm (m b b' : bool) {A} (c : C A) : Prop :=
  ∀ S κ, (∀ a, awaits m S b' (κ a)) → awaits m S b (c κ).
Definition freely {A} (c : C A) : Prop := ∀ κ, (∀ a, free (κ a)) → free (c κ).

Section Rules.
Context (m : bool).
Lemma calm_ret {A} b (a : A) : calm m b b (mret a).
Proof. intros S κ H. apply H. Qed.
Lemma calm_bind {A B} b1 b2 b3 (c : C A) (k : A → C B) :
  calm m b1 b2 c → (∀ a, calm m b2 b3 (k a)) → calm m b1 b3 (c ≫= k).
Proof. intros Hc Hk S κ H. apply Hc. intros a. by apply Hk. Qed.
Lemma calm_step {A} ec (f : M Service A) : calm m false false (Step ec f : C A).
Proof. by intros S κ H. Qed.
Lemma calm_ready {A} b ec (f : M Service A) : ready f → calm m b b (Step ec f : C A).
Proof. by intros Hf S κ H. Qed.
Lemma calm_count b o : calm m b b (count o).
Proof. intros S κ H. apply H. Qed.
Lemma calm_notify b : calm m b b notify_one.
Proof. intros S κ H. apply H. Qed.
Lemma calm_create b id : calm m b b (ConcManager.create_ec id).
Proof. intros S κ H. apply H. Qed.
Lemma calm_wait b pred : calm m b b (wait pred).
Proof. intros S κ H. apply H. Qed.
Lemma calm_lock l : l ≠ memlock → calm m false false (lock l).
Proof. intros Hl S κ H. destruct l; [done|..]; (split_and!; [done|done|apply H]). Qed.
Lemma calm_unlock b l : l ≠ memlock → calm m b b (unlock l).
Proof. intros Hl S κ H. destruct l; [done|apply H..]. Qed.
Lemma calm_unlock_mem b : calm m b false (unlock memlock).
Proof. intros S κ H. apply H. Qed.
Lemma calm_cfold {A B} b (f : B → A → C B) x l : (∀ x a, calm m b b (f x a)) → calm m b b (cfold f x l).
Proof.
  intros Hf. revert x. induction l as [|a l IH]; intros x; simpl; [intros S κ H; apply H|].
  intros S κ H. apply Hf. intros x'. by apply IH.
Qed.
Lemma calm_walk {ORDER : HashOrder} {B} (f : B → key * ContainerId → C B) b :
  (∀ b kv, calm m false false (f b kv)) → calm m false false (walk f b).
Proof.
  intros Hf. assert (Hon : ∀ tbl l cur b, calm m false false (walk_on f tbl cur b l)).
  { intros tbl l. induction l as [|k l IH]; intros cur b'; simpl;
      (eapply calm_bind; [apply calm_step|intros m']); [apply calm_ret|].
    destruct (m' !! k); [|done]. eapply calm_bind; [apply Hf|done]. }
  eapply calm_bind; [apply calm_step|]. intros tbl. apply Hon.
Qed.
Lemma calm_async b cat (task : C Z) : calm (negb cat) false false task → calm m b b (async cat task).
Proof. intros Ht S κ H. split; [by apply Ht|]. by exists false. Qed.
Lemma calm_spawn b (task : C unit) : calm true false false task → calm m b b (spawn task).
Proof. intros Ht. apply calm_async. intros S κ H. by apply Ht. Qed.
Lemma calm_join t : calm m false false (join t).
Proof. by intros S κ H. Qed.
End Rules.
Lemma calm_lock_mem : calm true false true (lock memlock).
Proof. intros S κ H. split_and!; [done|done|apply H]. Qed.

Lemma freely_ret {A} (a : A) : freely (mret a).
Proof. intros κ H. apply H. Qed.
Lemma freely_bind {A B} (c : C A) (k : A → C B) : freely c → (∀ a, freely (k a)) → freely (c ≫= k).
Proof. intros Hc Hk κ H. apply Hc. intros a. by apply Hk. Qed.
Lemma freely_step {A} ec (f : M Service A) : ready f ∨ agent_call f → freely (Step ec f : C A).
Proof. by intros Hf κ H. Qed.
End Rule.

(** [calming] and [freeing] follow a handler. *)
Create HintDb calm.
#[export] Hint Resolve calm_ret calm_step calm_count calm_notify calm_create calm_wait calm_join calm_lock_mem
  calm_unlock_mem freely_ret : calm.
Ltac calming :=
  intros; do 3 plain; repeat first
    [ solve [eauto 2 with calm]
    | match goal with
      | |- calm _ _ _ (lock memlock) => apply calm_lock_mem
      | |- calm _ _ _ (unlock memlock) => apply calm_unlock_mem
      | |- calm _ _ _ (lock _) => apply calm_lock; done
      | |- calm _ _ _ (unlock _) => apply calm_unlock; done
      | |- calm _ _ _ (_ ≫= _) => eapply calm_bind; [|intros]
      | |- calm _ _ _ (cfold _ _ _) => apply calm_cfold; intros
      | |- calm _ _ _ (walk _ _) => apply calm_walk; intros
      | |- calm _ _ _ (Step _ _) => apply calm_ready; readying
      | |- calm _ _ _ (async _ _) => apply calm_async; simpl negb
      | |- calm _ _ _ (spawn _) => apply calm_spawn
      | |- calm _ _ _ (match ?x with _ => _ end) => destruct x
      end ].
Ltac freeing :=
  do 3 plain; repeat first
    [ solve [eauto 2 with calm]
    | match goal with
      | |- freely (_ ≫= _) => apply freely_bind; [|intros]
      | |- freely (match ?x with _ => _ end) => destruct x
      | |- freely (Step _ (on_w (rpc (AgentClient.resizeMemoryLimitPages _ _ _)))) => apply freely_step; right; constructor
      | |- freely (Step _ _) => apply freely_step; left; readying
      end ].

Section Handlers.
Context {ENV : Env} {ORDER : HashOrder}.

Lemma calm_quota_call m sc q n : calm m false false (set_sc_quota_syscall sc q n).
Proof. unfold set_sc_quota_syscall, agent_or_exit. calming. Qed.
Lemma calm_resize_call m id n : calm m false false (sc_resize_memory_limit_in_pages id n).
Proof. unfold sc_resize_memory_limit_in_pages, agent_or_exit. calming. Qed.
#[local] Hint Resolve calm_quota_call calm_resize_call : calm.
Lemma calm_adjust m i me th req n sc : calm m false false (ConcCpu.report_adjust i me th req n sc).
Proof.
  unfold ConcCpu.report_adjust, ConcCpu.and_then, ConcCpu.branch_idle, ConcCpu.branch_overrun, ConcCpu.branch_fair,
    ConcCpu.lacking, ConcCpu.branch_throttled, ConcCpu.branch_unused, ConcCpu.branch_slack, ConcCpu.shrink_to,
    ConcCpu.try_quota, ConcCpu.book_take, ConcCpu.book_give, ConcCpu.book_lend, ConcCpu.book_repay.
  calming.
Qed.
#[local] Hint Resolve calm_adjust : calm.
Lemma calm_report m now req res : calm m false false (ConcCpu.handle_cpu_usage_report now req res).
Proof.
  unfold ConcCpu.handle_cpu_usage_report, ConcCpu.report_seen, ConcCpu.report_number, ConcCpu.report_mismatch,
    ConcCpu.report_resync, ConcCpu.report_leak, ConcCpu.report_stats, ConcCpu.incr_seqno.
  calming.
Qed.
Lemma calm_idle_pass m now seq : calm m false false (ConcCpu.check_for_idle_containers now seq).
Proof.
  unfold ConcCpu.check_for_idle_containers, ConcCpu.idle_one, ConcCpu.try_quota, ConcCpu.book_give. calming.
Qed.
Lemma calm_reclaim m id sc : calm m false false (ConcMem.reclaim id sc).
Proof. unfold ConcMem.reclaim, sc_set_memory_limit_in_pages, sc_get_memory_usage_in_bytes_cadvisor. calming. Qed.
#[local] Hint Resolve calm_report calm_idle_pass calm_reclaim : calm.
Lemma free_reclaim id sc : freely (ConcMem.reclaim id sc).
Proof.
  unfold ConcMem.reclaim, sc_set_memory_limit_in_pages, sc_get_memory_usage_in_bytes_cadvisor,
    sc_resize_memory_limit_in_pages, agent_or_exit. freeing.
Qed.

(** The futures a request awaits are tasks it has started. *)
Lemma launch_awaits m b fd tbl cur l : ∀ fs S κ, fs ⊆ S →
  (∀ S' fs', S ⊆ S' → fs' ⊆ S' → awaits m S' b (κ fs')) →
  awaits m S b (walk_on (ConcMem.launch_reclaim fd) tbl cur fs l κ).
Proof.
  revert cur. induction l as [|k l IH]; intros cur fs S κ Hfs Hκ; simpl; (split; [intros _; unfold advance; readying|]);
    intros m'; [by apply Hκ|]. destruct (m' !! k) as [e|]; [|by apply IH]. simpl.
  split; [intros _; readying|]. intros sc. split; [intros _; readying|]. intros f.
  destruct (f =? fd); [by apply IH|]. split; [intros _; readying|]. intros sc'.
  split; [by apply (calm_reclaim false)|]. exists true. split; [intros _; by apply free_reclaim|].
  intros t. apply IH.
  - intros x [Hx|Hx]%elem_of_app; [right; by apply Hfs|]. apply list_elem_of_singleton in Hx as ->. left.
  - intros S' fs' HS. apply Hκ. intros x Hx. apply HS. by right.
Qed.
Lemma collect_awaits m b fs : ∀ r S κ, fs ⊆ S → (∀ a, awaits m S b (κ a)) → awaits m S b (cfold ConcMem.collect r fs κ).
Proof.
  induction fs as [|f fs IH]; intros r S κ Hfs Hκ; simpl; [apply Hκ|]. split; [intros _; apply Hfs; left|].
  intros v. apply IH; [|done]. intros x Hx. apply Hfs. by right.
Qed.
Lemma calm_handle_reclaim m b fd : calm m b b (ConcMem.handle_reclaim_memory fd).
Proof.
  intros S κ Hκ. split; [intros _; readying|]. intros tbl. apply launch_awaits; [apply list_subseteq_nil|]. intros S' fs HS Hfs.
  apply collect_awaits; [done|]. intros a. eapply awaits_mono; [exact HS|apply Hκ].
Qed.
#[local] Hint Resolve calm_handle_reclaim : calm.
Lemma calm_mem_req req res fd : calm true false false (ConcMem.handle_mem_req req res fd).
Proof. unfold ConcMem.handle_mem_req, ConcMem.grant_mem. calming. Qed.
Lemma calm_new_pod m sc fd : calm m false false (ConcMem.determine_mem_limit_for_new_pod sc fd).
Proof.
  unfold ConcMem.determine_mem_limit_for_new_pod, ConcMem.wait_docker_id, sc_get_memory_limit_in_bytes_cadvisor. calming.
Qed.
Lemma calm_run m n rounds : calm m false false (ConcManager.run n rounds).
Proof. unfold ConcManager.run, ConcMem.run_round. calming. Qed.
Lemma calm_determine_quota m b q : calm m b b (determine_quota_for_new_pod q).
Proof. unfold determine_quota_for_new_pod. calming. Qed.
#[local] Hint Resolve calm_mem_req calm_new_pod calm_run calm_determine_quota : calm.
Lemma calm_add_cgroup m now req res ip fd : calm m false false (ConcManager.handle_add_cgroup_to_ec now req res ip fd).
Proof. unfold ConcManager.handle_add_cgroup_to_ec, ConcManager.agent_of_sc. calming. Qed.
#[local] Hint Resolve calm_add_cgroup : calm.
Lemma calm_handle_req now req res ip fd : calm true false false (ConcManager.handle_req now req res ip fd).
Proof. unfold ConcManager.handle_req. calming. Qed.
#[local] Hint Resolve calm_handle_req : calm.
Lemma calm_tcp ip fd buff ins : calm true false false (ConcManager.tcp_loop ip fd buff ins).
Proof. revert buff. induction ins as [|i ins IH]; intros buff; simpl; calming. Qed.
#[local] Hint Resolve calm_tcp : calm.
Lemma calm_serve_tcp conns : calm true false false (ConcManager.serve_tcp conns).
Proof. unfold ConcManager.serve_tcp, ConcManager.handle_client_reqs_tcp. calming. Qed.
Lemma calm_udp ip fd ins : calm true false false (ConcManager.serve_udp ip fd ins).
Proof. unfold ConcManager.serve_udp, ConcManager.handle_client_reqs_udp. calming. Qed.
Lemma calm_call inet c : calm false false false (ConcManager.serve_call inet c).
Proof.
  unfold ConcManager.serve_call, ConcManager.ReportAppSpec, ConcManager.ReportPodSpec, ConcManager.insertPodSpec,
    ConcManager.scIdToDockerIdMatcherThread, ConcManager.DeletePod, ConcManager.deleteFromSubcontainersMap,
    ConcManager.locked.
  calming.
Qed.
Lemma calm_task {A} m (c : C A) (z : Z) : calm m false false c → calm m false false ((λ κ, c (λ _, κ z)) : C Z).
Proof. intros Hc S κ H. by apply Hc. Qed.
#[local] Hint Resolve calm_serve_tcp calm_udp calm_call calm_task : calm.
Lemma calm_start inet id i : calm true false false (ConcManager.start inet id i).
Proof. unfold ConcManager.start, ConcManager.serveGrpcDeployExport, ConcManager.idle_thread. calming. Qed.
End Handlers.

(** ** Every move keeps the rule *)

Definition holds_mem (c : config) (t : nat) : bool := bool_decide (c_locks (c_st c) !! memlock = Some t).
Section Moves.
Context {ENV : Env}.
(** Thread [u] is a free task, or has ended. *)
Definition harmless (c : config) (u : nat) : Prop :=
  match threads c !! u with
  | Some (Thr _ (Running q)) => free q
  | Some (Thr _ (Finished _)) => True
  | None => False
  end.
Definition thread_waits (c : config) (t : nat) (th : thread) : Prop :=
  match t_body th with
  | Running p =>
      (catches th = true → holds_mem c t = false) ∧
      ∃ S, (∀ u, u ∈ S → harmless c u) ∧ awaits (negb (catches th)) S (holds_mem c t) p
  | Finished (Ok _) => True
  | Finished (Fail f) => f = Throw ∧ holds_mem c t = false
  end.
Definition waits_ok (c : config) : Prop := ∀ t th, threads c !! t = Some th → thread_waits c t th.

Lemma waits_same c c' :
  threads c' = threads c → c_locks (c_st c') !! memlock = c_locks (c_st c) !! memlock → waits_ok c → waits_ok c'.
Proof.
  intros Et El Hok t th Ht. rewrite Et in Ht. specialize (Hok t th Ht). revert Hok.
  unfold thread_waits, holds_mem, harmless. by rewrite Et, El.
Qed.

Section Move.
Context (c : config) (t : nat) (cat : bool) (p : prog).
Hypotheses (Hok : waits_ok c) (Ht : threads c !! t = Some (Thr cat (Running p))).

(** Thread [t] gets body [bd]; only its own claim on [memlock] may change. *)
Lemma waits_body c' bd :
  threads c' = <[t := Thr cat bd]> (threads c) → (∀ u, u ≠ t → holds_mem c' u = holds_mem c u) →
  (free p → match bd with Running q => free q | Finished _ => True end) →
  ((∀ u, harmless c u → harmless c' u) → thread_waits c' t (Thr cat bd)) → waits_ok c'.
Proof using Hok Ht.
  intros Et Hmem Hfree Hself.
  assert (Hh : ∀ u, harmless c u → harmless c' u).
  { intros u. unfold harmless. rewrite Et. destruct (decide (u = t)) as [->|Hne].
    - rewrite list_lookup_insert_eq by (by eapply lookup_lt_Some). rewrite Ht. destruct bd; auto.
    - by rewrite list_lookup_insert_ne. }
  intros u th Hu. rewrite Et in Hu. destruct (decide (u = t)) as [->|Hne].
  - rewrite list_lookup_insert_eq in Hu by (by eapply lookup_lt_Some). injection Hu as <-. by apply Hself.
  - rewrite list_lookup_insert_ne in Hu by done. specialize (Hok u th Hu). unfold thread_waits in *.
    rewrite Hmem by done. destruct (t_body th) as [q|[]]; [|done..]. destruct Hok as (Hc & S & HS & Ha).
    split; [done|]. exists S. auto.
Qed.
(** The mutexes stay as they are. *)
Lemma waits_go_on bd s c' :
  c_locks s !! memlock = c_locks (c_st c) !! memlock → threads c' = <[t := Thr cat bd]> (threads c) → c_st c' = s →
  (free p → match bd with Running q => free q | Finished _ => True end) →
  match bd with
  | Running q => ∀ S, awaits (negb cat) S (holds_mem c t) p → awaits (negb cat) S (holds_mem c t) q
  | Finished (Ok _) => True
  | Finished (Fail f) => f = Throw ∧ cat = true
  end → waits_ok c'.
Proof using Hok Ht.
  intros El Et Es Hfree Hq. assert (Hm : ∀ u, holds_mem c' u = holds_mem c u) by (intros u; unfold holds_mem; by rewrite Es, El).
  eapply waits_body; eauto. intros Hh. destruct (Hok t _ Ht) as (Hc & S & HS & Ha). simpl in Hc, Ha.
  unfold thread_waits; simpl. rewrite Hm. destruct bd as [q|[v|f]]; [|done|destruct Hq; auto]. split; [done|]. exists S. auto.
Qed.
Lemma waits_fail f s : c_locks s !! memlock = c_locks (c_st c) !! memlock →
  waits_ok (fail_thread t (Thr cat (Running p)) f (set_st s c)).
Proof using Hok Ht.
  intros El. assert (Hs : waits_ok (set_st s c)) by (by apply (waits_same c)).
  assert (Hd : waits_ok (die f (set_st s c))) by (by apply (waits_same c)).
  destruct f; try done. simpl.
  assert (Hif : ∀ b (x y : config), (b = true → waits_ok x) → waits_ok y → waits_ok (if b then x else y)) by (intros []; auto).
  apply Hif; [|done]. intros Ec. by eapply (waits_go_on (Finished (Fail Throw)) s).
Qed.
End Move.

(** A thread takes or releases a mutex. *)
Lemma waits_lock c t cat l k :
  waits_ok c → threads c !! t = Some (Thr cat (Running (Lock l k))) → c_locks (c_st c) !! l = None →
  waits_ok (set_body t (Thr cat (Running (Lock l k))) (Running k)
    (set_st (with_locks (<[l := t]> (c_locks (c_st c))) (c_st c)) c)).
Proof.
  intros Hok Ht El. set (c' := set_body _ _ _ _). eapply (waits_body c t cat _ Hok Ht c' (Running k)); [done| |done|].
  - intros u Hu. unfold holds_mem; simpl. destruct (decide (l = memlock)) as [->|Hl]; [|by rewrite lookup_insert_ne].
    rewrite lookup_insert_eq, El, !bool_decide_eq_false_2; congruence.
  - intros Hh. destruct (Hok t _ Ht) as (Hc & S & HS & Hn & Hm & Ha). simpl in Hc, Hn, Hm, Ha.
    assert (Hb : holds_mem c' t = bool_decide (l = memlock)).
    { unfold holds_mem in *; simpl. destruct (decide (l = memlock)) as [->|Hl].
      - by rewrite lookup_insert_eq, (bool_decide_eq_true_2 (Some t = Some t)), (bool_decide_eq_true_2 (memlock = memlock)).
      - by rewrite lookup_insert_ne, (bool_decide_eq_false_2 (l = memlock)). }
    unfold thread_waits; simpl. rewrite Hb. split; [|by exists S; auto].
    intros ->. by rewrite (bool_decide_eq_false_2 (l = memlock)) by (by intros ?%Hm).
Qed.
Lemma waits_unlock c t cat l k :
  waits_ok c → threads c !! t = Some (Thr cat (Running (Unlock l k))) → c_locks (c_st c) !! l = Some t →
  waits_ok (set_body t (Thr cat (Running (Unlock l k))) (Running k)
    (set_st (with_locks (delete l (c_locks (c_st c))) (c_st c)) c)).
Proof.
  intros Hok Ht El. set (c' := set_body _ _ _ _). eapply (waits_body c t cat _ Hok Ht c' (Running k)); [done| |done|].
  - intros u Hu. unfold holds_mem; simpl. destruct (decide (l = memlock)) as [->|Hl]; [|by rewrite lookup_delete_ne].
    rewrite lookup_delete_eq, El, !bool_decide_eq_false_2; congruence.
  - intros Hh. destruct (Hok t _ Ht) as (Hc & S & HS & Ha). simpl in Hc, Ha.
    assert (Hb : holds_mem c' t = negb (bool_decide (l = memlock)) && holds_mem c t).
    { unfold holds_mem; simpl. destruct (decide (l = memlock)) as [->|Hl].
      - by rewrite lookup_delete_eq, (bool_decide_eq_true_2 (memlock = memlock)).
      - by rewrite lookup_delete_ne, (bool_decide_eq_false_2 (l = memlock)). }
    unfold thread_waits; simpl. rewrite Hb. split; [|by exists S; auto]. intros ->. rewrite Hc by done. by rewrite andb_false_r.
Qed.

(** The holder of [memlock] is a thread. *)
Definition mem_known (c : config) : Prop := ∀ u, c_locks (c_st c) !! memlock = Some u → (u < length (threads c))%nat.
(** The list of threads grows. *)
Lemma harmless_add th c u : harmless c u → harmless (add_thread th c) u.
Proof. unfold harmless; simpl. destruct (threads c !! u) eqn:E; [|done]. by rewrite (lookup_app_l_Some _ _ _ _ E). Qed.
Lemma waits_add c cat' task :
  waits_ok c → mem_known c → awaits (negb cat') [] false task → waits_ok (add_thread (Thr cat' (Running task)) c).
Proof.
  intros Hok Hlt Htask u th Hu. simpl in Hu. apply lookup_app_Some in Hu as [Hu|[Hge Hu]].
  - specialize (Hok u th Hu). unfold thread_waits in *. destruct (t_body th) as [q|[]]; [|done..].
    destruct Hok as (Hc & S & HS & Ha). split; [done|]. exists S. split; [|done]. intros x Hx. by apply harmless_add, HS.
  - apply list_lookup_singleton_Some in Hu as [Hn <-].
    assert (Hno : holds_mem (add_thread (Thr cat' (Running task)) c) u = false).
    { apply bool_decide_eq_false_2. intros Hm%Hlt. lia. }
    unfold thread_waits; simpl. rewrite Hno. split; [done|]. exists []. split; [by intros x ?%elem_of_nil|done].
Qed.
Lemma waits_async c t cat cat' task k :
  waits_ok c → mem_known c → threads c !! t = Some (Thr cat (Running (Async cat' task k))) →
  waits_ok (add_thread (Thr cat' (Running task))
    (set_body t (Thr cat (Running (Async cat' task k))) (Running (k (length (threads c)))) c)).
Proof.
  intros Hok Hlt Ht. destruct (Hok t _ Ht) as (Hc & S & HS & Htask & own & Hfree & Ha). simpl in Hc, Ha, Htask.
  pose proof (waits_add c cat' task Hok Hlt Htask) as Hadd. set (c1 := add_thread _ c) in Hadd.
  assert (Ht1 : threads c1 !! t = Some (Thr cat (Running (Async cat' task k)))) by (by apply lookup_app_l_Some).
  eapply (waits_body c1 t cat _ Hadd Ht1 _ (Running (k (length (threads c))))); [|done|done|].
  - simpl. by rewrite insert_app_l by (by eapply lookup_lt_Some).
  - intros Hh. unfold thread_waits; simpl. change (holds_mem _ t) with (holds_mem c t). split; [done|].
    eexists. split; [|apply Ha]. intros u Hu. apply Hh.
    assert (Hnew : own = true → harmless c1 (length (threads c))).
    { intros Ho. unfold harmless, c1; simpl. rewrite lookup_app_r, Nat.sub_diag by done. simpl. auto. }
    destruct own; [apply elem_of_cons in Hu as [->|Hu]|]; [by apply Hnew|by apply harmless_add, HS..].
Qed.
Lemma waits_exec c t pick cat p c' :
  waits_ok c → mem_known c → threads c !! t = Some (Thr cat (Running p)) →
  exec_thread t pick (Thr cat (Running p)) p c = Some c' → waits_ok c'.
Proof.
  intros Hok Hlt Ht E. assert (Hdie : ∀ f, waits_ok (die f c)) by (intros f; by apply (waits_same c)).
  assert (Hst : set_st (c_st c) c = c) by (by destruct c).
  destruct p as [v|B ec m k|o k|l k|l k|cond k|k|e k|cat' task k|u k]; simpl in E.
  - injection E as <-. by eapply (waits_go_on c t cat _ Hok Ht (Finished (Ok v)) (c_st c)).
  - destruct (_ && _); [by injection E as <-|]. destruct (m _) as [[b|f] d]; injection E as <-.
    + eapply (waits_go_on c t cat _ Hok Ht (Running (k b)) (with_svc d (c_st c))); [done..| |]; [by intros [_ Hk]|].
      by intros S [_ Hk].
    + by apply waits_fail.
  - destruct (negb _); [by injection E as <-|]. injection E as <-.
    eapply (waits_go_on c t cat _ Hok Ht (Running k) (on_ec (counted o) (c_st c))); [done|by destruct o|by destruct o|done|done].
  - unfold acquire in E. destruct (c_locks (c_st c) !! l) eqn:El; [done|]. injection E as <-. by apply waits_lock.
  - case_bool_decide as El; injection E as <-; [by apply waits_unlock|done].
  - destruct (wait_cv cond t (c_st c)) as [[b s]|] eqn:Ew; [|done].
    assert (Es : c_locks s !! memlock = c_locks (c_st c) !! memlock).
    { unfold wait_cv in Ew. case_bool_decide; [done|]. destruct (c_locks (c_st c) !! cv_mtx); repeat case_match; simplify_eq/=;
        by rewrite ?lookup_delete_ne, ?lookup_insert_ne. }
    destruct b; injection E as <-; [by eapply (waits_go_on c t cat _ Hok Ht (Running k) s)|by apply (waits_same c)].
  - injection E as <-. by eapply (waits_go_on c t cat _ Hok Ht (Running k) (wake_one pick (c_st c))).
  - injection E as <-. by eapply (waits_go_on c t cat _ Hok Ht (Running k)
      (mkC (with_w (upd_ec e (c_w (c_st c))) (c_svc (c_st c))) true (c_locks (c_st c)) (c_asleep (c_st c)))).
  - injection E as <-. by apply waits_async.
  - destruct (threads c !! u) as [[cu [q|[v|f]]]|]; try done; injection E as <-.
    + eapply (waits_go_on c t cat _ Hok Ht (Running (k v)) (c_st c)); try done. by intros S [_ Hk].
    + rewrite <-Hst. by apply waits_fail.
Qed.
Lemma waits_step c c' : cstep c c' → mem_known c → waits_ok c → waits_ok c'.
Proof.
  intros (mv & E) Hlt Hok. unfold exec in E. destruct (c_dead c); [done|]. destruct mv as [t pick|t].
  - destruct (threads c !! t) as [[cat [p|o]]|] eqn:Ht; try done. by eapply waits_exec.
  - case_bool_decide; [|done]. injection E as <-. by apply (waits_same c).
Qed.
Lemma locks_known c : locks_ok c → mem_known c.
Proof.
  intros (Gs & Hok) u (g & Hg & _)%(lw_table _ _ Hok). rewrite (Forall2_length _ _ _ (lw_threads _ _ Hok)). by eapply lookup_lt_Some.
Qed.
Lemma waits_rtc c c' : rtc cstep c c' → locks_ok c → waits_ok c → waits_ok c'.
Proof. induction 1; eauto using waits_step, locks_step, locks_known. Qed.
End Moves.
Lemma boot_waits {ENV : Env} {ORDER : HashOrder} inet_addr d id i : waits_ok (boot inet_addr d id i).
Proof.
  intros t th Ht. destruct t; simplify_eq/=. split; [done|]. exists []. split; [by intros ? ?%elem_of_nil|]. by apply calm_start.
Qed.

(** ** Claims *)

(** Thread [t] cannot go on before [u] does: it waits for a mutex of [u], or for
    its end. *)
Definition blocked_by (c : config) (t u : nat) : Prop :=
  waits_on c t u ∨
  ∃ cat k cat' q, threads c !! t = Some (Thr cat (Running (Join u k))) ∧ threads c !! u = Some (Thr cat' (Running q)).
(** The next access of thread [t] would leave it where it is: a flag is not set, an
    answer is not there. *)
Definition stays (c : config) (t : nat) : Prop :=
  match threads c !! t with
  | Some (Thr _ (Running (Step _ m _))) => (m (c_svc (c_st c))).1 = Fail Blocked
  | Some (Thr _ (Running (Join u _))) => t_body <$> threads c !! u = Some (Finished (Fail Blocked))
  | _ => False
  end.
(** Thread [t] can make its next access now, and that gets it further. *)
Definition advances (c : config) (t : nat) : Prop := ¬ stays c t ∧ ∃ c', exec (Run t 0) c = Some c'.
(** The next access of thread [t] is a resize call to an agent. *)
Definition at_agent {ENV : Env} (c : config) (t : nat) : Prop :=
  ∃ cat B ec (m : M Service B) k, threads c !! t = Some (Thr cat (Running (Step ec m k))) ∧ agent_call m.
(** An exception has ended thread [t]. *)
Definition thrown_out (c : config) (t : nat) : Prop := ∃ cat, threads c !! t = Some (Thr cat (Finished (Fail Throw))).

Section Blocked.
Context {ENV : Env} (c : config) (Gs : list (nat * list mutex)).
Hypotheses (Hlocks : locks_with Gs c) (Hwaits : waits_ok c) (Hlive : c_dead c = None).

Lemma step_moves t cat B ec (m : M Service B) k :
  threads c !! t = Some (Thr cat (Running (Step ec m k))) → ready m → advances c t.
Proof using Hlive.
  intros Ht Hm. split; [unfold stays; rewrite Ht; apply Hm|]. unfold exec. rewrite Hlive, Ht. simpl.
  destruct (_ && _); [by eauto|]. destruct (m _) as [[]]; eauto.
Qed.
Lemma count_moves t cat o k : threads c !! t = Some (Thr cat (Running (Count o k))) → advances c t.
Proof using Hlive.
  intros Ht. split; [unfold stays; rewrite Ht; by intros []|]. unfold exec. rewrite Hlive, Ht. simpl. destruct (negb _); eauto.
Qed.
Lemma free_moves t cat q : threads c !! t = Some (Thr cat (Running q)) → free q → advances c t ∨ at_agent c t.
Proof using Hlive.
  intros Ht. destruct q; try done; simpl.
  - intros _. left. split; [unfold stays; rewrite Ht; by intros []|]. unfold exec. rewrite Hlive, Ht. simpl. eauto.
  - intros [[Hm|Hm] _]; [left; by eapply step_moves|right; by eexists _, _, _, _, _].
  - intros _. left. by eapply count_moves.
Qed.
(** A thread in a short section does not wait for a flag or a thread. *)
Lemma short_goes t n H : Gs !! t = Some (n, H) → short H = true → ¬ stays c t.
Proof using Hlocks.
  clear Hwaits Hlive. intros HG Hs. unfold stays. destruct (threads c !! t) as [[cat [p|]]|] eqn:Ht; [|by intros []..].
  assert (Hp : (∀ pred k, p ≠ Wait pred k) → holding n H p).
  { intros Hw. destruct (thread_held c Gs t cat p Hlocks Ht Hw) as (n' & H' & HG' & Hp). by simplify_eq. }
  destruct p as [|B ec m k| | | | | | | |u k]; try (by intros []); specialize (Hp ltac:(done)); simpl in Hp.
  - destruct Hp as (_ & Hq & _). specialize (Hq Hs (c_svc (c_st c))). intros E. by rewrite E in Hq.
  - destruct Hp as [Hl _]. congruence.
Qed.
(** The holder of a short mutex. *)
Lemma short_holder l u : c_locks (c_st c) !! l = Some u → l ≠ memlock →
  (l = dep_pod_lock ∧ thrown_out c u) ∨ ∃ v, rtc (blocked_by c) u v ∧ advances c v.
Proof using Hlocks Hwaits Hlive.
  intros Hl Hne. pose proof Hl as ([n H] & HG & Hin)%(lw_table _ _ Hlocks). pose proof (short_in _ _ Hin Hne) as Hs.
  destruct (short_goes_on c Gs u n H Hlocks Hlive HG Hs) as [(cat & f & Hu & ->)|[Hm|(v & Hw & Hv & Hno)]].
  - left. apply list_elem_of_singleton in Hin as ->. split; [done|]. exists cat.
    destruct (Hwaits u _ Hu) as [-> _]. done.
  - right. exists u. split; [done|]. split; [by eapply short_goes|done].
  - right. exists v. split; [apply rtc_once; by left|]. pose proof Hv as ([n' H'] & HG' & Hin')%(lw_table _ _ Hlocks).
    pose proof (short_in _ _ Hin' ltac:(done)) as Hs'.
    destruct (short_goes_on c Gs v n' H' Hlocks Hlive HG' Hs') as [(cat & f & _ & ->)|[Hm|(? & _ & _ & ?)]];
      [by apply list_elem_of_singleton in Hin'| |done].
    split; [by eapply short_goes|done].
Qed.
(** The holder of [memlock]. *)
Lemma mem_holder u : c_locks (c_st c) !! memlock = Some u →
  ∃ v, rtc (blocked_by c) u v ∧ (advances c v ∨ at_agent c v).
Proof using Hlocks Hwaits Hlive.
  intros Hl. pose proof Hl as ([n H] & HG & Hin)%(lw_table _ _ Hlocks).
  destruct (Forall2_lookup_r _ _ _ _ _ (lw_threads _ _ Hlocks) HG) as ([cat bd] & Hu & _ & Hth). simpl in Hth, Hin.
  assert (Hb : holds_mem c u = true) by (by apply bool_decide_eq_true_2).
  pose proof (Hwaits u _ Hu) as Hw. unfold thread_waits in Hw; simpl in Hw. rewrite Hb in Hw.
  destruct bd as [p|[v|f]]; [|by subst; apply elem_of_nil in Hin|by destruct Hw].
  destruct Hth as [Hp|(? & ? & _ & -> & _)]; [|by apply elem_of_nil in Hin]. destruct Hw as (_ & S & HS & Ha).
  assert (Hself : advances c u → ∃ v, rtc (blocked_by c) u v ∧ (advances c v ∨ at_agent c v)) by (intros ?; exists u; split; [done|by left]).
  assert (Hgo : ¬ stays c u → (∃ c', exec_thread u 0 (Thr cat (Running p)) p c = Some c') →
    ∃ v, rtc (blocked_by c) u v ∧ (advances c v ∨ at_agent c v)).
  { intros Hst Hx. apply Hself. split; [done|]. unfold exec. by rewrite Hlive, Hu. }
  unfold stays in Hgo. rewrite Hu in Hgo.
  destruct p as [v|B ec m k|o k|l k|l k|cond k|k|e k|cat' task k|v k]; simpl in Hp, Ha.
  - subst. by apply elem_of_nil in Hin.
  - eapply Hself, step_moves; [done|]. by apply (proj1 Ha).
  - by eapply Hself, count_moves.
  - by destruct Ha.
  - clear Ha. apply Hgo; [by intros []|]. simpl. case_bool_decide; eauto.
  - destruct Hp as (_ & -> & _). by apply list_elem_of_singleton in Hin.
  - apply Hgo; [by intros []|by eexists].
  - apply Hgo; [by intros []|by eexists].
  - apply Hgo; [by intros []|by eexists].
  - destruct Ha as [Hv _]. specialize (HS v (Hv eq_refl)). unfold harmless in HS.
    destruct (threads c !! v) as [[cv [q|o]]|] eqn:Ev; [| |done].
    + exists v. split; [|by eapply free_moves]. apply rtc_once. right. by exists cat, k, cv, q.
    + apply Hgo; [|simpl; rewrite Ev; destruct o; by eexists]. intros [= ->]. by destruct (Hwaits v _ Ev).
Qed.
End Blocked.

(** C8: in every state the manager reaches from its start and in which the
    process runs, a thread [t] that waits for a mutex [l] of [u] is not waiting in
    vain. Over what the holder itself waits for (another mutex, or the reclaim
    tasks a memory request awaits with [memlock] held) there is a thread whose
    next access is possible now and gets it further, not one that finds a flag
    unset again; or, for [memlock], a task that is at its resize call to an agent,
    whose answer is outside the process. The one exception is [l] being the
    service lock [dep_pod_lock], which stays taken when an exception ends its
    holder. *)
Theorem no_deadlock {ENV : Env} {ORDER : HashOrder} (inet_addr : string → Z) (d : Service) (id : Z)
    (i : ConcManager.inputs) (c : config) (t u : nat) (cat : bool) (l : mutex) (k : prog)
    (Hrun : rtc cstep (boot inet_addr d id i) c) (Hlive : c_dead c = None)
    (Hwait : threads c !! t = Some (Thr cat (Running (Lock l k)))) (Hheld : c_locks (c_st c) !! l = Some u) :
  (l = dep_pod_lock ∧ thrown_out c u) ∨
  ∃ v, rtc (blocked_by c) u v ∧ (advances c v ∨ (l = memlock ∧ at_agent c v)).
Proof.
  destruct (locks_rtc _ _ Hrun (boot_locks _ _ _ _)) as (Gs & Hlocks).
  pose proof (waits_rtc _ _ Hrun (boot_locks _ _ _ _) (boot_waits _ _ _ _)) as Hwaits.
  destruct (decide (l = memlock)) as [->|Hne].
  - right. edestruct mem_holder as (v & Hr & Hv); [done..|]. exists v. naive_solver.
  - edestruct short_holder as [?|(v & Hr & Hv)]; [done..|by left|]. right. exists v. auto.
Qed.

End ConcWaits.
