(* ===== verification/ConcAlone.v ===== *)
(** * The sequential handlers are schedules of the concurrent ones

    [ManagerCpu], [ManagerMem], [Manager] and [Deploy] describe a handler as one
    step, with every value read once; [ConcCpu], [ConcMem] and [ConcManager]
    access by access. Whenever the first returns a result in a state, the
    second, run alone from that state, has a schedule that returns the same
    result in the same state and leaves the other threads where they were. So
    what the other files prove of the handlers holds of the threads that run
    them, as long as nothing interferes; the same for several threads, one after
    the other. *)
From S2P Require Import Prelude OmNet Float64 Window LocalStats SubContainer Agents CpuG MemG.
From S2P Require Import ElasticContainer World Types Json CAdvisor ECAPI ManagerCpu ManagerMem Manager Server Deploy System.
From S2P Require Import Conc ConcApi ConcCpu ConcMem ConcManager.
Import SubContainer ElasticContainer Conc ConcApi.

Module ConcAlone.
Import Deploy.

(** ** Running one thread *)

(** The mutexes [H] of thread [t]. *)
Definition held (H : list mutex) (t : nat) : gmap mutex nat := list_to_map ((λ l, (l, t)) <$> H).

(** Thread [t] is at program [p] in state [d], holds [H]; others hold [F]. *)
Record at_ (F : gmap mutex nat) (c : config) (t : nat) (cat : bool) (H : list mutex) (p : prog) (d : Service) : Prop := {
  at_live : c_dead c = None;
  at_up : c_up (c_st c) = true;
  at_thread : threads c !! t = Some (Thr cat (Running p));
  at_svc : c_svc (c_st c) = d;
  at_locks : c_locks (c_st c) = held H t ∪ F;
  at_awake : t ∉ c_asleep (c_st c);
  at_sleepers : ∀ u, u ∈ c_asleep (c_st c) → (u < length (threads c))%nat;
}.
(** The other threads are where they were, and none of them has fallen asleep. *)
Definition others_kept (t : nat) (c c' : config) : Prop :=
  (∀ u th, u ≠ t → threads c !! u = Some th → threads c' !! u = Some th) ∧
  (∀ u, u ∈ c_asleep (c_st c') → u ∈ c_asleep (c_st c)).
Lemma others_kept_refl t c : others_kept t c c.
Proof. by split. Qed.
Lemma others_kept_trans t c1 c2 c3 : others_kept t c1 c2 → others_kept t c2 c3 → others_kept t c1 c3.
Proof. intros [H1 A1] [H2 A2]. split; [intros u th Hu Ht; by apply H2, H1|intros u Hu; by apply A1, A2]. Qed.

(** [c] takes a thread from [d] and [H] to [d'] and [H'], with result [a]. *)
Definition runs (F : gmap mutex nat) (H : list mutex) {A} (c : C A) (d : Service) (H' : list mutex) (a : A)
    (d' : Service) : Prop :=
  ∀ cfg t cat κ, at_ F cfg t cat H (c κ) d →
    ∃ cfg', rtc cstep cfg cfg' ∧ at_ F cfg' t cat H' (κ a) d' ∧ others_kept t cfg cfg'.

Section Rules.
Context (F : gmap mutex nat).

Lemma runs_ret {A} H (a : A) d : runs F H (mret a) d H a d.
Proof. intros cfg t cat κ Hat. exists cfg. split; [done|]. split; [done|apply others_kept_refl]. Qed.
Lemma runs_bind {A B} H1 H2 H3 (c : C A) (k : A → C B) d1 d2 d3 a b :
  runs F H1 c d1 H2 a d2 → runs F H2 (k a) d2 H3 b d3 → runs F H1 (c ≫= k) d1 H3 b d3.
Proof.
  intros Hc Hk cfg t cat κ Hat. destruct (Hc cfg t cat (λ a, k a κ) Hat) as (cfg1 & R1 & At1 & O1).
  destruct (Hk cfg1 t cat κ At1) as (cfg2 & R2 & At2 & O2). exists cfg2.
  split; [by etrans|]. split; [done|]. by eapply others_kept_trans.
Qed.

(** One move of the thread. *)
Lemma runs_move cfg t cat H p d H' p' d' s' rep :
  at_ F cfg t cat H p d →
  exec_thread t 0 (Thr cat (Running p)) p cfg =
    Some (Cfg (<[t := Thr cat (Running p')]> (threads cfg)) s' None rep) →
  c_up s' = true → c_svc s' = d' → c_locks s' = held H' t ∪ F →
  (∀ u, u ∈ c_asleep s' → u ∈ c_asleep (c_st cfg)) →
  ∃ cfg', rtc cstep cfg cfg' ∧ at_ F cfg' t cat H' p' d' ∧ others_kept t cfg cfg'.
Proof.
  intros [Hd Hu Ht Hs Hl Ha Hsl] E ? ? ? Hsub. eexists. split; [apply rtc_once|split].
  - exists (Run t 0). unfold exec. by rewrite Hd, Ht, E.
  - constructor; try done; simpl; [|by intros ?%Hsub|].
    + apply list_lookup_insert_eq. by eapply lookup_lt_Some.
    + intros u Hin. rewrite length_insert. by apply Hsl, Hsub.
  - split; [|done]. intros u th Hne Hth. simpl. by rewrite list_lookup_insert_ne.
Qed.

Lemma runs_step {A} H ec (m : M Service A) d a d' : m d = (Ok a, d') → runs F H (Step ec m) d H a d'.
Proof.
  intros E cfg t cat κ Hat. pose proof Hat as [Hd Hu Ht Hs Hl Ha Hsl].
  eapply (runs_move _ _ _ _ _ _ H _ _ (with_svc d' (c_st cfg))); eauto.
  simpl. rewrite Hu, andb_false_r, Hs, E. by rewrite <-Hd.
Qed.
Lemma runs_count H o d :
  runs F H (count o) d H tt (with_w (upd_ec (counted o (w_ec (d_w d))) (d_w d)) d).
Proof.
  intros cfg t cat κ Hat. pose proof Hat as [Hd Hu Ht Hs Hl Ha Hsl].
  assert (c_svc (on_ec (counted o) (c_st cfg)) = with_w (upd_ec (counted o (w_ec (d_w d))) (d_w d)) d)
    by (unfold on_ec, c_w; simpl; by rewrite Hs).
  destruct o; (eapply (runs_move _ _ _ _ _ _ H _ _ (on_ec _ (c_st cfg))); eauto; simpl; rewrite Hu; simpl;
    unfold set_body, repair; simpl; by rewrite <-Hd).
Qed.
Lemma runs_lock H l d : F !! l = None → l ∉ H → runs F H (lock l) d (l :: H) tt d.
Proof.
  intros HF HH cfg t cat κ Hat. pose proof Hat as [Hd Hu Ht Hs Hl Ha Hsl].
  eapply (runs_move _ _ _ _ _ _ (l :: H) _ _ (with_locks (<[l := t]> (c_locks (c_st cfg))) (c_st cfg))); eauto.
  - simpl. unfold acquire. assert (c_locks (c_st cfg) !! l = None) as ->; [|by rewrite <-Hd].
    rewrite Hl, lookup_union_None. split; [|done]. apply not_elem_of_list_to_map. rewrite <-list_fmap_compose.
    intros (x & -> & Hx)%list_elem_of_fmap. done.
  - simpl. by rewrite Hl, insert_union_l.
Qed.
Lemma runs_unlock H l d : F !! l = None → l ∉ H → runs F (l :: H) (unlock l) d H tt d.
Proof.
  intros HF HH cfg t cat κ Hat. pose proof Hat as [Hd Hu Ht Hs Hl Ha Hsl].
  eapply (runs_move _ _ _ _ _ _ H _ _ (with_locks (delete l (c_locks (c_st cfg))) (c_st cfg))); eauto.
  - simpl. rewrite bool_decide_true; [by rewrite <-Hd|]. rewrite Hl. apply lookup_union_Some_l. apply lookup_insert_eq.
  - simpl. rewrite Hl. change (held (l :: H) t) with (<[l := t]> (held H t)). rewrite delete_union, delete_insert_eq.
    rewrite (delete_id F) by done. rewrite delete_id; [done|].
    apply not_elem_of_list_to_map. rewrite <-list_fmap_compose. intros (x & -> & Hx)%list_elem_of_fmap. done.
Qed.
Lemma runs_wait pred d : pred d = true → runs F [cv_mtx] (wait pred) d [cv_mtx] tt d.
Proof.
  intros Hp cfg t cat κ Hat. pose proof Hat as [Hd Hu Ht Hs Hl Ha Hsl].
  eapply (runs_move _ _ _ _ _ _ [cv_mtx] _ _ (c_st cfg)); eauto.
  simpl. unfold wait_cv. rewrite bool_decide_false by done.
  assert (c_locks (c_st cfg) !! cv_mtx = Some t) as ->.
  { rewrite Hl. apply lookup_union_Some_l. apply lookup_insert_eq. }
  rewrite Nat.eqb_refl, Hs, Hp. by rewrite <-Hd.
Qed.
Lemma runs_notify H d : runs F H notify_one d H tt d.
Proof.
  intros cfg t cat κ Hat. pose proof Hat as [Hd Hu Ht Hs Hl Ha Hsl].
  eapply (runs_move _ _ _ _ _ _ H _ _ (wake_one 0 (c_st cfg))); eauto.
  - simpl. by rewrite <-Hd.
  - simpl. intros u [Hin|Hin]%elem_of_app.
    + apply elem_of_take in Hin as (i & Hi & _). by eapply list_elem_of_lookup_2.
    + apply list_elem_of_lookup_1 in Hin as (i & Hi). rewrite lookup_drop in Hi. by eapply list_elem_of_lookup_2.
Qed.
End Rules.

(** ** Handlers on the world *)

(** From world [w], whatever [m] returns [c] returns too, in the same world. *)
Definition does (F : gmap mutex nat) (H H' : list mutex) {A} (w : World) (c : C A) (m : M World A) : Prop :=
  ∀ a w', m w = (Ok a, w') → ∀ d, d_w d = w → runs F H c d H' a (with_w w' d).

Lemma with_w_id d : with_w (d_w d) d = d.
Proof. by destruct d. Qed.
Lemma bind_ok {S A B} (m : M S A) (k : A → M S B) s b s' :
  (m ≫= k) s = (Ok b, s') → ∃ a s1, m s = (Ok a, s1) ∧ k a s1 = (Ok b, s').
Proof. unfold mbind, M_bind. destruct (m s) as [[a|f] s1]; [|done]. eauto. Qed.
Lemma sc_get_ok {A} p (f : SubContainer → A) w a w' :
  sc_get p f w = (Ok a, w') → ∃ s, w_heap w !! p = Some s ∧ a = f s ∧ w' = w.
Proof.
  unfold sc_get, load, mbind, M_bind, mret, M_ret. destruct (w_heap w !! p) as [s|]; [|done]. intros [= <- <-]. eauto.
Qed.

Section Does.
Context (F : gmap mutex nat).

Lemma does_ret {A} H w (a : A) : does F H H w (mret a) (mret a).
Proof. intros a' w' [= <- <-] d <-. rewrite with_w_id. apply runs_ret. Qed.
Lemma does_stop {A} H H' w (c : C A) f : does F H H' w c (stop f).
Proof. by intros a w'. Qed.
Lemma does_bind {A B} H1 H2 H3 w (c : C A) m (k : A → C B) km :
  does F H1 H2 w c m → (∀ a w1, m w = (Ok a, w1) → does F H2 H3 w1 (k a) (km a)) →
  does F H1 H3 w (c ≫= k) (m ≫= km).
Proof.
  intros Hc Hk b w' (a & w1 & E1 & E2)%bind_ok d Hd. eapply runs_bind; [by eapply Hc|].
  change (with_w w' d) with (with_w w' (with_w w1 d)). by apply (Hk a w1 E1).
Qed.
(** Skipping an access of the thread that changes nothing. *)
Lemma does_skip {A B} H1 H2 H3 w (c : C A) a (k : A → C B) m :
  (∀ d, d_w d = w → runs F H1 c d H2 a d) → does F H2 H3 w (k a) m → does F H1 H3 w (c ≫= k) m.
Proof. intros Hc Hk b w' E d Hd. eapply runs_bind; [by apply Hc|]. by eapply Hk. Qed.
(** Reading on the side of the one-step description. *)
Lemma does_get {A B} H H' w (f : ElasticContainer → B) (c : C A) km :
  does F H H' w c (km (f (w_ec w))) → does F H H' w c (ec_get f ≫= km).
Proof. done. Qed.
Lemma does_gets {A B} H H' w (f : World → B) (c : C A) km :
  does F H H' w c (km (f w)) → does F H H' w c (gets f ≫= km).
Proof. done. Qed.

(** The monad laws, on both sides. *)
Lemma does_value {A B} H H' w (a : A) (k : A → C B) m : does F H H' w (k a) m → does F H H' w (mret a ≫= k) m.
Proof. done. Qed.
Lemma does_assoc {A B D} H H' w (c : C A) (f : A → C B) (k : B → C D) m :
  does F H H' w (c ≫= λ a, f a ≫= k) m → does F H H' w ((c ≫= f) ≫= k) m.
Proof. done. Qed.
Lemma does_value_r {A B} H H' w (a : A) (k : A → M World B) c : does F H H' w c (k a) → does F H H' w c (mret a ≫= k).
Proof. done. Qed.
Lemma does_assoc_r {A B D} H H' w (m : M World A) (f : A → M World B) (k : B → M World D) c :
  does F H H' w c (m ≫= λ a, f a ≫= k) → does F H H' w c ((m ≫= f) ≫= k).
Proof.
  intros Hm a w' E. apply Hm. rewrite <-E. unfold mbind, M_bind. by destruct (m w) as [[x|f'] w1].
Qed.
Lemma does_assoc_l {A B D} H H' w (m : M World A) (f : A → M World B) (k : B → M World D) c :
  does F H H' w c ((m ≫= f) ≫= k) → does F H H' w c (m ≫= λ a, f a ≫= k).
Proof.
  intros Hm a w' E. apply Hm. rewrite <-E. unfold mbind, M_bind. by destruct (m w) as [[x|f'] w1].
Qed.

Lemma does_own {A} H w (m : M World A) : does F H H w (own m) m.
Proof. intros a w' E d <-. apply runs_step. unfold on_w. by rewrite E. Qed.
Lemma does_via_ec {A} H w (m : M World A) : does F H H w (via_ec m) m.
Proof. intros a w' E d <-. apply runs_step. unfold on_w. by rewrite E. Qed.
Lemma does_count H w o : does F H H w (count o) (ec_do (counted o)).
Proof. intros [] w' [= <-] d <-. apply runs_count. Qed.
Lemma runs_read H {B} (f : ElasticContainer → B) w d : d_w d = w → runs F H (via_ec (ec_get f)) d H (f (w_ec w)) d.
Proof. intros <-. apply runs_step. unfold on_w, ec_get, gets. by rewrite with_w_id. Qed.
Lemma runs_own_gets H {B} (f : World → B) w d : d_w d = w → runs F H (own (gets f)) d H (f w) d.
Proof. intros <-. apply runs_step. unfold on_w, gets. by rewrite with_w_id. Qed.
Lemma runs_sc_read H {B} p (f : SubContainer → B) s w d :
  w_heap w !! p = Some s → d_w d = w → runs F H (sc_read p f) d H (f s) d.
Proof.
  intros Hs <-. apply runs_step. unfold on_w, sc_get, load, mbind, M_bind, mret, M_ret. rewrite Hs. by rewrite with_w_id.
Qed.
Lemma does_if {A} H H' w (b : bool) (c1 c2 : C A) m1 m2 :
  (b = true → does F H H' w c1 m1) → (b = false → does F H H' w c2 m2) →
  does F H H' w (if b then c1 else c2) (if b then m1 else m2).
Proof. destruct b; auto. Qed.
Lemma does_when H w b c m : does F H H w c m → does F H H w (cwhen b c) (when b m).
Proof. intros. destruct b; [done|apply does_ret]. Qed.
Lemma does_defined {A} H w (o : option A) : does F H H w (cdefined o) (defined o).
Proof. destruct o; [apply does_ret|apply does_stop]. Qed.
(** The description is a sequence with nothing after it. *)
Lemma does_eq {A} H H' w (c : C A) m m' : (∀ s, m s = m' s) → does F H H' w c m → does F H H' w c m'.
Proof. intros E Hm a w' E'. rewrite <-E in E'. by apply Hm. Qed.
End Does.

(** [doing] matches the accesses of a thread with the steps of a description. *)
Create HintDb does.
#[export] Hint Resolve does_ret does_stop does_own does_via_ec does_count does_defined does_when : does.
Ltac read := eapply does_skip; [intros; by apply runs_read|].
Ltac own_read := eapply does_skip; [intros; by apply runs_own_gets|].
Ltac reread := eapply does_skip; [intros; eapply runs_sc_read; eassumption|].
Ltac get := apply does_get || apply does_gets.
Ltac does_next := eapply does_bind; [solve [eauto with does]|intros ? ? ?].

Section Cpu.
Context {ENV : Env} (F : gmap mutex nat) (H : list mutex).
Import ManagerCpu.

Lemma does_agent_or_exit w id : does F H H w (agent_or_exit id) (ECAPI.agent_or_exit id).
Proof. eapply does_bind; [apply does_via_ec|]. intros [ac|] w1 _; eauto with does. Qed.

Lemma does_syscall w sc q n : does F H H w (set_sc_quota_syscall sc q n) (ECAPI.set_sc_quota_syscall sc q n).
Proof.
  eapply does_bind; [apply does_own|]. intros old w1 (s & Hs & -> & ->)%sc_get_ok.
  intros a w' (ins & w2 & (s' & Hs' & -> & ->)%sc_get_ok & E)%bind_ok. simplify_eq. revert a w' E.
  destruct (sc_inserted s) eqn:Ei; [|by intros]. simpl negb. cbv iota.
  change (does F H H w (own (ins ← sc_get sc sc_inserted; if (ins : bool) then mret tt else stop Blocked) ≫= λ _,
    c ← sc_read sc get_c_id; agent ← agent_or_exit c; c ← sc_read sc get_c_id;
    own (rpc (AgentClient.updateContainerQuota agent (SubContainer.cgroup_id c) q
      (if i64 (i64 q - i64 (get_quota s)) <? 0 then "decr" else "incr") n)))
    (c ← sc_get sc get_c_id; agent ← ECAPI.agent_or_exit c;
     rpc (AgentClient.updateContainerQuota agent (SubContainer.cgroup_id c) q
       (if i64 (i64 q - i64 (get_quota s)) <? 0 then "decr" else "incr") n))).
  eapply (does_skip _ _ H _ _ _ tt).
  { intros d <-. apply runs_step. unfold on_w, sc_get, load, mbind, M_bind, mret, M_ret. rewrite Hs, Ei.
    by rewrite with_w_id. }
  eapply does_bind; [apply does_own|]. intros c w1 (s' & Hs' & -> & ->)%sc_get_ok. simplify_eq.
  eapply does_bind; [apply does_agent_or_exit|]. intros ac w1 Eac.
  assert (Hs1 : w_heap w1 !! sc = Some s).
  { revert Eac. unfold ECAPI.agent_or_exit, mbind, M_bind, ec_run. destruct (get_corres_agent_client _ _) as [[?|] ?]; [|done].
    by intros [= <- <-]. }
  reread. apply does_own.
Qed.
#[local] Hint Resolve does_syscall : does.

Lemma does_sc_read {A} w sc (f : SubContainer → A) : does F H H w (sc_read sc f) (sc_get sc f).
Proof. apply does_own. Qed.
Lemma does_sc_write w sc f : does F H H w (sc_write sc f) (sc_do sc f).
Proof. apply does_own. Qed.
Lemma does_incr_unallocated w z : does F H H w (ec_incr_unallocated_rt z) (ec_do (incr_unallocated_rt z)).
Proof. apply (does_count F H w (Cpu (cpu_g.IncrUnalloc z))). Qed.
Lemma does_decr_unallocated w z : does F H H w (ec_decr_unallocated_rt z) (ec_do (decr_unallocated_rt z)).
Proof. apply (does_count F H w (Cpu (cpu_g.DecrUnalloc z))). Qed.
Lemma does_incr_overrun w z : does F H H w (ec_incr_overrun z) (ec_do (incr_overrun z)).
Proof. apply (does_count F H w (Cpu (cpu_g.IncrOverrun z))). Qed.
Lemma does_decr_overrun w z : does F H H w (ec_decr_overrun z) (ec_do (decr_overrun z)).
Proof. apply (does_count F H w (Cpu (cpu_g.DecrOverrun z))). Qed.
Lemma does_incr_alloc w z : does F H H w (ec_incr_alloc_rt z) (ec_do (incr_alloc_rt z)).
Proof. apply (does_count F H w (Cpu (cpu_g.IncrAlloc z))). Qed.
Lemma does_decr_alloc w z : does F H H w (ec_decr_alloc_rt z) (ec_do (decr_alloc_rt z)).
Proof. apply (does_count F H w (Cpu (cpu_g.DecrAlloc z))). Qed.
#[local] Hint Resolve does_sc_read does_sc_write does_incr_unallocated does_decr_unallocated does_incr_overrun
  does_decr_overrun does_incr_alloc does_decr_alloc : does.

Lemma does_book_take w sc a q : does F H H w (ConcCpu.book_take sc a q) (book_take sc a q).
Proof. repeat does_next. eauto with does. Qed.
Lemma does_book_give w sc a q : does F H H w (ConcCpu.book_give sc a q) (book_give sc a q).
Proof. repeat does_next. eauto with does. Qed.
Lemma does_book_lend w sc a q : does F H H w (ConcCpu.book_lend sc a q) (book_lend sc a q).
Proof. repeat does_next. eauto with does. Qed.
Lemma does_book_repay w sc a q : does F H H w (ConcCpu.book_repay sc a q) (book_repay sc a q).
Proof. repeat does_next. eauto with does. Qed.
Lemma does_try_quota w sc q n c m :
  (∀ w, does F H H w c m) → does F H H w (ConcCpu.try_quota sc q n c) (try_quota sc q n m).
Proof. intros Hc. does_next. destruct (negb _); [eauto with does|]. does_next. apply Hc. Qed.
#[local] Hint Resolve does_book_take does_book_give does_book_lend does_book_repay does_try_quota : does.

Lemma does_branch_idle w rx n sc : does F H H w (ConcCpu.branch_idle rx n sc) (branch_idle rx n sc).
Proof. unfold ConcCpu.branch_idle, branch_idle. read. get. auto with does. Qed.
Lemma does_branch_overrun w rx n sc : does F H H w (ConcCpu.branch_overrun rx n sc) (branch_overrun rx n sc).
Proof.
  unfold ConcCpu.branch_overrun, branch_overrun, overrun_to_sub. do 4 read. do 3 get. cbv zeta.
  set (p := ddiv _ _). destruct (dlt d1 p).
  - apply does_assoc. read. destruct (dbl_to_u64 _) as [z|]; [|by intros a w' E].
    apply does_value. read. apply does_value_r. auto with does.
  - destruct (dbl_to_u64 _) as [z|]; [|by intros a w' E]. apply does_value. read. apply does_value_r. auto with does.
Qed.
Lemma does_lacking {A} w rx (cap : C (Z → Z)) g (k : Z → C A) H' km :
  let e := w_ec w in
  let gap := u64 (get_fair_cpu_share e - rx) in
  (∀ d, d_w d = w → runs F H cap d H g d) →
  (∀ z, share_lacking (get_fair_cpu_share e) (get_cpu_slice e) rx = Some z →
     does F H H' w (k (if get_cpu_slice e / 2 <? gap then g z else z)) (km z)) →
  does F H H' w (ConcCpu.lacking gap rx cap ≫= k)
    (defined (share_lacking (get_fair_cpu_share e) (get_cpu_slice e) rx) ≫= km).
Proof.
  intros e gap Hcap Hk. unfold ConcCpu.lacking. do 3 (apply does_assoc; read). unfold share_lacking in *. fold e gap in Hk |- *.
  revert Hk. destruct (_ / 2 <? gap); intros Hk.
  - apply does_assoc. eapply does_skip; [exact Hcap|]. revert Hk.
    destruct (dbl_to_u64 _) as [z|]; intros Hk; [|by intros a w' E].
    apply does_value, does_value_r. by apply Hk.
  - apply does_value, does_value_r. by apply Hk.
Qed.
Lemma does_branch_fair w rx n sc : does F H H w (ConcCpu.branch_fair rx n sc) (branch_fair rx n sc).
Proof.
  unfold ConcCpu.branch_fair, branch_fair. do 2 read. do 3 get. destruct (0 <? _).
  - eapply does_eq; [|apply (does_lacking w rx _ (Z.min (get_cpu_unallocated_rt (w_ec w))) _ H
      (λ z, let a := if get_cpu_slice (w_ec w) / 2 <? u64 (get_fair_cpu_share (w_ec w) - rx)
                     then Z.min (get_cpu_unallocated_rt (w_ec w)) z else z in
            try_quota sc (u64 (rx + a)) n (book_take sc a (u64 (rx + a))))); [|intros; auto with does]].
    + intros w1. unfold fair_to_add. by destruct (share_lacking _ _ _).
    + intros d Hd. eapply runs_bind; [by apply runs_read|apply runs_ret].
  - apply (does_lacking w rx _ (λ z, z)); [intros; apply runs_ret|]. intros z _. destruct (_ <? _); auto with does.
Qed.
Lemma does_branch_throttled w rx th n sc :
  does F H H w (ConcCpu.branch_throttled rx th n sc) (branch_throttled rx th n sc).
Proof.
  unfold ConcCpu.branch_throttled, branch_throttled, throttle_extra. do 2 read. do 2 get.
  destruct (dbl_to_u64 _) as [z|]; [|by intros a w' E]. apply does_value, does_value_r. auto with does.
Qed.
Lemma does_shrink_to w rx nq n sc : does F H H w (ConcCpu.shrink_to rx nq n sc) (shrink_to rx nq n sc).
Proof. unfold ConcCpu.shrink_to, shrink_to. read. get. auto with does. Qed.
#[local] Hint Resolve does_branch_idle does_branch_overrun does_branch_fair does_branch_throttled does_shrink_to : does.
Lemma does_and_then {A} w b (f : ElasticContainer → Z) g (k : bool → C A) H' m :
  does F H H' w (k (b && g (f (w_ec w)))) m →
  does F H H' w (ConcCpu.and_then b (z ← via_ec (ec_get f); mret (g z)) ≫= k) m.
Proof.
  intros Hk. destruct b; [|exact Hk]. apply does_assoc. eapply does_skip; [intros; by apply runs_read|]. exact Hk.
Qed.
Lemma does_adjust w b m th req n sc :
  does F H H w (ConcCpu.report_adjust b m th req n sc) (report_adjust b m th req n sc).
Proof.
  unfold ConcCpu.report_adjust, report_adjust. do 4 get. cbv zeta.
  apply does_and_then, does_if; [auto with does|intros _]. read.
  apply does_and_then, does_if; [auto with does|intros _]. read.
  apply does_if; [auto with does|intros _].
  apply does_and_then, does_if; [auto with does|intros _].
  apply does_and_then, does_if; intros _.
  { unfold ConcCpu.branch_unused, branch_unused. does_next. apply does_shrink_to. }
  apply does_and_then, does_if; intros _; [apply does_shrink_to|apply does_ret].
Qed.
#[local] Hint Resolve does_adjust : does.

(** The stages before the case distinction. *)
Lemma does_resync w rx sc : does F H H w (ConcCpu.report_resync rx sc) (report_resync rx sc).
Proof.
  does_next. apply sc_get_ok in H0 as (s & Hs & -> & ->). apply does_if; intros _; reread.
  - repeat does_next. auto with does.
  - repeat does_next. auto with does.
Qed.
Lemma does_mismatch w rx sc : does F H H w (ConcCpu.report_mismatch rx sc) (report_mismatch rx sc).
Proof.
  unfold ConcCpu.report_mismatch, report_mismatch. does_next. apply does_if; intros _; [|apply does_ret].
  unfold sc_incr_mismatch.
  eapply (does_eq _ _ _ _ _ ((n ← sc_get sc (fst ∘ incr_quota_mismatch_counter);
    sc_do sc (snd ∘ incr_quota_mismatch_counter) ;; mret n) ≫= λ n,
    if 2 <? n then report_resync rx sc ;; sc_do sc reset_quota_mismatch_counter ;; mret true else mret false)).
  { intros v. unfold mbind, M_bind, mret, M_ret. destruct (sc_get _ _ v) as [[x|f] v1]; [|done].
    by destruct (sc_do _ _ v1) as [[y|f] v2]. }
  eapply does_bind; [apply does_own|]. intros n w2 _. apply does_if; intros _; [|apply does_ret].
  eapply does_bind; [apply does_resync|]. intros ? ? _. does_next. apply does_ret.
Qed.
Lemma does_leak w : does F H H w ConcCpu.report_leak report_leak.
Proof.
  unfold ConcCpu.report_leak, report_leak. do 3 read. do 4 get. own_read. cbv zeta.
  set (leak := i64 _). assert (Hl : is_i64 leak) by apply i64_is_i64.
  eapply does_bind; [apply does_own|]. intros [] w1 [= <-]. own_read. simpl cpuleak.
  destruct (Z.leb_spec MAX_CPU_LOSS_IN_NS leak); [|apply does_ret]. unfold cwhen, when. own_read. simpl cpuleak.
  eapply does_bind; [|intros; apply does_own].
  rewrite u64_small by (unfold MAX_CPU_LOSS_IN_NS in *; wrap_lia).
  apply (does_count F H _ (Repair leak)).
Qed.
Lemma does_stats w req sc : does F H H w (ConcCpu.report_stats req sc) (report_stats req sc).
Proof.
  intros a w' E d Hd. unfold report_stats, load, mbind, M_bind in E.
  destruct (w_heap w !! sc) as [s|] eqn:Hs; [|done].
  destruct (insert_rt_stats (runtime_remaining req) s) as [[rt s1]|] eqn:E1; [|done].
  unfold defined at 1, mret, M_ret, sc_do, load, mbind, M_bind, modify in E. rewrite Hs in E.
  destruct (insert_th_stats (request req) s1) as [[th s2]|] eqn:E2; [|done].
  unfold defined, mret, M_ret in E. rewrite upd_sc_lookup in E. injection E as <- <-.
  eapply (runs_bind _ _ _ _ _ _ _ (with_w (upd_sc sc s1 w) d)).
  { apply runs_step. unfold on_w, load, sc_do, mbind, M_bind. rewrite Hd, Hs, E1.
    unfold defined, mret, M_ret, load, modify. by rewrite Hs. }
  eapply (runs_bind _ _ _ _ _ _ _ (with_w (upd_sc sc s2 (upd_sc sc s1 w)) d)); [|apply runs_ret].
  apply runs_step. unfold on_w, load, sc_do, mbind, M_bind. simpl d_w. rewrite upd_sc_lookup, E2.
  unfold defined, mret, M_ret, load, modify. by rewrite upd_sc_lookup.
Qed.
#[local] Hint Resolve does_mismatch does_leak does_stats : does.

(** The whole handler of a usage report. *)
Lemma does_report w now req res :
  does F H H w (ConcCpu.handle_cpu_usage_report now req res) (handle_cpu_usage_report now req res).
Proof.
  unfold ConcCpu.handle_cpu_usage_report, handle_cpu_usage_report. apply does_if; intros _; [apply does_ret|].
  eapply does_bind; [apply does_via_ec|]. intros sc w1 _. unfold report_seen, ConcCpu.report_seen.
  apply does_assoc, does_assoc_r. does_next. do 2 (apply does_assoc, does_assoc_r; does_next).
  apply does_value. own_read. unfold ConcCpu.report_number. apply does_assoc, does_assoc_r. does_next.
  apply sc_get_ok in H3 as (s & Hs & -> & ->). apply does_assoc_r.
  eapply does_bind; [auto with does|]. intros [] w4 E4. apply does_value_r. get.
  assert (syscall_sequence_number w4 = syscall_sequence_number w3) as ->.
  { revert E4. unfold when, sc_do, load, mbind, M_bind. destruct (negb _); [rewrite Hs|]; by intros [= <-]. }
  does_next. apply does_if; intros _; [apply does_ret|]. does_next. eapply does_bind; [apply does_stats|].
  intros [rt th] w7 _. does_next. eapply does_bind; [|intros; apply does_ret].
  unfold ConcCpu.incr_seqno. own_read. by intros x w' [= <- <-] d <-; apply runs_step.
Qed.
End Cpu.

(** ** Memory *)
Section Mem.
Context {ENV : Env} {ORDER : HashOrder}.
Import ManagerMem.

Lemma does_resize F H w id n :
  does F H H w (sc_resize_memory_limit_in_pages id n) (ECAPI.sc_resize_memory_limit_in_pages id n).
Proof. eapply does_bind; [apply does_agent_or_exit|]. intros. apply does_own. Qed.
Lemma does_usage F H w id i :
  does F H H w (sc_get_memory_usage_in_bytes_cadvisor id i) (ECAPI.sc_get_memory_usage_in_bytes_cadvisor id i).
Proof.
  eapply does_bind; [apply does_via_ec|]. intros [ac|] w1 _; [|apply does_ret].
  apply does_if; intros _; [apply does_ret|apply does_own].
Qed.
Lemma does_limit F H w id :
  does F H H w (sc_get_memory_limit_in_bytes_cadvisor id) (ECAPI.sc_get_memory_limit_in_bytes_cadvisor id).
Proof.
  eapply does_bind; [apply does_via_ec|]. intros [ac|] w1 _; [|apply does_ret].
  apply does_if; intros _; [apply does_ret|apply does_own].
Qed.
Lemma does_set_limit F H w id n :
  does F H H w (sc_set_memory_limit_in_pages id n) (ECAPI.sc_set_memory_limit_in_pages id n).
Proof. eapply does_bind; [apply does_via_ec|]. intros. apply does_own. Qed.
Lemma does_reclaim F H w id sc : does F H H w (ConcMem.reclaim id sc) (reclaim id sc).
Proof.
  eapply does_bind; [apply does_own|]. intros n w1 _. eapply does_bind; [apply does_own|]. intros i w2 _.
  eapply does_bind; [apply does_usage|]. intros u w3 _. apply does_if; intros _; [apply does_ret|].
  apply does_if; intros _; [|apply does_ret]. eapply does_bind; [apply does_resize|]. intros r w4 _.
  apply does_if; intros _; [|apply does_ret]. eapply does_bind; [apply does_own|]. intros c w5 _.
  eapply does_bind; [apply does_set_limit|]. intros. apply does_ret.
Qed.

(** A task is started and runs to its end: its thread has finished with the
    result, and the caller goes on. *)
Lemma run_task F cfg t cat H task κ d v d' :
  at_ F cfg t cat H (Async true (task Return) κ) d →
  (∀ F', runs F' [] task d [] v d') →
  ∃ cfg' u, rtc cstep cfg cfg' ∧ at_ F cfg' t cat H (κ u) d' ∧ others_kept t cfg cfg' ∧ u ≠ t ∧
    threads cfg' !! u = Some (Thr true (Finished (Ok v))).
Proof.
  intros Hat Hrun. pose proof Hat as [Hd Hu Ht Hs Hl Ha Hsl]. set (u := length (threads cfg)).
  pose proof (lookup_lt_Some _ _ _ Ht) as Hlt. assert (Hut : u ≠ t) by (unfold u; lia).
  set (cfg1 := add_thread (Thr true (Running (task Return))) (set_body t (Thr cat (Running (κ u))) (Running (κ u)) cfg)).
  assert (R1 : cstep cfg cfg1) by (exists (Run t 0); unfold exec; by rewrite Hd, Ht).
  assert (Hth1 : threads cfg1 = <[t := Thr cat (Running (κ u))]> (threads cfg) ++ [Thr true (Running (task Return))]) by done.
  assert (L1 : ∀ x th, x ≠ t → threads cfg !! x = Some th → threads cfg1 !! x = Some th).
  { intros x th Hx E. rewrite Hth1, lookup_app_l; [by rewrite list_lookup_insert_ne|].
    rewrite length_insert. by eapply lookup_lt_Some. }
  assert (Lt1 : threads cfg1 !! t = Some (Thr cat (Running (κ u)))).
  { rewrite Hth1, lookup_app_l by (by rewrite length_insert). by apply list_lookup_insert_eq. }
  assert (Lu1 : threads cfg1 !! u = Some (Thr true (Running (task Return)))).
  { rewrite Hth1, lookup_app_r by (rewrite length_insert; unfold u; lia). rewrite length_insert. unfold u. by rewrite Nat.sub_diag. }
  assert (At1 : at_ (held H t ∪ F) cfg1 u true [] (task Return) d).
  { constructor; try done.
    - change (held [] u) with (∅ : gmap mutex nat). by rewrite (left_id_L ∅ (∪)).
    - intros Hin%Hsl. unfold u in Hin. lia.
    - intros x Hin%Hsl. rewrite Hth1, length_app, length_insert. lia. }
  destruct (Hrun _ cfg1 u true Return At1) as (cfg2 & R2 & At2 & [O2 A2]). pose proof At2 as [Hd2 Hu2 Ht2 Hs2 Hl2 Ha2 Hsl2].
  exists (set_body u (Thr true (Running (Return v))) (Finished (Ok v)) cfg2), u. pose proof (lookup_lt_Some _ _ _ Ht2) as Hlt2.
  split_and!.
  - eapply rtc_l; [exact R1|]. eapply rtc_r; [exact R2|]. exists (Run u 0). unfold exec. by rewrite Hd2, Ht2.
  - constructor; try done; simpl.
    + rewrite list_lookup_insert_ne by done. by apply O2.
    + rewrite Hl2. change (held [] u) with (∅ : gmap mutex nat). by rewrite (left_id_L ∅ (∪)).
    + intros Hin%A2. by apply Ha.
    + intros x Hin. rewrite length_insert. by apply Hsl2.
  - split; [|by intros x Hin%A2]. intros x th Hx E. simpl.
    assert (x ≠ u) by (intros ->; apply lookup_lt_Some in E; unfold u in E; lia).
    rewrite list_lookup_insert_ne by done. apply O2; [done|]. by apply L1.
  - done.
  - simpl. by rewrite list_lookup_insert_eq.
Qed.

(** The future [u] of thread [t] has come to [o]. *)
Definition settled (c : config) (t u : nat) (o : outcome Z) : Prop :=
  u ≠ t ∧ threads c !! u = Some (Thr true (Finished o)).
Lemma settled_kept t c c' us os :
  others_kept t c c' → Forall2 (settled c t) us os → Forall2 (settled c' t) us os.
Proof. intros [Hk _] Hs. eapply Forall2_impl; [exact Hs|]. intros u o [Hu Ht]. split; [done|]. by apply Hk. Qed.

Lemma runs_back F H k id q sc w d :
  subcontainers (w_ec w) !! k = Some (id, q) → last q = Some sc → d_w d = w →
  runs F H (ConcCpu.back k) d H sc d.
Proof.
  intros Hk Hq <-. apply runs_step. unfold on_w, ec_get, gets, mbind, M_bind. rewrite Hk. simpl. rewrite Hq.
  unfold defined, mret, M_ret. by rewrite with_w_id.
Qed.
Lemma async_ok {A} (m : M World A) w v w' : async m w = (Ok (Ok v), w') → m w = (Ok v, w').
Proof. unfold async. destruct (m w) as [[x|[]] w1]; intros [= ->]; by simplify_eq. Qed.
Lemma app_all_ok (xs ys : list (outcome Z)) : Forall (λ o, ∃ v, o = Ok v) (xs ++ ys) → Forall (λ o, ∃ v, o = Ok v) xs.
Proof. by intros [? _]%Forall_app. Qed.

(** One turn of the loop that starts the tasks. *)
Lemma launch_one F fd kv os os1 w w1 us cfg t cat H κ d :
  launch_reclaim fd os kv w = (Ok os1, w1) → Forall (λ o, ∃ v, o = Ok v) os1 →
  subcontainers (w_ec w) !! kv.1 = Some kv.2 → d_w d = w →
  at_ F cfg t cat H (ConcMem.launch_reclaim fd us (kv.1, kv.2.1) κ) d → Forall2 (settled cfg t) us os →
  ∃ cfg' us1, rtc cstep cfg cfg' ∧ at_ F cfg' t cat H (κ us1) (with_w w1 d) ∧ others_kept t cfg cfg' ∧
    Forall2 (settled cfg' t) us1 os1 ∧ subcontainers (w_ec w1) = subcontainers (w_ec w).
Proof.
  destruct kv as [k [id q]]. intros E Hok Hk Hd Hat Hus. unfold launch_reclaim in E.
  apply bind_ok in E as (sc & w2 & E1 & E). simpl in E1. destruct (last q) as [p|] eqn:Hq; [|done].
  injection E1 as -> ->. apply bind_ok in E as (fd' & w3 & (s & Hs & -> & ->)%sc_get_ok & E).
  unfold ConcMem.launch_reclaim in Hat. simpl in Hk.
  destruct (runs_back F H k id q sc w2 d Hk Hq Hd cfg t cat _ Hat) as (cfg0 & R0 & At0 & O0).
  destruct (runs_sc_read F H sc get_fd s w2 d Hs Hd cfg0 t cat _ At0) as (cfg1 & R1' & At1 & O1').
  assert (R1 : rtc cstep cfg cfg1) by (by etrans). pose proof (others_kept_trans _ _ _ _ O0 O1') as O1.
  destruct (get_fd s =? fd).
  { injection E as <- <-. exists cfg1, us. rewrite <-Hd, with_w_id. split_and!; try done. by eapply settled_kept. }
  destruct (runs_back F H k id q sc w2 d Hk Hq Hd cfg1 t cat _ At1) as (cfg2 & R2 & At2 & O2).
  apply bind_ok in E as (o & w3 & E3 & E). injection E as <- <-.
  apply Forall_app in Hok as [_ [[v ->] _]%Forall_cons]. apply async_ok in E3.
  destruct (run_task _ _ _ _ _ _ _ _ v (with_w w3 d) At2) as (cfg3 & u & R3 & At3 & O3 & Hu & Hth).
  { intros F'. by apply (does_reclaim F' [] w2). }
  exists cfg3, (us ++ [u]). assert (O : others_kept t cfg cfg3) by (do 2 (eapply others_kept_trans; [done|]); done).
  split_and!; [by do 2 (etrans; [done|])|done..| |].
  - apply Forall2_app; [by eapply settled_kept|]. by constructor.
  - pose proof (System.keeps_reclaim id sc w2) as [Hsub _ _ _ _ _ _]. simpl in E3. by rewrite E3 in Hsub.
Qed.
Lemma launch_grows fd l os os' w w' :
  mfold (launch_reclaim fd) os l w = (Ok os', w') → ∃ new, os' = os ++ new.
Proof.
  revert os w. induction l as [|kv l IH]; intros os w; cbn [mfold]; [intros [= <- <-]; exists []; by rewrite app_nil_r|].
  intros (os1 & w1 & E1 & (new & ->)%IH)%bind_ok. unfold launch_reclaim in E1.
  apply bind_ok in E1 as (? & ? & _ & E1). apply bind_ok in E1 as (? & ? & _ & E1).
  destruct (_ =? _); [injection E1 as <- <-; by exists new|].
  apply bind_ok in E1 as (? & ? & _ & E1). injection E1 as <- <-. rewrite <-app_assoc. eauto.
Qed.
(** A walk that nobody disturbs: its iterator stays valid. *)
Lemma runs_advance F H m cur w d :
  subcontainers (w_ec w) = m → erased cur m = false → d_w d = w → runs F H (own (advance m cur)) d H m d.
Proof.
  intros Hm Hc <-. apply runs_step. unfold on_w, advance, ec_get, gets, mbind, M_bind. rewrite Hm, rehashed_same, Hc.
  simpl. by rewrite with_w_id.
Qed.
Lemma still_there (m : gmap key (ContainerId * list loc)) k e : m !! k = Some e → erased (Some k) m = false.
Proof. intros E. simpl. by rewrite E, bool_decide_true by eauto. Qed.
Lemma launch_all F fd m l : ∀ cur os os' w w' us cfg t cat H κ d,
  mfold (launch_reclaim fd) os (omap (λ k, pair k <$> m !! k) l) w = (Ok os', w') → Forall (λ o, ∃ v, o = Ok v) os' →
  subcontainers (w_ec w) = m → erased cur m = false → d_w d = w →
  at_ F cfg t cat H (walk_on (ConcMem.launch_reclaim fd) m cur us l κ) d → Forall2 (settled cfg t) us os →
  ∃ cfg' us', rtc cstep cfg cfg' ∧ at_ F cfg' t cat H (κ us') (with_w w' d) ∧ others_kept t cfg cfg' ∧
    Forall2 (settled cfg' t) us' os'.
Proof.
  induction l as [|k l IH]; intros cur os os' w w' us cfg t cat H κ d E Hok Hm Hc Hd Hat Hus;
    destruct (runs_advance F H m cur w d Hm Hc Hd cfg t cat _ Hat) as (cfg0 & R0 & At0 & O0);
    pose proof (settled_kept _ _ _ _ _ O0 Hus) as Hus0.
  { injection E as <- <-. exists cfg0, us. by rewrite <-Hd, with_w_id. }
  cbv beta in At0. simpl in E. destruct (m !! k) as [e|] eqn:Ek.
  2:{ destruct (IH cur os os' w w' us cfg0 t cat H κ d) as (cfg' & us' & R & At' & O & Hus'); try done.
      exists cfg', us'. split_and!; [by etrans|done|by eapply others_kept_trans|done]. }
  cbn [mfold] in E. apply bind_ok in E as (os1 & w1 & E1 & E).
  assert (Forall (λ o, ∃ v, o = Ok v) os1) by (destruct (launch_grows _ _ _ _ _ _ E) as (new & ->); by eapply app_all_ok).
  assert (Hk : subcontainers (w_ec w) !! k = Some e) by (by rewrite Hm).
  destruct (launch_one _ _ (k, e) _ _ _ _ _ _ _ _ _ _ _ E1 H0 Hk Hd At0 Hus0)
    as (cfg1 & us1 & R1 & At1 & O1 & Hus1 & Hsub).
  destruct (IH (Some k) os1 os' w1 w' us1 cfg1 t cat H κ (with_w w1 d) E Hok) as (cfg2 & us2 & R2 & At2 & O2 & Hus2);
    [congruence|by eapply still_there|done|exact At1|done|].
  exists cfg2, us2. split_and!; [by do 2 (etrans; [done|])|done|by do 2 (eapply others_kept_trans; [done|])|done].
Qed.

(** Collecting the results. *)
Lemma collect_ok os : ∀ r r' w w',
  mfold collect r os w = (Ok r', w') → w' = w ∧ Forall (λ o, ∃ v, o = Ok v) os.
Proof.
  induction os as [|o os IH]; intros r r' w w'; cbn [mfold]; [by intros [= <- <-]|].
  intros (r1 & w1 & E1 & [-> Hos]%IH)%bind_ok. unfold collect in E1. apply bind_ok in E1 as (v & w2 & E2 & E1).
  injection E2 as -> <-. injection E1 as <- <-. split; [done|]. constructor; eauto.
Qed.
Lemma collect_all F H os : ∀ us r r' w w' cfg t cat κ d,
  mfold collect r os w = (Ok r', w') → at_ F cfg t cat H (cfold ConcMem.collect r us κ) d →
  Forall2 (settled cfg t) us os →
  ∃ cfg', rtc cstep cfg cfg' ∧ at_ F cfg' t cat H (κ r') d ∧ others_kept t cfg cfg'.
Proof.
  induction os as [|o os IH]; intros us r r' w w' cfg t cat κ d E Hat Hus.
  { apply Forall2_nil_inv_r in Hus as ->. injection E as <- <-. by exists cfg. }
  apply Forall2_cons_inv_r in Hus as (u & us' & [Hu Hth] & Hus & ->). cbn [mfold] in E.
  apply bind_ok in E as (r1 & w1 & E1 & E). apply bind_ok in E1 as (v & w2 & E2 & E1).
  injection E2 as -> <-. injection E1 as <- <-. pose proof Hat as [Hd Hup Ht Hs Hl Ha Hsl].
  edestruct (runs_move F cfg t cat H) as (cfg1 & R1 & At1 & O1);
    [exact Hat| |exact Hup|exact Hs|exact Hl|done|].
  { simpl. rewrite Hth. unfold set_body. by rewrite Hd. }
  destruct (IH _ _ _ _ _ _ _ _ _ _ E At1) as (cfg2 & R2 & At2 & O2); [by eapply settled_kept|].
  exists cfg2. split_and!; [by etrans|done|by eapply others_kept_trans].
Qed.

Lemma does_reclaim_memory F H w fd : does F H H w (ConcMem.handle_reclaim_memory fd) (handle_reclaim_memory fd).
Proof.
  intros r w' E d Hd cfg t cat κ Hat. unfold handle_reclaim_memory in E.
  apply bind_ok in E as (m & w1 & [= <- <-] & E). apply bind_ok in E as (os & w2 & E1 & E2).
  destruct (collect_ok _ _ _ _ _ E2) as [-> Hok].
  destruct (runs_read F H subcontainers w d Hd cfg t cat _ Hat) as (cfg1 & R1 & At1 & O1).
  rewrite <-order_iter in E1.
  destruct (launch_all F fd _ _ None _ _ _ _ [] cfg1 t cat H (λ us, cfold ConcMem.collect 0 us κ) d E1 Hok)
    as (cfg2 & us & R2 & At2 & O2 & Hus); [done..|exact At1|by constructor|].
  destruct (collect_all F H os _ _ _ _ _ _ _ _ _ _ E2 At2 Hus) as (cfg3 & R3 & At3 & O3).
  exists cfg3. split_and!; [by do 2 (etrans; [done|])|done|by do 2 (eapply others_kept_trans; [done|])].
Qed.

Lemma does_update_alloc F H w n : does F H H w (ec_update_alloc_memory_in_pages n) (ECAPI.ec_update_alloc_memory_in_pages n).
Proof.
  eapply does_bind; [apply (does_count F H _ (Mem (mem_g.DecrUnalloc n)))|]. intros.
  apply (does_count F H _ (Mem (mem_g.IncrAlloc (i64 n)))).
Qed.
Lemma does_update_reclaim F H w n :
  does F H H w (ec_update_reclaim_memory_in_pages n) (ECAPI.ec_update_reclaim_memory_in_pages n).
Proof.
  eapply does_bind; [apply (does_count F H _ (Mem (mem_g.IncrUnalloc n)))|]. intros.
  apply (does_count F H _ (Mem (mem_g.DecrAlloc (i64 n)))).
Qed.
#[local] Hint Resolve does_resize does_limit does_reclaim_memory does_update_alloc does_update_reclaim : does.

Section Mutex.
Context (F : gmap mutex nat) (HF : F !! memlock = None).

Lemma does_grant w req res n :
  does F [memlock] [] w (ConcMem.grant_mem req res n) (grant_mem req res n).
Proof.
  unfold ConcMem.grant_mem, grant_mem. read. get. unfold grant. cbv zeta.
  eapply (does_skip _ _ [memlock] _ _ _ (if get_memory_slice (w_ec w) <? u64 n then get_memory_slice (w_ec w) else u64 n)).
  { intros d Hd. destruct (_ <? _); [by apply runs_read|apply runs_ret]. }
  does_next. eapply does_bind; [apply does_via_ec|]. intros sc w2 _. eapply does_bind; [apply does_own|]. intros [] w3 _.
  eapply does_skip; [|apply does_ret]. intros d _. by apply runs_unlock, not_elem_of_nil.
Qed.
Lemma does_mem_req w req res fd : does F [] [] w (ConcMem.handle_mem_req req res fd) (handle_mem_req req res fd).
Proof.
  unfold ConcMem.handle_mem_req, handle_mem_req. apply does_if; intros _; [apply does_ret|].
  eapply does_skip; [intros d _; apply runs_lock; [done|apply not_elem_of_nil]|].
  read. get. apply does_if; intros _; [apply does_grant|]. does_next. apply does_if; intros _.
  - eapply does_bind; [apply does_when; eapply does_bind; [apply (does_count F _ _ (Mem (mem_g.IncrUnalloc _)))|];
      intros; apply (does_count F _ _ (Mem (mem_g.DecrAlloc (i64 (u64 _)))))|].
    intros [] w2 _. does_next. read. get. apply does_grant.
  - eapply does_skip; [|apply does_ret]. intros d _. by apply runs_unlock, not_elem_of_nil.
Qed.
End Mutex.

Lemma does_new_pod F H w sc fd :
  does F H H w (ConcMem.determine_mem_limit_for_new_pod sc fd) (determine_mem_limit_for_new_pod sc fd).
Proof.
  intros a w' (i & w1 & (s & Hs & -> & ->)%sc_get_ok & E)%bind_ok. revert a w' E.
  destruct (bool_decide (get_docker_id s = "")) eqn:Ei; [by intros|].
  eapply (does_skip _ _ H _ _ _ tt).
  { intros d <-. apply runs_step. unfold on_w, sc_get, load, mbind, M_bind, mret, M_ret. rewrite Hs, Ei. by rewrite with_w_id. }
  eapply does_bind; [apply does_own|]. intros c w2 _.
  eapply does_bind; [apply does_limit|]. intros lim w3 _. read. get. cbv zeta. set (n := byte_to_page lim).
  eapply does_bind; [|intros; apply does_own].
  destruct (Z.leb_spec n (get_unallocated_memory_in_pages (w_ec w3))) as [|Hn]; [auto with does|]. read.
  apply does_if; intros _; [apply does_ret|]. read. rewrite (proj2 (Z.ltb_lt _ _) Hn).
  do 2 does_next. read. get. apply does_if; intros _; [auto with does|].
  eapply does_bind; [apply does_own|]. intros c' w4 (s' & _ & _ & ->)%sc_get_ok. read. does_next. auto with does.
Qed.
End Mem.

(** ** Registration and dispatch *)
Section Dispatch.
Context {ENV : Env} {ORDER : HashOrder} (F : gmap mutex nat).

(** A thread that is only started. *)
Lemma runs_spawn {A} H task d (a : A) : runs F H (spawn task ;; mret a) d H a d.
Proof.
  intros cfg t cat κ [Hd Hu Ht Hs Hl Ha Hsl].
  set (cfg' := add_thread (Thr false (Running (task (λ _, Return 0)))) (set_body t (Thr cat (Running (κ a))) (Running (κ a)) cfg)).
  assert (Hth : threads cfg' = <[t := Thr cat (Running (κ a))]> (threads cfg) ++ [Thr false (Running (task (λ _, Return 0)))])
    by done.
  exists cfg'. split_and!.
  - apply rtc_once. exists (Run t 0). unfold exec. by rewrite Hd, Ht.
  - constructor; try done.
    + rewrite Hth, lookup_app_l by (rewrite length_insert; by eapply lookup_lt_Some).
      apply list_lookup_insert_eq. by eapply lookup_lt_Some.
    + intros u Hin%Hsl. rewrite Hth, length_app, length_insert. lia.
  - split; [|done]. intros u th Hu' E. rewrite Hth, lookup_app_l by (rewrite length_insert; by eapply lookup_lt_Some).
    by rewrite list_lookup_insert_ne.
Qed.

Lemma does_quota_new_pod H w q :
  does F H H w (determine_quota_for_new_pod q) (ECAPI.determine_quota_for_new_pod q).
Proof.
  unfold determine_quota_for_new_pod, ECAPI.determine_quota_for_new_pod. read. get.
  destruct (Z.leb_spec q (get_cpu_unallocated_rt (w_ec w))) as [|Hq].
  { eapply does_bind; [apply does_decr_unallocated|]. intros. eapply does_bind; [apply does_incr_alloc|]. intros. apply does_ret. }
  read. apply does_if; intros _.
  { read. get. eapply does_bind; [apply does_incr_overrun|]. intros. eapply does_bind; [apply does_incr_alloc|]. intros. apply does_ret. }
  read. rewrite (proj2 (Z.ltb_lt _ _) Hq). read. eapply does_bind; [apply (does_count F H _ (Drain _))|]. intros.
  eapply does_bind; [apply does_incr_alloc|]. intros. apply does_ret.
Qed.
Lemma does_insert_sc H w sc : does F H H w (insert_sc sc) (ECAPI.ec_insert_sc sc).
Proof. eapply does_bind; [apply does_own|]. intros. eapply does_bind; [apply does_via_ec|]. intros. apply does_ret. Qed.
Lemma does_agent_of_sc H w sc : does F H H w (ConcManager.agent_of_sc sc) (ECAPI.agent_of_sc sc).
Proof. eapply does_bind; [apply does_own|]. intros. apply does_own. Qed.
#[local] Hint Resolve does_quota_new_pod does_insert_sc does_agent_of_sc does_syscall : does.

(** The container is entered, with its agent, under [cv_mtx]. *)
Lemma does_publish w sc (ac : option AgentClient.AgentClient) :
  F !! cv_mtx = None →
  does F [] [] w
    (match ac with
     | Some ac =>
         lock cv_mtx ;; c ← sc_read sc get_c_id; via_ec (ec_do (add_to_sc_ac_map c (Some ac))) ;;
         sc_write sc (set_sc_inserted true) ;; notify_one ;; unlock cv_mtx
     | None => mret tt
     end)
    (match ac with
     | Some ac =>
         c ← sc_get sc get_c_id; ec_do (add_to_sc_ac_map c (Some ac)) ;; sc_do sc (set_sc_inserted true)
     | None => mret tt
     end).
Proof.
  intros Hcv. destruct ac as [ac|]; [|apply does_ret].
  eapply does_skip; [intros d _; by apply runs_lock, not_elem_of_nil|].
  eapply does_bind; [apply does_own|]. intros c w1 _. eapply does_bind; [apply does_via_ec|]. intros [] w2 _.
  intros [] w3 E d Hd. eapply runs_bind; [by apply (does_own F [cv_mtx] w2 _ tt w3 E)|].
  eapply runs_bind; [apply runs_notify|]. by apply runs_unlock, not_elem_of_nil.
Qed.
Lemma does_add_cgroup w now req res ip fd :
  F !! cv_mtx = None →
  does F [] [] w (ConcManager.handle_add_cgroup_to_ec now req res ip fd)
    (r ← Manager.handle_add_cgroup_to_ec now req res ip fd; mret r.1).
Proof.
  intros Hcv. unfold ConcManager.handle_add_cgroup_to_ec, Manager.handle_add_cgroup_to_ec, ECAPI.register_sc.
  do 2 apply does_assoc_r. eapply does_bind; [apply does_quota_new_pod|]. intros [uq q] w1 _.
  apply does_assoc_r. eapply does_bind; [apply does_own|]. intros sc w2 _.
  apply does_assoc_r. eapply does_bind; [apply does_insert_sc|]. intros ret w3 _.
  apply does_assoc_r. eapply does_bind; [apply does_via_ec|]. intros [] w4 _. apply does_value_r.
  apply does_assoc_r. eapply does_bind; [apply does_agent_of_sc|]. intros ac w5 _.
  apply does_assoc_r. eapply does_bind; [by apply does_publish|]. intros [] w6 _.
  apply does_assoc_r. eapply does_bind; [apply does_when; eapply does_bind; [apply does_syscall|]; intros; apply does_ret|].
  intros [] w7 _. intros a w' [= <- <-] d <-. rewrite with_w_id. apply runs_spawn.
Qed.

Lemma does_handle_req w now req res ip fd :
  F !! memlock = None → F !! cv_mtx = None →
  does F [] [] w (ConcManager.handle_req now req res ip fd) (r ← Manager.handle_req now req res ip fd; mret r.1).
Proof.
  intros Hm Hcv. unfold ConcManager.handle_req, Manager.handle_req.
  destruct (req_type req =? REQ_MEM).
  { apply does_assoc_r. eapply does_bind; [by apply does_mem_req|]. intros [r res'] w1 _. apply does_ret. }
  destruct (req_type req =? REQ_CPU).
  { apply does_assoc_r. eapply does_bind; [apply does_report|]. intros [r res'] w1 _. apply does_ret. }
  destruct (req_type req =? REQ_INIT); [|apply does_ret].
  pose proof (does_add_cgroup w now req res ip fd Hcv) as Hadd.
  eapply does_eq; [|apply (does_bind F [] [] [] w _ _ _ (λ r, mret (i32 r.1, r.2)) Hadd); intros [r res'] w1 _; apply does_ret].
  intros w1. unfold mbind, M_bind, mret, M_ret. by destruct (Manager.handle_add_cgroup_to_ec _ _ _ _ _ w1) as [[[[? ?] ?]|f] w2].
Qed.

(** ** Whole connections *)

Lemma does_tcp_loop ip fd ins : F !! memlock = None → F !! cv_mtx = None → ∀ buff w,
  does F [] [] w (ConcManager.tcp_loop ip fd buff ins) (Server.tcp_loop ip fd buff ins ;; mret tt).
Proof.
  intros Hm Hcv. induction ins as [|i ins IH]; intros buff w; [apply (does_ret F [] w tt)|]. simpl ConcManager.tcp_loop.
  set (buff' := Server.poke_ip ip (Server.overlay (Server.in_bytes i) buff)).
  set (req := msg_of_bytes buff'). set (res := msg_copy (Server.in_garbage i) req).
  set (host := ip4_addr.to_uint32 (ip4_addr.from_net ip)).
  eapply (does_eq F [] [] w _ ('(ret, res) ← (r ← Manager.handle_req (Server.in_now i) req res host fd; mret r.1);
    if Server.tcp_writes (u64 ret) res && negb (Server.in_write_ok i) then mret tt
    else Server.tcp_loop ip fd buff' ins ;; mret tt)).
  - intros s. simpl. unfold Server.tcp_step. fold buff' req res host. unfold mbind, M_bind, mret, M_ret.
    destruct (Manager.handle_req _ _ _ _ _ s) as [[[[ret r] x]|f] s1]; [|done]. simpl.
    destruct (Server.tcp_writes (u64 ret) r), (Server.in_write_ok i); simpl; try done;
      by destruct (Server.tcp_loop _ _ _ _ s1) as [[rs|f] s2].
  - eapply does_bind; [by apply does_handle_req|]. intros [ret r] w1 _. destruct (_ && _); [apply (does_ret F [] w1 tt)|apply IH].
Qed.
Lemma does_datagram w ip fd now dg g : F !! memlock = None → F !! cv_mtx = None →
  does F [] [] w (ConcManager.handle_client_reqs_udp ip fd now dg g)
    (Server.handle_client_reqs_udp ip fd now dg g ;; mret tt).
Proof.
  intros Hm Hcv. unfold ConcManager.handle_client_reqs_udp, Server.handle_client_reqs_udp. set (req := set_ip_from_host _ _).
  set (host := ip4_addr.to_uint32 (ip4_addr.from_net ip)).
  eapply (does_eq F [] [] w _ ((r ← Manager.handle_req now req (msg_copy g req) host fd; mret r.1) ;; mret tt)).
  - intros s. unfold mbind, M_bind, mret, M_ret. by destruct (Manager.handle_req _ _ _ _ _ s) as [[[[ret r] x]|f] s1].
  - eapply does_bind; [by apply does_handle_req|]. intros a w1 _. apply (does_ret F [] w1 tt).
Qed.
End Dispatch.

(** ** The deployment service *)
Section Service.
Context {ENV : Env} {ORDER : HashOrder} (F : gmap mutex nat) (inet_addr : string → Z).

(** The same as [does], on the state of the service. *)
Definition serves (H H' : list mutex) {A} (d : Service) (c : C A) (m : M Service A) : Prop :=
  ∀ a d', m d = (Ok a, d') → runs F H c d H' a d'.

Lemma serves_ret {A} H d (a : A) : serves H H d (mret a) (mret a).
Proof. intros a' d' [= <- <-]. apply runs_ret. Qed.
Lemma serves_bind {A B} H1 H2 H3 d (c : C A) m (k : A → C B) km :
  serves H1 H2 d c m → (∀ a d1, m d = (Ok a, d1) → serves H2 H3 d1 (k a) (km a)) →
  serves H1 H3 d (c ≫= k) (m ≫= km).
Proof. intros Hc Hk b d' (a & d1 & E1 & E2)%bind_ok. eapply runs_bind; [by apply Hc|]. by eapply Hk. Qed.
Lemma serves_skip {A B} H1 H2 H3 d (c : C A) a (k : A → C B) m :
  runs F H1 c d H2 a d → serves H2 H3 d (k a) m → serves H1 H3 d (c ≫= k) m.
Proof. intros Hc Hk b d' E. eapply runs_bind; [exact Hc|]. by apply Hk. Qed.
Lemma serves_after {A} H1 H2 H3 d (c : C A) m (k : C unit) :
  serves H1 H2 d c m → (∀ d, runs F H2 k d H3 tt d) → serves H1 H3 d (a ← c; k ;; mret a) m.
Proof.
  intros Hc Hk a d' E. eapply runs_bind; [by apply Hc|]. eapply runs_bind; [apply Hk|apply runs_ret].
Qed.
Lemma serves_svc {A} H d (m : M Service A) : serves H H d (svc m) m.
Proof. intros a d' E. by apply runs_step. Qed.
Lemma serves_on_w {A} H H' d (c : C A) m : does F H H' (d_w d) c m → serves H H' d c (on_w m).
Proof.
  intros Hc a d' E. unfold on_w in E. destruct (m (d_w d)) as [o w'] eqn:Em. injection E as -> <-. by apply (Hc a w' Em).
Qed.

Definition service_free : Prop :=
  F !! cv_mtx = None ∧ F !! cv_mtx_dock = None ∧ F !! sc_lock = None ∧ F !! dep_pod_lock = None ∧ F !! dockId_sc_lock = None.
Context (HF : service_free).

Lemma runs_take l d : F !! l = None → runs F [] (lock l) d [l] tt d.
Proof. intros. by apply runs_lock, not_elem_of_nil. Qed.
Lemma runs_leave l d : F !! l = None → runs F [l] (unlock l) d [] tt d.
Proof. intros. by apply runs_unlock, not_elem_of_nil. Qed.
Lemma serves_locked {A} l d (m : M Service A) : F !! l = None → serves [] [] d (ConcManager.locked l m) m.
Proof.
  intros Hl. eapply serves_skip; [by apply runs_take|]. eapply serves_after; [apply serves_svc|].
  intros. by apply runs_leave.
Qed.

Lemma serves_insert_pod d pod : serves [] [] d (ConcManager.insertPodSpec inet_addr pod) (Deploy.insertPodSpec inet_addr pod).
Proof.
  destruct HF as (_ & _ & _ & Hdp & Hdk). eapply serves_skip; [by apply runs_take|].
  eapply serves_bind; [apply serves_svc|]. intros id d1 _. eapply serves_bind; [apply serves_svc|]. intros [] d2 _.
  eapply serves_skip; [by apply runs_leave|]. eapply serves_skip; [by apply runs_take|].
  eapply serves_after; [apply serves_svc|]. intros. by apply runs_leave.
Qed.
Lemma does_matcher w id dock :
  does F [] [] w (ConcManager.scIdToDockerIdMatcherThread id dock) (Deploy.scIdToDockerIdMatcherThread id dock).
Proof.
  destruct HF as (Hcv & Hcd & _). unfold Deploy.scIdToDockerIdMatcherThread. get.
  destruct (sc_ac_map (w_ec w) !! key_of id) as [x|] eqn:Ex; [|apply does_stop].
  eapply does_skip; [intros; by apply runs_take|].
  eapply does_skip.
  { intros d <-. apply runs_wait. unfold ConcManager.agent_known. rewrite Ex. apply bool_decide_true. eauto. }
  eapply does_skip; [intros; apply runs_lock; [done|by intros ?%list_elem_of_singleton]|].
  do 3 (eapply does_bind; [apply does_own || apply does_via_ec|]; intros ? ? _).
  intros [] w' [= <-] d <-. rewrite with_w_id. eapply runs_bind; [apply runs_unlock; [done|by intros ?%list_elem_of_singleton]|].
  by apply runs_leave.
Qed.
Lemma serves_pod_spec d pod :
  serves [] [] d (ConcManager.ReportPodSpec inet_addr pod) (Deploy.ReportPodSpec inet_addr pod).
Proof.
  eapply serves_bind; [apply serves_insert_pod|]. intros r d1 _. eapply serves_bind; [|intros; apply serves_ret].
  destruct (bool_decide _); [|apply serves_ret]. eapply serves_bind; [apply serves_svc|]. intros id d2 _.
  apply serves_on_w, does_matcher.
Qed.

(** A field of the oldest container of an id. *)
Lemma serves_front {A B} H H' d id (f : SubContainer → A) (k : A → C B) km :
  (∀ a, serves H H' d (k a) (km a)) →
  serves H H' d (sc ← get_subcontainer_front id; a ← sc_read sc f; k a)
    (on_w (sc ← ec_find (ElasticContainer.get_subcontainer_front id); sc_get sc f) ≫= km).
Proof.
  intros Hk. change (serves H H' d ((sc ← get_subcontainer_front id; sc_read sc f) ≫= k)
    (on_w (sc ← ec_find (ElasticContainer.get_subcontainer_front id); sc_get sc f) ≫= km)).
  eapply serves_bind; [apply serves_on_w; eapply does_bind; [apply does_via_ec|]; intros; apply does_own|].
  intros a d1 E. assert (d1 = d) as ->; [|apply Hk]. revert E. unfold on_w.
  destruct ((sc ← ec_find _; sc_get sc f) (d_w d)) as [o w1] eqn:E. intros [= -> <-].
  apply bind_ok in E as (sc & w2 & E1 & (s & _ & _ & ->)%sc_get_ok). unfold ec_find in E1.
  destruct (ElasticContainer.get_subcontainer_front id _); [|done]. injection E1 as _ <-. apply with_w_id.
Qed.
Lemma does_delete_sc w id :
  does F [] [] w (ConcManager.deleteFromSubcontainersMap id) (Deploy.deleteFromSubcontainersMap id).
Proof.
  destruct HF as (_ & _ & Hsc & _). eapply does_skip; [intros; by apply runs_take|].
  eapply does_bind; [apply does_via_ec|]. intros [r f] w1 _.
  eapply does_bind; [destruct f; [apply does_own|apply does_ret]|]. intros [] w2 _.
  eapply does_skip; [intros; by apply runs_leave|apply does_ret].
Qed.
Lemma serves_group {A B D} H H' d (c : C A) (f : A → C B) (k : B → C D) m :
  serves H H' d ((c ≫= f) ≫= k) m → serves H H' d (c ≫= λ a, f a ≫= k) m.
Proof. done. Qed.
Lemma serves_return {A} d quota lim (k : C A) km :
  (∀ d, serves [] [] d k km) →
  serves [] [] d
    (update_fair_cpu_share ;; ec_decr_alloc_rt quota ;; ec_incr_unallocated_rt quota ;;
     ec_incr_unalloc_memory_in_pages lim ;; ec_decr_alloc_memory_in_pages lim ;; k)
    (on_w (return_resources quota lim) ;; km).
Proof.
  intros Hk. change (serves [] [] d ((update_fair_cpu_share ;; ec_decr_alloc_rt quota ;; ec_incr_unallocated_rt quota ;;
    ec_incr_unalloc_memory_in_pages lim ;; ec_decr_alloc_memory_in_pages lim) ≫= λ _, k)
    (on_w (return_resources quota lim) ;; km)).
  eapply serves_bind; [apply serves_on_w|by intros].
  eapply does_bind; [apply does_via_ec|]. intros [] w1 _. eapply does_bind; [apply does_decr_alloc|]. intros [] w2 _.
  eapply does_bind; [apply does_incr_unallocated|]. intros [] w3 _.
  eapply does_bind; [apply (does_count F _ _ (Mem (mem_g.IncrUnalloc lim)))|]. intros [] w4 _.
  apply (does_count F _ _ (Mem (mem_g.DecrAlloc (i64 lim)))).
Qed.
Lemma serves_delete_pod d dock : serves [] [] d (ConcManager.DeletePod dock) (Deploy.DeletePod dock).
Proof.
  destruct HF as (Hcv & _ & Hsc & Hdp & Hdk). unfold ConcManager.DeletePod, Deploy.DeletePod.
  eapply serves_bind; [by apply serves_locked|]. intros id d1 _. destruct (_ =? 0); [apply serves_ret|].
  apply serves_front. intros lim. apply serves_front. intros q.
  eapply serves_bind; [by apply serves_locked|]. intros s1 d2 _.
  eapply serves_bind; [apply serves_on_w, does_delete_sc|]. intros s2 d3 _.
  do 2 (eapply serves_bind; [by apply serves_locked|]; intros ? ? _).
  apply serves_return. intros. apply serves_ret.
Qed.
Lemma serves_app_spec d a : serves [] [] d (ConcManager.ReportAppSpec a) (Deploy.ReportAppSpec a).
Proof.
  eapply serves_bind; [apply serves_on_w, (does_count F _ _ (Cpu (cpu_g.SetTotal _)))|]. intros [] d1 _.
  apply serves_group. eapply serves_bind.
  { apply serves_on_w. eapply does_bind; [apply does_via_ec|]. intros t w1 _. apply (does_count F _ _ (Cpu (cpu_g.SetUnalloc _))). }
  intros [] d2 _. eapply serves_bind; [apply serves_on_w, does_via_ec|]. intros [] d3 _.
  change (serves [] [] d3 ((ec_set_unalloc_memory_in_pages (u64 (u64 (mem_limit a * 1024) * 1024) / 4096) ;; mret tt) ≫= λ _,
    ec_set_alloc_memory_in_pages 0 ;; mret (OK, AppReply (app_name a) (cpu_limit a) (mem_limit a) success))
    (on_w (ec_do (set_unalloc_memory_in_pages (u64 (u64 (mem_limit a * 1024) * 1024) / 4096))) ;;
     on_w (ec_do (set_alloc_memory_in_pages 0)) ;; mret (OK, AppReply (app_name a) (cpu_limit a) (mem_limit a) success))).
  eapply serves_bind.
  { apply serves_on_w. intros [] w' E d' Hd. eapply runs_bind; [|apply runs_ret].
    eapply (does_via_ec F [] (d_w d') _ (get_unallocated_memory_in_pages (w_ec w')) w'); [|done].
    rewrite <-Hd in E. unfold mbind, M_bind. rewrite E. done. }
  intros [] d4 _. eapply serves_bind; [apply serves_on_w, does_via_ec|]. intros [] d5 _. apply serves_ret.
Qed.
End Service.

(** ** The idle pass and the periodic reclaim *)
Section Passes.
Context {ENV : Env} {ORDER : HashOrder} (F : gmap mutex nat) (H : list mutex).
Import System.

(** The table of containers does not change. *)
Definition same_table (w w' : World) : Prop := subcontainers (w_ec w') = subcontainers (w_ec w).
#[local] Instance same_table_preorder : PreOrder same_table.
Proof. split; [done|]. intros w1 w2 w3 H1 H2. unfold same_table in *. congruence. Qed.
Lemma table_untouched {A} (m : M World A) : keeps cpu_untouched m → keeps same_table m.
Proof. intros Hm w. apply (cu_subcontainers _ _ (Hm w)). Qed.
Lemma table_sc_do p f : keeps same_table (sc_do p f).
Proof. intros w. unfold same_table, sc_do, load, mbind, M_bind, modify. by destruct (w_heap w !! p). Qed.
Lemma table_ec_do f : (∀ e, subcontainers (f e) = subcontainers e) → keeps same_table (ec_do f).
Proof. intros Hf w. unfold same_table. apply Hf. Qed.
Lemma table_syscall sc q n : keeps same_table (ECAPI.set_sc_quota_syscall sc q n).
Proof.
  apply table_untouched. unfold ECAPI.set_sc_quota_syscall, ECAPI.agent_or_exit.
  repeat first [apply keeps_sc_get | apply keeps_rpc | apply keeps_agent | apply keeps_stop; apply _
    | apply keeps_ret; apply _ | apply keeps_bind; [apply _| |intros]
    | match goal with |- keeps _ (if ?b then _ else _) => destruct b | |- keeps _ (match ?o with _ => _ end) => destruct o end].
Qed.

(** A walk over the table whose body does not change the table. *)
Lemma does_walk_on {B} (fc : B → key * ContainerId → C B) fm m l :
  (∀ b kv, keeps same_table (fm b kv)) →
  (∀ b k e w, subcontainers (w_ec w) !! k = Some e → does F H H w (fc b (k, e.1)) (fm b (k, e))) →
  ∀ b cur w, subcontainers (w_ec w) = m → erased cur m = false →
  does F H H w (walk_on fc m cur b l) (mfold fm b (omap (λ k, pair k <$> m !! k) l)).
Proof.
  intros Hkeep Hbody. induction l as [|k l IH]; intros b cur w Hm Hc; cbn [walk_on];
    (eapply does_skip; [intros; by eapply runs_advance|]); [apply does_ret|]. simpl omap.
  destruct (m !! k) as [e|] eqn:Ek; [|by apply IH]. simpl omap. cbn [mfold].
  eapply does_bind; [apply Hbody; by rewrite Hm|]. intros b' w1 E. apply IH; [|by eapply still_there].
  specialize (Hkeep b (k, e) w). rewrite E in Hkeep. unfold same_table in Hkeep. simpl in Hkeep. congruence.
Qed.
Lemma does_walk {B} (fc : B → key * ContainerId → C B) fm b w :
  (∀ b kv, keeps same_table (fm b kv)) →
  (∀ b k e w, subcontainers (w_ec w) !! k = Some e → does F H H w (fc b (k, e.1)) (fm b (k, e))) →
  does F H H w (walk fc b) (m ← ec_get subcontainers; mfold fm b (iter m)).
Proof. intros Hkeep Hbody. unfold walk. read. get. rewrite <-order_iter. by apply does_walk_on. Qed.

Lemma does_run_round w n :
  does F H H w (ConcMem.run_wait n ;; ConcMem.run_round) (ManagerMem.run n).
Proof.
  unfold ManagerMem.run. get. destruct (ManagerMem.run_ready n w) eqn:En; [|apply does_stop].
  eapply does_skip; [intros d <-; apply runs_step; unfold on_w, mbind, M_bind, gets; rewrite En; unfold mret, M_ret; by rewrite with_w_id|].
  unfold ConcMem.run_round. simpl negb. cbv iota. apply does_assoc_l. eapply does_bind; [|intros; apply does_when, does_update_reclaim].
  apply does_walk.
  - intros b kv. apply table_untouched. unfold ManagerMem.reclaim_entry.
    apply keeps_bind; [apply _|apply keeps_defined|intros sc].
    apply keeps_bind; [apply _|apply keeps_sc_get|intros x]. destruct x; [apply keeps_ret; apply _|].
    apply keeps_bind; [apply _|apply keeps_reclaim|intros; apply keeps_ret; apply _].
  - intros b k [id q] w1 Hk. unfold ManagerMem.reclaim_entry. cbn [fst snd] in *.
    destruct (last q) as [sc|] eqn:Hq; [|by intros a w' E]. apply does_value_r.
    eapply does_skip; [intros; by eapply runs_back|].
    intros a w' (x & w2 & (s & _ & -> & ->)%sc_get_ok & E)%bind_ok. revert a w' E.
    change (does F H H w1 (r ← ConcMem.reclaim id sc; mret (u64 (b + r))) (r ← ManagerMem.reclaim id sc; mret (u64 (b + r)))).
    eapply does_bind; [apply does_reclaim|]. intros. apply does_ret.
Qed.

Lemma table_at {A} (m : M World A) w a w1 k e :
  keeps same_table m → m w = (Ok a, w1) → subcontainers (w_ec w) !! k = e → subcontainers (w_ec w1) !! k = e.
Proof. intros Hm E <-. specialize (Hm w). rewrite E in Hm. unfold same_table in Hm. simpl in Hm. by rewrite Hm. Qed.
Lemma does_back {A} w k id q sc (f : loc → C A) m :
  subcontainers (w_ec w) !! k = Some (id, q) → last q = Some sc →
  does F H H w (f sc) m → does F H H w (ConcCpu.back k ≫= f) m.
Proof. intros Hk Hq Hf. eapply does_skip; [intros; by eapply runs_back|done]. Qed.
Lemma does_idle_one w now seq k id q :
  subcontainers (w_ec w) !! k = Some (id, q) →
  does F H H w (ConcCpu.idle_one now seq k) (ManagerCpu.idle_one now seq q).
Proof.
  intros Hk. unfold ConcCpu.idle_one, ManagerCpu.idle_one.
  destruct (last q) as [sc|] eqn:Hq; [|by intros a w' E]. apply does_value_r.
  eapply does_back; [done..|]. eapply does_bind; [apply does_own|]. intros b w1 (s & Hs & -> & ->)%sc_get_ok.
  apply does_if; intros _; [apply does_ret|]. eapply does_back; [done..|].
  eapply does_bind; [apply does_own|]. intros iq w1 (s' & _ & -> & ->)%sc_get_ok.
  apply does_if; intros _; [apply does_ret|]. eapply does_back; [done..|]. apply does_assoc_r.
  eapply does_bind; [apply does_syscall|]. intros r w1 E1. pose proof (table_at _ _ _ _ _ _ (table_syscall _ _ _) E1 Hk) as Hk1.
  eapply does_bind; [|intros; apply does_ret]. apply does_if; intros _; [apply does_ret|].
  eapply does_back; [done..|]. eapply does_bind; [apply does_own|]. intros [] w2 E2.
  pose proof (table_at _ _ _ _ _ _ (table_sc_do _ _) E2 Hk1) as Hk2.
  eapply does_bind; [apply does_incr_unallocated|]. intros [] w3 E3.
  assert (Hk3 : subcontainers (w_ec w3) !! k = Some (id, q)) by (eapply table_at; [|exact E3|exact Hk2]; by apply table_ec_do).
  eapply does_back; [done..|]. eapply does_bind; [apply does_own|]. intros [] w4 E4.
  pose proof (table_at _ _ _ _ _ _ (table_sc_do _ _) E4 Hk3) as Hk4.
  eapply does_back; [done..|]. eapply does_bind; [apply does_own|]. intros [] w5 _. apply does_decr_alloc.
Qed.
Lemma table_idle_one now seq q : keeps same_table (ManagerCpu.idle_one now seq q).
Proof.
  unfold ManagerCpu.idle_one, ManagerCpu.try_quota, ManagerCpu.book_give.
  repeat first [apply table_syscall | apply table_sc_do | by apply table_ec_do | apply keeps_ret; apply _
    | apply table_untouched, keeps_sc_get | apply table_untouched, keeps_defined
    | apply keeps_bind; [apply _| |intros] | match goal with |- keeps _ (if ?b then _ else _) => destruct b end].
Qed.
Lemma does_idle_pass w now seq :
  does F H H w (ConcCpu.check_for_idle_containers now seq) (ManagerCpu.check_for_idle_containers now seq).
Proof.
  unfold ConcCpu.check_for_idle_containers, ManagerCpu.check_for_idle_containers.
  apply does_walk; [intros; apply table_idle_one|]. intros b k [id q] w1 Hk. by apply (does_idle_one w1 now b k id q).
Qed.
End Passes.

(** ** Claims *)
Section Claims.
Context {ENV : Env} {ORDER : HashOrder} (inet_addr : string → Z).

(** The handlers, access by access, and what the other files say of them. *)
Inductive handler : ∀ {A}, C A → M Service A → Prop :=
| h_request now req res ip fd :
    handler (ConcManager.handle_req now req res ip fd) (on_w (r ← Manager.handle_req now req res ip fd; mret r.1))
| h_connection ip fd ins :
    handler (ConcManager.handle_client_reqs_tcp ip fd ins) (on_w (Server.handle_client_reqs_tcp ip fd ins ;; mret tt))
| h_datagram ip fd now dg g :
    handler (ConcManager.handle_client_reqs_udp ip fd now dg g)
      (on_w (Server.handle_client_reqs_udp ip fd now dg g ;; mret tt))
| h_app a : handler (ConcManager.ReportAppSpec a) (Deploy.ReportAppSpec a)
| h_pod pod : handler (ConcManager.ReportPodSpec inet_addr pod) (Deploy.ReportPodSpec inet_addr pod)
| h_delete dock : handler (ConcManager.DeletePod dock) (Deploy.DeletePod dock)
| h_new_pod sc fd :
    handler (ConcMem.determine_mem_limit_for_new_pod sc fd) (on_w (ManagerMem.determine_mem_limit_for_new_pod sc fd))
| h_idle now seq :
    handler (ConcCpu.check_for_idle_containers now seq) (on_w (ManagerCpu.check_for_idle_containers now seq))
| h_round n : handler (ConcMem.run_wait n ;; ConcMem.run_round) (on_w (ManagerMem.run n)).

Lemma handler_serves {A} (c : C A) m d : handler c m → serves ∅ [] [] d c m.
Proof.
  assert (service_free ∅) by (by split_and!).
  intros [now req res ip fd|ip fd ins|ip fd now dg g|a|pod|dock|sc fd|now seq|n];
    [apply serves_on_w, does_handle_req; done|by apply serves_on_w, does_tcp_loop|by apply serves_on_w, does_datagram|apply serves_app_spec|by apply serves_pod_spec|by apply serves_delete_pod| | |].
  - apply serves_on_w, does_new_pod.
  - apply serves_on_w, does_idle_pass.
  - apply serves_on_w, does_run_round.
Qed.

(** Whenever the one-step description of a handler (a request, a whole TCP
    connection, a datagram, an RPC of the deployment service, the thread of a new pod, an idle pass, a round of the
    periodic reclaim) returns a result, a thread that runs the handler access by
    access while no mutex is taken has a schedule that reaches the same result in
    the same state, releases every mutex it took and leaves all other threads
    where they were. *)
Theorem handlers_alone {A} (c : C A) (m : M Service A) (a : A) (d d' : Service) (cfg : config) (t : nat) (cat : bool)
    (κ : A → prog) (Hh : handler c m) (Hm : m d = (Ok a, d')) (Hat : at_ ∅ cfg t cat [] (c κ) d) :
  ∃ cfg', rtc cstep cfg cfg' ∧ at_ ∅ cfg' t cat [] (κ a) d' ∧ others_kept t cfg cfg'.
Proof. exact (handler_serves c m d Hh a d' Hm cfg t cat κ Hat). Qed.

(** ** One handler after the other *)

(** Programs whose handlers return one after the other, in their one-step
    descriptions, from [d] to [d']. *)
Inductive serial : list prog → Service → Service → Prop :=
| serial_nil d : serial [] d d
| serial_cons {A} (c : C A) m a d d1 d' ps :
    handler c m → m d = (Ok a, d1) → serial ps d1 d' → serial (c (λ _, Return 0) :: ps) d d'.

(** Nobody holds a mutex, and no thread of [ts] sleeps. *)
Record idle (ts : list nat) (c : config) (d : Service) : Prop := {
  id_live : c_dead c = None;
  id_up : c_up (c_st c) = true;
  id_svc : c_svc (c_st c) = d;
  id_locks : c_locks (c_st c) = ∅;
  id_awake : ∀ t, t ∈ ts → t ∉ c_asleep (c_st c);
  id_sleepers : ∀ u, u ∈ c_asleep (c_st c) → (u < length (threads c))%nat;
}.
Definition ready (c : config) (t : nat) (p : prog) : Prop := ∃ cat, threads c !! t = Some (Thr cat (Running p)).
Definition done_with (c : config) (t : nat) : Prop := ∃ cat, threads c !! t = Some (Thr cat (Finished (Ok 0))).

Lemma idle_at ts c d t cat p : idle ts c d → t ∈ ts → threads c !! t = Some (Thr cat (Running p)) → at_ ∅ c t cat [] p d.
Proof. intros [] ? ?. constructor; auto. Qed.
(** The last move of a thread. *)
Lemma runs_return c t cat d :
  at_ ∅ c t cat [] (Return 0) d →
  ∃ c', cstep c c' ∧ idle [] c' d ∧ done_with c' t ∧ others_kept t c c'.
Proof.
  intros [Hd Hu Ht Hs Hl Ha Hsl]. eexists. split; [exists (Run t 0); unfold exec; by rewrite Hd, Ht|]. split; [|split].
  - constructor; try done; simpl; [by intros ? ?%elem_of_nil|]. intros u Hin. rewrite length_insert. auto.
  - exists cat. apply list_lookup_insert_eq. by eapply lookup_lt_Some.
  - split; [|done]. intros u th Hne Hth. simpl. by rewrite list_lookup_insert_ne.
Qed.
Lemma run_one {A} (c : C A) m a d d1 cfg t ts : handler c m → m d = (Ok a, d1) → idle (t :: ts) cfg d →
  ready cfg t (c (λ _, Return 0)) →
  ∃ cfg', rtc cstep cfg cfg' ∧ idle ts cfg' d1 ∧ done_with cfg' t ∧ others_kept t cfg cfg'.
Proof.
  intros Hh Hm Hid [cat Ht]. assert (Hat : at_ ∅ cfg t cat [] (c (λ _, Return 0)) d) by (eapply idle_at; [done|by left|done]).
  destruct (handler_serves c m d Hh a d1 Hm cfg t cat _ Hat) as (c1 & R1 & At1 & O1).
  destruct (runs_return _ _ _ _ At1) as (c2 & R2 & Id2 & D2 & O2).
  pose proof (others_kept_trans _ _ _ _ O1 O2) as O. exists c2. split_and!; [by eapply rtc_r| |done|done].
  destruct Id2. constructor; try done. intros u Hu Hin. apply (id_awake _ _ _ Hid u); [by right|by apply O].
Qed.

(** C5: whenever handlers (requests, whole TCP connections, datagrams, RPCs of the
    deployment service, the threads of new pods, idle passes, rounds of the
    periodic reclaim) return one after the other in their one-step descriptions,
    threads that run them access by access while no mutex is taken have a
    schedule that ends in the same state, in which each has returned, no mutex is
    taken and all other threads are where they were. *)
Theorem handlers_in_turn (ps : list prog) (ts : list nat) (d d' : Service) (cfg : config)
    (Hser : serial ps d d') (Hid : idle ts cfg d) (Hnd : NoDup ts) (Hts : Forall2 (ready cfg) ts ps) :
  ∃ cfg', rtc cstep cfg cfg' ∧ idle [] cfg' d' ∧ Forall (done_with cfg') ts ∧
    ∀ u th, u ∉ ts → threads cfg !! u = Some th → threads cfg' !! u = Some th.
Proof.
  revert ts cfg Hid Hnd Hts. induction Hser as [d|A c m a d d1 d' ps Hh Hm Hser IH]; intros ts cfg Hid Hnd Hts.
  { inversion Hts; subst. by exists cfg. }
  inversion Hts as [|t ? ts' ? Hr Hrs]; subst. apply NoDup_cons in Hnd as [Hnt Hnd].
  destruct (run_one c m a d d1 cfg t ts' Hh Hm Hid Hr) as (c1 & R1 & Id1 & [cat D1] & [O1 _]).
  destruct (IH ts' c1 Id1 Hnd) as (c2 & R2 & Id2 & D2 & O2).
  { apply Forall2_same_length_lookup_2; [by eapply Forall2_length|]. intros i u p Hu Hp.
    destruct (Forall2_lookup_lr _ _ _ _ _ _ Hrs Hu Hp) as [cu Ht]. exists cu. apply O1; [|done].
    intros ->. by apply Hnt, (list_elem_of_lookup_2 _ i). }
  exists c2. split_and!; [by etrans|done| |].
  - constructor; [|done]. exists cat. by apply O2.
  - intros u th [Hne Hu]%not_elem_of_cons Hth. by apply O2, O1.
Qed.
End Claims.

End ConcAlone.
