(* ===== verification/ConcRaces.v ===== *)
(** * Schedules that go wrong

    What the missing locks let happen: runs of the handlers of [ConcCpu],
    [ConcMem] and [ConcManager] on the world of [Demo], each a schedule of
    accesses and the state it leads to, and one for every state in which a report
    meets a registration and a removal of its id. *)
From S2P Require Import Prelude OmNet Float64 Window LocalStats SubContainer Agents CpuG MemG.
From S2P Require Import ElasticContainer World Types Json CAdvisor ECAPI Demo ManagerCpu ManagerMem Manager Server Deploy.
From S2P Require Import Conc ConcApi ConcCpu ConcMem ConcManager ConcLedger ConcLocks ConcWaits ConcAlone.
Import SubContainer ElasticContainer Conc ConcApi ConcLedger.

Module ConcRaces.
Import Deploy.

(** ** Playing schedules *)

(** A schedule in which moves that are not possible are skipped; [None] when an
    update is not covered. *)
Fixpoint play (mvs : list move) (c : config) : option config :=
  match mvs with
  | [] => Some c
  | mv :: mvs =>
      match exec mv c with
      | None => play mvs c
      | Some c' => if covered_move mv c then play mvs c' else None
      end
  end.
Lemma play_covered mvs c c' : play mvs c = Some c' → rtc covered_step c c'.
Proof.
  revert c. induction mvs as [|mv mvs IH]; intros c; simpl; [by intros [= ->]|].
  destruct (exec mv c) as [c1|] eqn:E; [|apply IH]. destruct (covered_move mv c) eqn:Ec; [|done].
  intros H. eapply rtc_l; [by exists mv|by apply IH].
Qed.
(** Without the test. *)
Fixpoint play_any (mvs : list move) (c : config) : config :=
  match mvs with
  | [] => c
  | mv :: mvs => play_any mvs (match exec mv c with Some c' => c' | None => c end)
  end.
Lemma play_any_rtc mvs c : rtc cstep c (play_any mvs c).
Proof.
  revert c. induction mvs as [|mv mvs IH]; intros c; simpl; [done|].
  destruct (exec mv c) as [c1|] eqn:E; [|apply IH]. eapply rtc_l; [by exists mv|apply IH].
Qed.
Lemma play_one mv c : bool_decide (is_Some (exec mv c)) = true → exec mv c = Some (play_any [mv] c).
Proof. intros [c' E]%bool_decide_eq_true. simpl. by rewrite E. Qed.

(** [n] accesses of thread [t]; threads [0..k-1] in turn, [n] times. *)
Definition alone (t n : nat) : list move := replicate n (Run t 0).
Definition in_turn (k n : nat) : list move := concat (replicate n (map (λ t, Run t 0) (seq 0 k))).

Definition finished (th : thread) : bool :=
  match t_body th with Finished (Ok _) => true | _ => false end.
Lemma all_finished c : forallb finished (threads c) = true → all_returned c.
Proof.
  unfold all_returned. induction (threads c) as [|th ths IH]; simpl; [done|]. rewrite andb_true_iff. intros [H Hs].
  constructor; [|by apply IH]. unfold finished in H. destruct (t_body th) as [p|[v|f]]; try done. by exists v.
Qed.

(** Where a covered schedule leads. *)
Definition played (mvs : list move) (c : config) : config := default c (play mvs c).
Lemma played_covered mvs c : bool_decide (is_Some (play mvs c)) = true → rtc covered_step c (played mvs c).
Proof. intros [c' E]%bool_decide_eq_true. unfold played. rewrite E. by apply play_covered with mvs. Qed.

(** ** The world of the examples *)
#[local] Existing Instance Demo.willing.
#[local] Existing Instance Demo.listed.

Definition thr {A} (catches : bool) (c : C A) : thread := Thr catches (Running (c (λ _, Return 0))).
(** Two containers of one core each on one node, two cores are free. *)
Definition cid8 : ContainerId := ContainerId_of 8 Demo.node.
Definition half_free : cpu_g.cpu := cpu_g.Cpu 30000000 200000000 400000000 0 200000000.
Definition sc_with (cg : Z) (dock : string) : SubContainer :=
  set_mem_limit_in_pages 262144
    (set_docker_id dock (set_sc_inserted true (SubContainer_of_quota 1000000000 cg 0x0106a8c0 cg 100000000 0))).
Definition two_mem (free : Z) : mem_g.mem := mem_g.Mem 1048576 5000 free 524288.
Definition two (free : Z) : World :=
  mkWorld
    (mkEC 1 {[ key_of Demo.cid := (Demo.cid, [1%positive]); key_of cid8 := (cid8, [2%positive]) ]}
       {[ key_of Demo.cid := (Demo.cid, Some Demo.agent); key_of cid8 := (cid8, Some Demo.agent) ]}
       200000000 (two_mem free) half_free)
    {[ 1%positive := sc_with 7 "d7"; 2%positive := sc_with 8 "d8" ]} {[ Demo.node := Demo.agent ]} 5 0 [].
Definition from (w : World) (ths : list thread) : config :=
  Cfg ths
    (mkC (mkService w {[ key_of Demo.cid := (Demo.cid, ["d7"]); key_of cid8 := (cid8, ["d8"]) ]}
            {[ "d7" := Demo.cid; "d8" := cid8 ]}) true ∅ []) None 0.
Definition world_of (c : config) : World := c_w (c_st c).
Definition balance_of (c : config) : Z := cpu_g.imbalance (pool (world_of c)).
Definition pages_of (c : config) : Z := mem_g.tracked (_mem (w_ec (world_of c))).

(** The usage reports of container [cg] over one connection, with the throttle
    counter of each. *)
Definition reporting (cg : Z) (throttled : list Z) : C unit :=
  cfold (λ _ n, ConcCpu.handle_cpu_usage_report 1000000000 (Msg Demo.node cg 0 100000000 n 0 1 0)
    (Demo.report 0 0 0) ;; mret tt) tt throttled.

(** The registration of a container, reports and removals of pods, a memory
    request. [inet] stands for the C library's [inet_addr]. *)
Definition registering (cg : Z) : C (Z * msg_t) :=
  ConcManager.handle_add_cgroup_to_ec 1000000000 (Msg Demo.node cg 2 50000000 0 0 0 0) (Demo.report 0 0 0) 0x0106a8c0 cg.
Definition inet (s : string) : Z := if bool_decide (s = "192.168.6.1") then 0x0106a8c0 else 4294967295.
Definition pod_report (cg : Z) (dock ip : string) : C (Status * PodSpecReply) :=
  ConcManager.ReportPodSpec inet (PodSpec dock cg ip).
Definition asking (cg : Z) : C (Z * msg_t) :=
  ConcMem.handle_mem_req (Msg Demo.node cg 1 262144 0 0 0 0) (Demo.report 0 0 0) cg.
(** The limits of all container objects. *)
Definition limits_of (c : config) : Z :=
  zsum (λ kv, SubContainer.get_mem_limit_in_pages kv.2) (map_to_list (w_heap (world_of c))).

(** ** A run that goes well

    A connection (a report and a memory request) and an idle pass in turn, then
    the removal of the other container. *)
Definition connection (cg : Z) (ms : list msg_t) : C unit :=
  ConcManager.handle_client_reqs_tcp 0x0106a8c0 cg (map (λ m, Server.In 1000000000 (msg_to_bytes 0 0 m) 0 true) ms).
Definition calm_start : config :=
  from (two 262144)
    [thr false (connection 7 [Msg Demo.node 7 0 100000000 5 0 1 0; Msg Demo.node 7 1 262144 0 0 0 0]);
     thr false (ConcManager.idle_thread [9000000000000]);
     thr true (ConcManager.serve_call inet (ConcManager.Del "d8"))].
Definition calm : config := played (in_turn 2 200 ++ alone 2 100) calm_start.
Lemma calm_at_work : at_work inet calm_start.
Proof.
  repeat constructor; (eexists; split; [reflexivity|]).
  - apply (w_tcp inet 0x0106a8c0 7 _ (λ _, Return 0)). by exists 0.
  - apply w_idle. by exists 0.
  - apply w_del. by exists 0.
Qed.
Lemma every_schedule_conserves_witness :
  balance_of calm - balance_of calm_start = c_repaired calm - c_repaired calm_start ∧
  pages_of calm = pages_of calm_start ∧ pages_of calm = 786432.
Proof.
  destruct (every_schedule_conserves inet calm_start calm calm_at_work) as [H1 H2].
  - apply played_covered. by vm_compute.
  - apply all_finished. by vm_compute.
  - split; [exact H1|]. split; [exact H2|]. by vm_compute.
Defined.

(** A manager that serves two connections, a call and an idle pass, with its
    threads in turn. *)
Definition booted : config :=
  ConcLocks.boot inet (mkService (two 262144) ∅ ∅) 1
    (ConcManager.Inputs
       [(0x0106a8c0, 3, [Server.In 5 (msg_to_bytes 0 0 (Msg Demo.node 9 2 50000000 0 0 0 0)) 0 true])]
       (0, 0, []) [ConcManager.Pod (PodSpec "d9" 9 "192.168.6.1")] [9000000000000] 1 0).
Definition busy : config := play_any (alone 0 5 ++ in_turn 8 18) booted.
Lemma locks_well_used_witness :
  (∀ t, ¬ tc (ConcLocks.waits_on busy) t t) ∧ c_dead busy = None ∧
  c_locks (c_st busy) !! cv_mtx = Some 7%nat ∧ c_locks (c_st busy) !! cv_mtx_dock = Some 7%nat.
Proof.
  destruct (ConcLocks.locks_well_used inet (mkService (two 262144) ∅ ∅) 1 _ busy (play_any_rtc _ _)) as (_ & _ & H).
  split; [exact H|]. split_and!; by vm_compute.
Defined.

(** The matching thread has just taken [cv_mtx], for an agent that is known. *)
Definition matching : config := play_any (alone 0 5 ++ in_turn 7 40 ++ alone 7 9) booted.
Lemma short_sections_end_witness :
  c_locks (c_st matching) !! cv_mtx = Some 7%nat ∧
  (∃ mvs1 mvs2 c1, alone 7 8 = mvs1 ++ mvs2 ∧ exec_all mvs1 matching = Some c1 ∧ c_locks (c_st c1) !! cv_mtx ≠ Some 7%nat) ∧
  (∃ u c', exec (Run u 0) matching = Some c').
Proof.
  assert (Hheld : c_locks (c_st matching) !! cv_mtx = Some 7%nat) by (by vm_compute).
  destruct (ConcLocks.short_sections_end inet (mkService (two 262144) ∅ ∅) 1 _ matching cv_mtx 7
    (play_any_rtc _ _) ltac:(done) Hheld) as [Hends Hgoes].
  split; [exact Hheld|]. split.
  - assert (∃ c', exec_all (alone 7 8) matching = Some c') as (c' & Hc').
    { apply is_Some_alt. by vm_compute. }
    exact (Hends (alone 7 8) c' Hc' (proj1 (Nat.ltb_lt 7 8) eq_refl)).
  - destruct Hgoes as [[[=] _]|[[c' H]|(u & c' & _ & _ & H)]]; [by vm_compute|by exists 7%nat, c'|by exists u, c'].
Defined.

(** Two connections with a memory request each: one has taken [memlock], the other
    waits for it. *)
Definition requests : config :=
  ConcLocks.boot inet (mkService (two 262144) ∅ ∅) 1
    (ConcManager.Inputs
       [(0x0106a8c0, 3, [Server.In 5 (msg_to_bytes 0 0 (Msg Demo.node 7 1 262144 0 0 0 0)) 0 true]);
        (0x0106a8c0, 4, [Server.In 5 (msg_to_bytes 0 0 (Msg Demo.node 8 1 262144 0 0 0 0)) 0 true])]
       (0, 0, []) [] [] 0 0).
Definition queueing : config := play_any (alone 0 6 ++ alone 1 2 ++ alone 6 1) requests.
(** The mutex a thread is about to take. *)
Definition at_lock (c : config) (t : nat) : option mutex :=
  match threads c !! t with Some (Thr _ (Running (Lock l _))) => Some l | _ => None end.
Lemma at_lock_thread c t l : at_lock c t = Some l → ∃ cat k, threads c !! t = Some (Thr cat (Running (Lock l k))).
Proof. unfold at_lock. destruct (threads c !! t) as [[cat [[]|]]|]; try done. intros [= ->]. by eexists _, _. Qed.
Lemma no_deadlock_witness :
  at_lock queueing 7 = Some memlock ∧ c_locks (c_st queueing) !! memlock = Some 6%nat ∧
  ∃ v, rtc (ConcWaits.blocked_by queueing) 6%nat v ∧ (ConcWaits.advances queueing v ∨ ConcWaits.at_agent queueing v).
Proof.
  assert (Hw : at_lock queueing 7 = Some memlock) by (by vm_compute).
  assert (Hh : c_locks (c_st queueing) !! memlock = Some 6%nat) by (by vm_compute).
  split; [exact Hw|]. split; [exact Hh|]. destruct (at_lock_thread _ _ _ Hw) as (cat & k & Ht).
  destruct (ConcWaits.no_deadlock inet (mkService (two 262144) ∅ ∅) 1 _ queueing 7 6 cat memlock k (play_any_rtc _ _)
    ltac:(by vm_compute) Ht Hh) as [[[=] _]|(v & Hr & [Hv|[_ Hv]])]; exists v; auto.
Defined.

(** The removal of a pod, with a second one waiting. *)
Definition removal : config := from (two 0) [thr true (ConcManager.DeletePod "d8"); thr true (ConcManager.DeletePod "d7")].
Definition removed : Service := (Deploy.DeletePod "d8" (c_svc (c_st removal))).2.
Lemma handlers_alone_witness :
  ∃ c', rtc cstep removal c' ∧ c_svc (c_st c') = removed ∧ c_locks (c_st c') = ∅ ∧
    threads c' !! 1%nat = threads removal !! 1%nat ∧ dockerToSubContainer removed = {[ "d7" := Demo.cid ]}.
Proof.
  destruct (ConcAlone.handlers_alone inet (ConcManager.DeletePod "d8") (Deploy.DeletePod "d8")
    (OK, DelReply "d8" "thx") (c_svc (c_st removal)) removed removal 0 true (λ _, Return 0)
    (ConcAlone.h_delete inet "d8")) as (c' & Hrun & Hat & Hothers & _).
  - by vm_compute.
  - constructor; try done; simpl; [apply not_elem_of_nil|]. by intros u ?%elem_of_nil.
  - exists c'. pose proof (ConcAlone.at_svc _ _ _ _ _ _ _ Hat) as Hs. pose proof (ConcAlone.at_locks _ _ _ _ _ _ _ Hat) as Hl.
    split_and!; [exact Hrun|exact Hs|exact Hl|by apply Hothers|by vm_compute].
Defined.

(** A connection with a report and a memory request, then the removal of the
    other container. *)
Definition session : list Server.input :=
  map (λ m, Server.In 1000000000 (msg_to_bytes 0 0 m) 0 true)
    [Msg Demo.node 7 0 100000000 5 0 1 0; Msg Demo.node 7 1 262144 0 0 0 0].
Definition turns : config :=
  from (two 262144) [thr false (ConcManager.handle_client_reqs_tcp 0x0106a8c0 7 session); thr true (ConcManager.DeletePod "d8")].
Definition served : Service :=
  with_w (Server.handle_client_reqs_tcp 0x0106a8c0 7 session (d_w (c_svc (c_st turns)))).2 (c_svc (c_st turns)).
Definition cleared : Service := (Deploy.DeletePod "d8" served).2.
Lemma serial_turns :
  ConcAlone.serial inet
    [ConcManager.handle_client_reqs_tcp 0x0106a8c0 7 session (λ _, Return 0); ConcManager.DeletePod "d8" (λ _, Return 0)]
    (c_svc (c_st turns)) cleared.
Proof.
  refine (ConcAlone.serial_cons inet (ConcManager.handle_client_reqs_tcp 0x0106a8c0 7 session) _ tt _ served _ _
    (ConcAlone.h_connection inet _ _ _) _ _); [by vm_compute|].
  refine (ConcAlone.serial_cons inet (ConcManager.DeletePod "d8") _ (OK, DelReply "d8" "thx") _ cleared _ _
    (ConcAlone.h_delete inet _) _ (ConcAlone.serial_nil inet _)); by vm_compute.
Qed.
Lemma handlers_in_turn_witness :
  ∃ c', rtc cstep turns c' ∧ c_svc (c_st c') = cleared ∧ ConcAlone.done_with c' 0 ∧ ConcAlone.done_with c' 1.
Proof.
  destruct (ConcAlone.handlers_in_turn inet _ [0%nat; 1%nat] _ _ turns serial_turns) as (c' & R & Id & D & _).
  - constructor; try done; simpl; [intros t _; apply not_elem_of_nil|by intros u ?%elem_of_nil].
  - repeat constructor; set_solver.
  - repeat constructor; by eexists.
  - exists c'. rewrite Forall_forall in D.
    split_and!; [exact R|exact (ConcAlone.id_svc _ _ _ Id)|apply D; left|apply D; right; left].
Defined.

(** ** Runtime *)

(** While one report is between taking runtime from the pool and adding it to
    the allocation, another report finds it missing and puts it back into the
    pool: 50 ms appear out of nothing, although every update is covered. *)
Definition leak_start : config := from (two 0) [thr false (reporting 7 [5]); thr false (reporting 8 [0])].
Theorem leak_correction_creates_runtime :
  ∃ c', rtc covered_step leak_start c' ∧ all_returned c' ∧ balance_of leak_start = 0 ∧
    balance_of c' = 50000000 ∧ c_repaired c' = 50000000.
Proof.
  exists (played (alone 0 31 ++ alone 1 80 ++ alone 0 80) leak_start).
  split; [by apply played_covered; vm_compute|]. split; [by apply all_finished; vm_compute|].
  split_and!; by vm_compute.
Qed.

(** Two reports that read the same free runtime both take it: 500 ms are
    allocated of 400 ms. *)
Definition overdraw_start : config :=
  from (two 0) [thr false (reporting 7 [0; 0; 0; 1]); thr false (reporting 8 [0; 0; 0; 1])].
Theorem concurrent_reports_overdraw :
  ∃ c', rtc cstep overdraw_start c' ∧ all_returned c' ∧ balance_of overdraw_start = 0 ∧ balance_of c' = 100000000 ∧
    cpu_g.alloc_rt (pool (world_of c')) = 500000000 ∧ cpu_g.total_cpu (pool (world_of c')) = 400000000.
Proof.
  exists (play_any (in_turn 2 200) overdraw_start).
  split; [apply play_any_rtc|]. split; [by apply all_finished; vm_compute|]. split_and!; by vm_compute.
Qed.

(** A registration that asks for more than is free reads the free runtime and then
    sets it to 0, in two accesses ([ECAPI.cpp], 139-141): runtime that the removal
    of a pod returns between the two is lost, 100 ms here. No update wraps around
    or saturates; the one that is not covered is the registration's, whose pool
    no longer holds the 200 ms it has read. *)
Definition draining (c : config) (t : nat) : option Z :=
  match threads c !! t with Some (Thr _ (Running (Count (Drain seen) _))) => Some seen | _ => None end.
Definition drain_start : config :=
  from (two 0)
    [thr false (ConcManager.handle_add_cgroup_to_ec 1000000000 (Msg Demo.node 9 2 300000000 0 0 0 0) (Demo.report 0 0 0)
       0x0106a8c0 9);
     thr true (ConcManager.DeletePod "d8")].
Definition drained : config := played (alone 0 4 ++ alone 1 100) drain_start.
Theorem registration_drops_returned_runtime :
  rtc covered_step drain_start drained ∧ balance_of drained = 0 ∧ finished <$> threads drained !! 1%nat = Some true ∧
  draining drained 0 = Some 200000000 ∧ cpu_g.unallocated_rt (pool (world_of drained)) = 300000000 ∧
  ∃ c1 c', exec (Run 0 0) drained = Some c1 ∧ rtc covered_step c1 c' ∧ finished <$> threads c' !! 0%nat = Some true ∧
    balance_of c' = -100000000 ∧ c_repaired c' = 0.
Proof.
  split; [by apply played_covered; vm_compute|]. split_and!; [by vm_compute..|].
  exists (play_any [Run 0 0] drained), (played (alone 0 100) (play_any [Run 0 0] drained)).
  split; [by apply play_one; vm_compute|]. split; [by apply played_covered; vm_compute|]. split_and!; by vm_compute.
Qed.

(** ** Memory *)

(** A new pod and a memory request without a common lock hand out the same
    pages. *)
Definition overcommit_start : config :=
  from (two 262144) [thr false (asking 7); thr false (ConcMem.determine_mem_limit_for_new_pod 2 8)].
Theorem new_pod_overcommits :
  ∃ c', rtc cstep overcommit_start c' ∧ all_returned c' ∧ pages_of overcommit_start = 786432 ∧ pages_of c' = 791432.
Proof.
  exists (play_any (alone 1 5 ++ alone 0 100 ++ alone 1 100) overcommit_start).
  split; [apply play_any_rtc|]. split; [by apply all_finished; vm_compute|]. split; by vm_compute.
Qed.

(** A memory request and the periodic reclaim both shrink the same container and
    both book the pages it gave up once. *)
Definition reclaim_start : config := from (two 0) [thr false (asking 7); thr false (ConcManager.run 2 1)].
Theorem pages_reclaimed_twice :
  ∃ c', rtc cstep reclaim_start c' ∧ all_returned c' ∧
    limits_of reclaim_start = mem_g.allocated_memory_in_pages (_mem (w_ec (world_of reclaim_start))) ∧
    mem_g.allocated_memory_in_pages (_mem (w_ec (world_of c'))) = 5000 ∧ limits_of c' = 296328.
Proof.
  exists (play_any (alone 0 11 ++ alone 2 2 ++ alone 1 100 ++ in_turn 3 100) reclaim_start).
  split; [apply play_any_rtc|]. split; [by apply all_finished; vm_compute|]. split_and!; by vm_compute.
Qed.

(** ** Objects *)

Section Dangling.
Context {ENV : Env} {ORDER : HashOrder}.

(** Removing a pod whose id has a second container deletes the first one. *)
Lemma delete_frees dock d sc_id k p p2 q sc :
  dockerToSubContainer d !! dock = Some sc_id → SubContainer.cgroup_id sc_id ≠ 0 →
  subcontainers (w_ec (d_w d)) !! key_of sc_id = Some (k, p :: p2 :: q) → w_heap (d_w d) !! p = Some sc →
  ∃ a d', Deploy.DeletePod dock d = (Ok a, d') ∧ w_heap (d_w d') !! p = None.
Proof.
  intros Hd Hcg Hq Hs.
  enough (Hwp : wp (Deploy.DeletePod dock) (λ _ d', w_heap (d_w d') !! p = None) never d)
    by (apply wp_never_inv in Hwp as (a & d' & ? & ?); by exists a, d').
  set (w := d_w d) in *.
  assert (Hfront : ElasticContainer.get_subcontainer_front sc_id (w_ec w) = Ok p)
    by (unfold ElasticContainer.get_subcontainer_front; by rewrite Hq).
  unfold Deploy.DeletePod. ww.
  assert (getScIdFromDockerId dock d = sc_id) as -> by (unfold getScIdFromDockerId; by rewrite Hd).
  rewrite (proj2 (Z.eqb_neq _ _) Hcg). ww. rewrite wp_on_w. rewrite wp_bind. unfold ec_find, wp at 1. fold w.
  rewrite Hfront. erewrite wp_sc_get by exact Hs. rewrite wp_bind, wp_on_w, wp_bind. unfold ec_find, wp at 1.
  change (d_w (with_w w d)) with w. rewrite Hfront. erewrite wp_sc_get by exact Hs.
  rewrite wp_bind, wp_on_w. change (d_w (with_w w (with_w w d))) with w. rewrite wp_deleteFromScAcMap.
  rewrite wp_bind, wp_on_w. unfold deleteFromSubcontainersMap. rewrite wp_bind. unfold ec_run, wp at 1.
  cbn [d_w with_w w_ec upd_ec]. unfold ec_delete_from_subcontainers_map.
  cbn [subcontainers with_sc_ac_map]. rewrite Hq. change (1 <? length (p :: p2 :: q))%nat with true. cbv iota beta. cbn [head].
  rewrite wp_bind. unfold free_sc. rewrite wp_bind. erewrite wp_load by exact Hs. ww.
  rewrite wp_deleteFromDeployedPodsMap. ww. erewrite wp_deleteFromDockerIdScMap by exact Hd.
  ww. rewrite wp_on_w, wp_return_resources. ww. simpl. apply lookup_delete_eq.
Qed.

(** A registration under an id that has the containers [q] queues a new one
    behind them. *)
Lemma register_queues now req res ip fd w ac ac' k q p sc :
  Inv w → ECAPI.fits (pool w) → msg_wf req → req_type req = REQ_INIT →
  AgentClientDB.get_agent_client_by_ip (ip4_addr.from_net ip) (w_acdb w) = Some ac →
  Manager.client_of (Manager.new_id req ip) ac w = Some ac' → timely (AgentClient.get_agent_ip ac') →
  subcontainers (w_ec w) !! key_of (Manager.new_id req ip) = Some (k, q) → w_heap w !! p = Some sc →
  ∃ a w', (r ← Manager.handle_req now req res ip fd; mret r.1) w = (Ok a, w') ∧
    subcontainers (w_ec w') !! key_of (Manager.new_id req ip) = Some (k, q ++ [ECAPI.fresh_sc w]) ∧
    w_heap w' !! p = Some sc.
Proof.
  intros HI Hf Hmsg Htype Hac Hcl Ht Hq Hs.
  pose proof (Manager.wp_add_cgroup now req res ip fd w ac ac' HI Hf Hmsg Hac Hcl Ht) as Hwp. cbv zeta in Hwp.
  apply wp_never_inv in Hwp as (a & w' & Hrun & -> & Hw'). eexists _, w'. split; [|split].
  - unfold Manager.handle_req. rewrite Htype. simpl. unfold mbind, M_bind. by rewrite Hrun.
  - assert (subcontainers (w_ec w') = subcontainers (w_ec (Manager.enrolled now req ip fd ac w))) as ->
      by (rewrite Hw'; by destruct (_ <=? _)).
    unfold Manager.enrolled, Manager.joined, upd_sc, upd_heap, upd_ec; cbn [w_ec].
    rewrite (proj1 (Manager.add_to_sc_ac_map_frame _ _ _)). unfold ECAPI.registered, upd_ec; cbn [w_ec].
    rewrite (proj1 (ECAPI.update_fair_cpu_share_frame _)). unfold ElasticContainer.insert_sc.
    change (c_id (SubContainer_of_quota _ _ _ _ _ _)) with (Manager.new_id req ip). simpl. rewrite Hq. simpl.
    apply lookup_insert_eq.
  - assert (w_heap w' = w_heap (Manager.enrolled now req ip fd ac w)) as -> by (rewrite Hw'; by destruct (_ <=? _)).
    assert (p ≠ ECAPI.fresh_sc w).
    { intros ->. apply (is_fresh (dom (w_heap w))). apply elem_of_dom. by exists sc. }
    simpl. by rewrite !lookup_insert_ne.
Qed.

(** What a report does first: it looks its container up, and then asks it when it
    was last seen. *)
Lemma report_starts now req res κ : req_type req = REQ_CPU →
  ∃ k, ConcCpu.handle_cpu_usage_report now req res κ =
    Step true (on_w (ec_find (get_sc_for_update_back (ContainerId_of (Types.cgroup_id req) (client_ip req)))))
      (λ sc, Step false (on_w (sc_get sc (check_if_idle now))) (k sc)).
Proof. intros E. unfold ConcCpu.handle_cpu_usage_report. rewrite E. eexists. reflexivity. Qed.

(** C40: in every state in which the books balance, no mutex is taken, and a report
    of a container [p], the only one of its id, a registration under the same id
    that finds its agent (as in [Manager.add_cgroup_conserves]) and the removal of
    that id's known pod are about to run, there is a schedule in which the report
    looks [p] up, then the registration and the removal run to their end, and
    [p] has been deleted; the next access of the report, which reads when [p] was
    last seen, goes through the dangling pointer, and the process is undefined
    from there. *)
Theorem report_uses_deleted_container (inet_addr : string → Z) (c : config) (d : Service) (t u v : nat)
    (now now' : Z) (req res ireq ires : msg_t) (ip fd : Z) (dock : string) (sc_id k : ContainerId) (p : loc)
    (sc : SubContainer) (ac ac' : AgentClient.AgentClient) (cat : bool) (κ : Z * msg_t → prog)
    (Hne : t ≠ u ∧ t ≠ v ∧ u ≠ v) (Hidle : ConcAlone.idle [u; v] c d)
    (Hreport : threads c !! t = Some (Thr cat (Running (ConcCpu.handle_cpu_usage_report now req res κ))))
    (Hregister : ConcAlone.ready c u (ConcManager.handle_req now' ireq ires ip fd (λ _, Return 0)))
    (Hremove : ConcAlone.ready c v (ConcManager.DeletePod dock (λ _, Return 0)))
    (Hcpu : req_type req = REQ_CPU) (Hinit : req_type ireq = REQ_INIT)
    (Hsame : key_of (ContainerId_of (Types.cgroup_id req) (client_ip req)) = key_of sc_id ∧
             key_of (Manager.new_id ireq ip) = key_of sc_id)
    (Hdock : dockerToSubContainer d !! dock = Some sc_id) (Hcg : SubContainer.cgroup_id sc_id ≠ 0)
    (Honly : subcontainers (w_ec (d_w d)) !! key_of sc_id = Some (k, [p])) (Hsc : w_heap (d_w d) !! p = Some sc)
    (HI : Inv (d_w d)) (Hfits : ECAPI.fits (pool (d_w d))) (Hmsg : msg_wf ireq)
    (Hac : AgentClientDB.get_agent_client_by_ip (ip4_addr.from_net ip) (w_acdb (d_w d)) = Some ac)
    (Hcl : Manager.client_of (Manager.new_id ireq ip) ac (d_w d) = Some ac')
    (Ht : timely (AgentClient.get_agent_ip ac')) :
  ∃ c1 c2 c' rest, exec (Run t 0) c = Some c1 ∧ rtc cstep c1 c2 ∧
    ConcAlone.done_with c2 u ∧ ConcAlone.done_with c2 v ∧ c_dead c2 = None ∧
    threads c2 !! t = Some (Thr cat (Running (Step false (on_w (sc_get p (check_if_idle now))) rest))) ∧
    w_heap (world_of c2) !! p = None ∧
    exec (Run t 0) c2 = Some c' ∧ c_dead c' = Some Undef.
Proof.
  destruct Hne as (Htu & Htv & Huv). destruct Hsame as [Hk1 Hk2]. destruct (report_starts now req res κ Hcpu) as [rest Er].
  rewrite Er in Hreport. pose proof Hidle as [Hlive Hup Hsvc Hlocks Hawake Hsl].
  assert (Hback : get_sc_for_update_back (ContainerId_of (Types.cgroup_id req) (client_ip req)) (w_ec (d_w d)) = Ok p)
    by (unfold get_sc_for_update_back; by rewrite Hk1, Honly).
  set (th1 := Thr cat (Running (Step false (on_w (sc_get p (check_if_idle now))) (rest p)))).
  set (c1 := Cfg (<[t := th1]> (threads c)) (c_st c) None (c_repaired c)).
  assert (E1 : exec (Run t 0) c = Some c1).
  { unfold exec. rewrite Hlive, Hreport. simpl. rewrite Hup. simpl. rewrite Hsvc. unfold on_w, ec_find. rewrite Hback.
    unfold c1, set_body, set_st; simpl. rewrite Hlive. do 2 f_equal. destruct (c_st c); simpl in *. subst. by destruct d. }
  assert (Hid1 : ConcAlone.idle [u; v] c1 d) by (constructor; try done; simpl; by rewrite length_insert).
  assert (Hr1 : ∀ x q, t ≠ x → ConcAlone.ready c x q → ConcAlone.ready c1 x q).
  { intros x q Hx [cx Hx']. exists cx. simpl. by rewrite list_lookup_insert_ne. }
  assert (Ht1 : threads c1 !! t = Some th1) by (apply list_lookup_insert_eq; by eapply lookup_lt_Some).
  rewrite <-Hk2 in Honly.
  destruct (register_queues now' ireq ires ip fd (d_w d) ac ac' k [p] p sc) as (a & w' & Hreg & Hq & Hsc'); [done..|].
  set (d1 := with_w w' d).
  destruct (ConcAlone.run_one inet_addr _ _ a d d1 c1 u [v] (ConcAlone.h_request inet_addr now' ireq ires ip fd))
    as (c2 & R2 & Id2 & [cu D2] & O2 & _); [unfold on_w; by rewrite Hreg|done|by apply Hr1|].
  rewrite Hk2 in Hq.
  destruct (delete_frees dock d1 sc_id k p (ECAPI.fresh_sc (d_w d)) [] sc) as (b & d2 & Hdel & Hgone); [done..|].
  destruct (ConcAlone.run_one inet_addr _ _ b d1 d2 c2 v [] (ConcAlone.h_delete inet_addr dock))
    as (c3 & R3 & Id3 & D3 & O3 & _); [done..| |].
  { destruct (Hr1 v _ Htv Hremove) as [cv Hv]. exists cv. by apply O2. }
  assert (Ht3 : threads c3 !! t = Some th1) by (by apply O3, O2).
  destruct Id3 as [Hlive3 _ Hsvc3 _ _ _]. subst d2. eexists c1, c3, _, (rest p). split_and!.
  - done.
  - by etrans.
  - exists cu. by apply O3.
  - done.
  - done.
  - done.
  - done.
  - unfold exec. rewrite Hlive3, Ht3. simpl. unfold on_w, sc_get, load, mbind, M_bind. by rewrite Hgone.
  - done.
Qed.
End Dangling.

(** A report, the registration of a second container with the same id, and the
    removal of the first one. *)
Definition uaf_start : config :=
  Cfg [thr false (ConcCpu.handle_cpu_usage_report 1000000000 (Demo.report 200000000 0 0) (Demo.report 0 0 0));
       thr false (ConcManager.handle_req 1000000000 (Manager.init_msg 7 50000000) (Demo.report 0 0 0) 0x0106a8c0 7);
       thr true (ConcManager.DeletePod "d7")]
    (mkC Deploy.d0 true ∅ []) None 0.
Lemma report_uses_deleted_container_witness :
  ∃ c1 c2 c', exec (Run 0 0) uaf_start = Some c1 ∧ rtc cstep c1 c2 ∧ w_heap (world_of c2) !! 1%positive = None ∧
    exec (Run 0 0) c2 = Some c' ∧ c_dead c' = Some Undef.
Proof.
  destruct (report_uses_deleted_container inet uaf_start Deploy.d0 0 1 2 1000000000 1000000000
    (Demo.report 200000000 0 0) (Demo.report 0 0 0) (Manager.init_msg 7 50000000) (Demo.report 0 0 0) 0x0106a8c0 7 "d7"
    Demo.cid Demo.cid 1 (Demo.sc 200000000) Demo.agent Demo.agent false (λ _, Return 0))
    as (c1 & c2 & c' & rest & H1 & H2 & _ & _ & _ & _ & H3 & H4 & H5).
  - done.
  - constructor; try done; simpl; [intros ? _; apply not_elem_of_nil|by intros ? ?%elem_of_nil].
  - reflexivity.
  - by exists false.
  - by exists true.
  - by vm_compute.
  - by vm_compute.
  - by vm_compute.
  - by vm_compute.
  - by vm_compute.
  - by vm_compute.
  - by vm_compute.
  - apply Demo.world_inv; Manager.concrete.
  - Manager.concrete.
  - Manager.concrete.
  - by vm_compute.
  - by vm_compute.
  - intros tr rq. by exists 0.
  - exists c1, c2, c'. split_and!; assumption.
Defined.

(** The idle pass walks over the table without a lock: the queue of an entry
    that is removed during the pass has been deleted. *)
Definition idle_start : config :=
  from (two 0) [thr false (ConcManager.idle_thread [9000000000000]); thr true (ConcManager.DeletePod "d7");
                thr true (ConcManager.DeletePod "d8")].
Theorem idle_pass_uses_deleted_queue : ∃ c', rtc cstep idle_start c' ∧ c_dead c' = Some Undef.
Proof.
  exists (play_any (alone 0 4 ++ alone 1 100 ++ alone 2 100 ++ alone 0 1) idle_start).
  split; [apply play_any_rtc|by vm_compute].
Qed.

(** A registration that makes the table grow while an idle pass walks over it
    invalidates the iterator of the pass. *)
Definition growing : HashOrder := {|
  iter A m := map_to_list m; iter_perm A m := Permutation_refl _; order A m := (map_to_list m).*1;
  order_iter A m := list_order m; rehashed A m m' := (size m <? size m')%nat; rehashed_same A m := Nat.ltb_irrefl _;
|}.
Definition rehash_start : config :=
  from (two 0) [thr false (ConcManager.idle_thread (ORDER := growing) [1000000000]); thr false (registering 9)].
Theorem idle_pass_uses_invalid_iterator : ∃ c', rtc cstep rehash_start c' ∧ c_dead c' = Some Undef.
Proof.
  exists (play_any (alone 0 4 ++ alone 1 100 ++ alone 0 1) rehash_start). split; [apply play_any_rtc|by vm_compute].
Qed.

(** A connection that is accepted before [create_ec] has run dereferences the
    uninitialised [_ec]. *)
Definition early_start : config :=
  Cfg [thr false (ConcManager.start inet 1
        (ConcManager.Inputs [(0x0106a8c0, 3, [Server.In 5 (msg_to_bytes 0 0 (Demo.report 1 0 0)) 0 true])]
           (0, 0, []) [] [] 0 0))]
    (mkC (mkService (two 0) ∅ ∅) false ∅ []) None 0.
Theorem early_request_undefined : ∃ c', rtc cstep early_start c' ∧ c_dead c' = Some Undef.
Proof.
  exists (play_any (alone 0 1 ++ alone 1 1 ++ alone 2 10) early_start). split; [apply play_any_rtc|by vm_compute].
Qed.

(** ** Waiting *)

(** Two pod reports wait for their containers; the registration of the second
    one notifies one waiter, and that may be the first, which goes back to
    sleep: the report whose container is there sleeps on, and of the threads that
    are left none can move but the one that spins until the report is through. *)
Definition lost_start : config :=
  from (two 0) [thr true (pod_report 9 "d9" "192.168.6.1"); thr true (pod_report 10 "d10" "192.168.6.1");
                thr false (registering 10)].
(** The next access of thread [t] waits for a flag. *)
Definition spins (t : nat) (c : config) : bool :=
  match threads c !! t with
  | Some (Thr _ (Running (Step _ m _))) =>
      match m (c_svc (c_st c)) with (Fail Blocked, _) => true | _ => false end
  | _ => false
  end.
Definition lost : config :=
  play_any (alone 0 100 ++ alone 1 100 ++ alone 2 100 ++ alone 0 100 ++ alone 1 100 ++ alone 3 100) lost_start.
Theorem wakeup_lost :
  rtc cstep lost_start lost ∧ c_dead lost = None ∧ 1%nat ∈ c_asleep (c_st lost) ∧
  ConcManager.agent_known (ContainerId_of 10 Demo.node) (c_svc (c_st lost)) = true ∧
  ∀ t pick, exec (Run t pick) lost = None ∨ spins t lost = true.
Proof.
  split; [apply play_any_rtc|]. split; [by vm_compute|]. split; [apply (bool_decide_unpack _); by vm_compute|].
  split; [by vm_compute|]. intros t pick. destruct t as [|[|[|[|t]]]]; [left|left|left|right|left]; vm_compute; reflexivity.
Qed.

(** A malformed node address throws while [dep_pod_lock] is held (with the log
    level at DEBUG line 143 throws before the lock is taken); gRPC answers
    with an error, the lock stays taken, and the next pod report waits for
    ever. *)
Definition leaked_start : config :=
  from (two 0) [thr true (pod_report 9 "d9" "nowhere"); thr true (pod_report 7 "d10" "192.168.6.1")].
Definition leaked : config := play_any (alone 0 100 ++ alone 1 100) leaked_start.
Theorem bad_address_blocks_service :
  rtc cstep leaked_start leaked ∧ c_dead leaked = None ∧ c_locks (c_st leaked) !! dep_pod_lock = Some 0%nat ∧
  t_body <$> threads leaked !! 0%nat = Some (Finished (Fail Throw)) ∧
  ∀ t pick, exec (Run t pick) leaked = None.
Proof.
  split; [apply play_any_rtc|]. split_and!; [by vm_compute..|].
  intros t pick. destruct t as [|[|t]]; vm_compute; reflexivity.
Qed.

End ConcRaces.
